(** * CursorBlur: a shallow embedding of [CursorBlur.cpp]

    The development follows the source file top-down: machine integers and
    single-precision floats, the launch arguments, the sample buffer
    ([UpdateTrail]), the cursor visual ([RefreshCursorVisual]), the tinted
    glyph cache and the blend loop of [DrawTrail], the command-line parser
    ([ParseCommandValue] and the loop of [wWinMain]) and one iteration of
    the main loop.  Calls into the operating system are inputs of the
    model: each function takes the values the calls returned. *)

From Stdlib Require Import String Ascii ZArith List Bool Lia.
From Stdlib Require Import Floats.SpecFloat.
Import ListNotations.
Open Scope Z_scope.

(** ** Machine integers *)

(** [int] and [LONG] are 32-bit two's complement.  Signed overflow is
    undefined in C++; the model takes the wrap-around that the x86
    instructions produce. *)
Module Int32.
Definition min_signed : Z := - 2 ^ 31.
Definition max_signed : Z := 2 ^ 31 - 1.
Definition wrap (z : Z) : Z := (z + 2 ^ 31) mod 2 ^ 32 - 2 ^ 31.
Definition add (a b : Z) : Z := wrap (a + b).
Definition sub (a b : Z) : Z := wrap (a - b).
Definition mul (a b : Z) : Z := wrap (a * b).
Definition in_range (z : Z) : Prop := min_signed <= z <= max_signed.
End Int32.

(** ** Single-precision floats *)

(** [float] is IEEE 754 binary32, every operation rounded to nearest even
    and on its own (no fused multiply-add), as the Standard Library
    specifies it in [SpecFloat] (24 bits of precision, infinities at
    exponent 128). *)
Module F32.
Definition prec : Z := 24.
Definition emax : Z := 128.
Definition f32 : Type := spec_float.

Definition add : f32 -> f32 -> f32 := SFadd prec emax.
Definition sub : f32 -> f32 -> f32 := SFsub prec emax.
Definition mul : f32 -> f32 -> f32 := SFmul prec emax.
Definition div : f32 -> f32 -> f32 := SFdiv prec emax.
Definition sqrt : f32 -> f32 := SFsqrt prec emax.
Definition ltb : f32 -> f32 -> bool := SFltb.
Definition leb : f32 -> f32 -> bool := SFleb.
Definition valid : f32 -> bool := valid_binary prec emax.

(** [static_cast<float>(n)] for an integer [n]. *)
Definition of_Z (z : Z) : f32 := binary_normalize prec emax z 0 false.

(** The float nearest to [p / q]: the value of a decimal literal such as
    [0.03f]. *)
Definition of_ratio (p q : positive) : f32 :=
  let '(mz, ez, lz) := SFdiv_core_binary prec emax (Zpos p) 0 (Zpos q) 0 in
  binary_round_aux prec emax false mz ez lz.

Definition zero : f32 := S754_zero false.
Definition one : f32 := Eval vm_compute in of_Z 1.

Definition is_zero (f : f32) : bool :=
  match f with S754_zero _ => true | _ => false end.

(** [std::max(a, b)] is [(a < b) ? b : a]. *)
Definition max (a b : f32) : f32 := if ltb a b then b else a.

(** [std::clamp(v, lo, hi)] is [(v < lo) ? lo : (hi < v) ? hi : v]. *)
Definition clamp (v lo hi : f32) : f32 :=
  if ltb v lo then lo else if ltb hi v then hi else v.

(** The integer part of a finite float, rounded toward zero. *)
Definition trunc (f : f32) : Z :=
  match f with
  | S754_finite s m e => cond_Zopp s (Z.shiftl (Zpos m) e)
  | _ => 0
  end.

(** [static_cast<int>(f)]: the integer part; where it does not fit [int]
    (the conversion is undefined in C++) the model takes what the x86
    conversion instruction returns, the smallest [int]. *)
Definition to_int (f : f32) : Z :=
  match f with
  | S754_zero _ => 0
  | S754_finite _ _ _ =>
      if (Int32.min_signed <=? trunc f) && (trunc f <=? Int32.max_signed)
      then trunc f else Int32.min_signed
  | _ => Int32.min_signed
  end.

(** [static_cast<BYTE>(f)]: the low byte of the conversion to [int]. *)
Definition to_byte (f : f32) : Z := to_int f mod 256.

(** [std::ceilf]. *)
Definition ceil (f : f32) : f32 :=
  match f with
  | S754_finite s m e =>
      if 0 <=? e then f
      else
        let q := Z.shiftl (Zpos m) e in
        if s then (if q =? 0 then S754_zero true else SFopp (of_Z q))
        else if Z.shiftl q (- e) =? Zpos m then of_Z q else of_Z (q + 1)
  | _ => f
  end.

(** [std::lround]: to the nearest integer, halves away from zero (outside
    [long], where the result is unspecified, the model wraps). *)
Definition lround (f : f32) : Z :=
  match f with
  | S754_finite s m e =>
      Int32.wrap (cond_Zopp s (if 0 <=? e then Z.shiftl (Zpos m) e
                               else Z.shiftr (Zpos m + 2 ^ (- e - 1)) (- e)))
  | _ => 0
  end.
End F32.

(** ** Constants and launch arguments *)

Definition kMaxTrailSize : Z := 500.

Record Config : Type := mkConfig {
  gSensitivity : F32.f32;
  gTrailFadeMs : F32.f32;
  gTrailMaxAlpha : Z;
  TintR : Z;
  TintG : Z;
  TintB : Z
}.

Definition f_0_03 : F32.f32 := Eval vm_compute in F32.of_ratio 3 100.
Definition f_0_1 : F32.f32 := Eval vm_compute in F32.of_ratio 1 10.
Definition f_0_001 : F32.f32 := Eval vm_compute in F32.of_ratio 1 1000.
Definition f_50 : F32.f32 := Eval vm_compute in F32.of_Z 50.
Definition f_255 : F32.f32 := Eval vm_compute in F32.of_Z 255.
Definition f_1000 : F32.f32 := Eval vm_compute in F32.of_Z 1000.

(** The initial values of the globals. *)
Definition default_config : Config :=
  {| gSensitivity := f_0_03; gTrailFadeMs := f_50; gTrailMaxAlpha := 10;
     TintR := 255; TintG := 255; TintB := 255 |}.

(** ** Sample buffer *)

Record POINT : Type := mkPOINT { px : Z; py : Z }.

(** A [steady_clock::time_point] is a count of nanosecond ticks (the
    period of the clock is [std::nano]). *)
Definition time_point : Type := Z.

Record Sample : Type := mkSample { pt : POINT; t : time_point }.

(** The [std::deque<Sample>]: front at the head of the list. *)
Definition Trail : Type := list Sample.

Definition push_back (trail : Trail) (s : Sample) : Trail := trail ++ [s].
Definition pop_front (trail : Trail) : Trail := tl trail.

Fixpoint back (trail : Trail) : option Sample :=
  match trail with
  | [] => None
  | [s] => Some s
  | _ :: rest => back rest
  end.

(** [duration_cast<milliseconds>(now - t).count()]: whole milliseconds,
    rounded toward zero. *)
Definition age_ms (now t0 : time_point) : Z := Z.quot (now - t0) 1000000.

(** The eviction test [age_ms > (gTrailFadeMs + 50.f)]; the count is
    converted to [float] for the comparison. *)
Definition expired (cfg : Config) (now : time_point) (s : Sample) : bool :=
  F32.ltb (F32.add (gTrailFadeMs cfg) f_50) (F32.of_Z (age_ms now (t s))).

(** Lines 188-197: the decision to add a sample. *)
Definition sq_dist_int (a b : POINT) : Z :=
  let dx := Int32.sub (px a) (px b) in
  let dy := Int32.sub (py a) (py b) in
  Int32.add (Int32.mul dx dx) (Int32.mul dy dy).

Definition should_add (trail : Trail) (ptNow : POINT) : bool :=
  match back trail with
  | None => true
  | Some s => 1 <=? sq_dist_int ptNow (pt s)
  end.

(** Lines 199-204: append, and drop the front above the capacity. *)
Definition append_sample (trail : Trail) (ptNow : POINT) (now : time_point) : Trail :=
  let trail1 := push_back trail (mkSample ptNow now) in
  if kMaxTrailSize <? Z.of_nat (length trail1) then pop_front trail1 else trail1.

(** Lines 206-208 (and 575-577): the loop that drops expired samples from
    the front. *)
Fixpoint evict_expired (cfg : Config) (now : time_point) (trail : Trail) : Trail :=
  match trail with
  | [] => []
  | s :: rest => if expired cfg now s then evict_expired cfg now rest else trail
  end.

Definition UpdateTrail (cfg : Config) (trail : Trail) (ptNow : POINT)
    (now : time_point) : Trail :=
  let trail1 := if should_add trail ptNow then append_sample trail ptNow now
                else trail in
  evict_expired cfg now trail1.

(** ** Cursor visual *)

(** Handles ([HCURSOR], [HBITMAP], [HDC], [HGDIOBJ]) are integers; 0 is
    [nullptr]. *)
Definition HANDLE : Type := Z.

Record CursorVisual : Type := mkCursorVisual {
  hCur : HANDLE;
  width : Z;
  height : Z;
  hotX : Z;
  hotY : Z
}.

(** [CursorVisual cv{}]. *)
Definition cv_init : CursorVisual :=
  {| hCur := 0; width := 0; height := 0; hotX := 0; hotY := 0 |}.

Record CURSORINFO : Type := mkCURSORINFO { ci_flags : Z; ci_hCursor : HANDLE }.
Record ICONINFO : Type := mkICONINFO {
  xHotspot : Z;
  yHotspot : Z;
  hbmMask : HANDLE;
  hbmColor : HANDLE
}.
Record BITMAP : Type := mkBITMAP { bmWidth : Z; bmHeight : Z }.

Definition CURSOR_SHOWING : Z := 1.

(** What the system answers to [RefreshCursorVisual]: [GetIconInfo] fails
    ([None]) or fills an [ICONINFO]; [GetObject] gives the dimensions of a
    bitmap handle ([bm{}] stays zero when it fails). *)
Record IconOS : Type := mkIconOS {
  GetIconInfo : HANDLE -> option ICONINFO;
  GetObject : HANDLE -> BITMAP
}.

Definition RefreshCursorVisual (os : IconOS) (cv : CursorVisual) (ci : CURSORINFO)
    : CursorVisual :=
  if ci_hCursor ci =? hCur cv then cv
  else
    let h := ci_hCursor ci in
    match GetIconInfo os h with
    | Some ii =>
        let bm :=
          if negb (hbmColor ii =? 0) then GetObject os (hbmColor ii)
          else if negb (hbmMask ii =? 0) then
            let b := GetObject os (hbmMask ii) in
            {| bmWidth := bmWidth b; bmHeight := Z.quot (bmHeight b) 2 |}
          else {| bmWidth := 0; bmHeight := 0 |} in
        {| hCur := h;
           width := if negb (bmWidth bm =? 0) then bmWidth bm else 32;
           height := if negb (bmHeight bm =? 0) then bmHeight bm else 32;
           hotX := Int32.wrap (xHotspot ii);
           hotY := Int32.wrap (yHotspot ii) |}
    | None =>
        {| hCur := h; width := width cv; height := height cv;
           hotX := hotX cv; hotY := hotY cv |}
    end.

(** ** Tinted glyph cache *)

(** A pixel is a [DWORD]; [p[0]], [p[1]], [p[2]], [p[3]] are its bytes in
    memory, from the least significant one (blue, green, red, alpha). *)
Definition byte_of (px : Z) (i : Z) : Z := (px / 256 ^ i) mod 256.

Definition pixel_of_bytes (b0 b1 b2 b3 : Z) : Z :=
  b0 + 256 * b1 + 256 ^ 2 * b2 + 256 ^ 3 * b3.

(** Lines 277-280: [p[k] = static_cast<BYTE>((p[k] * Tint) / 255)]. *)
Definition tint_channel (c tint : Z) : Z := Z.quot (c * tint) 255 mod 256.

Definition tint_pixel (cfg : Config) (px : Z) : Z :=
  let p2 := tint_channel (byte_of px 2) (TintR cfg) in
  let p1 := tint_channel (byte_of px 1) (TintG cfg) in
  let p0 := tint_channel (byte_of px 0) (TintB cfg) in
  pixel_of_bytes p0 p1 p2 (byte_of px 3).

(** Lines 273-281: the loop over the first [count] pixels. *)
Definition tint_pixels (cfg : Config) (count : Z) (bits : list Z) : list Z :=
  map (tint_pixel cfg) (firstn (Z.to_nat count) bits)
  ++ skipn (Z.to_nat count) bits.

(** The statics [sLastCursor], [sLastW], [sLastH], [sTintDC], [sTintBMP],
    [sTintOld], [sTintBits]; the pixels stand for the memory [sTintBits]
    points to, [None] for [nullptr]. *)
Record TintCache : Type := mkTintCache {
  sLastCursor : HANDLE;
  sLastW : Z;
  sLastH : Z;
  sTintDC : HANDLE;
  sTintBMP : HANDLE;
  sTintOld : HANDLE;
  sTintBits : option (list Z)
}.

Definition cache_init : TintCache :=
  {| sLastCursor := 0; sLastW := 0; sLastH := 0; sTintDC := 0; sTintBMP := 0;
     sTintOld := 0; sTintBits := None |}.

(** What the system answers during one [DrawTrail]: whether
    [tmp.EnsureSize] succeeds, the clock, the results of
    [CreateCompatibleDC], [CreateDIBSection] (the handle, and whether the
    bits pointer is set) and [SelectObject], and the pixels that
    [DrawIconEx] leaves in the new bitmap. *)
Record DrawOS : Type := mkDrawOS {
  tmp_ok : bool;
  now_draw : time_point;
  new_dc : HANDLE;
  new_dib : HANDLE;
  new_bits : bool;
  old_obj : HANDLE;
  glyph_bits : list Z
}.

(** Line 242: the condition under which the tinted bitmap is recreated. *)
Definition cache_stale (c : TintCache) (cv : CursorVisual) : bool :=
  (sTintBMP c =? 0) || (sTintDC c =? 0)
  || negb (hCur cv =? sLastCursor c)
  || negb (width cv =? sLastW c)
  || negb (height cv =? sLastH c).

(** The tinted-glyph key differs from the live glyph. *)
Definition key_differs (c : TintCache) (cv : CursorVisual) : bool :=
  negb (hCur cv =? sLastCursor c)
  || negb (width cv =? sLastW c)
  || negb (height cv =? sLastH c).

Inductive CacheOutcome : Type :=
  | NoSurface       (* [tmp.EnsureSize] failed: return at line 236 *)
  | Reused          (* the condition of line 242 is false *)
  | RebuildFailed   (* the branch was entered, allocation failed: line 265 *)
  | Rebuilt.        (* the branch was entered and the tint loop ran *)

(** Lines 244-281. *)
Definition rebuild_cache (cfg : Config) (c : TintCache) (cv : CursorVisual)
    (os : DrawOS) : TintCache * CacheOutcome :=
  let dc := if sTintDC c =? 0 then new_dc os else sTintDC c in
  let old := if negb (sTintBMP c =? 0) then 0 else sTintOld c in
  if (new_dib os =? 0) || negb (new_bits os) then
    ({| sLastCursor := hCur cv; sLastW := width cv; sLastH := height cv;
        sTintDC := dc; sTintBMP := new_dib os; sTintOld := old;
        sTintBits := None |}, RebuildFailed)
  else
    let count := Int32.mul (width cv) (height cv) mod 2 ^ 32 in
    ({| sLastCursor := hCur cv; sLastW := width cv; sLastH := height cv;
        sTintDC := dc; sTintBMP := new_dib os; sTintOld := old_obj os;
        sTintBits := Some (tint_pixels cfg count (glyph_bits os)) |}, Rebuilt).

(** ** Blend loop of [DrawTrail] *)

Record RECT : Type := mkRECT { left : Z; top : Z; right : Z; bottom : Z }.

(** One [AlphaBlend] call: the destination corner and the constant alpha
    of its [BLENDFUNCTION]. *)
Record Blend : Type := mkBlend { dstX : Z; dstY : Z; srcAlpha : Z }.

(** The values [n, n-1, ..., 0] of a loop [for (k = n; k >= 0; --k)]. *)
Definition countdown (n : Z) : list Z :=
  map (fun k => n - Z.of_nat k) (seq 0 (Z.to_nat (n + 1))).

(** Line 322. *)
Definition step_fade (cfg : Config) (age0 tt : F32.f32) : F32.f32 :=
  F32.max F32.zero
    (F32.sub F32.one
       (F32.div (F32.add age0 (F32.mul (F32.mul age0 tt) f_0_1))
                (gTrailFadeMs cfg))).

(** Line 323. *)
Definition speed_factor (cfg : Config) (dist : F32.f32) : F32.f32 :=
  F32.clamp (F32.mul dist (gSensitivity cfg)) F32.zero F32.one.

(** Line 324, before and after the conversion to [BYTE]. *)
Definition alpha_value (cfg : Config) (fade speedFactor : F32.f32) : F32.f32 :=
  F32.clamp (F32.mul (F32.mul (F32.of_Z (gTrailMaxAlpha cfg)) fade) speedFactor)
            F32.zero f_255.

Definition step_alpha (cfg : Config) (fade speedFactor : F32.f32) : Z :=
  F32.to_byte (alpha_value cfg fade speedFactor).

(** The quantities of one sample pair that the inner loop reads. *)
Record Segment : Type := mkSegment {
  seg_s0 : Sample;
  seg_dx : F32.f32;
  seg_dy : F32.f32;
  seg_age0 : F32.f32;
  seg_dist : F32.f32;
  seg_steps : Z;
  seg_stepFrac : F32.f32
}.

(** Lines 315-319. *)
Definition step_t (sg : Segment) (j : Z) : F32.f32 :=
  F32.mul (F32.of_Z j) (seg_stepFrac sg).

Definition step_point (sg : Segment) (j : Z) : POINT :=
  let tt := step_t sg j in
  {| px := F32.lround (F32.add (F32.of_Z (px (pt (seg_s0 sg))))
                               (F32.mul (seg_dx sg) tt));
     py := F32.lround (F32.add (F32.of_Z (py (pt (seg_s0 sg))))
                               (F32.mul (seg_dy sg) tt)) |}.

(** Lines 315-333: the body of the inner loop; [None] is the [continue]
    of line 326. *)
Definition step_blend (cfg : Config) (vs : RECT) (cv : CursorVisual)
    (sg : Segment) (j : Z) : option Blend :=
  let p := step_point sg j in
  let fade := step_fade cfg (seg_age0 sg) (step_t sg j) in
  let speedFactor := speed_factor cfg (seg_dist sg) in
  let a := step_alpha cfg fade speedFactor in
  if a <? 3 then None
  else Some {| dstX := Int32.sub (Int32.sub (px p) (left vs)) (hotX cv);
               dstY := Int32.sub (Int32.sub (py p) (top vs)) (hotY cv);
               srcAlpha := a |}.

Definition blend_list (o : option Blend) : list Blend :=
  match o with Some b => [b] | None => [] end.

(** Lines 294-310: [None] is one of the two [continue]s of the outer
    loop. *)
Definition make_segment (cfg : Config) (now : time_point) (s0 s1 : Sample)
    : option Segment :=
  let age0 := F32.of_Z (age_ms now (t s0)) in
  if F32.ltb (gTrailFadeMs cfg) age0 then None
  else
    let dx := F32.of_Z (Int32.sub (px (pt s1)) (px (pt s0))) in
    let dy := F32.of_Z (Int32.sub (py (pt s1)) (py (pt s0))) in
    let distSq := F32.add (F32.mul dx dx) (F32.mul dy dy) in
    if F32.ltb distSq F32.one then None
    else
      let dist := F32.sqrt distSq in
      let steps := F32.to_int (F32.ceil dist) in
      Some {| seg_s0 := s0; seg_dx := dx; seg_dy := dy; seg_age0 := age0;
              seg_dist := dist; seg_steps := steps;
              seg_stepFrac := F32.div F32.one (F32.of_Z steps) |}.

(** Lines 313-334: the blends of one sample pair, in the order issued. *)
Definition segment_blends (cfg : Config) (vs : RECT) (cv : CursorVisual)
    (now : time_point) (s0 s1 : Sample) : list Blend :=
  match make_segment cfg now s0 s1 with
  | None => []
  | Some sg =>
      flat_map (fun j => blend_list (step_blend cfg vs cv sg j))
               (countdown (seg_steps sg))
  end.

(** The body of the outer loop at index [i]. *)
Definition pair_blends (cfg : Config) (vs : RECT) (cv : CursorVisual)
    (now : time_point) (trail : Trail) (i : Z) : list Blend :=
  match nth_error trail (Z.to_nat i), nth_error trail (Z.to_nat (i + 1)) with
  | Some s0, Some s1 => segment_blends cfg vs cv now s0 s1
  | _, _ => []
  end.

(** Lines 292-335: every [AlphaBlend] of a frame, in the order issued. *)
Definition trail_blends (cfg : Config) (vs : RECT) (cv : CursorVisual)
    (now : time_point) (trail : Trail) : list Blend :=
  flat_map (pair_blends cfg vs cv now trail)
           (countdown (Z.of_nat (length trail) - 2)).

(** ** [DrawTrail] *)

(** What a call did: the fate of the cache, the blends issued and whether
    [UpdateLayeredWindow] was reached. *)
Record Frame : Type := mkFrame {
  outcome : CacheOutcome;
  blends : list Blend;
  presented : bool
}.

Definition DrawTrail (cfg : Config) (c : TintCache) (cv : CursorVisual)
    (trail : Trail) (vs : RECT) (os : DrawOS) : TintCache * Frame :=
  if negb (tmp_ok os) then
    (c, {| outcome := NoSurface; blends := []; presented := false |})
  else
    let '(c1, oc) := if cache_stale c cv then rebuild_cache cfg c cv os
                     else (c, Reused) in
    match oc with
    | RebuildFailed => (c1, {| outcome := oc; blends := []; presented := false |})
    | _ =>
        if sTintBMP c1 =? 0 then
          (c1, {| outcome := oc; blends := []; presented := false |})
        else
          (c1, {| outcome := oc;
                  blends := trail_blends cfg vs cv (now_draw os) trail;
                  presented := true |})
    end.

(** ** C runtime functions used by the argument parser *)

(** The wide strings of the command line are modelled by [string]. *)
Module Crt.
Definition code (c : ascii) : Z := Z.of_N (N_of_ascii c).

(** [iswspace]. *)
Definition is_wspace (c : ascii) : bool :=
  (code c =? 32) || ((9 <=? code c) && (code c <=? 13)).

Definition to_lower (c : ascii) : ascii :=
  if (65 <=? code c) && (code c <=? 90)
  then ascii_of_N (N_of_ascii c + 32) else c.

Fixpoint lower (s : string) : string :=
  match s with
  | EmptyString => EmptyString
  | String c r => String (to_lower c) (lower r)
  end.

(** [_wcsicmp(a, b) == 0]. *)
Definition wcsicmp_eq (a b : string) : bool := String.eqb (lower a) (lower b).

(** [wcstok_s(_, L" ", &context)] from a context: the next token and the
    context after it, or [None] when only delimiters are left. *)
Fixpoint skip_delims (s : string) : string :=
  match s with
  | String c r => if code c =? 32 then skip_delims r else s
  | EmptyString => EmptyString
  end.

Fixpoint take_token (s : string) : string * string :=
  match s with
  | EmptyString => (EmptyString, EmptyString)
  | String c r =>
      if code c =? 32 then (EmptyString, r)
      else let '(tok, rest) := take_token r in (String c tok, rest)
  end.

Definition wcstok (context : string) : option (string * string) :=
  match skip_delims context with
  | EmptyString => None
  | s => Some (take_token s)
  end.

Fixpoint skip_wspace (s : string) : string :=
  match s with
  | String c r => if is_wspace c then skip_wspace r else s
  | EmptyString => EmptyString
  end.

(** An optional sign: whether it is a minus, and the rest. *)
Definition read_sign (s : string) : bool * string :=
  match s with
  | String c r =>
      if code c =? 45 then (true, r)
      else if code c =? 43 then (false, r)
      else (false, s)
  | EmptyString => (false, s)
  end.

Definition digit_of (c : ascii) : option Z :=
  if (48 <=? code c) && (code c <=? 57) then Some (code c - 48) else None.

Definition hex_digit_of (c : ascii) : option Z :=
  if (48 <=? code c) && (code c <=? 57) then Some (code c - 48)
  else if (97 <=? code c) && (code c <=? 102) then Some (code c - 87)
  else if (65 <=? code c) && (code c <=? 70) then Some (code c - 55)
  else None.

(** The longest prefix of digits in a base: its value, its length and
    what follows. *)
Fixpoint read_digits (digit : ascii -> option Z) (base : Z) (s : string)
    (acc : Z) (n : Z) : Z * Z * string :=
  match s with
  | String c r =>
      match digit c with
      | Some d => read_digits digit base r (base * acc + d) (n + 1)
      | None => (acc, n, s)
      end
  | EmptyString => (acc, n, s)
  end.

(** [_wtoi]: 0 when no number can be read; out-of-range values stop at
    the ends of [int]. *)
Definition wtoi (s : string) : Z :=
  let '(neg, s1) := read_sign (skip_wspace s) in
  let '(v, _, _) := read_digits digit_of 10 s1 0 0 in
  Z.max Int32.min_signed (Z.min Int32.max_signed (if neg then - v else v)).

(** The [double] nearest to [m * 10 ^ e]. *)
Definition double_of_decimal (neg : bool) (m : Z) (e : Z) : spec_float :=
  match m with
  | Zpos p =>
      if 0 <=? e then binary_normalize 53 1024 (cond_Zopp neg (m * 10 ^ e)) 0 false
      else
        let '(mz, ez, lz) :=
          SFdiv_core_binary 53 1024 m 0 (10 ^ (- e)) 0 in
        binary_round_aux 53 1024 neg mz ez lz
  | _ => S754_zero neg
  end.

(** The [double] nearest to [m * 2 ^ e]. *)
Definition double_of_binary (neg : bool) (m : Z) (e : Z) : spec_float :=
  match m with
  | Zpos p => binary_normalize 53 1024 (cond_Zopp neg m) e false
  | _ => S754_zero neg
  end.

(** Whether [s] starts with the letters of [word] (given in lower case),
    in either case; what follows them. *)
Fixpoint skip_word (word s : string) : option string :=
  match word with
  | EmptyString => Some s
  | String w word' =>
      match s with
      | String c r =>
          if code (to_lower c) =? code w then skip_word word' r else None
      | EmptyString => None
      end
  end.

(** The prefix [0x] or [0X]; what follows it. *)
Definition hex_prefix (s : string) : option string :=
  match s with
  | String c0 (String c1 r) =>
      if (code c0 =? 48) && ((code c1 =? 120) || (code c1 =? 88))
      then Some r else None
  | _ => None
  end.

(** Digits in a base, then optionally a point and more digits: the value
    of all the digits read as one number, how many stand before and
    after the point, and what follows. *)
Definition read_mantissa (digit : ascii -> option Z) (base : Z) (s : string)
    : Z * Z * Z * string :=
  let '(ip, ni, s2) := read_digits digit base s 0 0 in
  match s2 with
  | String c r =>
      if code c =? 46 then
        let '(m, nf, s3) := read_digits digit base r ip 0 in (m, ni, nf, s3)
      else (ip, ni, 0, s2)
  | EmptyString => (ip, ni, 0, s2)
  end.

(** An exponent introduced by the letter with the code [lo] or [up]: an
    optional sign and decimal digits; 0 when there is none, or when no
    digit follows the letter. *)
Definition read_exponent (lo up : Z) (s : string) : Z :=
  match s with
  | String c r =>
      if (code c =? lo) || (code c =? up) then
        let '(eneg, r1) := read_sign r in
        let '(ev, ne, _) := read_digits digit_of 10 r1 0 0 in
        if ne =? 0 then 0 else if eneg then - ev else ev
      else 0
  | EmptyString => 0
  end.

(** [_wtof]: after white space and an optional sign, [inf] or
    [infinity], [nan], a hexadecimal constant ([0x], hexadecimal digits
    with an optional point, an optional binary exponent after [p]) or a
    decimal one (digits with an optional point, an optional exponent
    after [e]), letters in either case; 0.0 when no number can be read,
    and a zero for [0x] without a digit. *)
Definition wtof (s : string) : spec_float :=
  let '(neg, s1) := read_sign (skip_wspace s) in
  match skip_word "inf" s1, skip_word "nan" s1, hex_prefix s1 with
  | Some _, _, _ => S754_infinity neg
  | None, Some _, _ => S754_nan
  | None, None, Some h =>
      let '(m, ni, nf, s3) := read_mantissa hex_digit_of 16 h in
      if ni + nf =? 0 then S754_zero neg
      else double_of_binary neg m (read_exponent 112 80 s3 - 4 * nf)
  | None, None, None =>
      let '(m, ni, nf, s3) := read_mantissa digit_of 10 s1 in
      if ni + nf =? 0 then S754_zero false
      else double_of_decimal neg m (read_exponent 101 69 s3 - nf)
  end.

(** [swscanf_s(val, L"%x", &rgb)]: the value read, when the call
    returns 1. *)
Definition scan_hex (s : string) : option Z :=
  let '(neg, s1) := read_sign (skip_wspace s) in
  let s2 :=
    match s1 with
    | String c0 (String c1 (String c2 r)) =>
        if (code c0 =? 48) && ((code c1 =? 120) || (code c1 =? 88))
           && (match hex_digit_of c2 with Some _ => true | None => false end)
        then String c2 r else s1
    | _ => s1
    end in
  let '(v, n, _) := read_digits hex_digit_of 16 s2 0 0 in
  if n =? 0 then None else Some ((if neg then - v else v) mod 2 ^ 32).
End Crt.

(** [static_cast<float>(d)] for a [double] [d]. *)
Definition float_of_double (d : spec_float) : F32.f32 :=
  match d with
  | S754_finite s m e => binary_round F32.prec F32.emax s m e
  | _ => d
  end.

(** ** Launch arguments parser *)

(** Line 387. *)
Definition trim_switch (token : string) : string :=
  match token with
  | String c r => if (Crt.code c =? 47) || (Crt.code c =? 45) then r else token
  | EmptyString => token
  end.

(** The loop over [names]: whether one of them is the trimmed token. *)
Fixpoint name_matches (trimmed : string) (names : list string) : bool :=
  match names with
  | [] => false
  | name :: rest =>
      if Crt.wcsicmp_eq trimmed name then true else name_matches trimmed rest
  end.

(** [ParseCommandValue]: [store] is what the matching branch does with the
    value token (the [customParser], or the assignment to [outVal]). *)
Definition ParseCommandValue {S : Type} (token : string) (names : list string)
    (context : string) (store : string -> S -> S) (st : S) : string * S :=
  if name_matches (trim_switch token) names then
    match Crt.wcstok context with
    | Some (val, context1) => (context1, store val st)
    | None => (context, st)
    end
  else (context, st).

(** Line 400, for [T = float]. *)
Definition parse_float (val : string) (minVal maxVal : F32.f32) : F32.f32 :=
  F32.clamp (float_of_double (Crt.wtof val)) minVal maxVal.

(** [std::clamp] on [int]. *)
Definition clamp_int (v lo hi : Z) : Z :=
  if v <? lo then lo else if hi <? v then hi else v.

(** Line 402, for [T = BYTE]. *)
Definition parse_byte (val : string) (minVal maxVal : Z) : Z :=
  clamp_int (Crt.wtoi val) minVal maxVal mod 256.

(** Lines 439-448: the [customParser] of the color argument. *)
Definition parse_color (val : string) (cfg : Config) : Config :=
  let val1 :=
    match val with
    | String c r => if Crt.code c =? 35 then r else val
    | EmptyString => val
    end in
  match Crt.scan_hex val1 with
  | Some rgb =>
      {| gSensitivity := gSensitivity cfg; gTrailFadeMs := gTrailFadeMs cfg;
         gTrailMaxAlpha := gTrailMaxAlpha cfg;
         TintR := Z.land (Z.shiftr rgb 16) 255;
         TintG := Z.land (Z.shiftr rgb 8) 255;
         TintB := Z.land rgb 255 |}
  | None => cfg
  end.

Definition set_sensitivity (val : string) (cfg : Config) : Config :=
  {| gSensitivity := parse_float val f_0_001 F32.one;
     gTrailFadeMs := gTrailFadeMs cfg; gTrailMaxAlpha := gTrailMaxAlpha cfg;
     TintR := TintR cfg; TintG := TintG cfg; TintB := TintB cfg |}.

Definition set_fade (val : string) (cfg : Config) : Config :=
  {| gSensitivity := gSensitivity cfg;
     gTrailFadeMs := parse_float val F32.one f_1000;
     gTrailMaxAlpha := gTrailMaxAlpha cfg;
     TintR := TintR cfg; TintG := TintG cfg; TintB := TintB cfg |}.

Definition set_alpha (val : string) (cfg : Config) : Config :=
  {| gSensitivity := gSensitivity cfg; gTrailFadeMs := gTrailFadeMs cfg;
     gTrailMaxAlpha := parse_byte val 1 255;
     TintR := TintR cfg; TintG := TintG cfg; TintB := TintB cfg |}.

(** Lines 433-448: the four calls made for one token. *)
Definition parse_token (token : string) (context : string) (cfg : Config)
    : string * Config :=
  let '(c1, cfg1) :=
    ParseCommandValue token ["sensitivity"; "s"]%string context set_sensitivity cfg in
  let '(c2, cfg2) :=
    ParseCommandValue token ["fade"; "f"]%string c1 set_fade cfg1 in
  let '(c3, cfg3) :=
    ParseCommandValue token ["alpha"; "a"]%string c2 set_alpha cfg2 in
  ParseCommandValue token ["color"; "c"]%string c3 parse_color cfg3.

(** Lines 431-451: the [while (token)] loop; each round consumes at least
    one character of the context, so the length of the command line
    bounds the number of rounds. *)
Fixpoint parse_loop (fuel : nat) (token : string) (context : string)
    (cfg : Config) : Config :=
  match fuel with
  | O => cfg
  | S fuel' =>
      let '(c1, cfg1) := parse_token token context cfg in
      match Crt.wcstok c1 with
      | Some (token1, c2) => parse_loop fuel' token1 c2 cfg1
      | None => cfg1
      end
  end.

(** Lines 426-452. *)
Definition parse_command_line (lpCmdLine : string) (cfg : Config) : Config :=
  match Crt.wcstok lpCmdLine with
  | Some (token, context) =>
      parse_loop (S (String.length lpCmdLine)) token context cfg
  | None => cfg
  end.

(** ** One iteration of the main loop *)

(** What the system answers during one iteration, from line 544 on. *)
Record TickOS : Type := mkTickOS {
  cur : POINT;                      (* [GetCursorPos], line 549 *)
  lastTick : time_point;            (* [steady_clock::now()], line 545 *)
  curVS : RECT;                     (* [GetVirtualScreenRect], line 553 *)
  bb_ok : bool;                     (* [bb.EnsureSize], line 562 *)
  cursor_info : option CURSORINFO;  (* [GetCursorInfo]; [None] when it fails *)
  now_hidden : time_point;          (* [steady_clock::now()], line 574 *)
  icon_os : IconOS;
  draw_os : DrawOS
}.

Record LoopState : Type := mkLoopState {
  trail_of : Trail;
  cv_of : CursorVisual;
  cache_of : TintCache;
  vs_of : RECT
}.

Definition rect_eqb (a b : RECT) : bool :=
  (left a =? left b) && (top a =? top b)
  && (right a =? right b) && (bottom a =? bottom b).

(** Line 572: [!GetCursorInfo(&ci) || ci.flags != CURSOR_SHOWING ||
    !ci.hCursor]. *)
Definition pointer_hidden (ci : option CURSORINFO) : bool :=
  match ci with
  | None => true
  | Some c => negb (ci_flags c =? CURSOR_SHOWING) || (ci_hCursor c =? 0)
  end.

Inductive TickResult : Type :=
  | Exit                                            (* [return 0], line 567 *)
  | Continue (st : LoopState) (frame : option Frame).

(** Lines 574-580: the branch taken when the pointer is hidden. *)
Definition hidden_branch (cfg : Config) (st : LoopState) (trail1 : Trail)
    (vs : RECT) (os : TickOS) : TickResult :=
  let trail2 := evict_expired cfg (now_hidden os) trail1 in
  match trail2 with
  | [] => Continue (mkLoopState trail2 (cv_of st) (cache_of st) vs) None
  | _ :: _ =>
      let '(c1, fr) :=
        DrawTrail cfg (cache_of st) (cv_of st) trail2 vs (draw_os os) in
      Continue (mkLoopState trail2 (cv_of st) c1 vs) (Some fr)
  end.

(** Lines 584-585: the branch taken when the pointer is showing. *)
Definition shown_branch (cfg : Config) (st : LoopState) (trail1 : Trail)
    (vs : RECT) (os : TickOS) (ci : CURSORINFO) : TickResult :=
  let cv1 := RefreshCursorVisual (icon_os os) (cv_of st) ci in
  let '(c1, fr) := DrawTrail cfg (cache_of st) cv1 trail1 vs (draw_os os) in
  Continue (mkLoopState trail1 cv1 c1 vs) (Some fr).

(** Lines 547-586. *)
Definition tick (cfg : Config) (st : LoopState) (os : TickOS) : TickResult :=
  let trail1 := UpdateTrail cfg (trail_of st) (cur os) (lastTick os) in
  let changed := negb (rect_eqb (curVS os) (vs_of st)) in
  if changed && negb (bb_ok os) then Exit
  else
    let vs := if changed then curVS os else vs_of st in
    match cursor_info os with
    | Some ci =>
        if pointer_hidden (Some ci) then hidden_branch cfg st trail1 vs os
        else shown_branch cfg st trail1 vs os ci
    | None => hidden_branch cfg st trail1 vs os
    end.

(** The trail after an iteration that continues. *)
Definition trail_after (r : TickResult) : option Trail :=
  match r with
  | Exit => None
  | Continue st _ => Some (trail_of st)
  end.

(** ** Consecutive frames *)

(** The cache outcomes of consecutive [DrawTrail] calls, each with its
    glyph, trail, screen and system answers. *)
Fixpoint draw_frames (cfg : Config) (c : TintCache)
    (frames : list (CursorVisual * Trail * RECT * DrawOS)) : list CacheOutcome :=
  match frames with
  | [] => []
  | (cv, trail, vs, os) :: rest =>
      let '(c1, fr) := DrawTrail cfg c cv trail vs os in
      outcome fr :: draw_frames cfg c1 rest
  end.

Definition is_rebuild (o : CacheOutcome) : bool :=
  match o with Rebuilt => true | _ => false end.

Definition rebuild_count (l : list CacheOutcome) : nat :=
  length (filter is_rebuild l).

(** Every allocation of a frame succeeds. *)
Definition allocations_ok (os : DrawOS) : bool :=
  tmp_ok os && negb (new_dc os =? 0) && negb (new_dib os =? 0) && new_bits os.

(** The cache after consecutive [DrawTrail] calls. *)
Fixpoint cache_after (cfg : Config) (c : TintCache)
    (frames : list (CursorVisual * Trail * RECT * DrawOS)) : TintCache :=
  match frames with
  | [] => c
  | (cv, trail, vs, os) :: rest =>
      cache_after cfg (fst (DrawTrail cfg c cv trail vs os)) rest
  end.

(** [static_cast<UINT>(cv.width * cv.height)], the number of pixels the
    tint loop visits. *)
Definition tint_count (cv : CursorVisual) : Z :=
  Int32.mul (width cv) (height cv) mod 2 ^ 32.

(** ** Virtual screen and bitmap headers *)

(** What [GetSystemMetrics] answers for the four metrics of the virtual
    screen. *)
Record Metrics : Type := mkMetrics {
  SM_XVIRTUALSCREEN : Z;
  SM_YVIRTUALSCREEN : Z;
  SM_CXVIRTUALSCREEN : Z;
  SM_CYVIRTUALSCREEN : Z
}.

(** Lines 46-54. *)
Definition GetVirtualScreenRect (m : Metrics) : RECT :=
  {| left := SM_XVIRTUALSCREEN m;
     top := SM_YVIRTUALSCREEN m;
     right := Int32.add (SM_XVIRTUALSCREEN m) (SM_CXVIRTUALSCREEN m);
     bottom := Int32.add (SM_YVIRTUALSCREEN m) (SM_CYVIRTUALSCREEN m) |}.

(** [vs.right - vs.left] and [vs.bottom - vs.top], the extents that
    [wWinMain] passes on (lines 473, 498, 559 and 562). *)
Definition rect_width (r : RECT) : Z := Int32.sub (right r) (left r).
Definition rect_height (r : RECT) : Z := Int32.sub (bottom r) (top r).

(** The fields of [bmiHeader] that [MakeBitmapInfo] sets; the others stay
    zero. *)
Record BITMAPINFOHEADER : Type := mkBITMAPINFOHEADER {
  biSize : Z;
  biWidth : Z;
  biHeight : Z;
  biPlanes : Z;
  biBitCount : Z;
  biCompression : Z
}.

Definition BI_RGB : Z := 0.

(** Lines 56-66; [sizeof(bi.bmiHeader)] is 40. *)
Definition MakeBitmapInfo (w h : Z) : BITMAPINFOHEADER :=
  {| biSize := 40; biWidth := w; biHeight := Int32.wrap (- h);
     biPlanes := 1; biBitCount := 32; biCompression := BI_RGB |}.

(** ** Calls into the system *)

(** The calls whose order and arguments the properties speak of.  A call
    that creates an object carries the handle the system answered ([0]
    when it failed); [PatBlt] is always [BLACKNESS] and [BitBlt] always
    [SRCCOPY]. *)
Inductive Call : Type :=
  | CreateMutexW (result : HANDLE)
  | CloseHandle (hObject : HANDLE)
  | CreateWindowExW (X Y nWidth nHeight : Z) (result : HANDLE)
  | SetWindowPos (hWnd : HANDLE) (X Y cx cy : Z)
  | GetDC (result : HANDLE)
  | ReleaseDC (hDC : HANDLE)
  | CreateDIBSection (hdc : HANDLE) (bi : BITMAPINFOHEADER) (result : HANDLE)
  | CreateCompatibleDC (hdc : HANDLE) (result : HANDLE)
  | SelectObject (hdc h : HANDLE)
  | DeleteObject (ho : HANDLE)
  | DeleteDC (hdc : HANDLE)
  | IconInfo (hIcon : HANDLE) (result : option ICONINFO)
  | PatBlt (hdc : HANDLE) (x y w h : Z)
  | DrawIconEx (hdc : HANDLE) (xLeft yTop : Z) (hIcon : HANDLE) (cxWidth cyWidth : Z)
  | BitBlt (hdc : HANDLE) (x y cx cy : Z) (hdcSrc : HANDLE) (x1 y1 : Z)
  | AlphaBlend (hdcDest : HANDLE) (xDest yDest wDest hDest : Z)
               (hdcSrc : HANDLE) (xSrc ySrc wSrc hSrc : Z) (alpha : Z)
  | UpdateLayeredWindow (hWnd hdcDst : HANDLE) (ptWin : POINT) (sz : Z * Z)
                        (hdcSrc : HANDLE) (ptSrc : POINT) (alpha : Z)
  | PostQuitMessage (nExitCode : Z)
  | DefWindowProc (Msg : Z).

(** ** Drawing surfaces *)

(** What the system answers during one [EnsureSize]: the bitmap handle and
    the bits pointer of [CreateDIBSection], and the handle of
    [CreateCompatibleDC]. *)
Record SurfaceOS : Type := mkSurfaceOS {
  dib_answer : HANDLE;
  bits_answer : HANDLE;
  dc_answer : HANDLE
}.

(** Lines 69-111. *)
Module Backbuffer.
Record t : Type := mk {
  memDC : HANDLE;
  dib : HANDLE;
  bits : HANDLE;
  w : Z;
  h : Z
}.

Definition init : t := {| memDC := 0; dib := 0; bits := 0; w := 0; h := 0 |}.

Definition Release (s : t) : t * list Call :=
  ({| memDC := 0; dib := 0; bits := 0; w := 0; h := 0 |},
   (if negb (memDC s =? 0) then [DeleteDC (memDC s)] else [])
   ++ (if negb (dib s =? 0) then [DeleteObject (dib s)] else [])).

Definition EnsureSize (os : SurfaceOS) (s : t) (refDC : HANDLE) (W H : Z)
    : t * bool * list Call :=
  if (W <=? w s) && (H <=? h s) && negb (memDC s =? 0) && negb (dib s =? 0)
  then (s, true, [])
  else
    let '(s1, released) := Release s in
    let created := CreateDIBSection refDC (MakeBitmapInfo W H) (dib_answer os) in
    if dib_answer os =? 0 then
      ({| memDC := memDC s1; dib := dib_answer os; bits := bits_answer os;
          w := w s1; h := h s1 |},
       false, released ++ [created])
    else
      ({| memDC := dc_answer os; dib := dib_answer os; bits := bits_answer os;
          w := W; h := H |},
       true,
       released ++ [created; CreateCompatibleDC refDC (dc_answer os);
                    SelectObject (dc_answer os) (dib_answer os)]).

Definition Clear (s : t) : list Call := [PatBlt (memDC s) 0 0 (w s) (h s)].
End Backbuffer.

(** Lines 114-152. *)
Module TempIconSurf.
Record t : Type := mk {
  memDC : HANDLE;
  dib : HANDLE;
  bits : HANDLE;
  w : Z;
  h : Z
}.

Definition init : t := {| memDC := 0; dib := 0; bits := 0; w := 0; h := 0 |}.

Definition Release (s : t) : t * list Call :=
  ({| memDC := 0; dib := 0; bits := 0; w := 0; h := 0 |},
   (if negb (memDC s =? 0) then [DeleteDC (memDC s)] else [])
   ++ (if negb (dib s =? 0) then [DeleteObject (dib s)] else [])).

Definition EnsureSize (os : SurfaceOS) (s : t) (refDC : HANDLE) (W H : Z)
    : t * bool * list Call :=
  let '(W1, H1) := if (W <=? 0) || (H <=? 0) then (1, 1) else (W, H) in
  if (W1 =? w s) && (H1 =? h s) && negb (memDC s =? 0) && negb (dib s =? 0)
  then (s, true, [])
  else
    let '(s1, released) := Release s in
    let created := CreateDIBSection refDC (MakeBitmapInfo W1 H1) (dib_answer os) in
    if dib_answer os =? 0 then
      ({| memDC := memDC s1; dib := dib_answer os; bits := bits_answer os;
          w := w s1; h := h s1 |},
       false, released ++ [created])
    else
      ({| memDC := dc_answer os; dib := dib_answer os; bits := bits_answer os;
          w := W1; h := H1 |},
       true,
       released ++ [created; CreateCompatibleDC refDC (dc_answer os);
                    SelectObject (dc_answer os) (dib_answer os)]).
End TempIconSurf.

(** ** The calls of [RefreshCursorVisual] *)

(** Lines 162 and 178-181: the query, and the deletion of the bitmaps it
    hands out. *)
Definition RefreshCursorVisual_calls (os : IconOS) (cv : CursorVisual)
    (ci : CURSORINFO) : list Call :=
  if ci_hCursor ci =? hCur cv then []
  else
    IconInfo (ci_hCursor ci) (GetIconInfo os (ci_hCursor ci))
    :: match GetIconInfo os (ci_hCursor ci) with
       | Some ii =>
           (if negb (hbmMask ii =? 0) then [DeleteObject (hbmMask ii)] else [])
           ++ (if negb (hbmColor ii =? 0) then [DeleteObject (hbmColor ii)] else [])
       | None => []
       end.

(** ** The calls of the tinted glyph cache *)

(** Lines 211-230. *)
Definition ReleaseTintCache (c : TintCache) : TintCache * list Call :=
  if negb (sTintDC c =? 0) then
    ({| sLastCursor := 0; sLastW := 0; sLastH := 0; sTintDC := 0; sTintBMP := 0;
        sTintOld := 0; sTintBits := None |},
     (if negb (sTintBMP c =? 0) then
        (if negb (sTintOld c =? 0) then [SelectObject (sTintDC c) (sTintOld c)]
         else [])
        ++ [DeleteObject (sTintBMP c)]
      else [])
     ++ [DeleteDC (sTintDC c)])
  else
    ({| sLastCursor := 0; sLastW := 0; sLastH := 0; sTintDC := 0;
        sTintBMP := sTintBMP c; sTintOld := 0; sTintBits := None |}, []).

(** Lines 248-271: the calls of the branch that recreates the tinted
    bitmap. *)
Definition rebuild_calls (c : TintCache) (cv : CursorVisual) (screenDC : HANDLE)
    (os : DrawOS) : list Call :=
  let dc := if sTintDC c =? 0 then new_dc os else sTintDC c in
  (if sTintDC c =? 0 then [CreateCompatibleDC screenDC (new_dc os)] else [])
  ++ (if negb (sTintBMP c =? 0) then
        (if negb (sTintOld c =? 0) then [SelectObject dc (sTintOld c)] else [])
        ++ [DeleteObject (sTintBMP c)]
      else [])
  ++ [CreateDIBSection screenDC (MakeBitmapInfo (width cv) (height cv))
                       (new_dib os)]
  ++ (if (new_dib os =? 0) || negb (new_bits os) then []
      else [SelectObject dc (new_dib os);
            PatBlt dc 0 0 (width cv) (height cv);
            DrawIconEx dc 0 0 (hCur cv) (width cv) (height cv)]).

(** ** [DrawTrail] with its surfaces and calls *)

(** The answers of a frame with the result of [tmp.EnsureSize] put in. *)
Definition with_tmp_ok (os : DrawOS) (ok : bool) : DrawOS :=
  {| tmp_ok := ok; now_draw := now_draw os; new_dc := new_dc os;
     new_dib := new_dib os; new_bits := new_bits os; old_obj := old_obj os;
     glyph_bits := glyph_bits os |}.

(** Lines 331-333. *)
Definition blend_call (bb : Backbuffer.t) (tmp : TempIconSurf.t)
    (cv : CursorVisual) (b : Blend) : Call :=
  AlphaBlend (Backbuffer.memDC bb) (dstX b) (dstY b) (width cv) (height cv)
             (TempIconSurf.memDC tmp) 0 0 (width cv) (height cv) (srcAlpha b).

(** Lines 338-351. *)
Definition present_call (hwnd screenDC : HANDLE) (bb : Backbuffer.t)
    (vs : RECT) : Call :=
  UpdateLayeredWindow hwnd screenDC (mkPOINT (left vs) (top vs))
                      (Backbuffer.w bb, Backbuffer.h bb)
                      (Backbuffer.memDC bb) (mkPOINT 0 0) 255.

(** Lines 232-352: the temporary surface after the call and every call
    made, in order. *)
Definition DrawTrail_calls (cfg : Config) (hwnd screenDC : HANDLE)
    (bb : Backbuffer.t) (tmp : TempIconSurf.t) (c : TintCache)
    (cv : CursorVisual) (trail : Trail) (vs : RECT) (sos : SurfaceOS)
    (os : DrawOS) : TempIconSurf.t * bool * list Call :=
  let '(tmp1, ok, ensure) :=
    TempIconSurf.EnsureSize sos tmp screenDC (width cv) (height cv) in
  if negb ok then (tmp1, ok, ensure)
  else
    let stale := cache_stale c cv in
    let c1 := if stale then fst (rebuild_cache cfg c cv os) else c in
    let head :=
      ensure ++ Backbuffer.Clear bb
      ++ (if stale then rebuild_calls c cv screenDC os else []) in
    if stale && ((new_dib os =? 0) || negb (new_bits os)) then (tmp1, ok, head)
    else
      let clear_tmp :=
        PatBlt (TempIconSurf.memDC tmp1) 0 0
               (TempIconSurf.w tmp1) (TempIconSurf.h tmp1) in
      if sTintBMP c1 =? 0 then (tmp1, ok, head ++ [clear_tmp])
      else
        (tmp1, ok,
         head
         ++ [clear_tmp;
             BitBlt (TempIconSurf.memDC tmp1) 0 0 (width cv) (height cv)
                    (sTintDC c1) 0 0]
         ++ map (blend_call bb tmp1 cv)
                (trail_blends cfg vs cv (now_draw os) trail)
         ++ [present_call hwnd screenDC bb vs]).

(** ** Window procedure and message pump *)

Definition WM_DESTROY : Z := 2.
Definition WM_QUIT : Z := 18.
Definition WM_ERASEBKGND : Z := 20.
Definition WM_DISPLAYCHANGE : Z := 126.

(** What the system answers while [WndProc] runs: the metrics of the
    virtual screen and the result of [DefWindowProc]. *)
Record WndOS : Type := mkWndOS {
  wnd_metrics : Metrics;
  def_result : Z
}.

(** Lines 355-374.  [pVs] is the pointer kept in [GWLP_USERDATA]: [None]
    for [nullptr], otherwise the rectangle it points to; the function
    gives that rectangle back as it leaves it, with its result and its
    calls. *)
Definition WndProc (pVs : option RECT) (msg : Z) (os : WndOS)
    : option RECT * Z * list Call :=
  if msg =? WM_DESTROY then
    (pVs, def_result os, [PostQuitMessage 0; DefWindowProc msg])
  else if msg =? WM_ERASEBKGND then (pVs, 1, [])
  else if msg =? WM_DISPLAYCHANGE then
    (match pVs with
     | Some _ => Some (GetVirtualScreenRect (wnd_metrics os))
     | None => None
     end, def_result os, [DefWindowProc msg])
  else (pVs, def_result os, [DefWindowProc msg]).

(** A message that [PeekMessage] retrieves: the window it is addressed to
    and its identifier. *)
Record MSG : Type := mkMSG {
  msg_hwnd : HANDLE;
  message : Z
}.

(** Lines 528-542: the inner loop over the retrieved messages, each with
    the answers of the system while it is dispatched.  [DispatchMessage]
    runs [WndProc] for a message addressed to the overlay window, whose
    user data points to [vs] (line 486).  The result is [None] when
    [WM_QUIT] was retrieved, otherwise [vs] as the loop leaves it. *)
Fixpoint pump (hwnd : HANDLE) (vs : RECT) (msgs : list (MSG * WndOS))
    : option RECT * list Call :=
  match msgs with
  | [] => (Some vs, [])
  | (msg, os) :: rest =>
      if message msg =? WM_QUIT then (None, [])
      else if msg_hwnd msg =? hwnd then
        let '(pVs, _, calls) := WndProc (Some vs) (message msg) os in
        let vs1 := match pVs with Some r => r | None => vs end in
        let '(res, calls1) := pump hwnd vs1 rest in
        (res, calls ++ calls1)
      else pump hwnd vs rest
  end.

(** ** The main loop with its surfaces and calls *)

Record Overlay : Type := mkOverlay {
  hwnd_of : HANDLE;
  screenDC_of : HANDLE;
  hMutex_of : HANDLE;
  loop_of : LoopState;
  bb_of : Backbuffer.t;
  tmp_of : TempIconSurf.t
}.

(** What the system answers during one iteration of [while (true)]. *)
Record IterOS : Type := mkIterOS {
  messages : list (MSG * WndOS);
  tick_os : TickOS;
  bb_os : SurfaceOS;
  tmp_os : SurfaceOS
}.

Inductive IterResult : Type :=
  | QuitMessage (calls : list Call)       (* [return 0], line 538 *)
  | ResizeFailed (calls : list Call)      (* [return 0], line 567 *)
  | NextIteration (ov : Overlay) (frame : option Frame) (calls : list Call).

(** Lines 533-537. *)
Definition quit_calls (ov : Overlay) : list Call :=
  snd (Backbuffer.Release (bb_of ov))
  ++ snd (TempIconSurf.Release (tmp_of ov))
  ++ [ReleaseDC (screenDC_of ov)]
  ++ snd (ReleaseTintCache (cache_of (loop_of ov)))
  ++ [CloseHandle (hMutex_of ov)].

(** Lines 564-566. *)
Definition resize_failed_calls (ov : Overlay) : list Call :=
  snd (ReleaseTintCache (cache_of (loop_of ov)))
  ++ [ReleaseDC (screenDC_of ov); CloseHandle (hMutex_of ov)].

(** [DrawTrail] as the loop calls it: the state it leaves, its frame and
    its calls. *)
Definition draw (cfg : Config) (ov : Overlay) (bb1 : Backbuffer.t)
    (cv1 : CursorVisual) (trail1 : Trail) (vs : RECT) (os : IterOS)
    : Overlay * Frame * list Call :=
  let st := loop_of ov in
  let '(tmp1, ok, calls) :=
    DrawTrail_calls cfg (hwnd_of ov) (screenDC_of ov) bb1 (tmp_of ov)
                    (cache_of st) cv1 trail1 vs (tmp_os os)
                    (draw_os (tick_os os)) in
  let '(c1, fr) :=
    DrawTrail cfg (cache_of st) cv1 trail1 vs
              (with_tmp_ok (draw_os (tick_os os)) ok) in
  ({| hwnd_of := hwnd_of ov; screenDC_of := screenDC_of ov;
      hMutex_of := hMutex_of ov;
      loop_of := mkLoopState trail1 cv1 c1 vs;
      bb_of := bb1; tmp_of := tmp1 |}, fr, calls).

(** Lines 553-569: the rectangle and the backbuffer after the check of
    the screen size, whether [bb.EnsureSize] succeeded, and the calls. *)
Definition resize (ov : Overlay) (vs0 : RECT) (os : IterOS)
    : RECT * Backbuffer.t * bool * list Call :=
  let vs := curVS (tick_os os) in
  if negb (rect_eqb vs vs0) then
    let '(bb1, ok, ensured) :=
      Backbuffer.EnsureSize (bb_os os) (bb_of ov) (screenDC_of ov)
                            (rect_width vs) (rect_height vs) in
    (vs, bb1, ok,
     SetWindowPos (hwnd_of ov) (left vs) (top vs) (rect_width vs) (rect_height vs)
     :: ensured)
  else (vs0, bb_of ov, true, []).

(** Lines 574-580. *)
Definition hidden_iteration (cfg : Config) (ov : Overlay) (bb1 : Backbuffer.t)
    (trail1 : Trail) (vs : RECT) (os : IterOS) : Overlay * option Frame * list Call :=
  let st := loop_of ov in
  let trail2 := evict_expired cfg (now_hidden (tick_os os)) trail1 in
  match trail2 with
  | [] =>
      ({| hwnd_of := hwnd_of ov; screenDC_of := screenDC_of ov;
          hMutex_of := hMutex_of ov;
          loop_of := mkLoopState trail2 (cv_of st) (cache_of st) vs;
          bb_of := bb1; tmp_of := tmp_of ov |}, None, [])
  | _ :: _ =>
      let '(ov1, fr, calls) := draw cfg ov bb1 (cv_of st) trail2 vs os in
      (ov1, Some fr, calls)
  end.

(** Lines 584-585. *)
Definition shown_iteration (cfg : Config) (ov : Overlay) (bb1 : Backbuffer.t)
    (trail1 : Trail) (vs : RECT) (os : IterOS) (ci : CURSORINFO)
    : Overlay * option Frame * list Call :=
  let st := loop_of ov in
  let cv1 := RefreshCursorVisual (icon_os (tick_os os)) (cv_of st) ci in
  let '(ov1, fr, calls) := draw cfg ov bb1 cv1 trail1 vs os in
  (ov1, Some fr,
   RefreshCursorVisual_calls (icon_os (tick_os os)) (cv_of st) ci ++ calls).

(** Lines 526-587: one iteration. *)
Definition iteration (cfg : Config) (ov : Overlay) (os : IterOS) : IterResult :=
  let st := loop_of ov in
  let tos := tick_os os in
  match pump (hwnd_of ov) (vs_of st) (messages os) with
  | (None, pumped) => QuitMessage (pumped ++ quit_calls ov)
  | (Some vs0, pumped) =>
      let trail1 := UpdateTrail cfg (trail_of st) (cur tos) (lastTick tos) in
      let '(vs, bb1, ok, resized) := resize ov vs0 os in
      if negb ok then
        ResizeFailed (pumped ++ resized ++ resize_failed_calls ov)
      else
        let '(ov1, fr, calls) :=
          match cursor_info tos with
          | Some ci =>
              if pointer_hidden (Some ci)
              then hidden_iteration cfg ov bb1 trail1 vs os
              else shown_iteration cfg ov bb1 trail1 vs os ci
          | None => hidden_iteration cfg ov bb1 trail1 vs os
          end in
        NextIteration ov1 fr (pumped ++ resized ++ calls)
  end.

(** ** Refresh rate and frame interval *)

(** [double] is IEEE 754 binary64. *)
Module F64.
Definition prec : Z := 53.
Definition emax : Z := 1024.

Definition div : spec_float -> spec_float -> spec_float := SFdiv prec emax.

Definition of_Z (z : Z) : spec_float := binary_normalize prec emax z 0 false.

(** The conversion of a [float] to [double], which is exact. *)
Definition of_float (f : F32.f32) : spec_float :=
  match f with
  | S754_finite s m e => binary_normalize prec emax (cond_Zopp s (Zpos m)) e false
  | _ => f
  end.

(** [static_cast<int>(std::round(d))]: to the nearest integer, halves
    away from zero; outside [int] the smallest [int], as in
    [F32.to_int]. *)
Definition round_to_int (d : spec_float) : Z :=
  match d with
  | S754_zero _ => 0
  | S754_finite s m e =>
      let r := cond_Zopp s (if 0 <=? e then Z.shiftl (Zpos m) e
                            else Z.shiftr (Zpos m + 2 ^ (- e - 1)) (- e)) in
      if (Int32.min_signed <=? r) && (r <=? Int32.max_signed) then r
      else Int32.min_signed
  | _ => Int32.min_signed
  end.
End F64.

Definition f_30 : F32.f32 := Eval vm_compute in F32.of_Z 30.
Definition f_60 : F32.f32 := Eval vm_compute in F32.of_Z 60.
Definition f_240 : F32.f32 := Eval vm_compute in F32.of_Z 240.
Definition d_1000 : spec_float := Eval vm_compute in F64.of_Z 1000.

(** Lines 513-519: the displays that [EnumDisplayDevicesW] enumerates,
    each with the [dmDisplayFrequency] of its current mode, or [None]
    when [EnumDisplaySettingsW] fails. *)
Definition max_refresh_rate (displays : list (option Z)) : F32.f32 :=
  fold_left (fun maxHz dm =>
               match dm with
               | Some frequency => F32.max maxHz (F32.of_Z frequency)
               | None => maxHz
               end)
            displays f_60.

(** Lines 521-522, in milliseconds. *)
Definition frameInterval (displays : list (option Z)) : Z :=
  F64.round_to_int
    (F64.div d_1000
             (F64.of_float (F32.clamp (max_refresh_rate displays) f_30 f_240))).

(** ** Start and run of [wWinMain] *)

(** What the system answers before the main loop. *)
Record StartOS : Type := mkStartOS {
  mutex_handle : HANDLE;       (* [CreateMutexW] *)
  already_exists : bool;       (* [GetLastError() == ERROR_ALREADY_EXISTS] *)
  start_metrics : Metrics;     (* [GetVirtualScreenRect], line 469 *)
  window_handle : HANDLE;      (* [CreateWindowExW] *)
  screen_dc : HANDLE;          (* [GetDC(nullptr)] *)
  start_bb_os : SurfaceOS;     (* [bb.EnsureSize], line 498 *)
  displays_of : list (option Z)
}.

(** The places where [wWinMain] returns. *)
Inductive ExitPath : Type :=
  | SecondInstance    (* line 422 *)
  | NoWindow          (* line 478 *)
  | NoBackbuffer      (* line 502 *)
  | QuitRetrieved     (* line 538 *)
  | ResizeFailure.    (* line 567 *)

Inductive Startup : Type :=
  | NotStarted (path : ExitPath) (calls : list Call)
  | Started (ov : Overlay) (interval : Z) (calls : list Call).

(** Lines 418-522, the launch arguments apart.  The window procedure is
    taken to handle no [WM_DISPLAYCHANGE] before the main loop: [vs] is
    still what line 469 read when the loop starts. *)
Definition startup (os : StartOS) : Startup :=
  let mutex := CreateMutexW (mutex_handle os) in
  if already_exists os then
    NotStarted SecondInstance [mutex; CloseHandle (mutex_handle os)]
  else
    let vs := GetVirtualScreenRect (start_metrics os) in
    let window :=
      CreateWindowExW (left vs) (top vs) (rect_width vs) (rect_height vs)
                      (window_handle os) in
    if window_handle os =? 0 then
      NotStarted NoWindow [mutex; window; CloseHandle (mutex_handle os)]
    else
      let '(bb, ok, ensured) :=
        Backbuffer.EnsureSize (start_bb_os os) Backbuffer.init (screen_dc os)
                              (rect_width vs) (rect_height vs) in
      let acquired := [mutex; window; GetDC (screen_dc os)] ++ ensured in
      if negb ok then
        NotStarted NoBackbuffer
          (acquired ++ [ReleaseDC (screen_dc os); CloseHandle (mutex_handle os)])
      else
        Started {| hwnd_of := window_handle os; screenDC_of := screen_dc os;
                   hMutex_of := mutex_handle os;
                   loop_of := mkLoopState [] cv_init cache_init vs;
                   bb_of := bb; tmp_of := TempIconSurf.init |}
                (frameInterval (displays_of os)) acquired.

(** How a run of the program ends: it returned, or the loop is still
    going after the iterations given. *)
Inductive Outcome : Type :=
  | Returned (path : ExitPath)
  | Looping (ov : Overlay).

(** Lines 526-587: the iterations of [while (true)], one per element. *)
Fixpoint main_loop (cfg : Config) (ov : Overlay) (iters : list IterOS)
    : Outcome * list Call :=
  match iters with
  | [] => (Looping ov, [])
  | os :: rest =>
      match iteration cfg ov os with
      | QuitMessage calls => (Returned QuitRetrieved, calls)
      | ResizeFailed calls => (Returned ResizeFailure, calls)
      | NextIteration ov1 _ calls =>
          let '(o, later) := main_loop cfg ov1 rest in (o, calls ++ later)
      end
  end.

Definition wWinMain (lpCmdLine : string) (os : StartOS) (iters : list IterOS)
    : Outcome * list Call :=
  match startup os with
  | NotStarted path calls => (Returned path, calls)
  | Started ov _ calls =>
      let '(o, later) :=
        main_loop (parse_command_line lpCmdLine default_config) ov iters in
      (o, calls ++ later)
  end.

(** ** Quantities the properties are stated with *)

(** The squared distance of two points, in unbounded integers. *)
Definition sq_dist (a b : POINT) : Z :=
  (px a - px b) * (px a - px b) + (py a - py b) * (py a - py b).

(** The timestamps never decrease along the trail. *)
Fixpoint time_ordered (trail : Trail) : Prop :=
  match trail with
  | [] => True
  | s :: rest => (forall s', In s' rest -> t s <= t s') /\ time_ordered rest
  end.

(** The exact age of a sample in nanoseconds, and in whole milliseconds. *)
Definition age_ns (now : time_point) (s : Sample) : Z := now - t s.

(** [after] is [before] with [k] samples removed from its front. *)
Definition front_removed (k : nat) (before after : Trail) : Prop :=
  after = skipn k before.

(** The buffer after consecutive [UpdateTrail] calls, one per tick, each
    with the cursor position and the clock of its tick. *)
Fixpoint run_updates (cfg : Config) (trail : Trail)
    (ticks : list (POINT * time_point)) : Trail :=
  match ticks with
  | [] => trail
  | (ptNow, now) :: rest => run_updates cfg (UpdateTrail cfg trail ptNow now) rest
  end.

(** The clock readings of the ticks never decrease, starting from [t0]. *)
Fixpoint clock_monotone (t0 : time_point) (ticks : list (POINT * time_point))
    : Prop :=
  match ticks with
  | [] => True
  | (_, now) :: rest => t0 <= now /\ clock_monotone now rest
  end.

(** The clock reading of the last tick, [t0] when there is none. *)
Fixpoint last_clock (t0 : time_point) (ticks : list (POINT * time_point))
    : time_point :=
  match ticks with
  | [] => t0
  | (_, now) :: rest => last_clock now rest
  end.

(** The 32-bit computation of [UpdateTrail] stays within [int]. *)
Definition no_overflow (a b : POINT) : Prop :=
  Int32.in_range (px a - px b) /\ Int32.in_range (py a - py b)
  /\ sq_dist a b <= Int32.max_signed.

(** The four metrics are [int] values. *)
Definition metrics_in_range (m : Metrics) : Prop :=
  Int32.in_range (SM_XVIRTUALSCREEN m) /\ Int32.in_range (SM_YVIRTUALSCREEN m)
  /\ Int32.in_range (SM_CXVIRTUALSCREEN m) /\ Int32.in_range (SM_CYVIRTUALSCREEN m).

(** The request fits the backbuffer as it is: the test of line 91. *)
Definition Backbuffer_fits (s : Backbuffer.t) (W H : Z) : Prop :=
  W <= Backbuffer.w s /\ H <= Backbuffer.h s
  /\ Backbuffer.memDC s <> 0 /\ Backbuffer.dib s <> 0.

(** The dimensions a request stands for in [TempIconSurf::EnsureSize]
    (lines 136-137), and the test of line 138. *)
Definition TempIconSurf_dims (W H : Z) : Z * Z :=
  if (W <=? 0) || (H <=? 0) then (1, 1) else (W, H).

Definition TempIconSurf_fits (s : TempIconSurf.t) (W H : Z) : Prop :=
  fst (TempIconSurf_dims W H) = TempIconSurf.w s
  /\ snd (TempIconSurf_dims W H) = TempIconSurf.h s
  /\ TempIconSurf.memDC s <> 0 /\ TempIconSurf.dib s <> 0.

(** Counting the objects of one handle that a list of calls creates and
    deletes: bitmaps ([CreateDIBSection], the bitmaps [GetIconInfo] hands
    out, [DeleteObject]) and device contexts ([CreateCompatibleDC],
    [DeleteDC]). *)
Definition is_handle (h x : HANDLE) : nat := if x =? h then 1%nat else 0%nat.

Definition bitmaps_made (h : HANDLE) (c : Call) : nat :=
  match c with
  | CreateDIBSection _ _ r => is_handle h r
  | IconInfo _ (Some ii) => (is_handle h (hbmMask ii) + is_handle h (hbmColor ii))%nat
  | _ => 0%nat
  end.

Definition bitmaps_deleted (h : HANDLE) (c : Call) : nat :=
  match c with DeleteObject x => is_handle h x | _ => 0%nat end.

Definition dcs_made (h : HANDLE) (c : Call) : nat :=
  match c with CreateCompatibleDC _ r => is_handle h r | _ => 0%nat end.

Definition dcs_deleted (h : HANDLE) (c : Call) : nat :=
  match c with DeleteDC x => is_handle h x | _ => 0%nat end.

Definition total (f : Call -> nat) (calls : list Call) : nat :=
  list_sum (map f calls).

(** The objects of one handle that the overlay holds: the bitmaps and the
    device contexts of its two surfaces and of the tinted glyph cache. *)
Definition bitmaps_held (h : HANDLE) (ov : Overlay) : nat :=
  (is_handle h (Backbuffer.dib (bb_of ov))
   + is_handle h (TempIconSurf.dib (tmp_of ov))
   + is_handle h (sTintBMP (cache_of (loop_of ov))))%nat.

Definition dcs_held (h : HANDLE) (ov : Overlay) : nat :=
  (is_handle h (Backbuffer.memDC (bb_of ov))
   + is_handle h (TempIconSurf.memDC (tmp_of ov))
   + is_handle h (sTintDC (cache_of (loop_of ov))))%nat.

(** The calls of the main loop while it goes on: every call but the five
    that take and give back the mutex, the window and the screen device
    context. *)
Definition loop_call (c : Call) : bool :=
  match c with
  | CreateMutexW _ | CloseHandle _ | CreateWindowExW _ _ _ _ _
  | GetDC _ | ReleaseDC _ => false
  | _ => true
  end.

Definition closes (c : Call) : nat :=
  match c with CloseHandle _ => 1%nat | _ => 0%nat end.

Definition gets_dc (c : Call) : nat :=
  match c with GetDC _ => 1%nat | _ => 0%nat end.

Definition releases_dc (c : Call) : nat :=
  match c with ReleaseDC _ => 1%nat | _ => 0%nat end.

(** The calls that put something on the overlay. *)
Definition paints (c : Call) : bool :=
  match c with
  | AlphaBlend _ _ _ _ _ _ _ _ _ _ _ => true
  | UpdateLayeredWindow _ _ _ _ _ _ _ => true
  | _ => false
  end.

(** Whether [WM_QUIT] is among the messages retrieved, and the metrics at
    each [WM_DISPLAYCHANGE] addressed to the overlay window, in order. *)
Definition quit_retrieved (msgs : list (MSG * WndOS)) : bool :=
  existsb (fun m => message (fst m) =? WM_QUIT) msgs.

Definition display_changes (hwnd : HANDLE) (msgs : list (MSG * WndOS))
    : list Metrics :=
  map (fun m => wnd_metrics (snd m))
      (filter (fun m => (msg_hwnd (fst m) =? hwnd)
                        && (message (fst m) =? WM_DISPLAYCHANGE)) msgs).

(** The backbuffer is at least as large as the screen rectangle. *)
Definition covers (bb : Backbuffer.t) (vs : RECT) : Prop :=
  rect_width vs <= Backbuffer.w bb /\ rect_height vs <= Backbuffer.h bb.

(** The calls of the drawing code: those of [DrawTrail],
    [RefreshCursorVisual] and the message pump. *)
Definition draw_call (c : Call) : bool :=
  match c with
  | CreateDIBSection _ _ _ | CreateCompatibleDC _ _ | SelectObject _ _
  | DeleteObject _ | DeleteDC _ | IconInfo _ _ | PatBlt _ _ _ _ _
  | DrawIconEx _ _ _ _ _ _ | BitBlt _ _ _ _ _ _ _ _
  | AlphaBlend _ _ _ _ _ _ _ _ _ _ _ | UpdateLayeredWindow _ _ _ _ _ _ _
  | PostQuitMessage _ | DefWindowProc _ => true
  | _ => false
  end.

(** The loop state with the rectangle the message loop left in [vs]. *)
Definition with_vs (st : LoopState) (vs : RECT) : LoopState :=
  mkLoopState (trail_of st) (cv_of st) (cache_of st) vs.

(** The glyph that [DrawTrail] is called with in an iteration. *)
Definition drawn_visual (ov : Overlay) (os : IterOS) : CursorVisual :=
  match cursor_info (tick_os os) with
  | Some ci =>
      if pointer_hidden (Some ci) then cv_of (loop_of ov)
      else RefreshCursorVisual (icon_os (tick_os os)) (cv_of (loop_of ov)) ci
  | None => cv_of (loop_of ov)
  end.

(** The answers of an iteration as [tick] takes them: those of the
    system, with the results of the two [EnsureSize] calls. *)
Definition tick_answers (ov : Overlay) (os : IterOS) : TickOS :=
  let tos := tick_os os in
  {| cur := cur tos; lastTick := lastTick tos; curVS := curVS tos;
     bb_ok :=
       snd (fst (Backbuffer.EnsureSize (bb_os os) (bb_of ov) (screenDC_of ov)
                   (rect_width (curVS tos)) (rect_height (curVS tos))));
     cursor_info := cursor_info tos; now_hidden := now_hidden tos;
     icon_os := icon_os tos;
     draw_os :=
       with_tmp_ok (draw_os tos)
         (snd (fst (TempIconSurf.EnsureSize (tmp_os os) (tmp_of ov) (screenDC_of ov)
                      (width (drawn_visual ov os))
                      (height (drawn_visual ov os))))) |}.

(** Consecutive samples lie at different positions. *)
Fixpoint adjacent_distinct (trail : Trail) : Prop :=
  match trail with
  | s0 :: rest =>
      match rest with
      | s1 :: _ => pt s0 <> pt s1
      | [] => True
      end /\ adjacent_distinct rest
  | [] => True
  end.

(** The clock readings of consecutive iterations never decrease: in each
    one the reading of line 545 precedes that of line 574, which precedes
    the next iteration's. *)
Fixpoint clocks_ordered (t0 : time_point) (iters : list IterOS) : Prop :=
  match iters with
  | [] => True
  | os :: rest =>
      t0 <= lastTick (tick_os os)
      /\ lastTick (tick_os os) <= now_hidden (tick_os os)
      /\ clocks_ordered (now_hidden (tick_os os)) rest
  end.

(** A float that is not negative and not a NaN: what the conversion of an
    unsigned integer gives. *)
Definition nonneg_float (f : F32.f32) : bool :=
  match f with
  | S754_zero false | S754_finite false _ _ | S754_infinity false => true
  | _ => false
  end.

(** The frame interval for a refresh rate of a whole number of hertz. *)
Definition interval_of_hz (hz : Z) : Z :=
  F64.round_to_int (F64.div d_1000 (F64.of_float (F32.of_Z hz))).

(** A display reports a frequency that fits [DWORD]. *)
Definition display_ok (dm : option Z) : Prop :=
  match dm with Some frequency => 0 <= frequency < 2 ^ 32 | None => True end.

(** The tokens that [wcstok_s] cuts a string into: its maximal runs of
    characters other than the space. *)
Fixpoint tokens_from (fuel : nat) (context : string) : list string :=
  match fuel with
  | O => []
  | S fuel' =>
      match Crt.wcstok context with
      | Some (token, context1) => token :: tokens_from fuel' context1
      | None => []
      end
  end.

Definition tokens (s : string) : list string :=
  tokens_from (S (String.length s)) s.

(** The launch argument that a token names, as what it does with its
    value; [None] for a token that names none. *)
Definition argument_of (token : string) : option (string -> Config -> Config) :=
  let name := trim_switch token in
  if name_matches name ["sensitivity"; "s"]%string then Some set_sensitivity
  else if name_matches name ["fade"; "f"]%string then Some set_fade
  else if name_matches name ["alpha"; "a"]%string then Some set_alpha
  else if name_matches name ["color"; "c"]%string then Some parse_color
  else None.

(** The launch arguments read off a list of tokens: a token that names
    an argument takes the next token as its value, whatever that token
    is; a name without a value and any other token are passed over. *)
Fixpoint parse_tokens (fuel : nat) (toks : list string) (cfg : Config) : Config :=
  match fuel with
  | O => cfg
  | S fuel' =>
      match toks with
      | [] => cfg
      | token :: rest =>
          match argument_of token, rest with
          | Some store, val :: rest' => parse_tokens fuel' rest' (store val cfg)
          | Some _, [] => cfg
          | None, _ => parse_tokens fuel' rest cfg
          end
      end
  end.

(** The two hexadecimal digits of a byte, and the notation [#RRGGBB]. *)
Definition hex_digit (d : Z) : ascii :=
  ascii_of_N (Z.to_N (if d <? 10 then 48 + d else 55 + d)).

Definition hex_byte (b : Z) (rest : string) : string :=
  String (hex_digit (b / 16)) (String (hex_digit (b mod 16)) rest).

Definition color_text (r g b : Z) : string :=
  String "#" (hex_byte r (hex_byte g (hex_byte b EmptyString))).

(** Every tick of a run reads the same cursor position. *)
Definition pointer_rests (p : POINT) (ticks : list (POINT * time_point)) : Prop :=
  Forall (fun tick => fst tick = p) ticks.

(** A float that is not negative: a NaN, a zero of either sign, or a
    positive number or infinity. *)
Definition not_negative (f : F32.f32) : bool :=
  match f with
  | S754_nan | S754_zero _ => true
  | S754_finite s _ _ | S754_infinity s => negb s
  end.

(** A zero or a positive finite float. *)
Definition finite_nonneg (f : F32.f32) : bool :=
  match f with S754_zero _ | S754_finite false _ _ => true | _ => false end.

(** A NaN, or an IEEE value between 0 and 1 in the order of the floats. *)
Definition unit_or_nan (f : F32.f32) : Prop :=
  f = S754_nan
  \/ (F32.valid f = true /\ F32.leb F32.zero f = true
      /\ F32.leb f F32.one = true).

(** ** Auxiliary definitions *)

Definition f_3 : F32.f32 := Eval vm_compute in F32.of_Z 3.

(** [p / 2 ^ n] rounded to the nearest integer, halves to the even one:
    the rounding of the conversion of an integer of more than 24 bits. *)
Definition rne (p n : Z) : Z :=
  let q := p / 2 ^ n in
  if Z.odd (p / 2 ^ (n - 1)) then
    if negb (p mod 2 ^ (n - 1) =? 0) then q + 1
    else if Z.even q then q else q + 1
  else q.

(** The exponent and the mantissa of [static_cast<float>(p)], [p > 0],
    before the test for overflow. *)
Definition of_Z_key (p : positive) : Z * Z :=
  let d := Zpos (digits2_pos p) in
  if d <=? 24 then (d - 24, Zpos p * 2 ^ (24 - d))
  else
    let q' := rne (Zpos p) (d - 24) in
    if q' =? 2 ^ 24 then (d - 24 + 1, 8388608) else (d - 24, q').

Definition float_of_key (k : Z * Z) : F32.f32 :=
  if fst k <=? 104 then S754_finite false (Z.to_pos (snd k)) (fst k)
  else S754_infinity false.

(** A mantissa and an exponent in canonical form, or the zero mantissa at
    the smallest exponent: what a shift to the canonical exponent
    leaves. *)
Definition canon_or_tiny (m e : Z) : Prop :=
  (m = 0 /\ e = -149) \/ (0 < m /\ fexp 24 128 (Zdigits2 m + e) = e).

(** The floats of a configuration are IEEE values and its alpha is a
    byte. *)
Definition config_valid (cfg : Config) : Prop :=
  F32.valid (gSensitivity cfg) = true /\ F32.valid (gTrailFadeMs cfg) = true
  /\ 0 <= gTrailMaxAlpha cfg <= 255.

(** A NaN, or a float between [lo] and [hi] in the order of the
    floats. *)
Definition nan_or_between (lo hi v : F32.f32) : Prop :=
  v = S754_nan \/ (F32.leb lo v = true /\ F32.leb v hi = true).

(** The values of a configuration lie where the parser clamps them:
    sensitivity in [0.001, 1] and fade in [1, 1000], each unless it is a
    NaN, alpha in [1, 255], and the tint channels are bytes. *)
Definition config_clamped (cfg : Config) : Prop :=
  nan_or_between f_0_001 F32.one (gSensitivity cfg)
  /\ nan_or_between F32.one f_1000 (gTrailFadeMs cfg)
  /\ 1 <= gTrailMaxAlpha cfg <= 255
  /\ 0 <= TintR cfg <= 255 /\ 0 <= TintG cfg <= 255 /\ 0 <= TintB cfg <= 255.

(** The floats of a segment are IEEE values. *)
Definition segment_valid (sg : Segment) : Prop :=
  F32.valid (seg_age0 sg) = true /\ F32.valid (seg_dist sg) = true
  /\ F32.valid (seg_stepFrac sg) = true.


(** A check of the integers [0 .. n-1], and equality of floats, both by
    computation. *)
Fixpoint all_below (n : nat) (P : Z -> bool) : bool :=
  match n with
  | O => true
  | S k => P (Z.of_nat k) && all_below k P
  end.

Definition sf_eqb (a b : spec_float) : bool :=
  match a, b with
  | S754_zero s1, S754_zero s2 => Bool.eqb s1 s2
  | S754_infinity s1, S754_infinity s2 => Bool.eqb s1 s2
  | S754_nan, S754_nan => true
  | S754_finite s1 m1 e1, S754_finite s2 m2 e2 =>
      Bool.eqb s1 s2 && Pos.eqb m1 m2 && Z.eqb e1 e2
  | _, _ => false
  end.

(** Case analysis on the integer comparisons inside a comparison of
    floats. *)
Ltac cmp_cases :=
  repeat match goal with
  | |- context [Z.compare ?a ?b] => destruct (Z.compare_spec a b)
  | H : context [Z.compare ?a ?b] |- _ => destruct (Z.compare_spec a b)
  | |- context [Pos.compare_cont Eq ?a ?b] =>
      change (Pos.compare_cont Eq a b) with (Pos.compare a b);
      destruct (Pos.compare_spec a b)
  | H : context [Pos.compare_cont Eq ?a ?b] |- _ =>
      change (Pos.compare_cont Eq a b) with (Pos.compare a b) in H;
      destruct (Pos.compare_spec a b)
  end.

(** ** A sample run *)

(** Answers of the system for a run on one 1920 x 1080 display at
    144 Hz: the start, an iteration with the pointer showing at a
    position, one whose message loop handles a change of the display to
    2560 x 1440, and one that retrieves [WM_QUIT]. *)
Definition sample_start : StartOS :=
  {| mutex_handle := 101; already_exists := false;
     start_metrics := mkMetrics 0 0 1920 1080;
     window_handle := 201; screen_dc := 301;
     start_bb_os := mkSurfaceOS 401 402 403;
     displays_of := [Some 144] |}.

Definition sample_tick (x y : Z) (clock : time_point) (screen : RECT) : TickOS :=
  {| cur := mkPOINT x y; lastTick := clock; curVS := screen; bb_ok := true;
     cursor_info := Some (mkCURSORINFO 1 65539); now_hidden := clock + 100000;
     icon_os := mkIconOS (fun _ => Some (mkICONINFO 0 0 501 502))
                         (fun _ => mkBITMAP 32 32);
     draw_os := mkDrawOS true (clock + 200000) 601 602 true 603 [4278190080] |}.

Definition sample_iteration (x y : Z) (clock : time_point) : IterOS :=
  {| messages := [];
     tick_os := sample_tick x y clock (mkRECT 0 0 1920 1080);
     bb_os := mkSurfaceOS 411 412 413;
     tmp_os := mkSurfaceOS 701 702 703 |}.

Definition sample_display_change (x y : Z) (clock : time_point) : IterOS :=
  {| messages := [(mkMSG 201 WM_DISPLAYCHANGE,
                   mkWndOS (mkMetrics 0 0 2560 1440) 0)];
     tick_os := sample_tick x y clock (mkRECT 0 0 2560 1440);
     bb_os := mkSurfaceOS 411 412 413;
     tmp_os := mkSurfaceOS 701 702 703 |}.

Definition sample_quit : IterOS :=
  {| messages := [(mkMSG 0 WM_QUIT, mkWndOS (mkMetrics 0 0 1920 1080) 0)];
     tick_os := sample_tick 0 0 0 (mkRECT 0 0 1920 1080);
     bb_os := mkSurfaceOS 411 412 413;
     tmp_os := mkSurfaceOS 701 702 703 |}.

(** The overlay after the start of the sample run. *)
Definition sample_overlay : Overlay :=
  {| hwnd_of := 201; screenDC_of := 301; hMutex_of := 101;
     loop_of := mkLoopState [] cv_init cache_init (mkRECT 0 0 1920 1080);
     bb_of := Backbuffer.mk 403 401 402 1920 1080;
     tmp_of := TempIconSurf.init |}.

(** * Properties *)

(** ** Machine integers *)

Lemma wrap_in_range (z : Z) : Int32.in_range z -> Int32.wrap z = z.
Proof.
  unfold Int32.in_range, Int32.min_signed, Int32.max_signed, Int32.wrap.
  intros H. rewrite Z.mod_small; lia.
Qed.

Lemma wrap_range (z : Z) : Int32.in_range (Int32.wrap z).
Proof.
  unfold Int32.in_range, Int32.min_signed, Int32.max_signed, Int32.wrap.
  pose proof (Z.mod_pos_bound (z + 2 ^ 31) (2 ^ 32) ltac:(lia)). lia.
Qed.

Lemma sq_dist_int_same (p : POINT) : sq_dist_int p p = 0.
Proof.
  unfold sq_dist_int, Int32.sub. rewrite !Z.sub_diag. reflexivity.
Qed.

Lemma sq_dist_int_exact (a b : POINT) :
  no_overflow a b -> sq_dist_int a b = sq_dist a b.
Proof.
  unfold no_overflow, sq_dist, sq_dist_int, Int32.sub, Int32.add, Int32.mul.
  set (x := px a - px b). set (y := py a - py b).
  intros (Hx & Hy & Hd).
  pose proof (Z.square_nonneg x) as Hx0. pose proof (Z.square_nonneg y) as Hy0.
  rewrite (wrap_in_range _ Hx), (wrap_in_range _ Hy).
  assert (Hxx : Int32.in_range (x * x)).
  { unfold Int32.in_range, Int32.min_signed, Int32.max_signed in *. lia. }
  assert (Hyy : Int32.in_range (y * y)).
  { unfold Int32.in_range, Int32.min_signed, Int32.max_signed in *. lia. }
  rewrite (wrap_in_range _ Hxx), (wrap_in_range _ Hyy).
  apply wrap_in_range.
  unfold Int32.in_range, Int32.min_signed, Int32.max_signed in *. lia.
Qed.

(** ** Single-precision floats *)

(** *** Conversion of integers *)

Lemma iter_pos_nat {A : Type} (f : A -> A) (p : positive) (x : A) :
  iter_pos f p x = Nat.iter (Pos.to_nat p) f x.
Proof.
  revert x. induction p as [p IH|p IH|]; intros x; cbn [iter_pos].
  - rewrite !IH, Pos2Nat.inj_xI. 
    replace (S (2 * Pos.to_nat p)) with (Pos.to_nat p + (Pos.to_nat p + 1))%nat by lia.
    rewrite !Nat.iter_add. reflexivity.
  - rewrite !IH, Pos2Nat.inj_xO.
    replace (2 * Pos.to_nat p)%nat with (Pos.to_nat p + Pos.to_nat p)%nat by lia.
    rewrite Nat.iter_add. reflexivity.
  - reflexivity.
Qed.

Lemma shr_1_nonneg (m : Z) (r s : bool) :
  0 <= m ->
  shr_1 (Build_shr_record m r s) = Build_shr_record (m / 2) (Z.odd m) (r || s).
Proof.
  intros Hm. destruct m as [|p|p]; [reflexivity| |lia].
  destruct p; cbn [shr_1]; f_equal.
  - rewrite Pos2Z.inj_xI. Z.to_euclidean_division_equations; lia.
  - rewrite Pos2Z.inj_xO. Z.to_euclidean_division_equations; lia.
Qed.

(** After [S n] one-bit shifts of a non-negative mantissa without rounding bits. *)
Lemma shr_iter (m : Z) (n : nat) :
  0 <= m ->
  Nat.iter (S n) shr_1 (Build_shr_record m false false) =
    Build_shr_record (m / 2 ^ Z.of_nat (S n))
                     (Z.odd (m / 2 ^ Z.of_nat n))
                     (negb (m mod 2 ^ Z.of_nat n =? 0)).
Proof.
  intros Hm. induction n as [|n IH].
  - cbn [Nat.iter]. rewrite shr_1_nonneg by lia. cbn [orb].
    change (2 ^ Z.of_nat 1) with 2. change (2 ^ Z.of_nat 0) with 1.
    rewrite Z.div_1_r, Z.mod_1_r. reflexivity.
  - replace (Nat.iter (S (S n)) shr_1 (Build_shr_record m false false))
      with (shr_1 (Nat.iter (S n) shr_1 (Build_shr_record m false false))) by reflexivity.
    rewrite IH. rewrite shr_1_nonneg by (apply Z.div_pos; lia).
    assert (P : 0 < 2 ^ Z.of_nat n) by (apply Z.pow_pos_nonneg; lia).
    assert (E1 : 2 ^ Z.of_nat (S n) = 2 ^ Z.of_nat n * 2).
    { rewrite Nat2Z.inj_succ, Z.pow_succ_r by lia. lia. }
    assert (E2 : 2 ^ Z.of_nat (S (S n)) = 2 ^ Z.of_nat (S n) * 2).
    { rewrite (Nat2Z.inj_succ (S n)), Z.pow_succ_r by lia. lia. }
    f_equal.
    + rewrite E2, Z.div_div by lia. reflexivity. 
    + rewrite E1, Z.rem_mul_r by lia. rewrite Zodd_mod.
      pose proof (Z.mod_pos_bound m (2 ^ Z.of_nat n) P) as Hu.
      pose proof (Z.mod_pos_bound (m / 2 ^ Z.of_nat n) 2 ltac:(lia)) as Hw.
      set (u := m mod 2 ^ Z.of_nat n) in *.
      set (w := (m / 2 ^ Z.of_nat n) mod 2) in *.
      destruct (Z.eqb_spec w 1), (Z.eqb_spec u 0), (Z.eqb_spec (u + 2 ^ Z.of_nat n * w) 0);
        cbn; try reflexivity; nia.
Qed.

Lemma digits2_pos_size (p : positive) : digits2_pos p = Pos.size p.
Proof. induction p; cbn; congruence. Qed.

Lemma digits2_bounds (p : positive) :
  2 ^ (Zpos (digits2_pos p) - 1) <= Zpos p < 2 ^ Zpos (digits2_pos p).
Proof.
  rewrite digits2_pos_size.
  pose proof (Pos.size_gt p) as Hgt. pose proof (Pos.size_le p) as Hle.
  apply Pos2Z.pos_lt_pos in Hgt. apply Pos2Z.pos_le_pos in Hle.
  rewrite Pos2Z.inj_pow in Hgt, Hle. rewrite (Pos2Z.inj_xO p) in Hle.
  change (Z.pos 2) with 2 in *.
  replace (2 ^ Z.pos (Pos.size p)) with (2 * 2 ^ (Z.pos (Pos.size p) - 1)) in Hle.
  - lia.
  - rewrite <- Z.pow_succ_r by lia. f_equal. lia.
Qed.

Lemma digits2_unique (p : positive) (d : Z) :
  2 ^ (d - 1) <= Zpos p < 2 ^ d -> Zpos (digits2_pos p) = d.
Proof.
  intros [Hlo Hhi]. pose proof (digits2_bounds p) as [Blo Bhi].
  set (k := Zpos (digits2_pos p)) in *.
  assert (0 < k) by (subst k; lia).
  destruct (Z.lt_trichotomy k d) as [Hlt|[Heq|Hgt]]; [|exact Heq|].
  - assert (2 ^ k <= 2 ^ (d - 1)) by (apply Z.pow_le_mono_r; lia). lia.
  - assert (0 < d).
    { destruct (Z.ltb_spec 0 d) as [|Hd]; [assumption|].
      destruct (Z.eq_dec d 0) as [->|Hd0]; [cbn in Hhi; lia|].
      rewrite (Z.pow_neg_r 2 d) in Hhi by lia. lia. }
    assert (2 ^ d <= 2 ^ (k - 1)) by (apply Z.pow_le_mono_r; lia). lia.
Qed.

Lemma pos_iter_xO (m k : positive) : Zpos (Pos.iter xO m k) = Zpos m * 2 ^ Zpos k.
Proof.
  induction k as [|k IH] using Pos.peano_ind.
  - cbn [Pos.iter]. rewrite Pos2Z.inj_xO. change (2 ^ 1) with 2. lia.
  - rewrite Pos.iter_succ, (Pos2Z.inj_xO (Pos.iter xO m k)), IH, Pos2Z.inj_succ, Z.pow_succ_r by lia.
    lia.
Qed.

(** A mantissa of 24 digits is already rounded. *)
Lemma round_aux_canonical (s : bool) (m : positive) (e : Z) :
  Zpos (digits2_pos m) = 24 -> -149 <= e ->
  binary_round_aux 24 128 s (Zpos m) e loc_Exact =
    if e <=? 104 then S754_finite s m e else S754_infinity s.
Proof.
  intros Hd He. unfold binary_round_aux, shr_fexp, fexp, emin.
  cbn [Zdigits2 shr_record_of_loc]. rewrite Hd.
  replace (Z.max (24 + e - 24) (3 - 128 - 24) - e) with 0 by lia.
  cbn [shr shr_m loc_of_shr_record round_nearest_even Zdigits2 shr_record_of_loc].
  rewrite Hd.
  replace (Z.max (24 + e - 24) (3 - 128 - 24) - e) with 0 by lia.
  cbn [shr shr_m]. reflexivity.
Qed.

(** Integers below [2 ^ 24] convert exactly. *)
Lemma of_Z_small (p : positive) :
  let d := Zpos (digits2_pos p) in
  d <= 24 ->
  F32.of_Z (Zpos p) = S754_finite false (Z.to_pos (Zpos p * 2 ^ (24 - d))) (d - 24).
Proof.
  intros d Hd. unfold F32.of_Z, binary_normalize, binary_round, F32.prec, F32.emax.
  unfold fexp, emin. fold d.
  replace (Z.max (d + 0 - 24) (3 - 128 - 24)) with (d - 24) by lia.
  pose proof (digits2_bounds p) as Hb. fold d in Hb.
  destruct (Z.eq_dec d 24) as [E|NE].
  - rewrite E. change (shl_align p 0 (24 - 24)) with (p, 0).
    cbv beta iota. rewrite round_aux_canonical by (fold d; lia).
    change (24 - 24) with 0. change (2 ^ 0) with 1. rewrite Z.mul_1_r.
    reflexivity.
  - unfold shl_align. 
    destruct (d - 24 - 0) as [|k|k] eqn:Ek; try lia.
    assert (Hk : Zpos k = 24 - d) by lia.
    rewrite round_aux_canonical.
    + replace (d - 24 <=? 104) with true by (symmetry; apply Z.leb_le; lia).
      f_equal. rewrite <- Hk, <- pos_iter_xO. reflexivity.
    + apply digits2_unique. rewrite pos_iter_xO, Hk.
      replace (2 ^ (24 - 1)) with (2 ^ (d - 1) * 2 ^ (24 - d)).
      2:{ rewrite <- Z.pow_add_r by lia. f_equal. lia. }
      replace (2 ^ 24) with (2 ^ d * 2 ^ (24 - d)).
      2:{ rewrite <- Z.pow_add_r by lia. f_equal. lia. }
      assert (0 < 2 ^ (24 - d)) by (apply Z.pow_pos_nonneg; lia). nia.
    + lia.
Qed.

Lemma rne_bounds (p n : Z) : p / 2 ^ n <= rne p n <= p / 2 ^ n + 1.
Proof.
  unfold rne.
  destruct (Z.odd (p / 2 ^ (n - 1))), (negb (p mod 2 ^ (n - 1) =? 0)),
    (Z.even (p / 2 ^ n)); lia.
Qed.

Lemma round_after_shift (p k : positive) :
  let mrs := iter_pos shr_1 k (Build_shr_record (Zpos p) false false) in
  round_nearest_even (shr_m mrs) (loc_of_shr_record mrs) = rne (Zpos p) (Zpos k).
Proof.
  intros mrs. subst mrs. rewrite iter_pos_nat.
  destruct (Pos2Nat.is_succ k) as [n Hn]. rewrite Hn, shr_iter by lia.
  assert (E1 : Z.of_nat (S n) = Zpos k) by lia.
  assert (E0 : Z.of_nat n = Zpos k - 1) by lia.
  rewrite E1, E0. unfold rne. cbn [shr_m loc_of_shr_record].
  destruct (Z.odd (Zpos p / 2 ^ (Zpos k - 1))), (negb (Zpos p mod 2 ^ (Zpos k - 1) =? 0));
    reflexivity.
Qed.

Lemma shifted_mantissa_bounds (p : positive) (k : positive) :
  Zpos (digits2_pos p) = 24 + Zpos k ->
  2 ^ 23 <= Zpos p / 2 ^ Zpos k < 2 ^ 24.
Proof.
  intros Hd. pose proof (digits2_bounds p) as [Hlo Hhi]. rewrite Hd in Hlo, Hhi.
  assert (P : 0 < 2 ^ Zpos k) by (apply Z.pow_pos_nonneg; lia).
  replace (24 + Zpos k - 1) with (Zpos k + 23) in Hlo by lia.
  replace (24 + Zpos k) with (Zpos k + 24) in Hhi by lia.
  rewrite Z.pow_add_r in Hlo, Hhi by lia.
  split.
  - apply Z.div_le_lower_bound; lia.
  - apply Z.div_lt_upper_bound; lia.
Qed.

Lemma second_shift (m : Z) (e : Z) :
  2 ^ 23 <= m <= 2 ^ 24 -> 0 <= e ->
  shr_fexp 24 128 m e loc_Exact =
    if m =? 2 ^ 24 then (Build_shr_record 8388608 false false, e + 1)
    else (Build_shr_record m false false, e).
Proof.
  intros Hm He. destruct (Z.eqb_spec m (2 ^ 24)) as [->|Hne].
  - unfold shr_fexp, fexp, emin. cbn [Zdigits2 digits2_pos Z.pow Z.pow_pos Pos.iter Z.mul Pos.mul Pos.succ shr_record_of_loc].
    replace (Z.max (25 + e - 24) (3 - 128 - 24) - e) with 1 by lia.
    reflexivity.
  - destruct m as [|q|q]; try (cbn in Hm; lia).
    assert (Hd : Zpos (digits2_pos q) = 24).
    { apply digits2_unique. change (24 - 1) with 23. lia. }
    unfold shr_fexp, fexp, emin. cbn [Zdigits2 shr_record_of_loc]. rewrite Hd.
    replace (Z.max (24 + e - 24) (3 - 128 - 24) - e) with 0 by lia.
    reflexivity.
Qed.

Lemma of_Z_large (p : positive) :
  let d := Zpos (digits2_pos p) in
  24 < d ->
  F32.of_Z (Zpos p) =
    let n := d - 24 in
    let q' := rne (Zpos p) n in
    if q' =? 2 ^ 24 then
      if n + 1 <=? 104 then S754_finite false 8388608 (n + 1)
      else S754_infinity false
    else if n <=? 104 then S754_finite false (Z.to_pos q') n
         else S754_infinity false.
Proof.
  intros d Hd. unfold F32.of_Z, binary_normalize, binary_round, F32.prec, F32.emax.
  unfold fexp, emin. fold d.
  replace (Z.max (d + 0 - 24) (3 - 128 - 24)) with (d - 24) by lia.
  unfold shl_align.
  destruct (d - 24 - 0) as [|k|k] eqn:Ek; try lia.
  assert (Hk : d - 24 = Zpos k) by lia. rewrite Hk. cbv zeta.
  assert (H1 : shr_fexp 24 128 (Zpos p) 0 loc_Exact =
               (iter_pos shr_1 k (Build_shr_record (Zpos p) false false), Zpos k)).
  { unfold shr_fexp, fexp, emin. cbn [Zdigits2 shr_record_of_loc]. fold d.
    replace (Z.max (d + 0 - 24) (3 - 128 - 24) - 0) with (Zpos k) by lia.
    reflexivity. }
  unfold binary_round_aux. rewrite H1, round_after_shift.
  pose proof (shifted_mantissa_bounds p k ltac:(fold d; lia)) as Hq.
  pose proof (rne_bounds (Zpos p) (Zpos k)) as Hr.
  rewrite second_shift by lia.
  destruct (Z.eqb_spec (rne (Zpos p) (Zpos k)) (2 ^ 24)) as [E|NE].
  - cbn [shr_m]. reflexivity.
  - cbn [shr_m]. destruct (rne (Zpos p) (Zpos k)) as [|q|q] eqn:Eq; try lia.
    reflexivity.
Qed.

Lemma rne_mono (a b n : Z) : 0 < n -> 0 <= a <= b -> rne a n <= rne b n.
Proof.
  intros Hn Hab. unfold rne.
  assert (P : 0 < 2 ^ (n - 1)) by (apply Z.pow_pos_nonneg; lia).
  assert (E : 2 ^ n = 2 ^ (n - 1) * 2).
  { replace n with (Z.succ (n - 1)) at 1 by lia. rewrite Z.pow_succ_r by lia. lia. }
  rewrite E, <- !Z.div_div by lia.
  pose proof (Z.div_le_mono a b (2 ^ (n - 1)) P (proj2 Hab)) as Hh.
  pose proof (Z.div_mod a (2 ^ (n - 1)) ltac:(lia)) as Da.
  pose proof (Z.div_mod b (2 ^ (n - 1)) ltac:(lia)) as Db.
  pose proof (Z.mod_pos_bound a (2 ^ (n - 1)) P) as Ra.
  pose proof (Z.mod_pos_bound b (2 ^ (n - 1)) P) as Rb.
  set (ha := a / 2 ^ (n - 1)) in *. set (hb := b / 2 ^ (n - 1)) in *.
  set (ra := a mod 2 ^ (n - 1)) in *. set (rb := b mod 2 ^ (n - 1)) in *.
  pose proof (Z.div_mod ha 2 ltac:(lia)) as Dha. rewrite Zmod_odd in Dha.
  pose proof (Z.div_mod hb 2 ltac:(lia)) as Dhb. rewrite Zmod_odd in Dhb.
  pose proof (Z.div_le_mono ha hb 2 ltac:(lia) Hh) as Hq.
  assert (Hcase : ha < hb \/ (ha = hb /\ ra <= rb)) by nia.
  destruct Hcase as [Hlt|[Heq Hr]].
  - destruct (Z.odd ha), (Z.odd hb), (Z.eqb_spec ra 0), (Z.eqb_spec rb 0),
      (Z.even (ha / 2)), (Z.even (hb / 2)); cbn [negb]; lia.
  - rewrite Heq in *.
    destruct (Z.odd hb), (Z.eqb_spec ra 0), (Z.eqb_spec rb 0),
      (Z.even (hb / 2)); cbn [negb]; lia.
Qed.

Lemma of_Z_by_key (p : positive) : F32.of_Z (Zpos p) = float_of_key (of_Z_key p).
Proof.
  unfold of_Z_key, float_of_key.
  destruct (Z.leb_spec (Zpos (digits2_pos p)) 24) as [Hs|Hl].
  - rewrite (of_Z_small p Hs). cbn [fst snd].
    replace (Zpos (digits2_pos p) - 24 <=? 104) with true; [reflexivity|].
    symmetry. apply Z.leb_le. lia.
  - rewrite (of_Z_large p Hl). cbv zeta.
    destruct (rne (Zpos p) (Zpos (digits2_pos p) - 24) =? 2 ^ 24); reflexivity.
Qed.

Lemma of_Z_key_mantissa (p : positive) :
  2 ^ 23 <= snd (of_Z_key p) < 2 ^ 24.
Proof.
  unfold of_Z_key. pose proof (digits2_bounds p) as [Hlo Hhi].
  set (d := Zpos (digits2_pos p)) in *.
  assert (Hd : 0 < d) by (subst d; lia).
  destruct (Z.leb_spec d 24) as [Hs|Hl]; cbn [snd].
  - assert (P : 0 < 2 ^ (24 - d)) by (apply Z.pow_pos_nonneg; lia).
    replace (2 ^ 23) with (2 ^ (d - 1) * 2 ^ (24 - d)).
    2:{ rewrite <- Z.pow_add_r by lia. f_equal. lia. }
    replace (2 ^ 24) with (2 ^ d * 2 ^ (24 - d)).
    2:{ rewrite <- Z.pow_add_r by lia. f_equal. lia. }
    nia.
  - destruct (d - 24) as [|k|k] eqn:Ek; try lia.
    pose proof (shifted_mantissa_bounds p k ltac:(fold d; lia)) as Hq.
    pose proof (rne_bounds (Zpos p) (Zpos k)) as Hr.
    destruct (Z.eqb_spec (rne (Zpos p) (Zpos k)) (2 ^ 24)); cbn [snd]; lia.
Qed.

Lemma digits2_mono (a b : positive) :
  (a <= b)%positive -> Zpos (digits2_pos a) <= Zpos (digits2_pos b).
Proof.
  intros Hab. pose proof (digits2_bounds a) as [Alo _].
  pose proof (digits2_bounds b) as [_ Bhi].
  assert (H : 2 ^ (Zpos (digits2_pos a) - 1) < 2 ^ Zpos (digits2_pos b)) by lia.
  apply Z.pow_lt_mono_r_iff in H; lia.
Qed.

Lemma of_Z_key_mono (a b : positive) :
  (a <= b)%positive ->
  fst (of_Z_key a) < fst (of_Z_key b)
  \/ (fst (of_Z_key a) = fst (of_Z_key b) /\ snd (of_Z_key a) <= snd (of_Z_key b)).
Proof.
  intros Hab. pose proof (digits2_mono a b Hab) as Hd.
  pose proof (of_Z_key_mantissa a) as Ma. pose proof (of_Z_key_mantissa b) as Mb.
  unfold of_Z_key in *.
  set (da := Zpos (digits2_pos a)) in *. set (db := Zpos (digits2_pos b)) in *.
  assert (0 < da) by (subst da; lia).
  destruct (Z.leb_spec da 24) as [Sa|La], (Z.leb_spec db 24) as [Sb|Lb];
    cbn [fst snd] in *; try lia.
  - destruct (Z.eq_dec da db) as [E|NE]; [right|left; lia].
    split; [lia|]. rewrite E.
    assert (0 < 2 ^ (24 - db)) by (apply Z.pow_pos_nonneg; lia). nia.
  - destruct (Z.eqb_spec (rne (Zpos b) (db - 24)) (2 ^ 24)); cbn [fst]; lia.
  - pose proof (rne_bounds (Zpos a) (da - 24)) as Ra.
    destruct (Z.eq_dec da db) as [E|NE].
    + rewrite <- E in *.
      pose proof (rne_mono (Zpos a) (Zpos b) (da - 24) ltac:(lia) ltac:(lia)) as Hr.
      destruct (Z.eqb_spec (rne (Zpos a) (da - 24)) (2 ^ 24)),
               (Z.eqb_spec (rne (Zpos b) (da - 24)) (2 ^ 24));
        cbn [fst snd] in *; lia.
    + destruct (Z.eqb_spec (rne (Zpos a) (da - 24)) (2 ^ 24)),
               (Z.eqb_spec (rne (Zpos b) (db - 24)) (2 ^ 24));
        cbn [fst snd] in *; lia.
Qed.

Lemma float_of_key_le (ka kb : Z * Z) :
  0 < snd ka -> 0 < snd kb ->
  fst ka < fst kb \/ (fst ka = fst kb /\ snd ka <= snd kb) ->
  F32.leb (float_of_key ka) (float_of_key kb) = true.
Proof.
  destruct ka as [ea ma], kb as [eb mb]. cbn [fst snd]. intros Pa Pb H.
  unfold float_of_key, F32.leb, SFleb, SFcompare. cbn [fst snd].
  destruct (Z.leb_spec ea 104), (Z.leb_spec eb 104); try reflexivity; try lia.
  destruct (Z.compare_spec ea eb); try reflexivity; try lia.
  rewrite Pos.compare_cont_spec. cbn [Pos.switch_Eq].
  destruct (Pos.compare_spec (Z.to_pos ma) (Z.to_pos mb)); try reflexivity.
  lia.
Qed.

(** Converting integers to [float] preserves their order. *)
Lemma of_Z_mono (a b : Z) :
  0 <= a <= b -> F32.leb (F32.of_Z a) (F32.of_Z b) = true.
Proof.
  intros [Ha Hab]. destruct a as [|a|a]; [|
    |lia].
  - destruct b as [|b|b]; [reflexivity| |lia].
    rewrite of_Z_by_key. unfold float_of_key.
    destruct (fst (of_Z_key b) <=? 104); reflexivity.
  - destruct b as [|b|b]; try lia.
    rewrite !of_Z_by_key. apply float_of_key_le.
    + pose proof (of_Z_key_mantissa a). lia.
    + pose proof (of_Z_key_mantissa b). lia.
    + apply of_Z_key_mono. lia.
Qed.

(** *** Validity of the results *)

Lemma shr_m_iter (n : nat) (mrs : shr_record) :
  0 <= shr_m mrs -> shr_m (Nat.iter n shr_1 mrs) = shr_m mrs / 2 ^ Z.of_nat n.
Proof.
  intros Hm. induction n as [|n IH].
  - cbn. now rewrite Z.div_1_r.
  - change (Nat.iter (S n) shr_1 mrs) with (shr_1 (Nat.iter n shr_1 mrs)).
    assert (H0 : 0 <= shr_m (Nat.iter n shr_1 mrs)).
    { rewrite IH. apply Z.div_pos; [lia|]. apply Z.pow_pos_nonneg; lia. }
    destruct (Nat.iter n shr_1 mrs) as [m r s] eqn:E. cbn [shr_m] in *.
    rewrite shr_1_nonneg by exact H0. cbn [shr_m]. rewrite IH.
    rewrite Nat2Z.inj_succ, Z.pow_succ_r by lia.
    rewrite Z.div_div by (try lia; apply Z.pow_pos_nonneg; lia).
    f_equal. lia.
Qed.

Lemma Zdigits2_bounds (z : Z) :
  0 < z -> 2 ^ (Zdigits2 z - 1) <= z < 2 ^ Zdigits2 z.
Proof.
  intros Hz. destruct z as [|p|p]; try lia. apply digits2_bounds.
Qed.

Lemma Zdigits2_unique (z d : Z) :
  0 < z -> 2 ^ (d - 1) <= z < 2 ^ d -> Zdigits2 z = d.
Proof.
  intros Hz H. destruct z as [|p|p]; try lia. now apply digits2_unique.
Qed.

Lemma Zdigits2_pos (z : Z) : 0 < z -> 0 < Zdigits2 z.
Proof. destruct z; cbn; lia. Qed.

Lemma Zdigits2_shift (z n : Z) :
  0 < z -> 0 <= n ->
  (n < Zdigits2 z -> 0 < z / 2 ^ n /\ Zdigits2 (z / 2 ^ n) = Zdigits2 z - n)
  /\ (Zdigits2 z <= n -> z / 2 ^ n = 0).
Proof.
  intros Hz Hn. pose proof (Zdigits2_bounds z Hz) as [Hlo Hhi].
  set (d := Zdigits2 z) in *.
  assert (P : 0 < 2 ^ n) by (apply Z.pow_pos_nonneg; lia).
  split.
  - intros Hlt.
    assert (Hq : 2 ^ (d - n - 1) <= z / 2 ^ n < 2 ^ (d - n)).
    { split.
      - apply Z.div_le_lower_bound; [lia|].
        rewrite <- Z.pow_add_r by lia. replace (n + (d - n - 1)) with (d - 1) by lia.
        exact Hlo.
      - apply Z.div_lt_upper_bound; [lia|].
        rewrite <- Z.pow_add_r by lia. replace (n + (d - n)) with d by lia.
        exact Hhi. }
    assert (0 < 2 ^ (d - n - 1)) by (apply Z.pow_pos_nonneg; lia).
    split; [lia|]. apply Zdigits2_unique; [lia|exact Hq].
  - intros Hge. apply Z.div_small. split; [lia|].
    assert (2 ^ d <= 2 ^ n) by (apply Z.pow_le_mono_r; lia). lia.
Qed.

Lemma shr_fexp_spec (m e : Z) (l : location) :
  0 <= m ->
  let n := fexp 24 128 (Zdigits2 m + e) - e in
  0 <= n ->
  exists mrs, shr_fexp 24 128 m e l = (mrs, e + n) /\ shr_m mrs = m / 2 ^ n.
Proof.
  intros Hm n Hn. unfold shr_fexp. fold n.
  assert (Hrec : shr_m (shr_record_of_loc m l) = m) by (destruct l as [|[| |]]; reflexivity).
  destruct n as [|p|p] eqn:En; try lia.
  - eexists. cbn [shr]. split; [f_equal; lia|]. rewrite Hrec. now rewrite Z.div_1_r.
  - eexists. cbn [shr]. split; [reflexivity|].
    rewrite iter_pos_nat, shr_m_iter by (rewrite Hrec; exact Hm).
    rewrite Hrec. f_equal. f_equal. lia.
Qed.

Lemma fexp_32 (x : Z) : fexp 24 128 x = Z.max (x - 24) (-149).
Proof. reflexivity. Qed.

Lemma shift_canon (m e : Z) (l : location) :
  0 <= m -> e <= fexp 24 128 (Zdigits2 m + e) ->
  exists mrs e', shr_fexp 24 128 m e l = (mrs, e')
                 /\ canon_or_tiny (shr_m mrs) e'.
Proof.
  intros Hm He.
  destruct (shr_fexp_spec m e l Hm ltac:(lia)) as (mrs & Hs & Hq).
  exists mrs, (e + (fexp 24 128 (Zdigits2 m + e) - e)). split; [exact Hs|].
  rewrite Hq. replace (e + (fexp 24 128 (Zdigits2 m + e) - e))
    with (fexp 24 128 (Zdigits2 m + e)) by lia.
  set (n := fexp 24 128 (Zdigits2 m + e) - e) in *.
  destruct (Z.eq_dec m 0) as [->|Hne].
  - left. rewrite Z.div_0_l by (apply Z.pow_nonzero; lia).
    split; [reflexivity|]. rewrite fexp_32 in *. cbn [Zdigits2] in *. lia.
  - assert (Hpos : 0 < m) by lia.
    destruct (Zdigits2_shift m n Hpos ltac:(lia)) as [Hlt Hge].
    destruct (Z.lt_ge_cases n (Zdigits2 m)) as [Hc|Hc].
    + right. destruct (Hlt Hc) as [Hq0 Hd]. split; [exact Hq0|].
      rewrite Hd. f_equal. unfold n. lia.
    + left. split; [now apply Hge|].
      unfold n in Hc. rewrite fexp_32 in *. lia.
Qed.

Lemma Zdigits2_mono (a b : Z) : 0 <= a <= b -> Zdigits2 a <= Zdigits2 b.
Proof.
  intros [Ha Hab]. destruct a as [|a|a]; try lia.
  - destruct b; cbn; lia.
  - destruct b as [|b|b]; try lia. cbn. apply digits2_mono. lia.
Qed.

Lemma round_canon (m m1 e : Z) :
  canon_or_tiny m e -> m <= m1 <= m + 1 ->
  0 <= m1 /\ e <= fexp 24 128 (Zdigits2 m1 + e).
Proof.
  intros [[-> ->]|[Hm Hc]] Hr.
  - split; [lia|]. rewrite fexp_32. lia.
  - split; [lia|]. pose proof (Zdigits2_mono m m1 ltac:(lia)) as Hd.
    rewrite fexp_32 in *. lia.
Qed.

Lemma round_nearest_even_bounds (m : Z) (l : location) :
  m <= round_nearest_even m l <= m + 1.
Proof. destruct l as [|[| |]]; cbn; try destruct (Z.even m); lia. Qed.

Lemma canon_valid (s : bool) (m : positive) (e : Z) :
  canon_or_tiny (Zpos m) e -> e <= 104 ->
  F32.valid (S754_finite s m e) = true.
Proof.
  intros [[H _]|[_ Hc]] He; [discriminate|].
  unfold F32.valid, valid_binary, bounded, canonical_mantissa, F32.prec, F32.emax.
  cbn [Zdigits2] in Hc. rewrite Hc, Z.eqb_refl. cbn [andb]. apply Z.leb_le. lia.
Qed.

(** Rounding yields a valid float. *)
Lemma binary_round_aux_valid (s : bool) (m e : Z) (l : location) :
  0 <= m -> e <= fexp 24 128 (Zdigits2 m + e) ->
  F32.valid (binary_round_aux 24 128 s m e l) = true.
Proof.
  intros Hm He. unfold binary_round_aux.
  destruct (shift_canon m e l Hm He) as (mrs' & e' & -> & Hc1).
  pose proof (round_nearest_even_bounds (shr_m mrs') (loc_of_shr_record mrs')) as Hr.
  destruct (round_canon _ _ _ Hc1 Hr) as [H1 H2].
  destruct (shift_canon _ e' loc_Exact H1 H2) as (mrs'' & e'' & -> & Hc2).
  destruct (shr_m mrs'') as [|p|p] eqn:E; try reflexivity.
  destruct (Z.leb_spec e'' (128 - 24)); [|reflexivity].
  apply canon_valid; [exact Hc2|lia].
Qed.

Lemma binary_round_valid (s : bool) (m : positive) (e : Z) :
  F32.valid (binary_round 24 128 s m e) = true.
Proof.
  unfold binary_round, shl_align.
  set (F := fexp 24 128 (Zpos (digits2_pos m) + e)).
  destruct (F - e) as [|k|k] eqn:Ek.
  - apply binary_round_aux_valid; [lia|]. cbn [Zdigits2]. fold F. lia.
  - apply binary_round_aux_valid; [lia|]. cbn [Zdigits2]. fold F. lia.
  - apply binary_round_aux_valid; [lia|].
    assert (Hd : Zdigits2 (Zpos (Pos.iter xO m k)) = Zpos (digits2_pos m) + Zpos k).
    { apply Zdigits2_unique; [lia|]. rewrite pos_iter_xO.
      pose proof (digits2_bounds m) as [Hlo Hhi].
      assert (P : 0 < 2 ^ Zpos k) by (apply Z.pow_pos_nonneg; lia).
      replace (Zpos (digits2_pos m) + Zpos k - 1)
        with (Zpos (digits2_pos m) - 1 + Zpos k) by lia.
      rewrite !Z.pow_add_r by lia. nia. }
    rewrite Hd. replace (Zpos (digits2_pos m) + Zpos k + F)
      with (Zpos (digits2_pos m) + e) by lia.
    fold F. lia.
Qed.

Lemma binary_normalize_valid (m e : Z) (sz : bool) :
  F32.valid (binary_normalize 24 128 m e sz) = true.
Proof.
  destruct m; cbn [binary_normalize]; [reflexivity| |]; apply binary_round_valid.
Qed.

Lemma of_Z_valid (z : Z) : F32.valid (F32.of_Z z) = true.
Proof. apply binary_normalize_valid. Qed.

Lemma add_valid (x y : F32.f32) :
  F32.valid x = true -> F32.valid y = true -> F32.valid (F32.add x y) = true.
Proof.
  intros Hx Hy. unfold F32.add, SFadd.
  destruct x as [sx|sx| |sx mx ex], y as [sy|sy| |sy my ey];
    try reflexivity; try assumption;
    try (destruct sx, sy; reflexivity).
  apply binary_normalize_valid.
Qed.

Lemma sub_valid (x y : F32.f32) :
  F32.valid x = true -> F32.valid y = true -> F32.valid (F32.sub x y) = true.
Proof.
  intros Hx Hy. unfold F32.sub, SFsub.
  destruct x as [sx|sx| |sx mx ex], y as [sy|sy| |sy my ey];
    try reflexivity; try assumption;
    try (destruct sx, sy; reflexivity).
  apply binary_normalize_valid.
Qed.

(** What validity says of a finite float. *)
Lemma valid_finite (s : bool) (m : positive) (e : Z) :
  F32.valid (S754_finite s m e) = true ->
  let d := Zpos (digits2_pos m) in
  -149 <= e <= 104 /\ d <= 24 /\ (d = 24 \/ e = -149).
Proof.
  unfold F32.valid, valid_binary, bounded, canonical_mantissa, F32.prec, F32.emax.
  rewrite andb_true_iff, Z.eqb_eq, Z.leb_le, fexp_32. lia.
Qed.

Lemma Zdigits2_mul (a b : positive) :
  Zpos (digits2_pos a) + Zpos (digits2_pos b) - 1 <= Zpos (digits2_pos (a * b)).
Proof.
  pose proof (digits2_bounds a) as [Alo _]. pose proof (digits2_bounds b) as [Blo _].
  pose proof (digits2_bounds (a * b)) as [_ Chi].
  set (da := Zpos (digits2_pos a)) in *. set (db := Zpos (digits2_pos b)) in *.
  set (dc := Zpos (digits2_pos (a * b))) in *.
  assert (0 < da) by (subst da; lia). assert (0 < db) by (subst db; lia).
  assert (H2 : 2 ^ (da - 1 + (db - 1)) <= Zpos a * Zpos b).
  { rewrite Z.pow_add_r by lia.
    assert (0 < 2 ^ (da - 1)) by (apply Z.pow_pos_nonneg; lia).
    assert (0 < 2 ^ (db - 1)) by (apply Z.pow_pos_nonneg; lia). nia. }
  rewrite Pos2Z.inj_mul in Chi.
  assert (H3 : 2 ^ (da - 1 + (db - 1)) < 2 ^ dc) by lia.
  apply Z.pow_lt_mono_r_iff in H3; [lia|lia|subst dc; lia].
Qed.

Lemma mul_valid (x y : F32.f32) :
  F32.valid x = true -> F32.valid y = true -> F32.valid (F32.mul x y) = true.
Proof.
  intros Hx Hy. unfold F32.mul, SFmul.
  destruct x as [sx|sx| |sx mx ex], y as [sy|sy| |sy my ey]; try reflexivity.
  apply valid_finite in Hx, Hy. cbv zeta in Hx, Hy.
  apply binary_round_aux_valid; [lia|]. cbn [Zdigits2].
  pose proof (Zdigits2_mul mx my). rewrite fexp_32. lia.
Qed.

Lemma Zdigits2_ge_24 (q : Z) : 2 ^ 23 <= q -> 24 <= Zdigits2 q.
Proof.
  intros Hq. change 24 with (Zdigits2 (2 ^ 23)). apply Zdigits2_mono.
  split; [cbn; lia|exact Hq].
Qed.

Lemma div_valid (x y : F32.f32) :
  F32.valid x = true -> F32.valid y = true -> F32.valid (F32.div x y) = true.
Proof.
  intros Hx Hy. unfold F32.div, SFdiv.
  destruct x as [sx|sx| |sx mx ex], y as [sy|sy| |sy my ey]; try reflexivity.
  apply valid_finite in Hx. cbv zeta in Hx. clear Hy.
  unfold SFdiv_core_binary. cbn [Zdigits2].
  pose proof (digits2_bounds mx) as [Xlo Xhi]. pose proof (digits2_bounds my) as [Ylo Yhi].
  set (d1 := Zpos (digits2_pos mx)) in *. set (d2 := Zpos (digits2_pos my)) in *.
  assert (Hd2 : 0 < d2) by (subst d2; lia).
  assert (Hd1 : 0 < d1) by (subst d1; lia).
  set (e' := Z.min (fexp F32.prec F32.emax (d1 + ex - (d2 + ey))) (ex - ey)).
  set (s := ex - ey - e').
  assert (Hs : 0 <= s) by (unfold s, e'; lia).
  set (m' := match s with Zpos _ => Z.shiftl (Zpos mx) s | 0 => Zpos mx | Zneg _ => 0 end).
  assert (Hm' : m' = Zpos mx * 2 ^ s).
  { unfold m'. destruct s as [|p|p] eqn:Es; try lia.
    apply Z.shiftl_mul_pow2. lia. }
  assert (Hq : fst (Z.div_eucl m' (Zpos my)) = m' / Zpos my) by reflexivity.
  destruct (Z.div_eucl m' (Zpos my)) as [q r]. cbn [fst] in Hq. subst q.
  assert (P : 0 < 2 ^ s) by (apply Z.pow_pos_nonneg; lia).
  apply binary_round_aux_valid.
  - apply Z.div_pos; lia.
  - rewrite fexp_32. destruct (Z.le_gt_cases e' (-149)) as [Hle|Hgt]; [lia|].
    assert (He' : e' = d1 + ex - (d2 + ey) - 24).
    { unfold e' in *. change (fexp F32.prec F32.emax) with (fexp 24 128) in *.
      rewrite fexp_32 in *. lia. }
    assert (Es : s = d2 + 24 - d1) by (unfold s; lia).
    assert (H23 : 2 ^ 23 <= m' / Zpos my).
    { apply Z.div_le_lower_bound; [lia|]. rewrite Hm'.
      assert (H1 : 2 ^ (d2 + 23) <= Zpos mx * 2 ^ s).
      { replace (d2 + 23) with ((d1 - 1) + s) by lia.
        rewrite Z.pow_add_r by lia. nia. }
      rewrite Z.pow_add_r in H1 by lia.
      assert (0 < 2 ^ 23) by lia. nia. }
    pose proof (Zdigits2_ge_24 _ H23). lia.
Qed.

Lemma sqrt_valid (x : F32.f32) :
  F32.valid x = true -> F32.valid (F32.sqrt x) = true.
Proof.
  intros Hx. unfold F32.sqrt, SFsqrt.
  destruct x as [sx|[|]| |[|] mx ex]; try reflexivity.
  apply valid_finite in Hx. cbv zeta in Hx.
  unfold SFsqrt_core_binary. cbn [Zdigits2].
  pose proof (digits2_bounds mx) as [Xlo Xhi].
  set (d := Zpos (digits2_pos mx)) in *.
  assert (Hd : 0 < d) by (subst d; lia).
  rewrite !Z.div2_div.
  set (e' := Z.min (fexp F32.prec F32.emax ((d + ex + 1) / 2)) (ex / 2)).
  set (s := ex - 2 * e').
  pose proof (Z.div_mod ex 2 ltac:(lia)) as De.
  pose proof (Z.mod_pos_bound ex 2 ltac:(lia)) as Re.
  pose proof (Z.div_mod (d + ex + 1) 2 ltac:(lia)) as Du.
  pose proof (Z.mod_pos_bound (d + ex + 1) 2 ltac:(lia)) as Ru.
  assert (Hs : 0 <= s) by (unfold s, e'; lia).
  set (m' := match s with Zpos _ => Z.shiftl (Zpos mx) s | 0 => Zpos mx | Zneg _ => 0 end).
  assert (Hm' : m' = Zpos mx * 2 ^ s).
  { unfold m'. destruct s as [|p|p] eqn:Es; try lia.
    apply Z.shiftl_mul_pow2. lia. }
  assert (Hq : fst (Z.sqrtrem m') = Z.sqrt m') by apply Z.sqrtrem_sqrt.
  destruct (Z.sqrtrem m') as [q r]. cbn [fst] in Hq. subst q.
  assert (P : 0 < 2 ^ s) by (apply Z.pow_pos_nonneg; lia).
  apply binary_round_aux_valid.
  - apply Z.sqrt_nonneg.
  - rewrite fexp_32. destruct (Z.le_gt_cases e' (-149)) as [Hle|Hgt]; [lia|].
    assert (He' : e' = (d + ex + 1) / 2 - 24).
    { unfold e' in *. change (fexp F32.prec F32.emax) with (fexp 24 128) in *.
      rewrite fexp_32 in *. lia. }
    assert (Es : 47 - d <= s) by (unfold s; lia).
    assert (H46 : 2 ^ 46 <= m').
    { rewrite Hm'.
      assert (H1 : 2 ^ (47 - d) <= 2 ^ s) by (apply Z.pow_le_mono_r; lia).
      replace 46 with ((d - 1) + (47 - d)) by lia. rewrite Z.pow_add_r by lia.
      assert (0 < 2 ^ (47 - d)) by (apply Z.pow_pos_nonneg; lia). nia. }
    assert (H23 : 2 ^ 23 <= Z.sqrt m').
    { change (2 ^ 23) with (Z.sqrt (2 ^ 46)). now apply Z.sqrt_le_mono. }
    pose proof (Zdigits2_ge_24 _ H23). lia.
Qed.


Lemma clamp_valid (v lo hi : F32.f32) :
  F32.valid v = true -> F32.valid lo = true -> F32.valid hi = true ->
  F32.valid (F32.clamp v lo hi) = true.
Proof.
  intros Hv Hlo Hhi. unfold F32.clamp.
  destruct (F32.ltb v lo); [exact Hlo|]. now destruct (F32.ltb hi v).
Qed.

Lemma float_of_double_valid (d : spec_float) : F32.valid (float_of_double d) = true.
Proof.
  destruct d; try reflexivity. apply binary_round_valid.
Qed.

(** *** Order *)

Lemma ltb_leb_trans (x a b : F32.f32) :
  F32.ltb x a = true -> F32.leb a b = true -> F32.ltb x b = true.
Proof.
  unfold F32.ltb, F32.leb, SFltb, SFleb, SFcompare.
  destruct x as [sx|sx| |sx mx ex], a as [sa|sa| |sa ma ea], b as [sb|sb| |sb mb eb];
    try discriminate; try reflexivity;
    try destruct sx; try destruct sa; try destruct sb;
    try discriminate; try reflexivity;
    intros H1 H2; cmp_cases; cbn in *; try discriminate; try reflexivity; lia.
Qed.

Lemma leb_not_ltb (a b : F32.f32) :
  F32.leb a b = true -> F32.ltb b a = false.
Proof.
  unfold F32.ltb, F32.leb, SFltb, SFleb, SFcompare.
  destruct a as [sa|sa| |sa ma ea], b as [sb|sb| |sb mb eb];
    try discriminate; try reflexivity;
    try destruct sa; try destruct sb;
    try discriminate; try reflexivity;
    intros H1; cmp_cases; cbn in *; try discriminate; try reflexivity; lia.
Qed.

Lemma ltb_false_leb (a b : F32.f32) :
  F32.ltb a b = false -> a = S754_nan \/ b = S754_nan \/ F32.leb b a = true.
Proof.
  intros H.
  destruct a as [[|]|[|]| |[|] ma ea]; try (now left);
    destruct b as [[|]|[|]| |[|] mb eb]; try (now right; left);
    right; right; revert H; unfold F32.ltb, F32.leb, SFltb, SFleb, SFcompare;
    try discriminate; try reflexivity;
    intros H1; cmp_cases; cbn in *; try discriminate; try reflexivity; lia.
Qed.

Lemma all_below_spec (n : nat) (P : Z -> bool) :
  all_below n P = true -> forall z, 0 <= z < Z.of_nat n -> P z = true.
Proof.
  induction n as [|k IH]; intros H z Hz; [lia|].
  cbn [all_below] in H. apply andb_true_iff in H. destruct H as [Hk Hr].
  destruct (Z.eq_dec z (Z.of_nat k)) as [->|Hne]; [exact Hk|].
  apply IH; [exact Hr|lia].
Qed.

Lemma sf_eqb_eq (a b : spec_float) : sf_eqb a b = true -> a = b.
Proof.
  destruct a as [s1|s1| |s1 m1 e1], b as [s2|s2| |s2 m2 e2]; cbn;
    try discriminate; try reflexivity.
  - intros H. apply Bool.eqb_prop in H. congruence.
  - intros H. apply Bool.eqb_prop in H. congruence.
  - rewrite !andb_true_iff, Pos.eqb_eq, Z.eqb_eq.
    intros [[H1 H2] H3]. apply Bool.eqb_prop in H1. congruence.
Qed.

(** For a fade duration of a whole number of milliseconds the threshold
    of the eviction test is that number plus 50, exactly. *)
Lemma threshold_of_int_fade (f : Z) :
  1 <= f <= 1000 -> F32.add (F32.of_Z f) f_50 = F32.of_Z (f + 50).
Proof.
  intros Hf. apply sf_eqb_eq.
  assert (H : all_below 1001
            (fun z => sf_eqb (F32.add (F32.of_Z z) f_50) (F32.of_Z (z + 50))) = true)
    by (vm_compute; reflexivity).
  apply (all_below_spec _ _ H). lia.
Qed.

Lemma of_Z_succ_lt (k : Z) :
  0 <= k <= 1050 -> F32.ltb (F32.of_Z k) (F32.of_Z (k + 1)) = true.
Proof.
  intros Hk.
  assert (H : all_below 1051
            (fun z => F32.ltb (F32.of_Z z) (F32.of_Z (z + 1))) = true)
    by (vm_compute; reflexivity).
  apply (all_below_spec _ _ H). lia.
Qed.

(** *** Zero and the conversion to a byte *)





Lemma clamp_zero (x : F32.f32) :
  F32.is_zero x = true -> F32.clamp x F32.zero f_255 = x.
Proof. destruct x as [[|]| | |]; try discriminate; reflexivity. Qed.


(** For a float between 0 and 255 the conversion to [BYTE] is its integer
    part, and the integer part is at least 3 exactly when the float is. *)
Lemma byte_ge_3 (c : F32.f32) :
  F32.valid c = true ->
  F32.ltb c F32.zero = false -> F32.ltb f_255 c = false ->
  0 <= F32.trunc c <= 255
  /\ F32.to_byte c = F32.trunc c
  /\ (3 <= F32.to_byte c <-> F32.leb f_3 c = true).
Proof.
  intros Hv H0 H255.
  assert (Hmain : 0 <= F32.trunc c <= 255
                  /\ (3 <= F32.trunc c <-> F32.leb f_3 c = true)).
  { destruct c as [s|[|]| |[|] m e]; try discriminate;
      try (cbn; split; [lia|split; [lia|discriminate]]).
    unfold F32.valid, valid_binary, bounded, canonical_mantissa, fexp, emin,
      F32.prec, F32.emax in Hv.
    apply andb_true_iff in Hv. destruct Hv as [Hc _]. apply Z.eqb_eq in Hc.
    pose proof (digits2_bounds m) as [Dlo Dhi].
    set (d := Zpos (digits2_pos m)) in *.
    assert (Hd : 0 < d) by (subst d; lia).
    unfold F32.ltb, SFltb, SFcompare, f_255 in H255.
    assert (He : e <= -16 /\ (e = -16 -> Zpos m <= 16711680)).
    { destruct (Z.compare_spec (-16) e) as [E|E|E]; try discriminate; [|lia].
      subst e. split; [lia|intros _].
      rewrite Pos.compare_cont_spec in H255. cbn [Pos.switch_Eq] in H255.
      rewrite Pos2Z.inj_compare in H255.
      destruct (Z.compare_spec 16711680 (Zpos m)); try discriminate; lia. }
    destruct He as [He He'].
    assert (Hm : Zpos m < 2 ^ 24).
    { assert (d <= 24) by lia.
      assert (2 ^ d <= 2 ^ 24) by (apply Z.pow_le_mono_r; lia). lia. }
    cbn [F32.trunc cond_Zopp]. rewrite Z.shiftl_div_pow2 by lia.
    assert (P : 2 ^ 16 <= 2 ^ (- e)) by (apply Z.pow_le_mono_r; lia).
    assert (Q : 0 < 2 ^ (- e)) by lia.
    split.
    - split; [apply Z.div_pos; lia|].
      assert (Zpos m / 2 ^ (- e) < 256); [|lia].
      apply Z.div_lt_upper_bound; [lia|]. change (2 ^ 24) with (2 ^ 16 * 256) in Hm. nia.
    - unfold F32.leb, SFleb, SFcompare, f_3.
      destruct (Z.compare_spec (-22) e) as [E|E|E].
      + subst e. rewrite Pos.compare_cont_spec. cbn [Pos.switch_Eq].
        change (2 ^ (- -22)) with 4194304.
        rewrite Pos2Z.inj_compare.
        destruct (Z.compare_spec 12582912 (Zpos m)) as [C|C|C].
        * rewrite <- C. cbn. split; [reflexivity|lia].
        * split; [reflexivity|intros _]. apply Z.div_le_lower_bound; lia.
        * split; [|discriminate]. intros H3. exfalso.
          assert (Zpos m / 4194304 < 3); [|lia].
          apply Z.div_lt_upper_bound; lia.
      + split; [reflexivity|intros _].
        assert (Dn : d = 24) by lia.
        assert (Hlo : 2 ^ 23 <= Zpos m) by (rewrite Dn in Dlo; exact Dlo).
        assert (P' : 2 ^ (- e) <= 2 ^ 21) by (apply Z.pow_le_mono_r; lia).
        apply Z.div_le_lower_bound; [lia|].
        change (2 ^ 23) with (4 * 2 ^ 21) in Hlo. nia.
      + split; [|discriminate]. intros H3. exfalso.
        assert (P' : 2 ^ 23 <= 2 ^ (- e)) by (apply Z.pow_le_mono_r; lia).
        assert (Zpos m / 2 ^ (- e) < 3); [|lia].
        apply Z.div_lt_upper_bound; [lia|].
        change (2 ^ 24) with (2 * 2 ^ 23) in Hm. nia. }
  destruct Hmain as [Hr Hiff].
  assert (Hb : F32.to_byte c = F32.trunc c).
  { unfold F32.to_byte, F32.to_int, Int32.min_signed, Int32.max_signed.
    destruct c as [s|[|]| |s m e]; try discriminate; try reflexivity.
    destruct (Z.leb_spec (- 2 ^ 31) (F32.trunc (S754_finite s m e))),
             (Z.leb_spec (F32.trunc (S754_finite s m e)) (2 ^ 31 - 1));
      cbn [andb]; try lia.
    apply Z.mod_small. lia. }
  rewrite Hb. auto.
Qed.

(** ** Sample buffer *)

Lemma back_push (trail : Trail) (s : Sample) : back (push_back trail s) = Some s.
Proof.
  unfold push_back. induction trail as [|a l IH]; [reflexivity|].
  simpl. destruct (l ++ [s]) eqn:E; [destruct l; discriminate|exact IH].
Qed.

Lemma back_none (trail : Trail) : back trail = None <-> trail = [].
Proof.
  split; [|intros ->; reflexivity].
  induction trail as [|a l IH]; [reflexivity|].
  simpl. destruct l; [discriminate|]. intros H. specialize (IH H). discriminate.
Qed.

Lemma back_In (trail : Trail) (s : Sample) : back trail = Some s -> In s trail.
Proof.
  induction trail as [|a l IH]; [discriminate|].
  simpl. destruct l; [intros [= ->]; now left|]. intros H. right. now apply IH.
Qed.

(** The eviction loop removes a prefix of expired samples and stops at the
    first sample that is not expired. *)
Lemma evict_expired_prefix (cfg : Config) (now : time_point) (trail : Trail) :
  exists k : nat,
    (k <= length trail)%nat
    /\ evict_expired cfg now trail = skipn k trail
    /\ (forall s, In s (firstn k trail) -> expired cfg now s = true)
    /\ (forall s, hd_error (skipn k trail) = Some s -> expired cfg now s = false).
Proof.
  induction trail as [|a l IH].
  - exists 0%nat. simpl. split; [lia|]. split; [reflexivity|].
    split; intros s H; [contradiction|discriminate].
  - simpl. destruct (expired cfg now a) eqn:E.
    + destruct IH as (k & Hk & Heq & Hex & Hhd).
      exists (S k). simpl. split; [lia|]. split; [exact Heq|].
      split; [|exact Hhd]. intros s [<-|H]; auto.
    + exists 0%nat. simpl. split; [lia|]. split; [reflexivity|].
      split; intros s H; [contradiction|]. now injection H as <-.
Qed.

Lemma evict_expired_length (cfg : Config) (now : time_point) (trail : Trail) :
  (length (evict_expired cfg now trail) <= length trail)%nat.
Proof.
  destruct (evict_expired_prefix cfg now trail) as (k & _ & -> & _).
  rewrite length_skipn. lia.
Qed.

(** Appending drops at most the front sample, and only above the
    capacity. *)
Lemma append_sample_skipn (trail : Trail) (ptNow : POINT) (now : time_point) :
  append_sample trail ptNow now =
    skipn (if kMaxTrailSize <? Z.of_nat (length trail) + 1 then 1 else 0)
          (trail ++ [mkSample ptNow now]).
Proof.
  unfold append_sample, push_back, pop_front.
  rewrite length_app, Nat2Z.inj_add. simpl length.
  change (Z.of_nat 1) with 1.
  destruct (kMaxTrailSize <? Z.of_nat (length trail) + 1); [|reflexivity].
  destruct (trail ++ [mkSample ptNow now]); reflexivity.
Qed.

Lemma append_sample_length (trail : Trail) (ptNow : POINT) (now : time_point) :
  (Z.of_nat (length trail) <= kMaxTrailSize ->
   Z.of_nat (length (append_sample trail ptNow now)) <= kMaxTrailSize).
Proof.
  intros H. rewrite append_sample_skipn, length_skipn, length_app. simpl length.
  destruct (Z.ltb_spec kMaxTrailSize (Z.of_nat (length trail) + 1)); lia.
Qed.

(** The buffer after the append phase of [UpdateTrail]. *)
Lemma UpdateTrail_phases (cfg : Config) (trail : Trail) (ptNow : POINT)
    (now : time_point) :
  exists k : nat,
    UpdateTrail cfg trail ptNow now =
      skipn k (if should_add trail ptNow then trail ++ [mkSample ptNow now]
               else trail).
Proof.
  unfold UpdateTrail.
  destruct (should_add trail ptNow).
  - destruct (evict_expired_prefix cfg now (append_sample trail ptNow now))
      as (k & _ & -> & _).
    rewrite append_sample_skipn, skipn_skipn. eauto.
  - destruct (evict_expired_prefix cfg now trail) as (k & _ & -> & _). eauto.
Qed.

Lemma should_add_spec (trail : Trail) (ptNow : POINT) :
  should_add trail ptNow = true <->
  trail = [] \/ exists s, back trail = Some s /\ 1 <= sq_dist_int ptNow (pt s).
Proof.
  unfold should_add. destruct (back trail) as [s|] eqn:E.
  - rewrite Z.leb_le. split.
    + intros H. right. eauto.
    + intros [->|(s' & [= ->] & H)]; [discriminate|exact H].
  - apply back_none in E. tauto.
Qed.

Lemma back_append_sample (trail : Trail) (ptNow : POINT) (now : time_point) :
  back (append_sample trail ptNow now) = Some (mkSample ptNow now).
Proof.
  unfold append_sample, pop_front.
  destruct (kMaxTrailSize <? Z.of_nat (length (push_back trail (mkSample ptNow now))))
    eqn:E.
  - destruct trail as [|a l]; [discriminate E|]. apply back_push.
  - apply back_push.
Qed.

Lemma back_evict_expired (cfg : Config) (now : time_point) (trail : Trail)
    (s : Sample) :
  back trail = Some s -> expired cfg now s = false ->
  back (evict_expired cfg now trail) = Some s.
Proof.
  induction trail as [|a l IH]; intros Hb He; [discriminate|].
  cbn [evict_expired]. destruct (expired cfg now a) eqn:Ea; [|exact Hb].
  destruct l as [|b l'].
  - injection Hb as ->. congruence.
  - apply IH; assumption.
Qed.

(** C1: [UpdateTrail] appends the sample exactly when the trail is empty
    or the squared distance to the last sample, computed in [int] as the
    code does, is at least 1; the buffer it returns is the (possibly
    appended) buffer with samples removed from the front only, and an
    appended sample that is not itself expired is its last sample.  Where
    the [int] computation does not overflow it is the squared distance
    itself, and a position equal to the last sample's never grows the
    buffer. *)
Theorem C1_append_iff_moved (cfg : Config) (trail : Trail) (ptNow : POINT)
    (now : time_point) :
  (should_add trail ptNow = true <->
     trail = [] \/ exists s, back trail = Some s /\ 1 <= sq_dist_int ptNow (pt s))
  /\ (exists k : nat,
        UpdateTrail cfg trail ptNow now =
          skipn k (if should_add trail ptNow
                   then trail ++ [mkSample ptNow now] else trail))
  /\ (should_add trail ptNow = true ->
      expired cfg now (mkSample ptNow now) = false ->
      back (UpdateTrail cfg trail ptNow now) = Some (mkSample ptNow now))
  /\ (forall s, back trail = Some s -> no_overflow ptNow (pt s) ->
        (should_add trail ptNow = true <-> 1 <= sq_dist ptNow (pt s)))
  /\ (forall s, back trail = Some s -> pt s = ptNow ->
        should_add trail ptNow = false
        /\ (length (UpdateTrail cfg trail ptNow now) <= length trail)%nat).
Proof.
  split; [apply should_add_spec|].
  split; [apply UpdateTrail_phases|].
  split; [|split].
  - intros Hadd Hnew. unfold UpdateTrail. rewrite Hadd.
    apply back_evict_expired; [apply back_append_sample|exact Hnew].
  - intros s Hs Hno. unfold should_add. rewrite Hs, Z.leb_le.
    now rewrite (sq_dist_int_exact _ _ Hno).
  - intros s Hs Hpt.
    assert (Hadd : should_add trail ptNow = false).
    { unfold should_add. rewrite Hs, Hpt, sq_dist_int_same. reflexivity. }
    split; [exact Hadd|].
    unfold UpdateTrail. rewrite Hadd. apply evict_expired_length.
Qed.

(** C3: from a buffer of at most 500 samples [UpdateTrail] returns a
    buffer of at most 500 samples, obtained from the buffer with the new
    sample pushed (when one is) by removing samples from the front only:
    the capacity eviction removes at most the front one, the age eviction
    a prefix of expired ones, and the order of the rest is unchanged. *)
Theorem C3_capacity_and_front_eviction (cfg : Config) (trail : Trail)
    (ptNow : POINT) (now : time_point) :
  Z.of_nat (length trail) <= kMaxTrailSize ->
  Z.of_nat (length (UpdateTrail cfg trail ptNow now)) <= kMaxTrailSize
  /\ (exists k : nat,
        front_removed k
          (if should_add trail ptNow then push_back trail (mkSample ptNow now)
           else trail)
          (UpdateTrail cfg trail ptNow now))
  /\ (exists k : nat, (k <= 1)%nat /\
        front_removed k (push_back trail (mkSample ptNow now))
                        (append_sample trail ptNow now))
  /\ (forall l : Trail, exists k : nat,
        front_removed k l (evict_expired cfg now l)
        /\ forall s, In s (firstn k l) -> expired cfg now s = true).
Proof.
  intros Hlen. split; [|split; [|split]].
  - unfold UpdateTrail. destruct (should_add trail ptNow).
    + pose proof (append_sample_length trail ptNow now Hlen).
      pose proof (evict_expired_length cfg now (append_sample trail ptNow now)).
      lia.
    + pose proof (evict_expired_length cfg now trail). lia.
  - apply UpdateTrail_phases.
  - eexists. split; [|unfold front_removed, push_back; apply append_sample_skipn].
    destruct (kMaxTrailSize <? Z.of_nat (length trail) + 1); lia.
  - intros l. destruct (evict_expired_prefix cfg now l) as (k & _ & Hk & Hex & _).
    exists k. split; [exact Hk|exact Hex].
Qed.

(** Among non-negative ages the eviction test is monotone. *)
Lemma expired_mono (cfg : Config) (now : time_point) (s1 s2 : Sample) :
  t s1 <= t s2 -> t s2 <= now ->
  expired cfg now s2 = true -> expired cfg now s1 = true.
Proof.
  intros H12 H2 He. unfold expired in *.
  apply (ltb_leb_trans _ _ _ He). apply of_Z_mono. unfold age_ms. split.
  - apply Z.quot_pos; lia.
  - apply Z.quot_le_mono; lia.
Qed.

Lemma expired_int_fade (cfg : Config) (f : Z) (now : time_point) (s : Sample) :
  gTrailFadeMs cfg = F32.of_Z f -> 1 <= f <= 1000 -> t s <= now ->
  (expired cfg now s = true <-> f + 50 < age_ms now (t s)).
Proof.
  intros Hc Hf Ht. unfold expired. rewrite Hc, threshold_of_int_fade by exact Hf.
  assert (H0 : 0 <= age_ms now (t s)) by (apply Z.quot_pos; lia).
  split.
  - intros H. destruct (Z.ltb_spec (f + 50) (age_ms now (t s))) as [|Hle]; [assumption|].
    rewrite (leb_not_ltb _ _ (of_Z_mono _ _ (conj H0 Hle))) in H. discriminate.
  - intros H. apply (ltb_leb_trans _ (F32.of_Z (f + 50 + 1))).
    + apply of_Z_succ_lt. lia.
    + apply of_Z_mono. lia.
Qed.

Lemma time_ordered_app (l : Trail) (s : Sample) :
  time_ordered l -> (forall s', In s' l -> t s' <= t s) -> time_ordered (l ++ [s]).
Proof.
  induction l as [|a l IH]; intros Ho Hle; cbn.
  - split; [intros s' []|exact I].
  - destruct Ho as [Ha Ho]. split.
    + intros s' Hin. apply in_app_or in Hin. destruct Hin as [Hin|[<-|[]]].
      * now apply Ha.
      * apply Hle. now left.
    + apply IH; [exact Ho|]. intros s' Hin. apply Hle. now right.
Qed.

Lemma time_ordered_skipn (k : nat) (l : Trail) :
  time_ordered l -> time_ordered (skipn k l).
Proof.
  revert l. induction k as [|k IH]; intros l Ho; [exact Ho|].
  destruct l as [|a l]; [exact I|]. cbn. apply IH. now destruct Ho.
Qed.

Lemma In_skipn {A : Type} (k : nat) (l : list A) (x : A) :
  In x (skipn k l) -> In x l.
Proof.
  intros H. rewrite <- (firstn_skipn k l). apply in_or_app. now right.
Qed.

(** On a time-ordered buffer whose samples are not from the future, the
    eviction loop leaves no expired sample. *)
Lemma evict_expired_complete (cfg : Config) (now : time_point) (l : Trail) :
  time_ordered l -> (forall s, In s l -> t s <= now) ->
  forall s, In s (evict_expired cfg now l) -> expired cfg now s = false.
Proof.
  induction l as [|a l IH]; intros Ho Hnow s Hin; [contradiction|].
  destruct Ho as [Ha Ho]. cbn [evict_expired] in Hin.
  destruct (expired cfg now a) eqn:Ea.
  - apply IH; auto. intros s' Hs'. apply Hnow. now right.
  - destruct Hin as [<-|Hin]; [exact Ea|].
    destruct (expired cfg now s) eqn:Es; [|reflexivity].
    rewrite (expired_mono cfg now a s) in Ea; auto.
    apply Hnow. now right.
Qed.

(** [UpdateTrail] keeps the buffer time-ordered and not from the future. *)
Lemma UpdateTrail_time_ordered (cfg : Config) (trail : Trail) (ptNow : POINT)
    (now : time_point) :
  time_ordered trail -> (forall s, In s trail -> t s <= now) ->
  time_ordered (UpdateTrail cfg trail ptNow now)
  /\ (forall s, In s (UpdateTrail cfg trail ptNow now) -> t s <= now).
Proof.
  intros Ho Hnow.
  destruct (UpdateTrail_phases cfg trail ptNow now) as [k ->].
  assert (Hp : time_ordered (if should_add trail ptNow
                             then trail ++ [mkSample ptNow now] else trail)
               /\ forall s, In s (if should_add trail ptNow
                                  then trail ++ [mkSample ptNow now] else trail) ->
                            t s <= now).
  { destruct (should_add trail ptNow); [|now split]. split.
    - apply time_ordered_app; [exact Ho|]. exact Hnow.
    - intros s Hin. apply in_app_or in Hin. destruct Hin as [Hin|[<-|[]]]; auto.
      cbn. lia. }
  destruct Hp as [Hpo Hpn]. split.
  - now apply time_ordered_skipn.
  - intros s Hin. apply Hpn. eapply In_skipn, Hin.
Qed.

Lemma UpdateTrail_none_expired (cfg : Config) (trail : Trail) (ptNow : POINT)
    (now : time_point) :
  time_ordered trail -> (forall s, In s trail -> t s <= now) ->
  forall s, In s (UpdateTrail cfg trail ptNow now) -> expired cfg now s = false.
Proof.
  intros Ho Hnow. unfold UpdateTrail.
  apply evict_expired_complete.
  - destruct (should_add trail ptNow); [|exact Ho].
    rewrite append_sample_skipn. apply time_ordered_skipn.
    apply time_ordered_app; [exact Ho|exact Hnow].
  - intros s Hin. destruct (should_add trail ptNow); [|now apply Hnow].
    rewrite append_sample_skipn in Hin. apply In_skipn in Hin.
    apply in_app_or in Hin. destruct Hin as [Hin|[<-|[]]]; auto. cbn. lia.
Qed.

(** C2, as the code has it: on a time-ordered buffer whose timestamps do
    not exceed [now], no sample that [UpdateTrail] leaves is expired: its
    age in whole milliseconds (the duration rounded toward zero) is not
    above the threshold [gTrailFadeMs + 50.f].  For a fade duration of a
    whole number [f] of milliseconds that age is at most [f + 50], so the
    exact age is below [f + 51] ms. *)
Theorem C2_no_expired_sample_remains (cfg : Config) (trail : Trail)
    (ptNow : POINT) (now : time_point) :
  time_ordered trail -> (forall s, In s trail -> t s <= now) ->
  forall s, In s (UpdateTrail cfg trail ptNow now) ->
    expired cfg now s = false
    /\ (forall f : Z, gTrailFadeMs cfg = F32.of_Z f -> 1 <= f <= 1000 ->
          age_ms now (t s) <= f + 50
          /\ age_ns now s < (f + 51) * 1000000).
Proof.
  intros Ho Hnow s Hin.
  pose proof (UpdateTrail_none_expired cfg trail ptNow now Ho Hnow s Hin) as He.
  destruct (UpdateTrail_time_ordered cfg trail ptNow now Ho Hnow) as [_ Hle].
  specialize (Hle s Hin).
  split; [exact He|]. intros f Hf Hr.
  assert (Hage : age_ms now (t s) <= f + 50).
  { destruct (Z.leb_spec (age_ms now (t s)) (f + 50)) as [|Hgt]; [assumption|].
    apply (expired_int_fade cfg f now s Hf Hr Hle) in Hgt. congruence. }
  split; [exact Hage|].
  unfold age_ms, age_ns in *.
  pose proof (Z.quot_rem' (now - t s) 1000000) as Hq.
  pose proof (Z.rem_bound_pos (now - t s) 1000000 ltac:(lia) ltac:(lia)) as Hrem.
  lia.
Qed.

(** C2, as the claim states it, fails: with the default fade of 50 ms a
    sample 100.5 ms old stays in the buffer, because its age is compared
    in whole milliseconds. *)
Lemma C2_sample_past_limit_remains :
  let s := mkSample (mkPOINT 0 0) 0 in
  let now := 100500000 in
  gTrailFadeMs default_config = F32.of_Z 50
  /\ In s (UpdateTrail default_config [s] (mkPOINT 0 0) now)
  /\ (50 + 50) * 1000000 < age_ns now s.
Proof. vm_compute. repeat split. now left. Qed.

(** Along the ticks of a run with a monotone clock the buffer stays
    time-ordered, never holds a sample newer than the last tick, and
    never exceeds the capacity. *)
Lemma run_updates_invariant (cfg : Config) (ticks : list (POINT * time_point)) :
  forall (trail : Trail) (t0 : time_point),
    time_ordered trail -> (forall s, In s trail -> t s <= t0) ->
    Z.of_nat (length trail) <= kMaxTrailSize ->
    clock_monotone t0 ticks ->
    time_ordered (run_updates cfg trail ticks)
    /\ (forall s, In s (run_updates cfg trail ticks) ->
                  t s <= last_clock t0 ticks)
    /\ Z.of_nat (length (run_updates cfg trail ticks)) <= kMaxTrailSize.
Proof.
  induction ticks as [|[ptNow now] rest IH]; intros trail t0 Ho Hle Hlen Hm.
  - cbn. auto.
  - destruct Hm as [H0 Hm]. cbn [run_updates last_clock].
    assert (Hle' : forall s, In s trail -> t s <= now).
    { intros s Hs. specialize (Hle s Hs). lia. }
    destruct (UpdateTrail_time_ordered cfg trail ptNow now Ho Hle') as [Ho1 Hle1].
    apply IH; auto.
    unfold UpdateTrail. destruct (should_add trail ptNow).
    + pose proof (append_sample_length trail ptNow now Hlen).
      pose proof (evict_expired_length cfg now (append_sample trail ptNow now)).
      lia.
    + pose proof (evict_expired_length cfg now trail). lia.
Qed.

(** From the empty buffer, whatever the cursor does, a monotone clock
    keeps the buffer time-ordered, within the capacity and without
    samples from the future: the conditions under which [UpdateTrail]
    leaves no expired sample. *)
Theorem trail_invariant_of_run (cfg : Config) (t0 : time_point)
    (ticks : list (POINT * time_point)) :
  clock_monotone t0 ticks ->
  time_ordered (run_updates cfg [] ticks)
  /\ (forall s, In s (run_updates cfg [] ticks) -> t s <= last_clock t0 ticks)
  /\ Z.of_nat (length (run_updates cfg [] ticks)) <= kMaxTrailSize.
Proof.
  intros Hm. apply run_updates_invariant; auto.
  - exact I.
  - intros s [].
  - cbn. unfold kMaxTrailSize. lia.
Qed.

(** With the default fade of 50 ms a sample is left out of the rendering
    as soon as its age in whole milliseconds exceeds 50, and is evicted
    only when it exceeds 100. *)
Theorem faded_sample_is_retained (vs : RECT) (cv : CursorVisual)
    (now : time_point) (s0 s1 : Sample) :
  t s0 <= now ->
  (50 < age_ms now (t s0) -> segment_blends default_config vs cv now s0 s1 = [])
  /\ (expired default_config now s0 = true <-> 100 < age_ms now (t s0)).
Proof.
  intros Ht. split.
  - intros Hage. unfold segment_blends, make_segment.
    replace (F32.ltb (gTrailFadeMs default_config) (F32.of_Z (age_ms now (t s0))))
      with true; [reflexivity|].
    symmetry. apply (ltb_leb_trans _ (F32.of_Z (50 + 1))).
    + apply (of_Z_succ_lt 50). lia.
    + apply of_Z_mono. lia.
  - apply (expired_int_fade default_config 50 now s0 eq_refl); [lia|exact Ht].
Qed.

(** ** Cursor visual *)

(** C10: when the glyph identity changed and [GetIconInfo] fails, the
    cached identity becomes the new handle while width, height and hotspot
    keep their previous values; later calls with the same handle return
    the visual unchanged, whatever the system would answer. *)
Theorem C10_failed_icon_query_keeps_geometry (os : IconOS) (cv : CursorVisual)
    (ci : CURSORINFO) :
  ci_hCursor ci <> hCur cv ->
  GetIconInfo os (ci_hCursor ci) = None ->
  let cv1 := RefreshCursorVisual os cv ci in
  hCur cv1 = ci_hCursor ci
  /\ width cv1 = width cv /\ height cv1 = height cv
  /\ hotX cv1 = hotX cv /\ hotY cv1 = hotY cv
  /\ (forall (os' : IconOS) (ci' : CURSORINFO),
        ci_hCursor ci' = ci_hCursor ci ->
        RefreshCursorVisual os' cv1 ci' = cv1).
Proof.
  intros Hne Hfail. unfold RefreshCursorVisual at 1.
  destruct (Z.eqb_spec (ci_hCursor ci) (hCur cv)) as [E|_]; [contradiction|].
  rewrite Hfail. cbn. repeat split.
  intros os' ci' Hsame. unfold RefreshCursorVisual. cbn.
  rewrite Hsame, Z.eqb_refl. reflexivity.
Qed.

(** [RefreshCursorVisual] returns the visual unchanged for the cached
    handle; for a new handle the system describes, it takes the hotspot,
    and the dimensions of the color bitmap, or of the mask with its
    height halved when there is no color bitmap, with 32 in place of a
    zero dimension. *)
Theorem RefreshCursorVisual_geometry (os : IconOS) (cv : CursorVisual)
    (ci : CURSORINFO) :
  (ci_hCursor ci = hCur cv -> RefreshCursorVisual os cv ci = cv)
  /\ (forall ii : ICONINFO,
        ci_hCursor ci <> hCur cv ->
        GetIconInfo os (ci_hCursor ci) = Some ii ->
        let cv1 := RefreshCursorVisual os cv ci in
        let dim := fun d : Z => if d =? 0 then 32 else d in
        hCur cv1 = ci_hCursor ci
        /\ hotX cv1 = Int32.wrap (xHotspot ii)
        /\ hotY cv1 = Int32.wrap (yHotspot ii)
        /\ (hbmColor ii <> 0 ->
            width cv1 = dim (bmWidth (GetObject os (hbmColor ii)))
            /\ height cv1 = dim (bmHeight (GetObject os (hbmColor ii))))
        /\ (hbmColor ii = 0 -> hbmMask ii <> 0 ->
            width cv1 = dim (bmWidth (GetObject os (hbmMask ii)))
            /\ height cv1 = dim (Z.quot (bmHeight (GetObject os (hbmMask ii))) 2))
        /\ (hbmColor ii = 0 -> hbmMask ii = 0 ->
            width cv1 = 32 /\ height cv1 = 32)).
Proof.
  split.
  - intros E. unfold RefreshCursorVisual. now rewrite E, Z.eqb_refl.
  - intros ii Hne Hii. cbv zeta. unfold RefreshCursorVisual.
    destruct (Z.eqb_spec (ci_hCursor ci) (hCur cv)) as [E|_]; [contradiction|].
    rewrite Hii. cbn [hCur width height hotX hotY].
    split; [reflexivity|]. split; [reflexivity|]. split; [reflexivity|].
    destruct (Z.eqb_spec (hbmColor ii) 0) as [Ec|Ec]; cbn [negb].
    + destruct (Z.eqb_spec (hbmMask ii) 0) as [Em|Em]; cbn [negb bmWidth bmHeight].
      * split; [contradiction|]. split; [contradiction|]. split; reflexivity.
      * split; [contradiction|]. split; [|contradiction]. intros _ _.
        destruct (bmWidth (GetObject os (hbmMask ii)) =? 0),
                 (Z.quot (bmHeight (GetObject os (hbmMask ii))) 2 =? 0);
          split; reflexivity.
    + split; [|split; intros; contradiction]. intros _.
      destruct (bmWidth (GetObject os (hbmColor ii)) =? 0),
               (bmHeight (GetObject os (hbmColor ii)) =? 0); split; reflexivity.
Qed.

(** ** Tint *)

Lemma byte_of_range (px i : Z) : 0 <= byte_of px i < 256.
Proof. unfold byte_of. apply Z.mod_pos_bound. lia. Qed.

Lemma byte_of_pixel_of_bytes (b0 b1 b2 b3 : Z) :
  0 <= b0 < 256 -> 0 <= b1 < 256 -> 0 <= b2 < 256 -> 0 <= b3 < 256 ->
  byte_of (pixel_of_bytes b0 b1 b2 b3) 0 = b0
  /\ byte_of (pixel_of_bytes b0 b1 b2 b3) 1 = b1
  /\ byte_of (pixel_of_bytes b0 b1 b2 b3) 2 = b2
  /\ byte_of (pixel_of_bytes b0 b1 b2 b3) 3 = b3.
Proof.
  intros H0 H1 H2 H3. unfold byte_of, pixel_of_bytes.
  change (256 ^ 0) with 1. change (256 ^ 1) with 256.
  change (256 ^ 2) with 65536. change (256 ^ 3) with 16777216.
  repeat split; Z.to_euclidean_division_equations; lia.
Qed.

Lemma pixel_of_its_bytes (px : Z) :
  0 <= px < 2 ^ 32 ->
  pixel_of_bytes (byte_of px 0) (byte_of px 1) (byte_of px 2) (byte_of px 3) = px.
Proof.
  intros H. unfold byte_of, pixel_of_bytes.
  change (256 ^ 0) with 1. change (256 ^ 1) with 256.
  change (256 ^ 2) with 65536. change (256 ^ 3) with 16777216.
  change (2 ^ 32) with 4294967296 in H.
  Z.to_euclidean_division_equations. lia.
Qed.

Lemma tint_channel_value (c tint : Z) :
  0 <= c < 256 -> 0 <= tint <= 255 ->
  tint_channel c tint = c * tint / 255 /\ 0 <= tint_channel c tint < 256.
Proof.
  intros Hc Ht. unfold tint_channel.
  assert (H0 : 0 <= c * tint) by nia.
  rewrite Z.quot_div_nonneg by lia.
  assert (Hq : 0 <= c * tint / 255 < 256).
  { split; [apply Z.div_pos; lia|]. apply Z.div_lt_upper_bound; nia. }
  rewrite Z.mod_small by exact Hq. split; [reflexivity|exact Hq].
Qed.

Lemma tint_channel_white (c : Z) : 0 <= c < 256 -> tint_channel c 255 = c.
Proof.
  intros Hc. destruct (tint_channel_value c 255 Hc ltac:(lia)) as [-> _].
  apply Z.div_mul. lia.
Qed.

Lemma tint_channel_black (c : Z) : tint_channel c 0 = 0.
Proof. unfold tint_channel. rewrite Z.mul_0_r. reflexivity. Qed.

Lemma tint_pixel_white (cfg : Config) (px : Z) :
  0 <= px < 2 ^ 32 ->
  TintR cfg = 255 -> TintG cfg = 255 -> TintB cfg = 255 ->
  tint_pixel cfg px = px.
Proof.
  intros Hpx Hr Hg Hb. unfold tint_pixel. rewrite Hr, Hg, Hb.
  rewrite !tint_channel_white by apply byte_of_range.
  apply pixel_of_its_bytes, Hpx.
Qed.

Lemma tint_pixels_white (cfg : Config) (count : Z) (bits : list Z) :
  Forall (fun px => 0 <= px < 2 ^ 32) bits ->
  TintR cfg = 255 -> TintG cfg = 255 -> TintB cfg = 255 ->
  tint_pixels cfg count bits = bits.
Proof.
  intros Hall Hr Hg Hb. unfold tint_pixels.
  rewrite <- (firstn_skipn (Z.to_nat count) bits) at 3. f_equal.
  rewrite <- (map_id (firstn (Z.to_nat count) bits)) at 2.
  apply map_ext_in. intros px Hin.
  apply tint_pixel_white; auto.
  rewrite Forall_forall in Hall. apply Hall.
  rewrite <- (firstn_skipn (Z.to_nat count) bits). apply in_or_app. now left.
Qed.

Lemma tint_pixels_length (cfg : Config) (count : Z) (bits : list Z) :
  length (tint_pixels cfg count bits) = length bits.
Proof.
  unfold tint_pixels. rewrite length_app, length_map.
  rewrite <- (firstn_skipn (Z.to_nat count) bits) at 3.
  now rewrite length_app.
Qed.

(** The loop replaces the pixels before [count] by their tinted values
    and leaves the others. *)
Lemma tint_pixels_nth (cfg : Config) (count : Z) (bits : list Z) (i : nat)
    (px : Z) :
  nth_error bits i = Some px ->
  nth_error (tint_pixels cfg count bits) i
  = Some (if Z.of_nat i <? count then tint_pixel cfg px else px).
Proof.
  intros Hi. unfold tint_pixels.
  assert (Hib : (i < length bits)%nat) by (apply nth_error_Some; congruence).
  assert (Hl : length (firstn (Z.to_nat count) bits)
               = Nat.min (Z.to_nat count) (length bits)) by apply length_firstn.
  destruct (Z.ltb_spec (Z.of_nat i) count) as [Hlt|Hge].
  - assert (Hf : nth_error (firstn (Z.to_nat count) bits) i = Some px)
      by (rewrite nth_error_firstn; destruct (Nat.ltb_spec i (Z.to_nat count));
          [exact Hi|lia]).
    rewrite nth_error_app1 by (rewrite length_map, Hl; lia).
    rewrite nth_error_map, Hf. reflexivity.
  - rewrite nth_error_app2 by (rewrite length_map, Hl; lia).
    rewrite length_map, Hl, nth_error_skipn.
    rewrite <- Hi. f_equal. lia.
Qed.

(** What a call that rebuilds stores. *)
Lemma DrawTrail_rebuilt_cache (cfg : Config) (c : TintCache) (cv : CursorVisual)
    (trail : Trail) (vs : RECT) (os : DrawOS) :
  outcome (snd (DrawTrail cfg c cv trail vs os)) = Rebuilt ->
  fst (DrawTrail cfg c cv trail vs os)
  = {| sLastCursor := hCur cv; sLastW := width cv; sLastH := height cv;
       sTintDC := if sTintDC c =? 0 then new_dc os else sTintDC c;
       sTintBMP := new_dib os; sTintOld := old_obj os;
       sTintBits := Some (tint_pixels cfg (tint_count cv) (glyph_bits os)) |}.
Proof.
  unfold DrawTrail. destruct (negb (tmp_ok os)); [discriminate|].
  destruct (cache_stale c cv).
  - unfold rebuild_cache.
    destruct ((new_dib os =? 0) || negb (new_bits os)); [discriminate|].
    cbn [sTintBMP]. destruct (new_dib os =? 0); reflexivity.
  - destruct (sTintBMP c =? 0); discriminate.
Qed.

Lemma tint_pixel_range (cfg : Config) (px : Z) :
  0 <= TintR cfg <= 255 -> 0 <= TintG cfg <= 255 -> 0 <= TintB cfg <= 255 ->
  0 <= tint_pixel cfg px < 2 ^ 32.
Proof.
  intros Hr Hg Hb. unfold tint_pixel, pixel_of_bytes.
  destruct (tint_channel_value (byte_of px 2) (TintR cfg) (byte_of_range _ _) Hr)
    as [_ Rr].
  destruct (tint_channel_value (byte_of px 1) (TintG cfg) (byte_of_range _ _) Hg)
    as [_ Rg].
  destruct (tint_channel_value (byte_of px 0) (TintB cfg) (byte_of_range _ _) Hb)
    as [_ Rb].
  pose proof (byte_of_range px 3).
  change (256 ^ 2) with 65536. change (256 ^ 3) with 16777216.
  change (2 ^ 32) with 4294967296. lia.
Qed.

(** C8: when [DrawTrail] rebuilds the tinted glyph, the bitmap it keeps
    is the one [DrawIconEx] left with each of its first
    [width * height] pixels tinted and the others as they were; on a
    32-bit pixel the tint replaces red, green and blue by the channel
    times the matching tint channel divided by 255 (an integer division)
    and keeps alpha; so with the tint (255,255,255) the bitmap is
    unchanged, and with (0,0,0) the three colour channels of a tinted
    pixel are 0 and its alpha is kept. *)
Theorem C8_tint_transform (cfg : Config) (c : TintCache) (cv : CursorVisual)
    (trail : Trail) (vs : RECT) (os : DrawOS) :
  0 <= TintR cfg <= 255 -> 0 <= TintG cfg <= 255 -> 0 <= TintB cfg <= 255 ->
  Forall (fun px => 0 <= px < 2 ^ 32) (glyph_bits os) ->
  outcome (snd (DrawTrail cfg c cv trail vs os)) = Rebuilt ->
  (exists tinted : list Z,
     sTintBits (fst (DrawTrail cfg c cv trail vs os)) = Some tinted
     /\ length tinted = length (glyph_bits os)
     /\ (forall (i : nat) (px : Z),
           nth_error (glyph_bits os) i = Some px ->
           exists px' : Z,
             nth_error tinted i = Some px'
             /\ 0 <= px' < 2 ^ 32
             /\ (Z.of_nat i < tint_count cv ->
                 px' = tint_pixel cfg px
                 /\ byte_of px' 2 = byte_of px 2 * TintR cfg / 255
                 /\ byte_of px' 1 = byte_of px 1 * TintG cfg / 255
                 /\ byte_of px' 0 = byte_of px 0 * TintB cfg / 255
                 /\ byte_of px' 3 = byte_of px 3)
             /\ (tint_count cv <= Z.of_nat i -> px' = px))
     /\ (TintR cfg = 255 -> TintG cfg = 255 -> TintB cfg = 255 ->
         tinted = glyph_bits os)
     /\ (TintR cfg = 0 -> TintG cfg = 0 -> TintB cfg = 0 ->
         forall (i : nat) (px px' : Z),
           nth_error (glyph_bits os) i = Some px ->
           nth_error tinted i = Some px' -> Z.of_nat i < tint_count cv ->
           byte_of px' 2 = 0 /\ byte_of px' 1 = 0 /\ byte_of px' 0 = 0
           /\ byte_of px' 3 = byte_of px 3))
  /\ (forall px : Z,
        0 <= px < 2 ^ 32 ->
        (byte_of (tint_pixel cfg px) 2 = byte_of px 2 * TintR cfg / 255
         /\ byte_of (tint_pixel cfg px) 1 = byte_of px 1 * TintG cfg / 255
         /\ byte_of (tint_pixel cfg px) 0 = byte_of px 0 * TintB cfg / 255
         /\ byte_of (tint_pixel cfg px) 3 = byte_of px 3)
        /\ (TintR cfg = 255 -> TintG cfg = 255 -> TintB cfg = 255 ->
            tint_pixel cfg px = px)
        /\ (TintR cfg = 0 -> TintG cfg = 0 -> TintB cfg = 0 ->
            byte_of (tint_pixel cfg px) 2 = 0
            /\ byte_of (tint_pixel cfg px) 1 = 0
            /\ byte_of (tint_pixel cfg px) 0 = 0
            /\ byte_of (tint_pixel cfg px) 3 = byte_of px 3)).
Proof.
  intros Hr Hg Hb Hbits Hout.
  assert (Hpx : forall px,
            byte_of (tint_pixel cfg px) 2 = byte_of px 2 * TintR cfg / 255
            /\ byte_of (tint_pixel cfg px) 1 = byte_of px 1 * TintG cfg / 255
            /\ byte_of (tint_pixel cfg px) 0 = byte_of px 0 * TintB cfg / 255
            /\ byte_of (tint_pixel cfg px) 3 = byte_of px 3).
  { intros px.
    destruct (tint_channel_value (byte_of px 2) (TintR cfg) (byte_of_range _ _) Hr)
      as [Er Rr].
    destruct (tint_channel_value (byte_of px 1) (TintG cfg) (byte_of_range _ _) Hg)
      as [Eg Rg].
    destruct (tint_channel_value (byte_of px 0) (TintB cfg) (byte_of_range _ _) Hb)
      as [Eb Rb].
    destruct (byte_of_pixel_of_bytes _ _ _ _ Rb Rg Rr (byte_of_range px 3))
      as (B0 & B1 & B2 & B3).
    fold (tint_pixel cfg px) in B0, B1, B2, B3.
    rewrite B0, B1, B2, B3, Er, Eg, Eb. repeat split. }
  assert (Hblack : forall px, TintR cfg = 0 -> TintG cfg = 0 -> TintB cfg = 0 ->
            byte_of (tint_pixel cfg px) 2 = 0
            /\ byte_of (tint_pixel cfg px) 1 = 0
            /\ byte_of (tint_pixel cfg px) 0 = 0
            /\ byte_of (tint_pixel cfg px) 3 = byte_of px 3).
  { intros px Zr Zg Zb. destruct (Hpx px) as (P2 & P1 & P0 & P3).
    rewrite P2, P1, P0, P3, Zr, Zg, Zb, !Z.mul_0_r. repeat split. }
  split.
  - rewrite (DrawTrail_rebuilt_cache _ _ _ _ _ _ Hout). cbn [sTintBits].
    eexists. split; [reflexivity|]. split; [apply tint_pixels_length|].
    split; [|split].
    + intros i px Hi. rewrite (tint_pixels_nth _ _ _ _ _ Hi).
      assert (Hin : 0 <= px < 2 ^ 32).
      { rewrite Forall_forall in Hbits. apply Hbits.
        now apply nth_error_In in Hi. }
      eexists. split; [reflexivity|].
      destruct (Z.ltb_spec (Z.of_nat i) (tint_count cv)) as [Hlt|Hge].
      * split; [now apply tint_pixel_range|]. split; [|lia].
        intros _. split; [reflexivity|apply Hpx].
      * split; [exact Hin|]. split; [lia|reflexivity].
    + intros Wr Wg Wb. now apply tint_pixels_white.
    + intros Zr Zg Zb i px px' Hi Hi' Hlt.
      rewrite (tint_pixels_nth _ _ _ _ _ Hi) in Hi'.
      destruct (Z.ltb_spec (Z.of_nat i) (tint_count cv)); [|lia].
      injection Hi' as <-. now apply Hblack.
  - intros px Hin. split; [apply Hpx|]. split.
    + intros Wr Wg Wb. now apply tint_pixel_white.
    + now apply Hblack.
Qed.

(** ** Tinted glyph cache *)

Lemma cache_stale_spec (c : TintCache) (cv : CursorVisual) :
  cache_stale c cv = true <->
  sTintBMP c = 0 \/ sTintDC c = 0 \/ key_differs c cv = true.
Proof.
  unfold cache_stale, key_differs.
  rewrite !orb_true_iff, !Z.eqb_eq. tauto.
Qed.

(** The cache outcome of a call, read off the state and the answers of
    the system. *)
Lemma DrawTrail_outcome (cfg : Config) (c : TintCache) (cv : CursorVisual)
    (trail : Trail) (vs : RECT) (os : DrawOS) :
  outcome (snd (DrawTrail cfg c cv trail vs os)) =
    if negb (tmp_ok os) then NoSurface
    else if cache_stale c cv then
           if (new_dib os =? 0) || negb (new_bits os) then RebuildFailed
           else Rebuilt
         else Reused.
Proof.
  unfold DrawTrail. destruct (tmp_ok os); [|reflexivity]. cbn [negb].
  destruct (cache_stale c cv).
  - unfold rebuild_cache.
    destruct ((new_dib os =? 0) || negb (new_bits os)); [reflexivity|].
    cbn. destruct (new_dib os =? 0); reflexivity.
  - destruct (sTintBMP c =? 0); reflexivity.
Qed.

(** A call that does not rebuild leaves the cache as it was. *)
Lemma DrawTrail_reuse (cfg : Config) (c : TintCache) (cv : CursorVisual)
    (trail : Trail) (vs : RECT) (os : DrawOS) :
  tmp_ok os = true -> cache_stale c cv = false ->
  fst (DrawTrail cfg c cv trail vs os) = c.
Proof.
  intros Hok Hst. unfold DrawTrail. rewrite Hok, Hst. cbn [negb].
  destruct (sTintBMP c =? 0); reflexivity.
Qed.

(** After a rebuild whose allocations succeed the cache is valid for the
    glyph it was built from. *)
Lemma DrawTrail_rebuilt_fresh (cfg : Config) (c : TintCache) (cv : CursorVisual)
    (trail : Trail) (vs : RECT) (os : DrawOS) :
  allocations_ok os = true -> cache_stale c cv = true ->
  cache_stale (fst (DrawTrail cfg c cv trail vs os)) cv = false.
Proof.
  unfold allocations_ok. rewrite !andb_true_iff, !negb_true_iff.
  intros (((Hok & Hdc) & Hdib) & Hbits) Hst.
  unfold DrawTrail. rewrite Hok, Hst. cbn [negb].
  unfold rebuild_cache. rewrite Hdib, Hbits. cbn.
  rewrite Hdib. cbn. unfold cache_stale. cbn.
  rewrite Hdib, !Z.eqb_refl. cbn.
  destruct (sTintDC c =? 0) eqn:E; rewrite ?Hdc, ?E; reflexivity.
Qed.

(** Frames of one glyph, every allocation succeeding: once the cache is
    valid for the glyph, no frame rebuilds it. *)
Lemma draw_frames_all_reused (cfg : Config) (cv : CursorVisual)
    (frames : list (CursorVisual * Trail * RECT * DrawOS)) :
  Forall (fun f => fst (fst (fst f)) = cv /\ allocations_ok (snd f) = true) frames ->
  forall c : TintCache,
    cache_stale c cv = false ->
    draw_frames cfg c frames = repeat Reused (length frames).
Proof.
  intros Hall. induction Hall as [|f rest Hf _ IH]; intros c Hc.
  - reflexivity.
  - destruct f as [[[cv' trail] vs] os]. destruct Hf as [Hcv Hok].
    cbn in Hcv. subst cv'. cbn [snd] in Hok. cbn [draw_frames length repeat].
    assert (Htmp : tmp_ok os = true).
    { unfold allocations_ok in Hok. rewrite !andb_true_iff in Hok. tauto. }
    pose proof (DrawTrail_outcome cfg c cv trail vs os) as Ho.
    pose proof (DrawTrail_reuse cfg c cv trail vs os Htmp Hc) as Hr.
    destruct (DrawTrail cfg c cv trail vs os) as [c1 fr]. cbn in Ho, Hr.
    rewrite Ho, Htmp, Hc. cbn. subst c1. f_equal. now apply IH.
Qed.

(** A call that does not enter the branch of line 242 leaves the cache as
    it was. *)
Lemma DrawTrail_kept_cache (cfg : Config) (c : TintCache) (cv : CursorVisual)
    (trail : Trail) (vs : RECT) (os : DrawOS) :
  outcome (snd (DrawTrail cfg c cv trail vs os)) = Reused
  \/ outcome (snd (DrawTrail cfg c cv trail vs os)) = NoSurface ->
  fst (DrawTrail cfg c cv trail vs os) = c.
Proof.
  unfold DrawTrail. destruct (negb (tmp_ok os)); [reflexivity|].
  destruct (cache_stale c cv).
  - unfold rebuild_cache.
    destruct ((new_dib os =? 0) || negb (new_bits os));
      [intros [H|H]; discriminate|].
    cbn [sTintBMP]. destruct (new_dib os =? 0); intros [H|H]; discriminate.
  - destruct (sTintBMP c =? 0); reflexivity.
Qed.

Lemma cache_after_reused (cfg : Config) (cv : CursorVisual)
    (frames : list (CursorVisual * Trail * RECT * DrawOS)) :
  Forall (fun f => fst (fst (fst f)) = cv /\ allocations_ok (snd f) = true) frames ->
  forall c : TintCache,
    cache_stale c cv = false -> cache_after cfg c frames = c.
Proof.
  intros Hall. induction Hall as [|f rest Hf _ IH]; intros c Hc; [reflexivity|].
  destruct f as [[[cv' trail] vs] os]. destruct Hf as [Hcv Hok].
  cbn in Hcv. subst cv'. cbn [snd] in Hok. cbn [cache_after].
  assert (Htmp : tmp_ok os = true).
  { unfold allocations_ok in Hok. rewrite !andb_true_iff in Hok. tauto. }
  rewrite (DrawTrail_reuse cfg c cv trail vs os Htmp Hc). now apply IH.
Qed.

(** C7, as the code has it: a [DrawTrail] call rebuilds the tinted glyph
    exactly when the scratch surface is available, no tinted bitmap or
    device context is cached or the glyph identity or dimensions differ
    from the cached key, and the bitmap allocation succeeds; a rebuild
    stores the key of the glyph and the pixels that [DrawIconEx] left,
    the first [width * height] of them tinted; a call that reuses the
    cache leaves it as it was; when every allocation succeeds,
    consecutive frames of one glyph from the initial state rebuild
    exactly once, on the first frame, and the cache holds what that
    frame tinted ever after. *)
Theorem C7_rebuild_when_stale (cfg : Config) (c : TintCache) (cv : CursorVisual)
    (trail : Trail) (vs : RECT) (os : DrawOS) :
  let r := DrawTrail cfg c cv trail vs os in
  (outcome (snd r) = Rebuilt <->
     tmp_ok os = true
     /\ (sTintBMP c = 0 \/ sTintDC c = 0 \/ key_differs c cv = true)
     /\ new_dib os <> 0 /\ new_bits os = true)
  /\ (outcome (snd r) = Rebuilt ->
      sLastCursor (fst r) = hCur cv /\ sLastW (fst r) = width cv
      /\ sLastH (fst r) = height cv /\ sTintBMP (fst r) = new_dib os
      /\ exists tinted : list Z,
           sTintBits (fst r) = Some tinted
           /\ length tinted = length (glyph_bits os)
           /\ forall (i : nat) (px : Z),
                nth_error (glyph_bits os) i = Some px ->
                nth_error tinted i
                = Some (if Z.of_nat i <? tint_count cv
                        then tint_pixel cfg px else px))
  /\ (outcome (snd r) = Reused \/ outcome (snd r) = NoSurface -> fst r = c)
  /\ (forall (tr0 : Trail) (vs0 : RECT) (os0 : DrawOS)
             (rest : list (CursorVisual * Trail * RECT * DrawOS)),
        let frames := (cv, tr0, vs0, os0) :: rest in
        Forall (fun f => fst (fst (fst f)) = cv /\ allocations_ok (snd f) = true)
               frames ->
        draw_frames cfg cache_init frames
          = Rebuilt :: repeat Reused (length rest)
        /\ rebuild_count (draw_frames cfg cache_init frames) = 1%nat
        /\ cache_after cfg cache_init frames
           = fst (DrawTrail cfg cache_init cv tr0 vs0 os0)
        /\ sTintBits (cache_after cfg cache_init frames)
           = Some (tint_pixels cfg (tint_count cv) (glyph_bits os0))).
Proof.
  cbv zeta. split; [|split; [|split]].
  - rewrite DrawTrail_outcome, <- cache_stale_spec.
    destruct (tmp_ok os), (cache_stale c cv), (Z.eqb_spec (new_dib os) 0),
      (new_bits os); cbn; split; try discriminate; try tauto;
      intros (? & ? & ? & ?); try discriminate; try contradiction.
  - intros Hr. rewrite (DrawTrail_rebuilt_cache _ _ _ _ _ _ Hr).
    cbn [sLastCursor sLastW sLastH sTintBMP sTintBits].
    repeat (split; [reflexivity|]).
    eexists. split; [reflexivity|]. split; [apply tint_pixels_length|].
    intros i px Hi. now apply tint_pixels_nth.
  - apply DrawTrail_kept_cache.
  - intros tr0 vs0 os0 rest Hall.
    apply Forall_cons_iff in Hall. destruct Hall as [[_ Hok] Hrest].
    cbn [snd] in Hok.
    assert (Hst : cache_stale cache_init cv = true) by reflexivity.
    pose proof (DrawTrail_outcome cfg cache_init cv tr0 vs0 os0) as Ho.
    pose proof (DrawTrail_rebuilt_fresh cfg cache_init cv tr0 vs0 os0 Hok Hst) as Hf.
    pose proof (DrawTrail_rebuilt_cache cfg cache_init cv tr0 vs0 os0) as Hc.
    cbn [draw_frames cache_after length].
    destruct (DrawTrail cfg cache_init cv tr0 vs0 os0) as [c1 fr].
    cbn [fst snd] in *.
    unfold allocations_ok in Hok. rewrite !andb_true_iff, !negb_true_iff in Hok.
    destruct Hok as (((Htmp & _) & Hdib) & Hbits).
    rewrite Htmp, Hst, Hdib, Hbits in Ho. cbn [negb orb] in Ho.
    rewrite Ho. rewrite (draw_frames_all_reused cfg cv rest Hrest c1 Hf).
    rewrite (cache_after_reused cfg cv rest Hrest c1 Hf).
    split; [reflexivity|]. split.
    + unfold rebuild_count. cbn [filter is_rebuild length]. f_equal.
      induction (length rest) as [|n IHn]; [reflexivity|exact IHn].
    + split; [reflexivity|]. rewrite (Hc Ho). reflexivity.
Qed.

(** C7, as the claim states it, fails in both directions: after a frame
    whose bitmap allocation failed the key already equals the glyph, and
    the next frame of the same glyph rebuilds all the same; and a frame
    whose key differs does not rebuild when an allocation fails. *)
Lemma C7_rebuild_with_equal_key :
  let cv := mkCursorVisual 7 32 32 0 0 in
  let vs := mkRECT 0 0 1920 1080 in
  let os_fail := mkDrawOS true 0 11 0 false 0 [] in
  let os_good := mkDrawOS true 0 11 12 true 13 [4278190080] in
  let c1 := fst (DrawTrail default_config cache_init cv [] vs os_fail) in
  key_differs cache_init cv = true
  /\ outcome (snd (DrawTrail default_config cache_init cv [] vs os_fail))
     = RebuildFailed
  /\ key_differs c1 cv = false
  /\ outcome (snd (DrawTrail default_config c1 cv [] vs os_good)) = Rebuilt.
Proof. vm_compute. repeat split. Qed.

(** ** Main loop *)

(** C4, as the code has it: when the pointer is hidden or unavailable the
    iteration still runs [UpdateTrail] with the reported position first;
    the branch taken afterwards appends nothing, removes only expired
    samples from the front of that buffer, leaves the cursor visual
    unrefreshed and draws exactly when samples remain. *)
Theorem C4_hidden_pointer_tick (cfg : Config) (st : LoopState) (os : TickOS) :
  pointer_hidden (cursor_info os) = true ->
  rect_eqb (curVS os) (vs_of st) || bb_ok os = true ->
  let trail1 := UpdateTrail cfg (trail_of st) (cur os) (lastTick os) in
  exists (st' : LoopState) (fr : option Frame),
    tick cfg st os = Continue st' fr
    /\ trail_of st' = evict_expired cfg (now_hidden os) trail1
    /\ (exists k : nat,
          front_removed k trail1 (trail_of st')
          /\ forall s, In s (firstn k trail1) ->
                       expired cfg (now_hidden os) s = true)
    /\ cv_of st' = cv_of st
    /\ (fr = None <-> trail_of st' = []).
Proof.
  intros Hhid Hbb trail1.
  assert (Htick : tick cfg st os =
            hidden_branch cfg st trail1
              (if negb (rect_eqb (curVS os) (vs_of st)) then curVS os else vs_of st)
              os).
  { unfold tick. fold trail1.
    destruct (rect_eqb (curVS os) (vs_of st)), (bb_ok os); try discriminate;
      cbn [negb andb]; destruct (cursor_info os) as [ci|]; try reflexivity;
      rewrite Hhid; reflexivity. }
  rewrite Htick. unfold hidden_branch.
  destruct (evict_expired_prefix cfg (now_hidden os) trail1)
    as (k & _ & Hk & Hex & _).
  destruct (evict_expired cfg (now_hidden os) trail1) as [|s rest] eqn:E.
  - eexists _, _. split; [reflexivity|]. cbn.
    repeat split; try reflexivity. exists k. split; [exact Hk|exact Hex].
  - destruct (DrawTrail cfg (cache_of st) (cv_of st) (s :: rest) _ (draw_os os))
      as [c1 fr].
    eexists _, _. split; [reflexivity|]. cbn.
    split; [reflexivity|]. split; [exists k; split; [exact Hk|exact Hex]|].
    split; [reflexivity|]. split; discriminate.
Qed.

(** C4, as the claim states it, fails: with the pointer hidden and the
    reported position 5 pixels from the last sample, the iteration
    appends a sample. *)
Lemma C4_hidden_tick_appends :
  let vs := mkRECT 0 0 1920 1080 in
  let st := mkLoopState [mkSample (mkPOINT 0 0) 0] cv_init cache_init vs in
  let os := mkTickOS (mkPOINT 5 0) 16000000 vs true
              (Some (mkCURSORINFO 0 65539)) 16100000
              (mkIconOS (fun _ => None) (fun _ => mkBITMAP 0 0))
              (mkDrawOS true 16200000 11 12 true 13 []) in
  pointer_hidden (cursor_info os) = true
  /\ trail_after (tick default_config st os)
     = Some (trail_of st ++ [mkSample (cur os) (lastTick os)]).
Proof. vm_compute. split; reflexivity. Qed.

(** ** Launch arguments *)

Lemma skip_delims_length (s : string) :
  (String.length (Crt.skip_delims s) <= String.length s)%nat.
Proof.
  induction s as [|c r IH]; [apply Nat.le_refl|].
  cbn [Crt.skip_delims]. destruct (Crt.code c =? 32); cbn [String.length]; lia.
Qed.

Lemma take_token_length (s : string) :
  (String.length (snd (Crt.take_token s)) <= String.length s)%nat.
Proof.
  induction s as [|c r IH]; [apply Nat.le_refl|].
  cbn [Crt.take_token]. destruct (Crt.code c =? 32).
  - cbn [snd String.length]. lia.
  - destruct (Crt.take_token r) as [tok rest]. cbn [snd String.length] in *. lia.
Qed.

(** Every token taken shortens the context. *)
Lemma wcstok_length (context token rest : string) :
  Crt.wcstok context = Some (token, rest) ->
  (String.length rest < String.length context)%nat.
Proof.
  unfold Crt.wcstok. pose proof (skip_delims_length context) as Hs.
  destruct (Crt.skip_delims context) as [|c r] eqn:E; [discriminate|].
  intros [= Ht]. cbn [Crt.take_token] in Ht.
  assert (Hc : (Crt.code c =? 32) = false).
  { clear Ht Hs. induction context as [|c' r' IH]; [discriminate|].
    cbn [Crt.skip_delims] in E. destruct (Crt.code c' =? 32) eqn:Ec.
    - now apply IH.
    - injection E as -> ->. exact Ec. }
  rewrite Hc in Ht. pose proof (take_token_length r) as Hr.
  destruct (Crt.take_token r) as [tok rest']. injection Ht as _ <-.
  cbn [snd String.length] in *. lia.
Qed.

Lemma ParseCommandValue_length {S : Type} (token : string) (names : list string)
    (context : string) (store : string -> S -> S) (st : S) :
  (String.length (fst (ParseCommandValue token names context store st))
   <= String.length context)%nat.
Proof.
  unfold ParseCommandValue. destruct (name_matches (trim_switch token) names);
    [|apply Nat.le_refl].
  destruct (Crt.wcstok context) as [[val rest]|] eqn:E; [|apply Nat.le_refl].
  apply wcstok_length in E. cbn [fst]. lia.
Qed.

Lemma parse_token_length (token context : string) (cfg : Config) :
  (String.length (fst (parse_token token context cfg)) <= String.length context)%nat.
Proof.
  unfold parse_token.
  pose proof (ParseCommandValue_length token ["sensitivity"; "s"]%string context
                set_sensitivity cfg) as H1.
  destruct (ParseCommandValue token ["sensitivity"; "s"]%string context
              set_sensitivity cfg) as [c1 cfg1].
  pose proof (ParseCommandValue_length token ["fade"; "f"]%string c1 set_fade cfg1)
    as H2.
  destruct (ParseCommandValue token ["fade"; "f"]%string c1 set_fade cfg1)
    as [c2 cfg2].
  pose proof (ParseCommandValue_length token ["alpha"; "a"]%string c2 set_alpha cfg2)
    as H3.
  destruct (ParseCommandValue token ["alpha"; "a"]%string c2 set_alpha cfg2)
    as [c3 cfg3].
  pose proof (ParseCommandValue_length token ["color"; "c"]%string c3 parse_color cfg3)
    as H4.
  cbn [fst] in *. lia.
Qed.

(** The parsing loop ends within the rounds it is given: more rounds than
    the length of the context change nothing. *)
Lemma parse_loop_fuel (fuel1 fuel2 : nat) (token context : string) (cfg : Config) :
  (String.length context < fuel1)%nat -> (String.length context < fuel2)%nat ->
  parse_loop fuel1 token context cfg = parse_loop fuel2 token context cfg.
Proof.
  revert fuel2 token context cfg.
  induction fuel1 as [|f1 IH]; intros fuel2 token context cfg H1 H2; [lia|].
  destruct fuel2 as [|f2]; [lia|]. cbn [parse_loop].
  pose proof (parse_token_length token context cfg) as Hp.
  destruct (parse_token token context cfg) as [c1 cfg1]. cbn [fst] in Hp.
  destruct (Crt.wcstok c1) as [[token1 c2]|] eqn:E; [|reflexivity].
  apply wcstok_length in E. apply IH; lia.
Qed.

Lemma clamp_range (v lo hi : F32.f32) :
  F32.leb lo lo = true -> F32.leb lo hi = true -> F32.leb hi hi = true ->
  nan_or_between lo hi (F32.clamp v lo hi).
Proof.
  intros H1 H2 H3. unfold F32.clamp, nan_or_between.
  destruct (F32.ltb v lo) eqn:E0; [right; now split|].
  destruct (F32.ltb hi v) eqn:E1; [right; now split|].
  destruct (ltb_false_leb _ _ E0) as [H|[H|H0]];
    [now left|subst lo; discriminate|].
  destruct (ltb_false_leb _ _ E1) as [H|[H|H4]];
    [subst hi; discriminate|now left|].
  right. now split.
Qed.

Lemma land_255_range (z : Z) : 0 <= Z.land z 255 <= 255.
Proof.
  change (Z.land z 255) with (Z.land z (Z.ones 8)).
  rewrite Z.land_ones by lia. change (2 ^ 8) with 256.
  pose proof (Z.mod_pos_bound z 256 eq_refl). lia.
Qed.

(** The invariant of the parser: the configuration holds IEEE values
    within the clamping ranges. *)
Lemma set_sensitivity_ok (val : string) (cfg : Config) :
  config_valid cfg /\ config_clamped cfg ->
  config_valid (set_sensitivity val cfg) /\ config_clamped (set_sensitivity val cfg).
Proof.
  intros [(Hs & Hf & Ha) (_ & C2 & C3)].
  unfold config_valid, config_clamped, set_sensitivity, parse_float.
  cbn [gSensitivity gTrailFadeMs gTrailMaxAlpha TintR TintG TintB].
  split; [split; [|split; assumption]|split; [|split; assumption]].
  - apply clamp_valid; try reflexivity. apply float_of_double_valid.
  - apply clamp_range; reflexivity.
Qed.

Lemma set_fade_ok (val : string) (cfg : Config) :
  config_valid cfg /\ config_clamped cfg ->
  config_valid (set_fade val cfg) /\ config_clamped (set_fade val cfg).
Proof.
  intros [(Hs & Hf & Ha) (C1 & _ & C3)].
  unfold config_valid, config_clamped, set_fade, parse_float.
  cbn [gSensitivity gTrailFadeMs gTrailMaxAlpha TintR TintG TintB].
  split; [split; [assumption|split; [|assumption]]
         |split; [assumption|split; [|assumption]]].
  - apply clamp_valid; try reflexivity. apply float_of_double_valid.
  - apply clamp_range; reflexivity.
Qed.

Lemma set_alpha_ok (val : string) (cfg : Config) :
  config_valid cfg /\ config_clamped cfg ->
  config_valid (set_alpha val cfg) /\ config_clamped (set_alpha val cfg).
Proof.
  intros [(Hs & Hf & Ha) (C1 & C2 & _ & C4)].
  assert (Hb : 1 <= parse_byte val 1 255 <= 255).
  { unfold parse_byte, clamp_int.
    destruct (Z.ltb_spec (Crt.wtoi val) 1); [cbn; lia|].
    destruct (Z.ltb_spec 255 (Crt.wtoi val)); [cbn; lia|].
    rewrite Z.mod_small; lia. }
  unfold config_valid, config_clamped, set_alpha. cbn.
  repeat split; try assumption; try tauto; lia.
Qed.

Lemma parse_color_ok (val : string) (cfg : Config) :
  config_valid cfg /\ config_clamped cfg ->
  config_valid (parse_color val cfg) /\ config_clamped (parse_color val cfg).
Proof.
  intros H. unfold parse_color.
  destruct (Crt.scan_hex _) as [rgb|]; [|exact H].
  destruct H as [(Hs & Hf & Ha) (C1 & C2 & C3 & _)].
  unfold config_valid, config_clamped.
  cbn [gSensitivity gTrailFadeMs gTrailMaxAlpha TintR TintG TintB].
  pose proof (land_255_range (Z.shiftr rgb 16)).
  pose proof (land_255_range (Z.shiftr rgb 8)).
  pose proof (land_255_range rgb).
  repeat split; try assumption; lia.
Qed.

Lemma ParseCommandValue_ok (token : string) (names : list string)
    (context : string) (store : string -> Config -> Config) (cfg : Config) :
  (forall val c, config_valid c /\ config_clamped c ->
                 config_valid (store val c) /\ config_clamped (store val c)) ->
  config_valid cfg /\ config_clamped cfg ->
  config_valid (snd (ParseCommandValue token names context store cfg))
  /\ config_clamped (snd (ParseCommandValue token names context store cfg)).
Proof.
  intros Hstore H. unfold ParseCommandValue.
  destruct (name_matches (trim_switch token) names); [|exact H].
  destruct (Crt.wcstok context) as [[val rest]|]; [|exact H].
  cbn [snd]. now apply Hstore.
Qed.

Lemma parse_token_ok (token context : string) (cfg : Config) :
  config_valid cfg /\ config_clamped cfg ->
  config_valid (snd (parse_token token context cfg))
  /\ config_clamped (snd (parse_token token context cfg)).
Proof.
  intros H. unfold parse_token.
  pose proof (ParseCommandValue_ok token ["sensitivity"; "s"]%string context
                set_sensitivity cfg set_sensitivity_ok H) as H1.
  destruct (ParseCommandValue token ["sensitivity"; "s"]%string context
              set_sensitivity cfg) as [c1 cfg1]. cbn [snd] in H1.
  pose proof (ParseCommandValue_ok token ["fade"; "f"]%string c1 set_fade cfg1
                set_fade_ok H1) as H2.
  destruct (ParseCommandValue token ["fade"; "f"]%string c1 set_fade cfg1)
    as [c2 cfg2]. cbn [snd] in H2.
  pose proof (ParseCommandValue_ok token ["alpha"; "a"]%string c2 set_alpha cfg2
                set_alpha_ok H2) as H3.
  destruct (ParseCommandValue token ["alpha"; "a"]%string c2 set_alpha cfg2)
    as [c3 cfg3]. cbn [snd] in H3.
  exact (ParseCommandValue_ok token ["color"; "c"]%string c3 parse_color cfg3
           parse_color_ok H3).
Qed.

Lemma parse_loop_ok (fuel : nat) (token context : string) (cfg : Config) :
  config_valid cfg /\ config_clamped cfg ->
  config_valid (parse_loop fuel token context cfg)
  /\ config_clamped (parse_loop fuel token context cfg).
Proof.
  revert token context cfg.
  induction fuel as [|fuel IH]; intros token context cfg H; [exact H|].
  cbn [parse_loop]. pose proof (parse_token_ok token context cfg H) as H1.
  destruct (parse_token token context cfg) as [c1 cfg1]. cbn [snd] in H1.
  destruct (Crt.wcstok c1) as [[token1 c2]|]; [|exact H1]. now apply IH.
Qed.

(** Whatever the command line, the configuration the program runs with
    holds IEEE values, an alpha in [1, 255] and tint channels that are
    bytes; its sensitivity lies in [0.001, 1] and its fade duration in
    [1, 1000] unless it is a NaN.  A NaN is what the value [nan] stores,
    since [std::clamp] lets it through; [inf] stores the upper end, and a
    hexadecimal constant is read as a number. *)
Theorem parse_command_line_config (lpCmdLine : string) :
  config_valid (parse_command_line lpCmdLine default_config)
  /\ config_clamped (parse_command_line lpCmdLine default_config)
  /\ gSensitivity (parse_command_line "sensitivity nan" default_config) = S754_nan
  /\ gTrailFadeMs (parse_command_line "fade NaN" default_config) = S754_nan
  /\ gSensitivity (parse_command_line "sensitivity inf" default_config) = F32.one
  /\ gTrailFadeMs (parse_command_line "fade -Infinity" default_config) = F32.one
  /\ gTrailFadeMs (parse_command_line "fade 0x1.8p4" default_config) = F32.of_Z 24.
Proof.
  assert (H : config_valid default_config /\ config_clamped default_config).
  { unfold config_valid, config_clamped, nan_or_between. cbn.
    repeat split; try lia; right; split; reflexivity. }
  assert (Hall : config_valid (parse_command_line lpCmdLine default_config)
                 /\ config_clamped (parse_command_line lpCmdLine default_config)).
  { unfold parse_command_line.
    destruct (Crt.wcstok lpCmdLine) as [[token context]|]; [|exact H].
    now apply parse_loop_ok. }
  destruct Hall as [Hv Hc]. split; [exact Hv|]. split; [exact Hc|].
  vm_compute. repeat split.
Qed.

(** A value token that holds no number makes [_wtof] and [_wtoi] return
    0, which the parser clamps and stores; only the color parser checks
    that a number was read. *)
Lemma unparsable_value_stored (val : string) (cfg : Config) :
  Crt.wtof val = S754_zero false -> Crt.wtoi val = 0 ->
  gSensitivity (set_sensitivity val cfg) = f_0_001
  /\ gTrailFadeMs (set_fade val cfg) = F32.one
  /\ gTrailMaxAlpha (set_alpha val cfg) = 1.
Proof.
  intros Hf Hi. unfold set_sensitivity, set_fade, set_alpha, parse_float,
    parse_byte. cbn. rewrite Hf, Hi. repeat split.
Qed.

(** C9 fails on the code: after the command line [sensitivity abc] the
    sensitivity is 0.001, not its default 0.03; likewise [fade abc]
    stores 1 and [alpha abc] stores 1.  The color argument alone keeps
    the previous value. *)
Theorem C9_unparsable_value_is_clamped_zero :
  gSensitivity (parse_command_line "sensitivity abc" default_config) = f_0_001
  /\ gSensitivity default_config = f_0_03
  /\ f_0_001 <> f_0_03
  /\ gTrailFadeMs (parse_command_line "fade abc" default_config) = F32.one
  /\ gTrailFadeMs default_config = f_50
  /\ gTrailMaxAlpha (parse_command_line "alpha abc" default_config) = 1
  /\ gTrailMaxAlpha default_config = 10
  /\ parse_command_line "color xyz" default_config = default_config.
Proof. vm_compute. repeat split; discriminate. Qed.

(** ** Blend order *)

Lemma countdown_succ (n : Z) : -1 <= n -> countdown (n + 1) = (n + 1) :: countdown n.
Proof.
  intros Hn. unfold countdown.
  replace (Z.to_nat (n + 1 + 1)) with (S (Z.to_nat (n + 1))) by lia.
  cbn [seq map]. f_equal; [lia|].
  rewrite <- seq_shift, map_map. apply map_ext. intros k. lia.
Qed.

Lemma countdown_range (n j : Z) : In j (countdown n) <-> 0 <= j <= n.
Proof.
  unfold countdown. rewrite in_map_iff. split.
  - intros (k & <- & Hk). apply in_seq in Hk. lia.
  - intros Hj. exists (Z.to_nat (n - j)). split; [lia|]. apply in_seq. lia.
Qed.

Lemma flat_map_ext_on {A B : Type} (f g : A -> list B) (l : list A) :
  (forall a, In a l -> f a = g a) -> flat_map f l = flat_map g l.
Proof.
  induction l as [|a l IH]; intros H; [reflexivity|].
  cbn. rewrite (H a) by now left. f_equal. apply IH.
  intros a' Ha'. apply H. now right.
Qed.

(** The outer loop starts from the newest pair: the blends of the pair of
    the two newest samples come first, followed by the blends of the
    frame for the trail without its newest sample. *)
Lemma trail_blends_newest_first (cfg : Config) (vs : RECT) (cv : CursorVisual)
    (now : time_point) (l : Trail) (a b : Sample) :
  trail_blends cfg vs cv now (l ++ [a; b]) =
    segment_blends cfg vs cv now a b ++ trail_blends cfg vs cv now (l ++ [a]).
Proof.
  unfold trail_blends. rewrite !length_app. cbn [length].
  replace (Z.of_nat (length l + 2) - 2) with (Z.of_nat (length l) - 1 + 1) by lia.
  replace (Z.of_nat (length l + 1) - 2) with (Z.of_nat (length l) - 1) by lia.
  rewrite countdown_succ by lia. cbn [flat_map]. f_equal.
  - unfold pair_blends.
    replace (Z.to_nat (Z.of_nat (length l) - 1 + 1)) with (length l + 0)%nat by lia.
    replace (Z.to_nat (Z.of_nat (length l) - 1 + 1 + 1)) with (length l + 1)%nat by lia.
    rewrite !nth_error_app2 by lia.
    replace (length l + 0 - length l)%nat with 0%nat by lia.
    replace (length l + 1 - length l)%nat with 1%nat by lia.
    reflexivity.
  - apply flat_map_ext_on. intros i Hi. apply countdown_range in Hi.
    unfold pair_blends.
    assert (E : forall k : nat, (k <= length l)%nat ->
              nth_error (l ++ [a; b]) k = nth_error (l ++ [a]) k).
    { intros k Hk. destruct (Nat.eq_dec k (length l)) as [->|Hne].
      - rewrite !nth_error_app2 by lia. now rewrite Nat.sub_diag.
      - rewrite !nth_error_app1 by lia. reflexivity. }
    rewrite !E by lia. reflexivity.
Qed.

(** C5 fails on the code: for three samples 40 pixels and 10 ms apart,
    both pairs are rendered, and the blends of the newer pair (first one
    at x = 80) are issued before every blend of the older pair (last one
    at x = 0), so the older strokes are painted on top. *)
Theorem C5_newer_pair_is_blended_first :
  let s0 := mkSample (mkPOINT 0 0) 0 in
  let s1 := mkSample (mkPOINT 40 0) 10000000 in
  let s2 := mkSample (mkPOINT 80 0) 20000000 in
  let vs := mkRECT 0 0 1920 1080 in
  let cv := mkCursorVisual 65539 32 32 0 0 in
  let now := 20000000 in
  let newer := segment_blends default_config vs cv now s1 s2 in
  let older := segment_blends default_config vs cv now s0 s1 in
  trail_blends default_config vs cv now [s0; s1; s2] = newer ++ older
  /\ length newer = 41%nat /\ length older = 41%nat
  /\ hd_error newer = Some (mkBlend 80 0 7)
  /\ nth_error (trail_blends default_config vs cv now [s0; s1; s2]) 0
     = Some (mkBlend 80 0 7)
  /\ nth_error (trail_blends default_config vs cv now [s0; s1; s2]) 81
     = Some (mkBlend 0 0 6).
Proof. vm_compute. repeat split. Qed.

(** ** Alpha of an interpolation step *)


Lemma step_blend_spec (cfg : Config) (vs : RECT) (cv : CursorVisual)
    (sg : Segment) (j : Z) :
  let a := step_alpha cfg (step_fade cfg (seg_age0 sg) (step_t sg j))
                      (speed_factor cfg (seg_dist sg)) in
  match step_blend cfg vs cv sg j with
  | Some b => 3 <= a /\ srcAlpha b = a
  | None => a < 3
  end.
Proof.
  cbv zeta. unfold step_blend.
  destruct (Z.ltb_spec
              (step_alpha cfg (step_fade cfg (seg_age0 sg) (step_t sg j))
                 (speed_factor cfg (seg_dist sg))) 3) as [H|H].
  - exact H.
  - cbn [srcAlpha]. split; [exact H|reflexivity].
Qed.


(** The floats of a rendered pair are IEEE values. *)
Lemma make_segment_valid (cfg : Config) (now : time_point) (s0 s1 : Sample)
    (sg : Segment) :
  make_segment cfg now s0 s1 = Some sg -> segment_valid sg.
Proof.
  unfold make_segment.
  destruct (F32.ltb (gTrailFadeMs cfg) (F32.of_Z (age_ms now (t s0))));
    [discriminate|].
  destruct (F32.ltb _ F32.one); [discriminate|].
  intros [= <-]. unfold segment_valid. cbn [seg_age0 seg_dist seg_stepFrac].
  split; [apply of_Z_valid|]. split.
  - apply sqrt_valid, add_valid; apply mul_valid; apply of_Z_valid.
  - apply (div_valid F32.one); [reflexivity|apply of_Z_valid].
Qed.





(** ** Virtual screen *)

Lemma wrap_add_l (a b : Z) : Int32.wrap (Int32.wrap a + b) = Int32.wrap (a + b).
Proof.
  unfold Int32.wrap. f_equal.
  replace ((a + 2 ^ 31) mod 2 ^ 32 - 2 ^ 31 + b + 2 ^ 31)
    with ((a + 2 ^ 31) mod 2 ^ 32 + b) by lia.
  rewrite Zplus_mod_idemp_l. f_equal. lia.
Qed.

Lemma sub_add_cancel (x c : Z) :
  Int32.in_range c -> Int32.sub (Int32.add x c) x = c.
Proof.
  intros Hc. unfold Int32.sub, Int32.add.
  replace (Int32.wrap (x + c) - x) with (Int32.wrap (x + c) + (- x)) by lia.
  rewrite wrap_add_l. replace (x + c + - x) with c by lia.
  now apply wrap_in_range.
Qed.

Lemma add_cancel_l (x c c' : Z) :
  Int32.in_range c -> Int32.in_range c' ->
  Int32.add x c = Int32.add x c' -> c = c'.
Proof.
  intros Hc Hc' H.
  rewrite <- (sub_add_cancel x c Hc), <- (sub_add_cancel x c' Hc').
  now rewrite H.
Qed.

Lemma rect_eqb_eq (a b : RECT) : rect_eqb a b = true <-> a = b.
Proof.
  unfold rect_eqb. rewrite !andb_true_iff, !Z.eqb_eq.
  destruct a, b; cbn. split.
  - intros [[[-> ->] ->] ->]. reflexivity.
  - intros H. injection H as -> -> -> ->. auto.
Qed.

(** The extents that [wWinMain] derives from the rectangle of
    [GetVirtualScreenRect] are the width and the height the system
    reported, also when the right or bottom edge wrapped around; and the
    test of line 554 sees every change of a metric. *)
Theorem GetVirtualScreenRect_extent (m : Metrics) :
  metrics_in_range m ->
  rect_width (GetVirtualScreenRect m) = SM_CXVIRTUALSCREEN m
  /\ rect_height (GetVirtualScreenRect m) = SM_CYVIRTUALSCREEN m
  /\ (forall m' : Metrics, metrics_in_range m' ->
        (rect_eqb (GetVirtualScreenRect m') (GetVirtualScreenRect m) = true
         <-> m' = m)).
Proof.
  intros (Hx & Hy & Hcx & Hcy).
  split; [|split].
  - apply sub_add_cancel, Hcx.
  - apply sub_add_cancel, Hcy.
  - intros m' (Hx' & Hy' & Hcx' & Hcy'). rewrite rect_eqb_eq. split.
    + intros H. destruct m as [x y cx cy], m' as [x' y' cx' cy'].
      unfold GetVirtualScreenRect in H. cbn in *.
      injection H as -> -> Hr Hb.
      apply add_cancel_l in Hr; [|assumption..].
      apply add_cancel_l in Hb; [|assumption..].
      now subst.
    + now intros ->.
Qed.

(** ** Drawing surfaces *)

Lemma Backbuffer_EnsureSize_fits (os : SurfaceOS) (s : Backbuffer.t)
    (refDC W H : Z) :
  W <= Backbuffer.w s -> H <= Backbuffer.h s ->
  Backbuffer.memDC s <> 0 -> Backbuffer.dib s <> 0 ->
  Backbuffer.EnsureSize os s refDC W H = (s, true, []).
Proof.
  intros HW HH Hdc Hdib. unfold Backbuffer.EnsureSize.
  apply Z.leb_le in HW, HH. apply Z.eqb_neq in Hdc, Hdib.
  now rewrite HW, HH, Hdc, Hdib.
Qed.

Lemma Backbuffer_fits_dec (s : Backbuffer.t) (W H : Z) :
  (W <=? Backbuffer.w s) && (H <=? Backbuffer.h s)
  && negb (Backbuffer.memDC s =? 0) && negb (Backbuffer.dib s =? 0) = true
  <-> Backbuffer_fits s W H.
Proof.
  unfold Backbuffer_fits.
  rewrite !andb_true_iff, !negb_true_iff, !Z.leb_le, !Z.eqb_neq. tauto.
Qed.

(** [Backbuffer::EnsureSize] succeeds exactly when the request fits
    the buffer it has or [CreateDIBSection] answers a bitmap, whatever
    [CreateCompatibleDC] answers; a request that fits costs no call and
    changes nothing; after a success the buffer covers the request and,
    when it was recreated, has exactly the size asked; after a failure
    it holds nothing. *)
Theorem Backbuffer_EnsureSize_result (os : SurfaceOS) (s : Backbuffer.t)
    (refDC W H : Z) :
  let r := Backbuffer.EnsureSize os s refDC W H in
  let s1 := fst (fst r) in
  let ok := snd (fst r) in
  (ok = true <-> Backbuffer_fits s W H \/ dib_answer os <> 0)
  /\ (Backbuffer_fits s W H -> r = (s, true, []))
  /\ (ok = true ->
      W <= Backbuffer.w s1 /\ H <= Backbuffer.h s1 /\ Backbuffer.dib s1 <> 0)
  /\ (~ Backbuffer_fits s W H -> ok = true ->
      Backbuffer.w s1 = W /\ Backbuffer.h s1 = H
      /\ Backbuffer.dib s1 = dib_answer os
      /\ Backbuffer.memDC s1 = dc_answer os)
  /\ (ok = false ->
      Backbuffer.memDC s1 = 0 /\ Backbuffer.dib s1 = 0
      /\ Backbuffer.w s1 = 0 /\ Backbuffer.h s1 = 0).
Proof.
  cbv zeta. unfold Backbuffer.EnsureSize.
  pose proof (Backbuffer_fits_dec s W H) as Hfit.
  destruct ((W <=? Backbuffer.w s) && (H <=? Backbuffer.h s)
            && negb (Backbuffer.memDC s =? 0) && negb (Backbuffer.dib s =? 0)).
  - assert (Hf : Backbuffer_fits s W H) by now apply Hfit.
    cbn. repeat split; try tauto; try discriminate; destruct Hf; tauto.
  - assert (Hn : ~ Backbuffer_fits s W H)
      by (intros Hf; apply Hfit in Hf; discriminate).
    cbn. destruct (Z.eqb_spec (dib_answer os) 0) as [E|E]; cbn.
    + repeat split; try tauto; try discriminate; try lia.
    + repeat split; try tauto; try discriminate; try lia.
Qed.

Lemma TempIconSurf_fits_dec (s : TempIconSurf.t) (W H : Z) :
  (fst (TempIconSurf_dims W H) =? TempIconSurf.w s)
  && (snd (TempIconSurf_dims W H) =? TempIconSurf.h s)
  && negb (TempIconSurf.memDC s =? 0) && negb (TempIconSurf.dib s =? 0) = true
  <-> TempIconSurf_fits s W H.
Proof.
  unfold TempIconSurf_fits.
  rewrite !andb_true_iff, !negb_true_iff, !Z.eqb_eq, !Z.eqb_neq. tauto.
Qed.

Lemma TempIconSurf_EnsureSize_dims (os : SurfaceOS) (s : TempIconSurf.t)
    (refDC W H : Z) :
  TempIconSurf.EnsureSize os s refDC W H =
  TempIconSurf.EnsureSize os s refDC (fst (TempIconSurf_dims W H))
                                     (snd (TempIconSurf_dims W H)).
Proof.
  unfold TempIconSurf.EnsureSize, TempIconSurf_dims.
  destruct (Z.leb_spec W 0); cbn [orb]; [reflexivity|].
  destruct (Z.leb_spec H 0); cbn [orb fst snd]; [reflexivity|].
  destruct (Z.leb_spec W 0); [lia|]. destruct (Z.leb_spec H 0); [lia|].
  reflexivity.
Qed.

(** [TempIconSurf::EnsureSize] treats a request with a width or a
    height that is not positive as the request 1 x 1; it keeps its surface
    only for a request of exactly its size; after a success the surface
    has exactly the size the request stands for, which is at least 1 x 1;
    after a failure it holds nothing. *)
Theorem TempIconSurf_EnsureSize_result (os : SurfaceOS) (s : TempIconSurf.t)
    (refDC W H : Z) :
  let r := TempIconSurf.EnsureSize os s refDC W H in
  let s1 := fst (fst r) in
  let ok := snd (fst r) in
  (W <= 0 \/ H <= 0 -> r = TempIconSurf.EnsureSize os s refDC 1 1)
  /\ (ok = true <-> TempIconSurf_fits s W H \/ dib_answer os <> 0)
  /\ (TempIconSurf_fits s W H -> r = (s, true, []))
  /\ (ok = true ->
      TempIconSurf.w s1 = fst (TempIconSurf_dims W H)
      /\ TempIconSurf.h s1 = snd (TempIconSurf_dims W H)
      /\ 1 <= TempIconSurf.w s1 /\ 1 <= TempIconSurf.h s1
      /\ TempIconSurf.dib s1 <> 0)
  /\ (~ TempIconSurf_fits s W H ->
      exists created,
        snd r = snd (TempIconSurf.Release s)
                ++ CreateDIBSection refDC
                     (MakeBitmapInfo (fst (TempIconSurf_dims W H))
                                     (snd (TempIconSurf_dims W H)))
                     (dib_answer os) :: created)
  /\ (ok = false ->
      TempIconSurf.memDC s1 = 0 /\ TempIconSurf.dib s1 = 0
      /\ TempIconSurf.w s1 = 0 /\ TempIconSurf.h s1 = 0).
Proof.
  cbv zeta. split.
  { intros HWH. rewrite TempIconSurf_EnsureSize_dims. unfold TempIconSurf_dims.
    destruct (Z.leb_spec W 0); cbn [orb fst snd]; [reflexivity|].
    destruct (Z.leb_spec H 0); cbn [orb fst snd]; [reflexivity|]. lia. }
  assert (Hpos : 1 <= fst (TempIconSurf_dims W H)
                 /\ 1 <= snd (TempIconSurf_dims W H)).
  { unfold TempIconSurf_dims.
    destruct (Z.leb_spec W 0); cbn [orb fst snd]; [lia|].
    destruct (Z.leb_spec H 0); cbn [orb fst snd]; lia. }
  pose proof (TempIconSurf_fits_dec s W H) as Hfit.
  unfold TempIconSurf.EnsureSize. fold (TempIconSurf_dims W H).
  unfold TempIconSurf_fits in *.
  destruct (TempIconSurf_dims W H) as [W1 H1]. cbn [fst snd] in *.
  destruct ((W1 =? TempIconSurf.w s) && (H1 =? TempIconSurf.h s)
            && negb (TempIconSurf.memDC s =? 0) && negb (TempIconSurf.dib s =? 0)).
  - destruct Hfit as [Hf _]. destruct (Hf eq_refl) as (Hw & Hh & Hdc & Hdib). cbn.
    split; [split; [intros _; left; repeat split; assumption|reflexivity]|].
    split; [reflexivity|].
    split; [intros _; repeat split; try lia; assumption|].
    split; [intros Hn; exfalso; apply Hn; repeat split; assumption|discriminate].
  - assert (Hn : ~ (W1 = TempIconSurf.w s /\ H1 = TempIconSurf.h s
                     /\ TempIconSurf.memDC s <> 0 /\ TempIconSurf.dib s <> 0))
      by (intros Hf; apply Hfit in Hf; discriminate).
    cbn. destruct (Z.eqb_spec (dib_answer os) 0) as [E|E]; cbn.
    + split; [split; [discriminate|intros [Hf|Hd]; tauto]|].
      split; [tauto|]. split; [discriminate|].
      split; [intros _; now exists []|intros _; repeat split; try reflexivity; assumption].
    + split; [split; [intros _; now right|reflexivity]|].
      split; [tauto|].
      split; [intros _; repeat split; try lia; assumption|].
      split; [intros _; eexists; reflexivity|discriminate].
Qed.

(** ** Objects created and deleted *)

Lemma total_app (f : Call -> nat) (a b : list Call) :
  total f (a ++ b) = (total f a + total f b)%nat.
Proof. unfold total. now rewrite map_app, list_sum_app. Qed.

Lemma total_cons (f : Call -> nat) (c : Call) (l : list Call) :
  total f (c :: l) = (f c + total f l)%nat.
Proof. reflexivity. Qed.

Lemma total_nil (f : Call -> nat) : total f [] = 0%nat.
Proof. reflexivity. Qed.

Lemma is_handle_null (h : HANDLE) : h <> 0 -> is_handle h 0 = 0%nat.
Proof. intros H. unfold is_handle. destruct (Z.eqb_spec 0 h); congruence. Qed.

Lemma total_zero (f : Call -> nat) (calls : list Call) :
  (forall c, In c calls -> f c = 0%nat) -> total f calls = 0%nat.
Proof.
  induction calls as [|c l IH]; intros H; [reflexivity|].
  rewrite total_cons, (H c (or_introl eq_refl)), IH; [reflexivity|].
  intros c' Hc'. apply H. now right.
Qed.

(** The counting functions on a list of calls, pushed through
    concatenation. *)
Ltac count_calls :=
  repeat (rewrite total_app || rewrite total_cons || rewrite total_nil);
  cbn [bitmaps_made bitmaps_deleted dcs_made dcs_deleted].

Lemma Backbuffer_Release_counts (h : HANDLE) (s : Backbuffer.t) :
  h <> 0 ->
  let calls := snd (Backbuffer.Release s) in
  total (bitmaps_made h) calls = 0%nat
  /\ total (dcs_made h) calls = 0%nat
  /\ total (bitmaps_deleted h) calls = is_handle h (Backbuffer.dib s)
  /\ total (dcs_deleted h) calls = is_handle h (Backbuffer.memDC s).
Proof.
  intros Hh. cbn. 
  destruct (Z.eqb_spec (Backbuffer.memDC s) 0) as [E1|E1];
    destruct (Z.eqb_spec (Backbuffer.dib s) 0) as [E2|E2]; cbn;
    rewrite ?E1, ?E2, ?is_handle_null by assumption;
    repeat split; unfold total; cbn; lia.
Qed.

Lemma TempIconSurf_Release_counts (h : HANDLE) (s : TempIconSurf.t) :
  h <> 0 ->
  let calls := snd (TempIconSurf.Release s) in
  total (bitmaps_made h) calls = 0%nat
  /\ total (dcs_made h) calls = 0%nat
  /\ total (bitmaps_deleted h) calls = is_handle h (TempIconSurf.dib s)
  /\ total (dcs_deleted h) calls = is_handle h (TempIconSurf.memDC s).
Proof.
  intros Hh. cbn.
  destruct (Z.eqb_spec (TempIconSurf.memDC s) 0) as [E1|E1];
    destruct (Z.eqb_spec (TempIconSurf.dib s) 0) as [E2|E2]; cbn;
    rewrite ?E1, ?E2, ?is_handle_null by assumption;
    repeat split; unfold total; cbn; lia.
Qed.

Lemma Backbuffer_EnsureSize_counts (h : HANDLE) (os : SurfaceOS)
    (s : Backbuffer.t) (refDC W H : Z) :
  h <> 0 ->
  let r := Backbuffer.EnsureSize os s refDC W H in
  (total (bitmaps_made h) (snd r) + is_handle h (Backbuffer.dib s)
   = total (bitmaps_deleted h) (snd r) + is_handle h (Backbuffer.dib (fst (fst r))))%nat
  /\ (total (dcs_made h) (snd r) + is_handle h (Backbuffer.memDC s)
      = total (dcs_deleted h) (snd r)
        + is_handle h (Backbuffer.memDC (fst (fst r))))%nat.
Proof.
  intros Hh. cbv zeta. unfold Backbuffer.EnsureSize.
  destruct ((W <=? Backbuffer.w s) && (H <=? Backbuffer.h s)
            && negb (Backbuffer.memDC s =? 0) && negb (Backbuffer.dib s =? 0));
    [cbn; split; reflexivity|].
  destruct (Backbuffer_Release_counts h s Hh) as (R1 & R2 & R3 & R4).
  destruct (Backbuffer.Release s) as [s1 released] eqn:ER.
  assert (Hs1 : s1 = Backbuffer.init) by (unfold Backbuffer.Release in ER; now injection ER).
  subst s1. cbn [fst snd] in *.
  destruct (Z.eqb_spec (dib_answer os) 0) as [E|E]; cbn [fst snd Backbuffer.dib Backbuffer.memDC];
    count_calls; rewrite R1, R2, R3, R4, ?E, ?is_handle_null by assumption; lia.
Qed.

Lemma TempIconSurf_EnsureSize_counts (h : HANDLE) (os : SurfaceOS)
    (s : TempIconSurf.t) (refDC W H : Z) :
  h <> 0 ->
  let r := TempIconSurf.EnsureSize os s refDC W H in
  (total (bitmaps_made h) (snd r) + is_handle h (TempIconSurf.dib s)
   = total (bitmaps_deleted h) (snd r)
     + is_handle h (TempIconSurf.dib (fst (fst r))))%nat
  /\ (total (dcs_made h) (snd r) + is_handle h (TempIconSurf.memDC s)
      = total (dcs_deleted h) (snd r)
        + is_handle h (TempIconSurf.memDC (fst (fst r))))%nat.
Proof.
  intros Hh. cbv zeta. unfold TempIconSurf.EnsureSize.
  destruct (if (W <=? 0) || (H <=? 0) then (1, 1) else (W, H)) as [W1 H1].
  destruct ((W1 =? TempIconSurf.w s) && (H1 =? TempIconSurf.h s)
            && negb (TempIconSurf.memDC s =? 0) && negb (TempIconSurf.dib s =? 0));
    [cbn; split; reflexivity|].
  destruct (TempIconSurf_Release_counts h s Hh) as (R1 & R2 & R3 & R4).
  destruct (TempIconSurf.Release s) as [s1 released] eqn:ER.
  assert (Hs1 : s1 = TempIconSurf.init) by (unfold TempIconSurf.Release in ER; now injection ER).
  subst s1. cbn [fst snd] in *.
  destruct (Z.eqb_spec (dib_answer os) 0) as [E|E];
    cbn [fst snd TempIconSurf.dib TempIconSurf.memDC];
    count_calls; rewrite R1, R2, R3, R4, ?E, ?is_handle_null by assumption; lia.
Qed.

Lemma rebuild_counts (h : HANDLE) (cfg : Config) (c : TintCache)
    (cv : CursorVisual) (screenDC : HANDLE) (os : DrawOS) :
  h <> 0 ->
  let calls := rebuild_calls c cv screenDC os in
  let c1 := fst (rebuild_cache cfg c cv os) in
  (total (bitmaps_made h) calls + is_handle h (sTintBMP c)
   = total (bitmaps_deleted h) calls + is_handle h (sTintBMP c1))%nat
  /\ (total (dcs_made h) calls + is_handle h (sTintDC c)
      = total (dcs_deleted h) calls + is_handle h (sTintDC c1))%nat.
Proof.
  intros Hh. cbv zeta. unfold rebuild_calls, rebuild_cache.
  destruct (Z.eqb_spec (sTintDC c) 0) as [E1|E1];
    destruct (Z.eqb_spec (sTintBMP c) 0) as [E2|E2];
    destruct (Z.eqb_spec (sTintOld c) 0) as [E3|E3];
    destruct ((new_dib os =? 0) || negb (new_bits os));
    cbn [negb fst sTintBMP sTintDC]; count_calls;
    rewrite ?E1, ?E2, ?is_handle_null by assumption; lia.
Qed.

Lemma ReleaseTintCache_counts (h : HANDLE) (c : TintCache) :
  h <> 0 ->
  let calls := snd (ReleaseTintCache c) in
  total (bitmaps_made h) calls = 0%nat
  /\ total (dcs_made h) calls = 0%nat
  /\ (total (bitmaps_deleted h) calls
      + (if (sTintDC c =? 0)%Z then is_handle h (sTintBMP c) else 0)
      = is_handle h (sTintBMP c))%nat
  /\ total (dcs_deleted h) calls = is_handle h (sTintDC c).
Proof.
  intros Hh. cbv zeta. unfold ReleaseTintCache.
  destruct (Z.eqb_spec (sTintDC c) 0) as [E1|E1];
    destruct (Z.eqb_spec (sTintBMP c) 0) as [E2|E2];
    destruct (Z.eqb_spec (sTintOld c) 0) as [E3|E3];
    cbn [negb fst snd sTintBMP sTintDC]; count_calls;
    rewrite ?E1, ?E2, ?is_handle_null by assumption;
    repeat split; lia.
Qed.

Lemma RefreshCursorVisual_counts (h : HANDLE) (os : IconOS) (cv : CursorVisual)
    (ci : CURSORINFO) :
  h <> 0 ->
  let calls := RefreshCursorVisual_calls os cv ci in
  total (bitmaps_made h) calls = total (bitmaps_deleted h) calls
  /\ total (dcs_made h) calls = 0%nat
  /\ total (dcs_deleted h) calls = 0%nat.
Proof.
  intros Hh. cbv zeta. unfold RefreshCursorVisual_calls.
  destruct (ci_hCursor ci =? hCur cv); [repeat split; reflexivity|].
  destruct (GetIconInfo os (ci_hCursor ci)) as [ii|]; [|repeat split; reflexivity].
  destruct (Z.eqb_spec (hbmMask ii) 0) as [E1|E1];
    destruct (Z.eqb_spec (hbmColor ii) 0) as [E2|E2];
    cbn [negb]; count_calls;
    rewrite ?E1, ?E2, ?is_handle_null by assumption;
    repeat split; lia.
Qed.

Lemma blend_calls_counts (f : Call -> nat) (bb : Backbuffer.t)
    (tmp : TempIconSurf.t) (cv : CursorVisual) (l : list Blend) :
  (forall a b c d e g i j k l m, f (AlphaBlend a b c d e g i j k l m) = 0%nat) ->
  total f (map (blend_call bb tmp cv) l) = 0%nat.
Proof.
  intros Hf. apply total_zero. intros c Hc.
  apply in_map_iff in Hc. destruct Hc as (b & <- & _). apply Hf.
Qed.

Lemma rebuild_cache_with_tmp_ok (cfg : Config) (c : TintCache) (cv : CursorVisual)
    (os : DrawOS) (ok : bool) :
  rebuild_cache cfg c cv (with_tmp_ok os ok) = rebuild_cache cfg c cv os.
Proof. reflexivity. Qed.

Lemma DrawTrail_cache (cfg : Config) (c : TintCache) (cv : CursorVisual)
    (trail : Trail) (vs : RECT) (os : DrawOS) :
  fst (DrawTrail cfg c cv trail vs os) =
    if negb (tmp_ok os) then c
    else if cache_stale c cv then fst (rebuild_cache cfg c cv os) else c.
Proof.
  unfold DrawTrail. destruct (negb (tmp_ok os)); [reflexivity|].
  destruct (cache_stale c cv).
  - destruct (rebuild_cache cfg c cv os) as [c1 oc]. cbn [fst].
    destruct oc; try reflexivity; now destruct (sTintBMP c1 =? 0).
  - now destruct (sTintBMP c =? 0).
Qed.

Lemma DrawTrail_calls_surface (cfg : Config) (hwnd screenDC : HANDLE)
    (bb : Backbuffer.t) (tmp : TempIconSurf.t) (c : TintCache)
    (cv : CursorVisual) (trail : Trail) (vs : RECT) (sos : SurfaceOS)
    (os : DrawOS) :
  fst (DrawTrail_calls cfg hwnd screenDC bb tmp c cv trail vs sos os)
  = fst (TempIconSurf.EnsureSize sos tmp screenDC (width cv) (height cv)).
Proof.
  unfold DrawTrail_calls.
  destruct (TempIconSurf.EnsureSize sos tmp screenDC (width cv) (height cv))
    as [[tmp1 ok] ensure].
  destruct ok; cbn [negb fst]; [|reflexivity].
  destruct (cache_stale c cv && ((new_dib os =? 0) || negb (new_bits os)));
    [reflexivity|].
  now destruct (sTintBMP _ =? 0).
Qed.

Lemma DrawTrail_calls_counts (h : HANDLE) (cfg : Config) (hwnd screenDC : HANDLE)
    (bb : Backbuffer.t) (tmp : TempIconSurf.t) (c : TintCache)
    (cv : CursorVisual) (trail : Trail) (vs : RECT) (sos : SurfaceOS)
    (os : DrawOS) :
  h <> 0 ->
  let r := DrawTrail_calls cfg hwnd screenDC bb tmp c cv trail vs sos os in
  let tmp1 := fst (fst r) in
  let c1 := fst (DrawTrail cfg c cv trail vs (with_tmp_ok os (snd (fst r)))) in
  (total (bitmaps_made h) (snd r) + is_handle h (TempIconSurf.dib tmp)
   + is_handle h (sTintBMP c)
   = total (bitmaps_deleted h) (snd r) + is_handle h (TempIconSurf.dib tmp1)
     + is_handle h (sTintBMP c1))%nat
  /\ (total (dcs_made h) (snd r) + is_handle h (TempIconSurf.memDC tmp)
      + is_handle h (sTintDC c)
      = total (dcs_deleted h) (snd r) + is_handle h (TempIconSurf.memDC tmp1)
        + is_handle h (sTintDC c1))%nat.
Proof.
  intros Hh. cbv zeta.
  rewrite DrawTrail_cache, rebuild_cache_with_tmp_ok, DrawTrail_calls_surface.
  unfold DrawTrail_calls.
  pose proof (TempIconSurf_EnsureSize_counts h sos tmp screenDC (width cv)
                (height cv) Hh) as HE. cbv zeta in HE.
  destruct (TempIconSurf.EnsureSize sos tmp screenDC (width cv) (height cv))
    as [[tmp1 ok] ensure]. cbn [fst snd] in HE.
  destruct ok; cbn [negb fst snd with_tmp_ok tmp_ok]; [|lia].
  pose proof (rebuild_counts h cfg c cv screenDC os Hh) as HR. cbv zeta in HR.
  unfold Backbuffer.Clear, present_call.
  destruct (cache_stale c cv); cbn [andb].
  - destruct ((new_dib os =? 0) || negb (new_bits os)); cbn [fst snd].
    + count_calls. lia.
    + destruct (sTintBMP (fst (rebuild_cache cfg c cv os)) =? 0);
        cbn [fst snd]; count_calls;
        rewrite ?blend_calls_counts by reflexivity; lia.
  - destruct (sTintBMP c =? 0); cbn [fst snd]; count_calls;
      rewrite ?blend_calls_counts by reflexivity; lia.
Qed.

Lemma WndProc_counts (f : Call -> nat) (pVs : option RECT) (msg : Z) (os : WndOS) :
  (forall n, f (PostQuitMessage n) = 0%nat) ->
  (forall n, f (DefWindowProc n) = 0%nat) ->
  total f (snd (WndProc pVs msg os)) = 0%nat.
Proof.
  intros H1 H2. unfold WndProc.
  destruct (msg =? WM_DESTROY); [count_calls; cbn; now rewrite H1, H2|].
  destruct (msg =? WM_ERASEBKGND); [reflexivity|].
  destruct (msg =? WM_DISPLAYCHANGE); cbn; count_calls; now rewrite H2.
Qed.

Lemma pump_counts (f : Call -> nat) (hwnd : HANDLE) (msgs : list (MSG * WndOS)) :
  (forall n, f (PostQuitMessage n) = 0%nat) ->
  (forall n, f (DefWindowProc n) = 0%nat) ->
  forall vs : RECT, total f (snd (pump hwnd vs msgs)) = 0%nat.
Proof.
  intros H1 H2. induction msgs as [|[msg os] rest IH]; intros vs; [reflexivity|].
  cbn [pump]. destruct (message msg =? WM_QUIT); [reflexivity|].
  destruct (msg_hwnd msg =? hwnd); [|apply IH].
  pose proof (WndProc_counts f (Some vs) (message msg) os H1 H2) as HW.
  destruct (WndProc (Some vs) (message msg) os) as [[pVs res] calls].
  cbn [snd] in HW.
  specialize (IH (match pVs with Some r => r | None => vs end)).
  destruct (pump hwnd _ rest) as [res1 calls1]. cbn [snd] in *.
  rewrite total_app. lia.
Qed.

(** A bitmap in the tinted glyph cache comes with a device context. *)
Lemma DrawTrail_tint_dc (cfg : Config) (c : TintCache) (cv : CursorVisual)
    (trail : Trail) (vs : RECT) (os : DrawOS) :
  new_dc os <> 0 ->
  (sTintBMP c <> 0 -> sTintDC c <> 0) ->
  let c1 := fst (DrawTrail cfg c cv trail vs os) in
  sTintBMP c1 <> 0 -> sTintDC c1 <> 0.
Proof.
  intros Hdc Hc. cbv zeta. rewrite DrawTrail_cache.
  destruct (negb (tmp_ok os)); [exact Hc|].
  destruct (cache_stale c cv); [|exact Hc].
  unfold rebuild_cache.
  destruct ((new_dib os =? 0) || negb (new_bits os)); cbn [fst sTintBMP sTintDC];
    intros _; destruct (Z.eqb_spec (sTintDC c) 0); assumption.
Qed.

Lemma draw_counts (h : HANDLE) (cfg : Config) (ov : Overlay) (bb1 : Backbuffer.t)
    (cv1 : CursorVisual) (trail1 : Trail) (vs : RECT) (os : IterOS) :
  h <> 0 ->
  let r := draw cfg ov bb1 cv1 trail1 vs os in
  let ov1 := fst (fst r) in
  (total (bitmaps_made h) (snd r) + is_handle h (Backbuffer.dib bb1)
   + is_handle h (TempIconSurf.dib (tmp_of ov))
   + is_handle h (sTintBMP (cache_of (loop_of ov)))
   = total (bitmaps_deleted h) (snd r) + bitmaps_held h ov1)%nat
  /\ (total (dcs_made h) (snd r) + is_handle h (Backbuffer.memDC bb1)
      + is_handle h (TempIconSurf.memDC (tmp_of ov))
      + is_handle h (sTintDC (cache_of (loop_of ov)))
      = total (dcs_deleted h) (snd r) + dcs_held h ov1)%nat
  /\ hwnd_of ov1 = hwnd_of ov /\ screenDC_of ov1 = screenDC_of ov
  /\ hMutex_of ov1 = hMutex_of ov
  /\ (new_dc (draw_os (tick_os os)) <> 0 ->
      (sTintBMP (cache_of (loop_of ov)) <> 0 -> sTintDC (cache_of (loop_of ov)) <> 0) ->
      sTintBMP (cache_of (loop_of ov1)) <> 0 -> sTintDC (cache_of (loop_of ov1)) <> 0).
Proof.
  intros Hh. cbv zeta. unfold draw.
  pose proof (DrawTrail_calls_counts h cfg (hwnd_of ov) (screenDC_of ov) bb1
                (tmp_of ov) (cache_of (loop_of ov)) cv1 trail1 vs (tmp_os os)
                (draw_os (tick_os os)) Hh) as HD. cbv zeta in HD.
  destruct (DrawTrail_calls cfg (hwnd_of ov) (screenDC_of ov) bb1 (tmp_of ov)
              (cache_of (loop_of ov)) cv1 trail1 vs (tmp_os os)
              (draw_os (tick_os os))) as [[tmp1 ok] calls].
  cbn [fst snd] in HD.
  pose proof (DrawTrail_tint_dc cfg (cache_of (loop_of ov)) cv1 trail1 vs
                (with_tmp_ok (draw_os (tick_os os)) ok)) as HT.
  cbv zeta in HT.
  destruct (DrawTrail cfg (cache_of (loop_of ov)) cv1 trail1 vs
              (with_tmp_ok (draw_os (tick_os os)) ok)) as [c1 fr].
  cbn [fst snd] in *. unfold bitmaps_held, dcs_held.
  cbn [bb_of tmp_of loop_of cache_of hwnd_of screenDC_of hMutex_of].
  repeat split; try lia. exact HT.
Qed.

Lemma resize_counts (h : HANDLE) (ov : Overlay) (vs0 : RECT) (os : IterOS) :
  h <> 0 ->
  let r := resize ov vs0 os in
  let bb1 := snd (fst (fst r)) in
  (total (bitmaps_made h) (snd r) + is_handle h (Backbuffer.dib (bb_of ov))
   = total (bitmaps_deleted h) (snd r) + is_handle h (Backbuffer.dib bb1))%nat
  /\ (total (dcs_made h) (snd r) + is_handle h (Backbuffer.memDC (bb_of ov))
      = total (dcs_deleted h) (snd r) + is_handle h (Backbuffer.memDC bb1))%nat
  /\ (snd (fst r) = false ->
      Backbuffer.dib bb1 = 0 /\ Backbuffer.memDC bb1 = 0).
Proof.
  intros Hh. cbv zeta. unfold resize.
  destruct (negb (rect_eqb (curVS (tick_os os)) vs0));
    [|cbn; repeat split; try lia; discriminate].
  pose proof (Backbuffer_EnsureSize_counts h (bb_os os) (bb_of ov) (screenDC_of ov)
                (rect_width (curVS (tick_os os)))
                (rect_height (curVS (tick_os os))) Hh) as HE.
  pose proof (Backbuffer_EnsureSize_result (bb_os os) (bb_of ov) (screenDC_of ov)
                (rect_width (curVS (tick_os os)))
                (rect_height (curVS (tick_os os)))) as HR.
  cbv zeta in HE, HR.
  destruct (Backbuffer.EnsureSize (bb_os os) (bb_of ov) (screenDC_of ov) _ _)
    as [[bb1 ok] ensured].
  cbn [fst snd] in *. count_calls.
  split; [lia|]. split; [lia|].
  intros Hok. apply HR in Hok. tauto.
Qed.

Lemma hidden_iteration_counts (h : HANDLE) (cfg : Config) (ov : Overlay)
    (bb1 : Backbuffer.t) (trail1 : Trail) (vs : RECT) (os : IterOS) :
  h <> 0 ->
  let r := hidden_iteration cfg ov bb1 trail1 vs os in
  let ov1 := fst (fst r) in
  (total (bitmaps_made h) (snd r) + is_handle h (Backbuffer.dib bb1)
   + is_handle h (TempIconSurf.dib (tmp_of ov))
   + is_handle h (sTintBMP (cache_of (loop_of ov)))
   = total (bitmaps_deleted h) (snd r) + bitmaps_held h ov1)%nat
  /\ (total (dcs_made h) (snd r) + is_handle h (Backbuffer.memDC bb1)
      + is_handle h (TempIconSurf.memDC (tmp_of ov))
      + is_handle h (sTintDC (cache_of (loop_of ov)))
      = total (dcs_deleted h) (snd r) + dcs_held h ov1)%nat
  /\ hwnd_of ov1 = hwnd_of ov /\ screenDC_of ov1 = screenDC_of ov
  /\ hMutex_of ov1 = hMutex_of ov
  /\ (new_dc (draw_os (tick_os os)) <> 0 ->
      (sTintBMP (cache_of (loop_of ov)) <> 0 -> sTintDC (cache_of (loop_of ov)) <> 0) ->
      sTintBMP (cache_of (loop_of ov1)) <> 0 -> sTintDC (cache_of (loop_of ov1)) <> 0).
Proof.
  intros Hh. cbv zeta. unfold hidden_iteration.
  destruct (evict_expired cfg (now_hidden (tick_os os)) trail1) as [|s rest].
  - cbn [fst snd]. unfold bitmaps_held, dcs_held.
    cbn [bb_of tmp_of loop_of cache_of hwnd_of screenDC_of hMutex_of].
    count_calls. repeat split; try lia; tauto.
  - pose proof (draw_counts h cfg ov bb1 (cv_of (loop_of ov)) (s :: rest) vs os Hh)
      as HD. cbv zeta in HD.
    destruct (draw cfg ov bb1 (cv_of (loop_of ov)) (s :: rest) vs os)
      as [[ov1 fr] calls]. exact HD.
Qed.

Lemma shown_iteration_counts (h : HANDLE) (cfg : Config) (ov : Overlay)
    (bb1 : Backbuffer.t) (trail1 : Trail) (vs : RECT) (os : IterOS)
    (ci : CURSORINFO) :
  h <> 0 ->
  let r := shown_iteration cfg ov bb1 trail1 vs os ci in
  let ov1 := fst (fst r) in
  (total (bitmaps_made h) (snd r) + is_handle h (Backbuffer.dib bb1)
   + is_handle h (TempIconSurf.dib (tmp_of ov))
   + is_handle h (sTintBMP (cache_of (loop_of ov)))
   = total (bitmaps_deleted h) (snd r) + bitmaps_held h ov1)%nat
  /\ (total (dcs_made h) (snd r) + is_handle h (Backbuffer.memDC bb1)
      + is_handle h (TempIconSurf.memDC (tmp_of ov))
      + is_handle h (sTintDC (cache_of (loop_of ov)))
      = total (dcs_deleted h) (snd r) + dcs_held h ov1)%nat
  /\ hwnd_of ov1 = hwnd_of ov /\ screenDC_of ov1 = screenDC_of ov
  /\ hMutex_of ov1 = hMutex_of ov
  /\ (new_dc (draw_os (tick_os os)) <> 0 ->
      (sTintBMP (cache_of (loop_of ov)) <> 0 -> sTintDC (cache_of (loop_of ov)) <> 0) ->
      sTintBMP (cache_of (loop_of ov1)) <> 0 -> sTintDC (cache_of (loop_of ov1)) <> 0).
Proof.
  intros Hh. cbv zeta. unfold shown_iteration.
  pose proof (draw_counts h cfg ov bb1
                (RefreshCursorVisual (icon_os (tick_os os)) (cv_of (loop_of ov)) ci)
                trail1 vs os Hh) as HD. cbv zeta in HD.
  pose proof (RefreshCursorVisual_counts h (icon_os (tick_os os))
                (cv_of (loop_of ov)) ci Hh) as HR. cbv zeta in HR.
  destruct (draw cfg ov bb1 _ trail1 vs os) as [[ov1 fr] calls].
  cbn [fst snd] in *. count_calls.
  repeat split; try lia; tauto.
Qed.

(** The account of one iteration: what it creates, with what the overlay
    held, is what it deletes, with what the overlay holds afterwards; on
    the two ways out of the program, with what is left behind. *)
Lemma iteration_counts (h : HANDLE) (cfg : Config) (ov : Overlay) (os : IterOS) :
  h <> 0 ->
  match iteration cfg ov os with
  | NextIteration ov1 _ calls =>
      (total (bitmaps_made h) calls + bitmaps_held h ov
       = total (bitmaps_deleted h) calls + bitmaps_held h ov1)%nat
      /\ (total (dcs_made h) calls + dcs_held h ov
          = total (dcs_deleted h) calls + dcs_held h ov1)%nat
      /\ hwnd_of ov1 = hwnd_of ov /\ screenDC_of ov1 = screenDC_of ov
      /\ hMutex_of ov1 = hMutex_of ov
      /\ (new_dc (draw_os (tick_os os)) <> 0 ->
          (sTintBMP (cache_of (loop_of ov)) <> 0 ->
           sTintDC (cache_of (loop_of ov)) <> 0) ->
          sTintBMP (cache_of (loop_of ov1)) <> 0 ->
          sTintDC (cache_of (loop_of ov1)) <> 0)
  | QuitMessage calls =>
      (total (bitmaps_made h) calls + bitmaps_held h ov
       = total (bitmaps_deleted h) calls
         + (if (sTintDC (cache_of (loop_of ov)) =? 0)%Z
            then is_handle h (sTintBMP (cache_of (loop_of ov))) else 0))%nat
      /\ (total (dcs_made h) calls + dcs_held h ov
          = total (dcs_deleted h) calls)%nat
  | ResizeFailed calls =>
      (total (bitmaps_made h) calls + bitmaps_held h ov
       = total (bitmaps_deleted h) calls
         + is_handle h (TempIconSurf.dib (tmp_of ov))
         + (if (sTintDC (cache_of (loop_of ov)) =? 0)%Z
            then is_handle h (sTintBMP (cache_of (loop_of ov))) else 0))%nat
      /\ (total (dcs_made h) calls + dcs_held h ov
          = total (dcs_deleted h) calls
            + is_handle h (TempIconSurf.memDC (tmp_of ov)))%nat
  end.
Proof.
  intros Hh. unfold iteration.
  set (trail1 := UpdateTrail cfg (trail_of (loop_of ov)) (cur (tick_os os))
                             (lastTick (tick_os os))).
  pose proof (pump_counts (bitmaps_made h) (hwnd_of ov) (messages os)
                (fun _ => eq_refl) (fun _ => eq_refl) (vs_of (loop_of ov))) as P1.
  pose proof (pump_counts (bitmaps_deleted h) (hwnd_of ov) (messages os)
                (fun _ => eq_refl) (fun _ => eq_refl) (vs_of (loop_of ov))) as P2.
  pose proof (pump_counts (dcs_made h) (hwnd_of ov) (messages os)
                (fun _ => eq_refl) (fun _ => eq_refl) (vs_of (loop_of ov))) as P3.
  pose proof (pump_counts (dcs_deleted h) (hwnd_of ov) (messages os)
                (fun _ => eq_refl) (fun _ => eq_refl) (vs_of (loop_of ov))) as P4.
  destruct (pump (hwnd_of ov) (vs_of (loop_of ov)) (messages os))
    as [[vs0|] pumped]; cbn [snd] in *.
  - pose proof (resize_counts h ov vs0 os Hh) as HR. cbv zeta in HR.
    destruct (resize ov vs0 os) as [[[vs bb1] ok] resized]. cbn [fst snd] in HR.
    destruct HR as (R1 & R2 & R3).
    destruct ok; cbn [negb].
    + assert (HB : forall r : Overlay * option Frame * list Call,
                (total (bitmaps_made h) (snd r) + is_handle h (Backbuffer.dib bb1)
                 + is_handle h (TempIconSurf.dib (tmp_of ov))
                 + is_handle h (sTintBMP (cache_of (loop_of ov)))
                 = total (bitmaps_deleted h) (snd r)
                   + bitmaps_held h (fst (fst r)))%nat
                /\ (total (dcs_made h) (snd r) + is_handle h (Backbuffer.memDC bb1)
                    + is_handle h (TempIconSurf.memDC (tmp_of ov))
                    + is_handle h (sTintDC (cache_of (loop_of ov)))
                    = total (dcs_deleted h) (snd r) + dcs_held h (fst (fst r)))%nat
                /\ hwnd_of (fst (fst r)) = hwnd_of ov
                /\ screenDC_of (fst (fst r)) = screenDC_of ov
                /\ hMutex_of (fst (fst r)) = hMutex_of ov
                /\ (new_dc (draw_os (tick_os os)) <> 0 ->
                    (sTintBMP (cache_of (loop_of ov)) <> 0 ->
                     sTintDC (cache_of (loop_of ov)) <> 0) ->
                    sTintBMP (cache_of (loop_of (fst (fst r)))) <> 0 ->
                    sTintDC (cache_of (loop_of (fst (fst r)))) <> 0) ->
                let '(ov1, fr, calls) := r in
                (total (bitmaps_made h) (pumped ++ resized ++ calls)
                 + bitmaps_held h ov
                 = total (bitmaps_deleted h) (pumped ++ resized ++ calls)
                   + bitmaps_held h ov1)%nat
                /\ (total (dcs_made h) (pumped ++ resized ++ calls) + dcs_held h ov
                    = total (dcs_deleted h) (pumped ++ resized ++ calls)
                      + dcs_held h ov1)%nat
                /\ hwnd_of ov1 = hwnd_of ov /\ screenDC_of ov1 = screenDC_of ov
                /\ hMutex_of ov1 = hMutex_of ov
                /\ (new_dc (draw_os (tick_os os)) <> 0 ->
                    (sTintBMP (cache_of (loop_of ov)) <> 0 ->
                     sTintDC (cache_of (loop_of ov)) <> 0) ->
                    sTintBMP (cache_of (loop_of ov1)) <> 0 ->
                    sTintDC (cache_of (loop_of ov1)) <> 0)).
      { intros [[ov1 fr] calls]. cbn [fst snd].
        intros (B1 & B2 & B3 & B4 & B5 & B6).
        unfold bitmaps_held, dcs_held in *. count_calls.
        repeat split; try lia; assumption. }
      destruct (cursor_info (tick_os os)) as [ci|].
      * destruct (pointer_hidden (Some ci)).
        -- specialize (HB _ (hidden_iteration_counts h cfg ov bb1 trail1 vs os Hh)).
           destruct (hidden_iteration cfg ov bb1 trail1 vs os) as [[ov1 fr] calls].
           exact HB.
        -- specialize (HB _ (shown_iteration_counts h cfg ov bb1 trail1 vs os ci Hh)).
           destruct (shown_iteration cfg ov bb1 trail1 vs os ci) as [[ov1 fr] calls].
           exact HB.
      * specialize (HB _ (hidden_iteration_counts h cfg ov bb1 trail1 vs os Hh)).
        destruct (hidden_iteration cfg ov bb1 trail1 vs os) as [[ov1 fr] calls].
        exact HB.
    + destruct (R3 eq_refl) as [Z1 Z2]. rewrite Z1, Z2 in *.
      rewrite is_handle_null in * by assumption.
      unfold resize_failed_calls.
      destruct (ReleaseTintCache_counts h (cache_of (loop_of ov)) Hh)
        as (T1 & T2 & T3 & T4).
      unfold bitmaps_held, dcs_held. count_calls. split; lia.
  - unfold quit_calls.
    destruct (Backbuffer_Release_counts h (bb_of ov) Hh) as (B1 & B2 & B3 & B4).
    destruct (TempIconSurf_Release_counts h (tmp_of ov) Hh) as (U1 & U2 & U3 & U4).
    destruct (ReleaseTintCache_counts h (cache_of (loop_of ov)) Hh)
      as (T1 & T2 & T3 & T4).
    cbv zeta in *. unfold bitmaps_held, dcs_held. count_calls. split; lia.
Qed.

Lemma main_loop_counts (cfg : Config) (iters : list IterOS) :
  forall ov : Overlay,
    Forall (fun os => new_dc (draw_os (tick_os os)) <> 0) iters ->
    (sTintBMP (cache_of (loop_of ov)) <> 0 -> sTintDC (cache_of (loop_of ov)) <> 0) ->
    match main_loop cfg ov iters with
    | (Looping ov1, calls) =>
        forall h : HANDLE, h <> 0 ->
          (total (bitmaps_made h) calls + bitmaps_held h ov
           = total (bitmaps_deleted h) calls + bitmaps_held h ov1)%nat
          /\ (total (dcs_made h) calls + dcs_held h ov
              = total (dcs_deleted h) calls + dcs_held h ov1)%nat
    | (Returned QuitRetrieved, calls) =>
        forall h : HANDLE, h <> 0 ->
          (total (bitmaps_made h) calls + bitmaps_held h ov
           = total (bitmaps_deleted h) calls)%nat
          /\ (total (dcs_made h) calls + dcs_held h ov
              = total (dcs_deleted h) calls)%nat
    | (Returned ResizeFailure, calls) =>
        exists tmp : TempIconSurf.t,
          forall h : HANDLE, h <> 0 ->
            (total (bitmaps_made h) calls + bitmaps_held h ov
             = total (bitmaps_deleted h) calls
               + is_handle h (TempIconSurf.dib tmp))%nat
            /\ (total (dcs_made h) calls + dcs_held h ov
                = total (dcs_deleted h) calls
                  + is_handle h (TempIconSurf.memDC tmp))%nat
    | (Returned _, _) => False
    end.
Proof.
  induction iters as [|os rest IH]; intros ov Hdc Htint.
  - cbn. intros h Hh. split; reflexivity.
  - apply Forall_cons_iff in Hdc. destruct Hdc as [Hdc Hrest].
    cbn [main_loop].
    assert (Hleak : forall h : HANDLE, h <> 0 ->
              (if (sTintDC (cache_of (loop_of ov)) =? 0)%Z
               then is_handle h (sTintBMP (cache_of (loop_of ov))) else 0%nat)
              = 0%nat).
    { intros h Hh.
      destruct (Z.eqb_spec (sTintDC (cache_of (loop_of ov))) 0) as [E|E];
        [|reflexivity].
      destruct (Z.eq_dec (sTintBMP (cache_of (loop_of ov))) 0) as [E2|E2];
        [|now apply Htint in E2].
      rewrite E2. now apply is_handle_null. }
    destruct (iteration cfg ov os) as [calls|calls|ov1 fr calls] eqn:EI.
    + intros h Hh. pose proof (iteration_counts h cfg ov os Hh) as HI.
      rewrite EI in HI. rewrite (Hleak h Hh) in HI. split; lia.
    + exists (tmp_of ov). intros h Hh.
      pose proof (iteration_counts h cfg ov os Hh) as HI.
      rewrite EI in HI. rewrite (Hleak h Hh) in HI. split; lia.
    + assert (Htint1 : sTintBMP (cache_of (loop_of ov1)) <> 0 ->
                       sTintDC (cache_of (loop_of ov1)) <> 0).
      { pose proof (iteration_counts 1 cfg ov os ltac:(lia)) as HI.
        rewrite EI in HI. destruct HI as (_ & _ & _ & _ & _ & I6).
        now apply I6. }
      specialize (IH ov1 Hrest Htint1).
      destruct (main_loop cfg ov1 rest) as [[path|ov2] later].
      * destruct path; try contradiction.
        -- intros h Hh. pose proof (iteration_counts h cfg ov os Hh) as HI.
           rewrite EI in HI. specialize (IH h Hh). count_calls. split; lia.
        -- destruct IH as (tmp & IH). exists tmp. intros h Hh.
           pose proof (iteration_counts h cfg ov os Hh) as HI.
           rewrite EI in HI. specialize (IH h Hh). count_calls. split; lia.
      * intros h Hh. pose proof (iteration_counts h cfg ov os Hh) as HI.
        rewrite EI in HI. specialize (IH h Hh). count_calls. split; lia.
Qed.

Lemma startup_counts (h : HANDLE) (os : StartOS) :
  h <> 0 ->
  match startup os with
  | Started ov _ calls =>
      total (bitmaps_made h) calls
      = (total (bitmaps_deleted h) calls + bitmaps_held h ov)%nat
      /\ total (dcs_made h) calls
         = (total (dcs_deleted h) calls + dcs_held h ov)%nat
      /\ cache_of (loop_of ov) = cache_init
  | NotStarted _ calls =>
      total (bitmaps_made h) calls = total (bitmaps_deleted h) calls
      /\ total (dcs_made h) calls = total (dcs_deleted h) calls
  end.
Proof.
  intros Hh. unfold startup.
  destruct (already_exists os); [split; reflexivity|].
  destruct (window_handle os =? 0); [split; reflexivity|].
  set (vs := GetVirtualScreenRect (start_metrics os)).
  pose proof (Backbuffer_EnsureSize_counts h (start_bb_os os) Backbuffer.init
                (screen_dc os) (rect_width vs) (rect_height vs) Hh) as HE.
  pose proof (Backbuffer_EnsureSize_result (start_bb_os os) Backbuffer.init
                (screen_dc os) (rect_width vs) (rect_height vs)) as HR.
  cbv zeta in HE, HR.
  destruct (Backbuffer.EnsureSize (start_bb_os os) Backbuffer.init (screen_dc os)
              (rect_width vs) (rect_height vs)) as [[bb ok] ensured].
  cbn [fst snd Backbuffer.init Backbuffer.dib Backbuffer.memDC] in *.
  rewrite is_handle_null in HE by assumption.
  destruct ok; cbn [negb].
  - unfold bitmaps_held, dcs_held.
    cbn [bb_of tmp_of loop_of cache_of TempIconSurf.init TempIconSurf.dib
         TempIconSurf.memDC cache_init sTintBMP sTintDC].
    rewrite is_handle_null by assumption. count_calls.
    repeat split; lia.
  - destruct HR as (_ & _ & _ & _ & HR). destruct (HR eq_refl) as (Z1 & Z2 & _).
    rewrite Z1, Z2, is_handle_null in HE by assumption.
    count_calls. split; lia.
Qed.

(** When [CreateCompatibleDC] does not fail for the tinted
    glyph cache, a run of the program that returns has deleted every
    bitmap and every device context it created (the bitmaps of the two
    surfaces and of the glyph cache, and those [GetIconInfo] handed out),
    each as often as it was created; the return after a failed resize
    (line 567) is the exception, which leaves the bitmap and the device
    context of the temporary surface. *)
Theorem wWinMain_objects_released (lpCmdLine : string) (os : StartOS)
    (iters : list IterOS) (path : ExitPath) (calls : list Call) :
  Forall (fun i => new_dc (draw_os (tick_os i)) <> 0) iters ->
  wWinMain lpCmdLine os iters = (Returned path, calls) ->
  (path <> ResizeFailure ->
   forall h : HANDLE, h <> 0 ->
     total (bitmaps_made h) calls = total (bitmaps_deleted h) calls
     /\ total (dcs_made h) calls = total (dcs_deleted h) calls)
  /\ (path = ResizeFailure ->
      exists tmp : TempIconSurf.t,
        forall h : HANDLE, h <> 0 ->
          total (bitmaps_made h) calls
          = (total (bitmaps_deleted h) calls
             + is_handle h (TempIconSurf.dib tmp))%nat
          /\ total (dcs_made h) calls
             = (total (dcs_deleted h) calls
                + is_handle h (TempIconSurf.memDC tmp))%nat).
Proof.
  intros Hdc Hrun. unfold wWinMain in Hrun.
  destruct (startup os) as [path0 calls0|ov interval calls0] eqn:ES.
  - injection Hrun as <- <-. split.
    + intros _ h Hh. pose proof (startup_counts h os Hh) as HS.
      now rewrite ES in HS.
    + intros ->. exfalso. unfold startup in ES.
      destruct (already_exists os); [discriminate|].
      destruct (window_handle os =? 0); [discriminate|].
      destruct (Backbuffer.EnsureSize _ _ _ _ _) as [[bb ok] ensured].
      destruct ok; discriminate.
  - assert (Hinit : cache_of (loop_of ov) = cache_init).
    { pose proof (startup_counts 1 os ltac:(lia)) as HS. rewrite ES in HS. tauto. }
    pose proof (main_loop_counts (parse_command_line lpCmdLine default_config)
                  iters ov Hdc) as HM.
    rewrite Hinit in HM. specialize (HM (fun H => H)).
    destruct (main_loop _ ov iters) as [o later].
    injection Hrun as -> <-. split.
    + intros Hpath h Hh. pose proof (startup_counts h os Hh) as HS.
      rewrite ES in HS. destruct path; try contradiction; try congruence.
      specialize (HM h Hh). count_calls. split; lia.
    + intros ->. destruct HM as (tmp & HM). exists tmp. intros h Hh.
      pose proof (startup_counts h os Hh) as HS. rewrite ES in HS.
      specialize (HM h Hh). count_calls. split; lia.
Qed.

(** ** The mutex and the screen device context *)

Lemma loop_calls_app (a b : list Call) :
  forallb loop_call (a ++ b) = forallb loop_call a && forallb loop_call b.
Proof. apply forallb_app. Qed.

Lemma loop_calls_total (f : Call -> nat) (calls : list Call) :
  (forall c, loop_call c = true -> f c = 0%nat) ->
  forallb loop_call calls = true -> total f calls = 0%nat.
Proof.
  intros Hf Hall. apply total_zero. intros c Hc. apply Hf.
  rewrite forallb_forall in Hall. now apply Hall.
Qed.

Lemma Backbuffer_EnsureSize_loop_calls (os : SurfaceOS) (s : Backbuffer.t)
    (refDC W H : Z) :
  forallb loop_call (snd (Backbuffer.EnsureSize os s refDC W H)) = true.
Proof.
  unfold Backbuffer.EnsureSize, Backbuffer.Release.
  destruct ((W <=? Backbuffer.w s) && (H <=? Backbuffer.h s)
            && negb (Backbuffer.memDC s =? 0) && negb (Backbuffer.dib s =? 0));
    [reflexivity|].
  destruct (Backbuffer.memDC s =? 0), (Backbuffer.dib s =? 0),
    (dib_answer os =? 0); reflexivity.
Qed.

Lemma TempIconSurf_EnsureSize_loop_calls (os : SurfaceOS) (s : TempIconSurf.t)
    (refDC W H : Z) :
  forallb loop_call (snd (TempIconSurf.EnsureSize os s refDC W H)) = true.
Proof.
  unfold TempIconSurf.EnsureSize, TempIconSurf.Release.
  destruct (if (W <=? 0) || (H <=? 0) then (1, 1) else (W, H)) as [W1 H1].
  destruct ((W1 =? TempIconSurf.w s) && (H1 =? TempIconSurf.h s)
            && negb (TempIconSurf.memDC s =? 0) && negb (TempIconSurf.dib s =? 0));
    [reflexivity|].
  destruct (TempIconSurf.memDC s =? 0), (TempIconSurf.dib s =? 0),
    (dib_answer os =? 0); reflexivity.
Qed.

Lemma rebuild_loop_calls (c : TintCache) (cv : CursorVisual) (screenDC : HANDLE)
    (os : DrawOS) :
  forallb loop_call (rebuild_calls c cv screenDC os) = true.
Proof.
  unfold rebuild_calls.
  destruct (sTintDC c =? 0), (sTintBMP c =? 0), (sTintOld c =? 0),
    ((new_dib os =? 0) || negb (new_bits os)); reflexivity.
Qed.

Lemma ReleaseTintCache_loop_calls (c : TintCache) :
  forallb loop_call (snd (ReleaseTintCache c)) = true.
Proof.
  unfold ReleaseTintCache.
  destruct (sTintDC c =? 0), (sTintBMP c =? 0), (sTintOld c =? 0); reflexivity.
Qed.

Lemma blend_loop_calls (bb : Backbuffer.t) (tmp : TempIconSurf.t)
    (cv : CursorVisual) (l : list Blend) :
  forallb loop_call (map (blend_call bb tmp cv) l) = true.
Proof. induction l as [|b l IH]; [reflexivity|exact IH]. Qed.

Lemma DrawTrail_loop_calls (cfg : Config) (hwnd screenDC : HANDLE)
    (bb : Backbuffer.t) (tmp : TempIconSurf.t) (c : TintCache)
    (cv : CursorVisual) (trail : Trail) (vs : RECT) (sos : SurfaceOS)
    (os : DrawOS) :
  forallb loop_call
    (snd (DrawTrail_calls cfg hwnd screenDC bb tmp c cv trail vs sos os)) = true.
Proof.
  unfold DrawTrail_calls.
  pose proof (TempIconSurf_EnsureSize_loop_calls sos tmp screenDC (width cv)
                (height cv)) as HE.
  destruct (TempIconSurf.EnsureSize sos tmp screenDC (width cv) (height cv))
    as [[tmp1 ok] ensure]. cbn [snd] in HE.
  destruct ok; cbn [negb snd]; [|exact HE].
  assert (HR : forallb loop_call
                 (if cache_stale c cv then rebuild_calls c cv screenDC os else [])
               = true)
    by (destruct (cache_stale c cv); [apply rebuild_loop_calls|reflexivity]).
  destruct (cache_stale c cv && ((new_dib os =? 0) || negb (new_bits os)));
    [|destruct (sTintBMP _ =? 0)]; cbn [snd];
    rewrite !loop_calls_app, HE, ?HR, ?blend_loop_calls; reflexivity.
Qed.

Lemma RefreshCursorVisual_loop_calls (os : IconOS) (cv : CursorVisual)
    (ci : CURSORINFO) :
  forallb loop_call (RefreshCursorVisual_calls os cv ci) = true.
Proof.
  unfold RefreshCursorVisual_calls.
  destruct (ci_hCursor ci =? hCur cv); [reflexivity|].
  destruct (GetIconInfo os (ci_hCursor ci)) as [ii|]; [|reflexivity].
  destruct (hbmMask ii =? 0), (hbmColor ii =? 0); reflexivity.
Qed.

Lemma pump_loop_calls (hwnd : HANDLE) (msgs : list (MSG * WndOS)) :
  forall vs : RECT, forallb loop_call (snd (pump hwnd vs msgs)) = true.
Proof.
  induction msgs as [|[msg os] rest IH]; intros vs; [reflexivity|].
  cbn [pump]. destruct (message msg =? WM_QUIT); [reflexivity|].
  destruct (msg_hwnd msg =? hwnd); [|apply IH].
  assert (HW : forallb loop_call (snd (WndProc (Some vs) (message msg) os)) = true).
  { unfold WndProc. destruct (message msg =? WM_DESTROY); [reflexivity|].
    destruct (message msg =? WM_ERASEBKGND); [reflexivity|].
    destruct (message msg =? WM_DISPLAYCHANGE); reflexivity. }
  destruct (WndProc (Some vs) (message msg) os) as [[pVs res] calls].
  specialize (IH (match pVs with Some r => r | None => vs end)).
  destruct (pump hwnd _ rest) as [res1 calls1]. cbn [snd] in *.
  now rewrite loop_calls_app, HW, IH.
Qed.

Lemma resize_loop_calls (ov : Overlay) (vs0 : RECT) (os : IterOS) :
  forallb loop_call (snd (resize ov vs0 os)) = true.
Proof.
  unfold resize. destruct (negb (rect_eqb (curVS (tick_os os)) vs0)); [|reflexivity].
  pose proof (Backbuffer_EnsureSize_loop_calls (bb_os os) (bb_of ov) (screenDC_of ov)
                (rect_width (curVS (tick_os os)))
                (rect_height (curVS (tick_os os)))) as HE.
  destruct (Backbuffer.EnsureSize _ _ _ _ _) as [[bb1 ok] ensured]. exact HE.
Qed.

Lemma draw_loop_calls (cfg : Config) (ov : Overlay) (bb1 : Backbuffer.t)
    (cv1 : CursorVisual) (trail1 : Trail) (vs : RECT) (os : IterOS) :
  let r := draw cfg ov bb1 cv1 trail1 vs os in
  forallb loop_call (snd r) = true
  /\ hwnd_of (fst (fst r)) = hwnd_of ov
  /\ screenDC_of (fst (fst r)) = screenDC_of ov
  /\ hMutex_of (fst (fst r)) = hMutex_of ov.
Proof.
  cbv zeta. unfold draw.
  pose proof (DrawTrail_loop_calls cfg (hwnd_of ov) (screenDC_of ov) bb1
                (tmp_of ov) (cache_of (loop_of ov)) cv1 trail1 vs (tmp_os os)
                (draw_os (tick_os os))) as HD.
  destruct (DrawTrail_calls _ _ _ _ _ _ _ _ _ _ _) as [[tmp1 ok] calls].
  destruct (DrawTrail _ _ _ _ _ _) as [c1 fr]. cbn [fst snd] in *.
  repeat split; assumption.
Qed.

Lemma iteration_loop_calls (cfg : Config) (ov : Overlay) (os : IterOS) :
  match iteration cfg ov os with
  | NextIteration ov1 _ calls =>
      forallb loop_call calls = true
      /\ hwnd_of ov1 = hwnd_of ov /\ screenDC_of ov1 = screenDC_of ov
      /\ hMutex_of ov1 = hMutex_of ov
  | QuitMessage calls | ResizeFailed calls =>
      exists before after,
        calls = before ++ ReleaseDC (screenDC_of ov) :: after
                ++ [CloseHandle (hMutex_of ov)]
        /\ forallb loop_call before = true /\ forallb loop_call after = true
  end.
Proof.
  unfold iteration.
  set (trail1 := UpdateTrail cfg (trail_of (loop_of ov)) (cur (tick_os os))
                             (lastTick (tick_os os))).
  pose proof (pump_loop_calls (hwnd_of ov) (messages os) (vs_of (loop_of ov))) as HP.
  destruct (pump (hwnd_of ov) (vs_of (loop_of ov)) (messages os))
    as [[vs0|] pumped]; cbn [snd] in HP.
  - pose proof (resize_loop_calls ov vs0 os) as HR.
    destruct (resize ov vs0 os) as [[[vs bb1] ok] resized]. cbn [snd] in HR.
    destruct ok; cbn [negb].
    + assert (HB : forall r : Overlay * option Frame * list Call,
                forallb loop_call (snd r) = true
                /\ hwnd_of (fst (fst r)) = hwnd_of ov
                /\ screenDC_of (fst (fst r)) = screenDC_of ov
                /\ hMutex_of (fst (fst r)) = hMutex_of ov ->
                let '(ov1, fr, calls) := r in
                forallb loop_call (pumped ++ resized ++ calls) = true
                /\ hwnd_of ov1 = hwnd_of ov /\ screenDC_of ov1 = screenDC_of ov
                /\ hMutex_of ov1 = hMutex_of ov).
      { intros [[ov1 fr] calls]. cbn [fst snd]. intros (B1 & B2 & B3 & B4).
        rewrite !loop_calls_app, HP, HR, B1. repeat split; assumption. }
      assert (HH : forall r, r = hidden_iteration cfg ov bb1 trail1 vs os ->
                forallb loop_call (snd r) = true
                /\ hwnd_of (fst (fst r)) = hwnd_of ov
                /\ screenDC_of (fst (fst r)) = screenDC_of ov
                /\ hMutex_of (fst (fst r)) = hMutex_of ov).
      { intros r ->. unfold hidden_iteration.
        destruct (evict_expired cfg (now_hidden (tick_os os)) trail1) as [|s rest];
          [repeat split; reflexivity|].
        pose proof (draw_loop_calls cfg ov bb1 (cv_of (loop_of ov)) (s :: rest)
                      vs os) as HD. cbv zeta in HD.
        destruct (draw cfg ov bb1 (cv_of (loop_of ov)) (s :: rest) vs os)
          as [[ov1 fr] calls]. exact HD. }
      destruct (cursor_info (tick_os os)) as [ci|].
      * destruct (pointer_hidden (Some ci)).
        -- specialize (HB _ (HH _ eq_refl)).
           destruct (hidden_iteration cfg ov bb1 trail1 vs os) as [[ov1 fr] calls].
           exact HB.
        -- assert (HS : let r := shown_iteration cfg ov bb1 trail1 vs os ci in
                     forallb loop_call (snd r) = true
                     /\ hwnd_of (fst (fst r)) = hwnd_of ov
                     /\ screenDC_of (fst (fst r)) = screenDC_of ov
                     /\ hMutex_of (fst (fst r)) = hMutex_of ov).
           { cbv zeta. unfold shown_iteration.
             pose proof (draw_loop_calls cfg ov bb1
                           (RefreshCursorVisual (icon_os (tick_os os))
                              (cv_of (loop_of ov)) ci) trail1 vs os) as HD.
             cbv zeta in HD.
             destruct (draw cfg ov bb1 _ trail1 vs os) as [[ov1 fr] calls].
             cbn [fst snd] in *.
             rewrite loop_calls_app, RefreshCursorVisual_loop_calls.
             exact HD. }
           specialize (HB _ HS).
           destruct (shown_iteration cfg ov bb1 trail1 vs os ci)
             as [[ov1 fr] calls]. exact HB.
      * specialize (HB _ (HH _ eq_refl)).
        destruct (hidden_iteration cfg ov bb1 trail1 vs os) as [[ov1 fr] calls].
        exact HB.
    + exists (pumped ++ resized ++ snd (ReleaseTintCache (cache_of (loop_of ov)))), [].
      unfold resize_failed_calls. split.
      * rewrite <- !app_assoc. reflexivity.
      * rewrite !loop_calls_app, HP, HR, ReleaseTintCache_loop_calls.
        split; reflexivity.
  - exists (pumped ++ snd (Backbuffer.Release (bb_of ov))
            ++ snd (TempIconSurf.Release (tmp_of ov))),
           (snd (ReleaseTintCache (cache_of (loop_of ov)))).
    unfold quit_calls. split.
    + rewrite <- !app_assoc. reflexivity.
    + rewrite !loop_calls_app, HP, ReleaseTintCache_loop_calls.
      pose proof (Backbuffer_EnsureSize_loop_calls) as _.
      unfold Backbuffer.Release, TempIconSurf.Release. cbn [snd].
      rewrite !loop_calls_app.
      destruct (Backbuffer.memDC (bb_of ov) =? 0), (Backbuffer.dib (bb_of ov) =? 0),
        (TempIconSurf.memDC (tmp_of ov) =? 0), (TempIconSurf.dib (tmp_of ov) =? 0);
        split; reflexivity.
Qed.

Lemma main_loop_calls (cfg : Config) (iters : list IterOS) :
  forall ov : Overlay,
    match main_loop cfg ov iters with
    | (Looping ov1, calls) =>
        forallb loop_call calls = true
        /\ hwnd_of ov1 = hwnd_of ov /\ screenDC_of ov1 = screenDC_of ov
        /\ hMutex_of ov1 = hMutex_of ov
    | (Returned path, calls) =>
        (path = QuitRetrieved \/ path = ResizeFailure)
        /\ exists before after,
             calls = before ++ ReleaseDC (screenDC_of ov) :: after
                     ++ [CloseHandle (hMutex_of ov)]
             /\ forallb loop_call before = true /\ forallb loop_call after = true
    end.
Proof.
  induction iters as [|os rest IH]; intros ov; [cbn; repeat split; reflexivity|].
  cbn [main_loop]. pose proof (iteration_loop_calls cfg ov os) as HI.
  destruct (iteration cfg ov os) as [calls|calls|ov1 fr calls].
  - split; [now left|exact HI].
  - split; [now right|exact HI].
  - destruct HI as (I1 & I2 & I3 & I4). specialize (IH ov1).
    destruct (main_loop cfg ov1 rest) as [[path|ov2] later].
    + destruct IH as (Hpath & before & after & -> & B1 & B2).
      split; [exact Hpath|]. exists (calls ++ before), after.
      rewrite I3, I4, loop_calls_app, I1, B1, <- app_assoc. repeat split; assumption.
    + destruct IH as (J1 & J2 & J3 & J4).
      rewrite loop_calls_app, I1, J1. repeat split; congruence.
Qed.

(** On every return of [wWinMain] the mutex is closed exactly
    once, by the last call; the screen device context is released exactly
    once on the returns that follow [GetDC] and on no other; while the
    loop goes on neither has been given back. *)
Theorem wWinMain_handles_returned (lpCmdLine : string) (os : StartOS)
    (iters : list IterOS) :
  match wWinMain lpCmdLine os iters with
  | (Returned path, calls) =>
      (exists before,
         calls = CreateMutexW (mutex_handle os)
                 :: before ++ [CloseHandle (mutex_handle os)]
         /\ total closes before = 0%nat)
      /\ total gets_dc calls = total releases_dc calls
      /\ total gets_dc calls
         = match path with
           | SecondInstance | NoWindow => 0%nat
           | _ => 1%nat
           end
      /\ (forall h : HANDLE, In (ReleaseDC h) calls -> h = screen_dc os)
  | (Looping ov, calls) =>
      total closes calls = 0%nat
      /\ total gets_dc calls = 1%nat /\ total releases_dc calls = 0%nat
      /\ hMutex_of ov = mutex_handle os /\ screenDC_of ov = screen_dc os
      /\ hwnd_of ov = window_handle os
  end.
Proof.
  assert (Hzero : forall (f : Call -> nat) l,
            (forall c, loop_call c = true -> f c = 0%nat) ->
            forallb loop_call l = true -> total f l = 0%nat)
    by (intros; now apply loop_calls_total).
  assert (Hc : forall c, loop_call c = true -> closes c = 0%nat)
    by (intros []; cbn; congruence).
  assert (Hg : forall c, loop_call c = true -> gets_dc c = 0%nat)
    by (intros []; cbn; congruence).
  assert (Hr : forall c, loop_call c = true -> releases_dc c = 0%nat)
    by (intros []; cbn; congruence).
  assert (Hin : forall l h, forallb loop_call l = true -> ~ In (ReleaseDC h) l).
  { intros l h Hl Hi. rewrite forallb_forall in Hl. apply Hl in Hi. discriminate. }
  unfold wWinMain, startup.
  destruct (already_exists os).
  { split; [exists []; split; reflexivity|].
    repeat split; try reflexivity. intros h [H|[H|[]]]; discriminate. }
  destruct (window_handle os =? 0) eqn:Ew.
  { split; [eexists [_]; split; reflexivity|].
    repeat split; try reflexivity. intros h [H|[H|[H|[]]]]; discriminate. }
  set (vs := GetVirtualScreenRect (start_metrics os)).
  pose proof (Backbuffer_EnsureSize_loop_calls (start_bb_os os) Backbuffer.init
                (screen_dc os) (rect_width vs) (rect_height vs)) as HE.
  destruct (Backbuffer.EnsureSize (start_bb_os os) Backbuffer.init (screen_dc os)
              (rect_width vs) (rect_height vs)) as [[bb ok] ensured].
  cbn [snd] in HE. destruct ok; cbn [negb].
  - set (ov := {| hwnd_of := window_handle os; screenDC_of := screen_dc os;
                  hMutex_of := mutex_handle os;
                  loop_of := mkLoopState [] cv_init cache_init vs;
                  bb_of := bb; tmp_of := TempIconSurf.init |}).
    pose proof (main_loop_calls (parse_command_line lpCmdLine default_config)
                  iters ov) as HM.
    destruct (main_loop _ ov iters) as [[path|ov1] later].
    + destruct HM as (Hpath & before & after & -> & B1 & B2).
      cbn [screenDC_of hMutex_of ov] in *.
      split; [|split; [|split]].
      * eexists (CreateWindowExW _ _ _ _ _ :: GetDC _ :: ensured ++ before
                 ++ ReleaseDC _ :: after).
        split.
        -- repeat (rewrite <- app_assoc || rewrite <- app_comm_cons).
           reflexivity.
        -- count_calls. cbn [closes].
           rewrite (Hzero closes ensured), (Hzero closes before),
             (Hzero closes after) by assumption. reflexivity.
      * count_calls. cbn [gets_dc releases_dc].
        rewrite (Hzero gets_dc ensured), (Hzero gets_dc before),
          (Hzero gets_dc after), (Hzero releases_dc ensured),
          (Hzero releases_dc before), (Hzero releases_dc after) by assumption.
        reflexivity.
      * count_calls. cbn [gets_dc].
        rewrite (Hzero gets_dc ensured), (Hzero gets_dc before),
          (Hzero gets_dc after) by assumption.
        destruct Hpath as [-> | ->]; reflexivity.
      * intros h Hi. cbn [app] in Hi.
        destruct Hi as [Hi|[Hi|[Hi|Hi]]]; try discriminate.
        apply in_app_or in Hi. destruct Hi as [Hi|Hi]; [now apply Hin in Hi|].
        apply in_app_or in Hi. destruct Hi as [Hi|Hi]; [now apply Hin in Hi|].
        destruct Hi as [Hi|Hi]; [congruence|].
        apply in_app_or in Hi. destruct Hi as [Hi|Hi]; [now apply Hin in Hi|].
        destruct Hi as [Hi|[]]. discriminate.
    + destruct HM as (J1 & J2 & J3 & J4). count_calls.
      cbn [closes gets_dc releases_dc].
      rewrite (Hzero closes ensured), (Hzero closes later),
        (Hzero gets_dc ensured), (Hzero gets_dc later),
        (Hzero releases_dc ensured), (Hzero releases_dc later) by assumption.
      repeat split; assumption.
  - split; [|split; [|split]].
    + exists (CreateWindowExW (left vs) (top vs) (rect_width vs) (rect_height vs)
                (window_handle os) :: GetDC (screen_dc os) :: ensured
              ++ [ReleaseDC (screen_dc os)]).
      split.
      * repeat (rewrite <- app_assoc || rewrite <- app_comm_cons). reflexivity.
      * count_calls. cbn [closes].
        rewrite (Hzero closes ensured) by assumption. reflexivity.
    + count_calls. cbn [gets_dc releases_dc].
      rewrite (Hzero gets_dc ensured), (Hzero releases_dc ensured) by assumption.
      reflexivity.
    + count_calls. cbn [gets_dc].
      rewrite (Hzero gets_dc ensured) by assumption. reflexivity.
    + intros h Hi. cbn [app] in Hi.
      destruct Hi as [Hi|[Hi|[Hi|Hi]]]; try discriminate.
      apply in_app_or in Hi. destruct Hi as [Hi|Hi]; [now apply Hin in Hi|].
      destruct Hi as [Hi|[Hi|[]]]; [congruence|discriminate].
Qed.

(** ** The calls of a frame *)

Lemma no_paint_app (a b : list Call) :
  existsb paints (a ++ b) = existsb paints a || existsb paints b.
Proof. apply existsb_app. Qed.

Lemma TempIconSurf_EnsureSize_no_paint (os : SurfaceOS) (s : TempIconSurf.t)
    (refDC W H : Z) :
  existsb paints (snd (TempIconSurf.EnsureSize os s refDC W H)) = false.
Proof.
  unfold TempIconSurf.EnsureSize, TempIconSurf.Release.
  destruct (if (W <=? 0) || (H <=? 0) then (1, 1) else (W, H)) as [W1 H1].
  destruct ((W1 =? TempIconSurf.w s) && (H1 =? TempIconSurf.h s)
            && negb (TempIconSurf.memDC s =? 0) && negb (TempIconSurf.dib s =? 0));
    [reflexivity|].
  destruct (TempIconSurf.memDC s =? 0), (TempIconSurf.dib s =? 0),
    (dib_answer os =? 0); reflexivity.
Qed.

Lemma rebuild_no_paint (c : TintCache) (cv : CursorVisual) (screenDC : HANDLE)
    (os : DrawOS) :
  existsb paints (rebuild_calls c cv screenDC os) = false.
Proof.
  unfold rebuild_calls.
  destruct (sTintDC c =? 0), (sTintBMP c =? 0), (sTintOld c =? 0),
    ((new_dib os =? 0) || negb (new_bits os)); reflexivity.
Qed.

Lemma DrawTrail_frame (cfg : Config) (c : TintCache) (cv : CursorVisual)
    (trail : Trail) (vs : RECT) (os : DrawOS) :
  snd (DrawTrail cfg c cv trail vs os) =
    if negb (tmp_ok os) then
      {| outcome := NoSurface; blends := []; presented := false |}
    else if cache_stale c cv && ((new_dib os =? 0) || negb (new_bits os)) then
      {| outcome := RebuildFailed; blends := []; presented := false |}
    else
      let oc := if cache_stale c cv then Rebuilt else Reused in
      let c1 := if cache_stale c cv then fst (rebuild_cache cfg c cv os) else c in
      if sTintBMP c1 =? 0 then
        {| outcome := oc; blends := []; presented := false |}
      else {| outcome := oc;
              blends := trail_blends cfg vs cv (now_draw os) trail;
              presented := true |}.
Proof.
  unfold DrawTrail. destruct (negb (tmp_ok os)); [reflexivity|].
  destruct (cache_stale c cv); cbn [andb].
  - unfold rebuild_cache.
    destruct ((new_dib os =? 0) || negb (new_bits os)); [reflexivity|].
    cbn [fst sTintBMP]. now destruct (new_dib os =? 0).
  - cbv zeta. now destruct (sTintBMP c =? 0).
Qed.

(** The calls of [DrawTrail] against its frame.  A frame that is
    presented clears the backbuffer, then issues exactly its blends, in
    their order, from the temporary surface onto the backbuffer, and ends
    with the one [UpdateLayeredWindow], which shows the backbuffer in its
    full size at the origin of the screen rectangle; a frame that is not
    presented paints nothing, and when [tmp.EnsureSize] failed it does
    not even clear. *)
Theorem DrawTrail_calls_frame (cfg : Config) (hwnd screenDC : HANDLE)
    (bb : Backbuffer.t) (tmp : TempIconSurf.t) (c : TintCache)
    (cv : CursorVisual) (trail : Trail) (vs : RECT) (sos : SurfaceOS)
    (os : DrawOS) :
  let r := DrawTrail_calls cfg hwnd screenDC bb tmp c cv trail vs sos os in
  let tmp1 := fst (fst r) in
  let ok := snd (fst r) in
  let fr := snd (DrawTrail cfg c cv trail vs (with_tmp_ok os ok)) in
  (presented fr = true ->
   exists before,
     snd r = before
             ++ map (blend_call bb tmp1 cv) (blends fr)
             ++ [UpdateLayeredWindow hwnd screenDC (mkPOINT (left vs) (top vs))
                   (Backbuffer.w bb, Backbuffer.h bb) (Backbuffer.memDC bb)
                   (mkPOINT 0 0) 255]
     /\ existsb paints before = false
     /\ In (PatBlt (Backbuffer.memDC bb) 0 0 (Backbuffer.w bb) (Backbuffer.h bb))
           before)
  /\ (presented fr = false ->
      blends fr = [] /\ existsb paints (snd r) = false)
  /\ (ok = false ->
      outcome fr = NoSurface
      /\ snd r = snd (TempIconSurf.EnsureSize sos tmp screenDC (width cv) (height cv)))
  /\ (ok = true ->
      outcome fr <> NoSurface
      /\ In (PatBlt (Backbuffer.memDC bb) 0 0 (Backbuffer.w bb) (Backbuffer.h bb))
            (snd r)).
Proof.
  cbv zeta. rewrite DrawTrail_frame, DrawTrail_calls_surface.
  unfold DrawTrail_calls.
  pose proof (TempIconSurf_EnsureSize_no_paint sos tmp screenDC (width cv)
                (height cv)) as HE.
  destruct (TempIconSurf.EnsureSize sos tmp screenDC (width cv) (height cv))
    as [[tmp1 ok] ensure]. cbn [fst snd] in *.
  destruct ok; cbn [negb with_tmp_ok tmp_ok new_dib new_bits now_draw fst snd].
  2:{ repeat split; try discriminate; try assumption; reflexivity. }
  rewrite rebuild_cache_with_tmp_ok. unfold Backbuffer.Clear, present_call.
  pose proof (rebuild_no_paint c cv screenDC os) as HR.
  destruct (cache_stale c cv); cbn [andb].
  - destruct ((new_dib os =? 0) || negb (new_bits os)); cbn [fst snd presented blends outcome].
    + split; [discriminate|]. split; [|split; [discriminate|]].
      * intros _. split; [reflexivity|].
        rewrite !no_paint_app, HE, HR. reflexivity.
      * intros _. split; [discriminate|].
        apply in_or_app. right. now left.
    + destruct (sTintBMP (fst (rebuild_cache cfg c cv os)) =? 0);
        cbn [fst snd presented blends outcome].
      * split; [discriminate|]. split; [|split; [discriminate|]].
        -- intros _. split; [reflexivity|].
           rewrite !no_paint_app, HE, HR. reflexivity.
        -- intros _. split; [discriminate|].
           apply in_or_app. left. apply in_or_app. right. now left.
      * split; [|split; [discriminate|split; [discriminate|]]].
        -- intros _.
           exists ((ensure
                    ++ [PatBlt (Backbuffer.memDC bb) 0 0 (Backbuffer.w bb)
                               (Backbuffer.h bb)]
                    ++ rebuild_calls c cv screenDC os)
                   ++ [PatBlt (TempIconSurf.memDC tmp1) 0 0 (TempIconSurf.w tmp1)
                              (TempIconSurf.h tmp1);
                       BitBlt (TempIconSurf.memDC tmp1) 0 0 (width cv) (height cv)
                              (sTintDC (fst (rebuild_cache cfg c cv os))) 0 0]).
           split; [|split].
           ++ now rewrite <- (app_assoc _ [_; _]).
           ++ rewrite !no_paint_app, HE, HR. reflexivity.
           ++ apply in_or_app. left. apply in_or_app. right. now left.
        -- intros _. split; [discriminate|].
           apply in_or_app. left. apply in_or_app. right. now left.
  - destruct (sTintBMP c =? 0); cbn [fst snd presented blends outcome].
    + split; [discriminate|]. split; [|split; [discriminate|]].
      * intros _. split; [reflexivity|].
        rewrite !no_paint_app, HE. reflexivity.
      * intros _. split; [discriminate|].
        apply in_or_app. left. apply in_or_app. right. now left.
    + split; [|split; [discriminate|split; [discriminate|]]].
      * intros _.
        exists ((ensure
                 ++ [PatBlt (Backbuffer.memDC bb) 0 0 (Backbuffer.w bb)
                            (Backbuffer.h bb)]
                 ++ [])
                ++ [PatBlt (TempIconSurf.memDC tmp1) 0 0 (TempIconSurf.w tmp1)
                           (TempIconSurf.h tmp1);
                    BitBlt (TempIconSurf.memDC tmp1) 0 0 (width cv) (height cv)
                           (sTintDC c) 0 0]).
        split; [|split].
        -- now rewrite <- (app_assoc _ [_; _]).
        -- rewrite !no_paint_app, HE. reflexivity.
        -- apply in_or_app. left. apply in_or_app. right. now left.
      * intros _. split; [discriminate|].
        apply in_or_app. left. apply in_or_app. right. now left.
Qed.

(** ** The message pump and the screen rectangle *)

Lemma last_cons {A : Type} (a d : A) (l : list A) : last (a :: l) d = last l a.
Proof.
  revert a d. induction l as [|b l IH]; intros a d; [reflexivity|].
  change (last (a :: b :: l) d) with (last (b :: l) d).
  now rewrite !IH.
Qed.

Lemma WndProc_rect (vs : RECT) (msg : Z) (os : WndOS) :
  fst (fst (WndProc (Some vs) msg os)) =
    Some (if msg =? WM_DISPLAYCHANGE then GetVirtualScreenRect (wnd_metrics os)
          else vs).
Proof.
  unfold WndProc.
  destruct (Z.eqb_spec msg WM_DESTROY) as [->|]; [reflexivity|].
  destruct (Z.eqb_spec msg WM_ERASEBKGND) as [->|]; [reflexivity|].
  destruct (msg =? WM_DISPLAYCHANGE); reflexivity.
Qed.

(** The message loop returns exactly when [WM_QUIT] is among the
    messages retrieved; otherwise it leaves in [vs] the rectangle of the
    last [WM_DISPLAYCHANGE] that was addressed to the overlay window, and
    [vs] as it was when there is none. *)
Theorem pump_result (hwnd : HANDLE) (msgs : list (MSG * WndOS)) (vs : RECT) :
  fst (pump hwnd vs msgs) =
    if quit_retrieved msgs then None
    else Some (last (map GetVirtualScreenRect (display_changes hwnd msgs)) vs).
Proof.
  revert vs. induction msgs as [|[msg os] rest IH]; intros vs; [reflexivity|].
  cbn [pump quit_retrieved existsb fst]. fold (quit_retrieved rest).
  destruct (message msg =? WM_QUIT); [reflexivity|]. cbn [orb].
  unfold display_changes. cbn [filter fst snd].
  destruct (msg_hwnd msg =? hwnd); cbn [andb].
  - pose proof (WndProc_rect vs (message msg) os) as HW.
    destruct (WndProc (Some vs) (message msg) os) as [[pVs res] calls].
    cbn [fst] in HW. subst pVs.
    specialize (IH (if message msg =? WM_DISPLAYCHANGE
                    then GetVirtualScreenRect (wnd_metrics os) else vs)).
    destruct (pump hwnd _ rest) as [res1 calls1]. cbn [fst] in *.
    rewrite IH. destruct (quit_retrieved rest); [reflexivity|].
    destruct (message msg =? WM_DISPLAYCHANGE); [|reflexivity].
    cbn [map]. now rewrite last_cons.
  - apply IH.
Qed.

Lemma pump_draw_calls (hwnd : HANDLE) (msgs : list (MSG * WndOS)) :
  forall vs : RECT, forallb draw_call (snd (pump hwnd vs msgs)) = true.
Proof.
  induction msgs as [|[msg os] rest IH]; intros vs; [reflexivity|].
  cbn [pump]. destruct (message msg =? WM_QUIT); [reflexivity|].
  destruct (msg_hwnd msg =? hwnd); [|apply IH].
  assert (HW : forallb draw_call (snd (WndProc (Some vs) (message msg) os)) = true).
  { unfold WndProc. destruct (message msg =? WM_DESTROY); [reflexivity|].
    destruct (message msg =? WM_ERASEBKGND); [reflexivity|].
    destruct (message msg =? WM_DISPLAYCHANGE); reflexivity. }
  destruct (WndProc (Some vs) (message msg) os) as [[pVs res] calls].
  specialize (IH (match pVs with Some r => r | None => vs end)).
  destruct (pump hwnd _ rest) as [res1 calls1]. cbn [snd] in *.
  now rewrite forallb_app, HW, IH.
Qed.

Lemma DrawTrail_draw_calls (cfg : Config) (hwnd screenDC : HANDLE)
    (bb : Backbuffer.t) (tmp : TempIconSurf.t) (c : TintCache)
    (cv : CursorVisual) (trail : Trail) (vs : RECT) (sos : SurfaceOS)
    (os : DrawOS) :
  forallb draw_call
    (snd (DrawTrail_calls cfg hwnd screenDC bb tmp c cv trail vs sos os)) = true.
Proof.
  unfold DrawTrail_calls.
  assert (HE : forallb draw_call
                 (snd (TempIconSurf.EnsureSize sos tmp screenDC (width cv)
                         (height cv))) = true).
  { unfold TempIconSurf.EnsureSize, TempIconSurf.Release.
    destruct (if (width cv <=? 0) || (height cv <=? 0) then (1, 1)
              else (width cv, height cv)) as [W1 H1].
    destruct ((W1 =? TempIconSurf.w tmp) && (H1 =? TempIconSurf.h tmp)
              && negb (TempIconSurf.memDC tmp =? 0)
              && negb (TempIconSurf.dib tmp =? 0)); [reflexivity|].
    destruct (TempIconSurf.memDC tmp =? 0), (TempIconSurf.dib tmp =? 0),
      (dib_answer sos =? 0); reflexivity. }
  destruct (TempIconSurf.EnsureSize sos tmp screenDC (width cv) (height cv))
    as [[tmp1 ok] ensure]. cbn [snd] in HE.
  destruct ok; cbn [negb snd]; [|exact HE].
  assert (HR : forallb draw_call
                 (if cache_stale c cv then rebuild_calls c cv screenDC os else [])
               = true).
  { destruct (cache_stale c cv); [|reflexivity]. unfold rebuild_calls.
    destruct (sTintDC c =? 0), (sTintBMP c =? 0), (sTintOld c =? 0),
      ((new_dib os =? 0) || negb (new_bits os)); reflexivity. }
  assert (HB : forall l, forallb draw_call (map (blend_call bb tmp1 cv) l) = true)
    by (induction l as [|b l IH]; [reflexivity|exact IH]).
  destruct (cache_stale c cv && ((new_dib os =? 0) || negb (new_bits os)));
    [|destruct (sTintBMP _ =? 0)]; cbn [snd];
    rewrite !forallb_app, HE, ?HR, ?HB; reflexivity.
Qed.

Lemma RefreshCursorVisual_draw_calls (os : IconOS) (cv : CursorVisual)
    (ci : CURSORINFO) :
  forallb draw_call (RefreshCursorVisual_calls os cv ci) = true.
Proof.
  unfold RefreshCursorVisual_calls.
  destruct (ci_hCursor ci =? hCur cv); [reflexivity|].
  destruct (GetIconInfo os (ci_hCursor ci)) as [ii|]; [|reflexivity].
  destruct (hbmMask ii =? 0), (hbmColor ii =? 0); reflexivity.
Qed.

(** What an iteration that goes on leaves, given the results of the pump
    and of the check of the screen size. *)
Lemma iteration_next (cfg : Config) (ov : Overlay) (os : IterOS) (vs0 vs : RECT)
    (pumped resized : list Call) (bb1 : Backbuffer.t) :
  pump (hwnd_of ov) (vs_of (loop_of ov)) (messages os) = (Some vs0, pumped) ->
  resize ov vs0 os = (vs, bb1, true, resized) ->
  exists ov1 fr calls,
    iteration cfg ov os = NextIteration ov1 fr (pumped ++ resized ++ calls)
    /\ bb_of ov1 = bb1 /\ vs_of (loop_of ov1) = vs
    /\ forallb draw_call calls = true.
Proof.
  intros HP HR. unfold iteration. rewrite HP, HR. cbn [negb].
  set (trail1 := UpdateTrail cfg (trail_of (loop_of ov)) (cur (tick_os os))
                             (lastTick (tick_os os))).
  assert (HD : forall cv1 tr,
            let r := draw cfg ov bb1 cv1 tr vs os in
            bb_of (fst (fst r)) = bb1 /\ vs_of (loop_of (fst (fst r))) = vs
            /\ forallb draw_call (snd r) = true).
  { intros cv1 tr. cbv zeta. unfold draw.
    pose proof (DrawTrail_draw_calls cfg (hwnd_of ov) (screenDC_of ov) bb1
                  (tmp_of ov) (cache_of (loop_of ov)) cv1 tr vs (tmp_os os)
                  (draw_os (tick_os os))) as HC.
    destruct (DrawTrail_calls _ _ _ _ _ _ _ _ _ _ _) as [[tmp1 ok] calls].
    destruct (DrawTrail _ _ _ _ _ _) as [c1 fr]. cbn [fst snd] in *.
    repeat split. exact HC. }
  assert (HH : let r := hidden_iteration cfg ov bb1 trail1 vs os in
               bb_of (fst (fst r)) = bb1 /\ vs_of (loop_of (fst (fst r))) = vs
               /\ forallb draw_call (snd r) = true).
  { cbv zeta. unfold hidden_iteration.
    destruct (evict_expired cfg (now_hidden (tick_os os)) trail1) as [|s rest];
      [repeat split|].
    specialize (HD (cv_of (loop_of ov)) (s :: rest)). cbv zeta in HD.
    destruct (draw cfg ov bb1 (cv_of (loop_of ov)) (s :: rest) vs os)
      as [[ov1 fr] calls]. exact HD. }
  assert (HS : forall ci,
            let r := shown_iteration cfg ov bb1 trail1 vs os ci in
            bb_of (fst (fst r)) = bb1 /\ vs_of (loop_of (fst (fst r))) = vs
            /\ forallb draw_call (snd r) = true).
  { intros ci. cbv zeta. unfold shown_iteration.
    specialize (HD (RefreshCursorVisual (icon_os (tick_os os))
                      (cv_of (loop_of ov)) ci) trail1). cbv zeta in HD.
    destruct (draw cfg ov bb1 _ trail1 vs os) as [[ov1 fr] calls].
    cbn [fst snd] in *. rewrite forallb_app, RefreshCursorVisual_draw_calls.
    exact HD. }
  cbv zeta in HH.
  destruct (cursor_info (tick_os os)) as [ci|].
  - destruct (pointer_hidden (Some ci)).
    + destruct (hidden_iteration cfg ov bb1 trail1 vs os) as [[ov1 fr] calls].
      exists ov1, fr, calls. cbn [fst snd] in HH. tauto.
    + specialize (HS ci). cbv zeta in HS.
      destruct (shown_iteration cfg ov bb1 trail1 vs os ci) as [[ov1 fr] calls].
      exists ov1, fr, calls. cbn [fst snd] in HS. tauto.
  - destruct (hidden_iteration cfg ov bb1 trail1 vs os) as [[ov1 fr] calls].
    exists ov1, fr, calls. cbn [fst snd] in HH. tauto.
Qed.

(** When the window procedure has handled a
    [WM_DISPLAYCHANGE] during the message loop and the metrics are still
    those it read, the test of line 554 finds no difference: the
    iteration goes on with the new rectangle, makes no [SetWindowPos]
    and leaves the backbuffer as it was, which then no longer covers a
    screen that grew. *)
Theorem display_change_skips_resize (cfg : Config) (ov : Overlay) (os : IterOS)
    (earlier : list Metrics) (m : Metrics) :
  quit_retrieved (messages os) = false ->
  display_changes (hwnd_of ov) (messages os) = earlier ++ [m] ->
  curVS (tick_os os) = GetVirtualScreenRect m ->
  exists ov1 fr calls,
    iteration cfg ov os = NextIteration ov1 fr calls
    /\ vs_of (loop_of ov1) = GetVirtualScreenRect m
    /\ bb_of ov1 = bb_of ov
    /\ (forall hWnd X Y cx cy, ~ In (SetWindowPos hWnd X Y cx cy) calls)
    /\ (Backbuffer.w (bb_of ov) < rect_width (GetVirtualScreenRect m) ->
        ~ covers (bb_of ov1) (vs_of (loop_of ov1))).
Proof.
  intros Hq Hd Hcur.
  pose proof (pump_result (hwnd_of ov) (messages os) (vs_of (loop_of ov))) as HP.
  rewrite Hq, Hd, map_app in HP. cbn [map] in HP. rewrite last_last in HP.
  destruct (pump (hwnd_of ov) (vs_of (loop_of ov)) (messages os))
    as [res pumped] eqn:EP. cbn [fst] in HP. subst res.
  assert (HR : resize ov (GetVirtualScreenRect m) os
               = (GetVirtualScreenRect m, bb_of ov, true, [])).
  { unfold resize. rewrite Hcur.
    assert (E : rect_eqb (GetVirtualScreenRect m) (GetVirtualScreenRect m) = true)
      by now apply rect_eqb_eq.
    now rewrite E. }
  destruct (iteration_next cfg ov os _ _ _ _ _ EP HR)
    as (ov1 & fr & calls & HI & Hbb & Hvs & Hcalls).
  exists ov1, fr, (pumped ++ [] ++ calls).
  split; [exact HI|]. split; [exact Hvs|]. split; [exact Hbb|]. split.
  - intros hWnd X Y cx cy Hin.
    pose proof (pump_draw_calls (hwnd_of ov) (messages os) (vs_of (loop_of ov)))
      as Hpump. rewrite EP in Hpump. cbn [snd] in Hpump.
    apply in_app_or in Hin. cbn [app] in Hin.
    assert (Hno : forall l, forallb draw_call l = true ->
                            ~ In (SetWindowPos hWnd X Y cx cy) l).
    { intros l Hl Hi. rewrite forallb_forall in Hl. apply Hl in Hi. discriminate. }
    destruct Hin as [Hin|Hin]; [now apply (Hno pumped)|now apply (Hno calls)].
  - intros Hw [Hc _]. rewrite Hbb, Hvs in Hc. lia.
Qed.

Lemma startup_handles (os : StartOS) (ov : Overlay) (interval : Z)
    (calls : list Call) :
  startup os = Started ov interval calls ->
  hwnd_of ov = window_handle os /\ screenDC_of ov = screen_dc os
  /\ hMutex_of ov = mutex_handle os
  /\ loop_of ov = mkLoopState [] cv_init cache_init
                     (GetVirtualScreenRect (start_metrics os))
  /\ tmp_of ov = TempIconSurf.init.
Proof.
  unfold startup. destruct (already_exists os); [discriminate|].
  destruct (window_handle os =? 0); [discriminate|].
  destruct (Backbuffer.EnsureSize _ _ _ _ _) as [[bb ok] ensured].
  destruct ok; cbn [negb]; [|discriminate].
  intros H. injection H as <- _ _. repeat split.
Qed.

Lemma startup_covers (os : StartOS) (ov : Overlay) (interval : Z)
    (calls : list Call) :
  startup os = Started ov interval calls ->
  covers (bb_of ov) (vs_of (loop_of ov)).
Proof.
  unfold startup. destruct (already_exists os); [discriminate|].
  destruct (window_handle os =? 0); [discriminate|].
  set (vs := GetVirtualScreenRect (start_metrics os)).
  pose proof (Backbuffer_EnsureSize_result (start_bb_os os) Backbuffer.init
                (screen_dc os) (rect_width vs) (rect_height vs)) as HR.
  cbv zeta in HR.
  destruct (Backbuffer.EnsureSize (start_bb_os os) Backbuffer.init (screen_dc os)
              (rect_width vs) (rect_height vs)) as [[bb ok] ensured].
  cbn [fst snd] in HR. destruct ok; cbn [negb]; [|discriminate].
  intros H. injection H as <- _ _. cbn [bb_of loop_of vs_of].
  destruct HR as (_ & _ & HR & _). destruct (HR eq_refl) as (H1 & H2 & _).
  split; assumption.
Qed.

Lemma iteration_covers (cfg : Config) (ov ov1 : Overlay) (os : IterOS)
    (fr : option Frame) (calls : list Call) :
  covers (bb_of ov) (vs_of (loop_of ov)) ->
  display_changes (hwnd_of ov) (messages os) = [] ->
  iteration cfg ov os = NextIteration ov1 fr calls ->
  covers (bb_of ov1) (vs_of (loop_of ov1)).
Proof.
  intros Hc Hd HI.
  pose proof (pump_result (hwnd_of ov) (messages os) (vs_of (loop_of ov))) as HP.
  rewrite Hd in HP. cbn [map last] in HP.
  destruct (pump (hwnd_of ov) (vs_of (loop_of ov)) (messages os))
    as [res pumped] eqn:EP. cbn [fst] in HP.
  destruct (quit_retrieved (messages os)).
  { subst res. unfold iteration in HI. rewrite EP in HI. discriminate. }
  subst res.
  destruct (resize ov (vs_of (loop_of ov)) os) as [[[vs bb1] ok] resized] eqn:ER.
  destruct ok.
  - destruct (iteration_next cfg ov os _ _ _ _ _ EP ER)
      as (ov2 & fr2 & calls2 & HI2 & Hbb & Hvs & _).
    rewrite HI2 in HI. injection HI as <- _ _. rewrite Hbb, Hvs.
    unfold resize in ER.
    destruct (rect_eqb (curVS (tick_os os)) (vs_of (loop_of ov))); cbn [negb] in ER.
    + injection ER as <- <- _. exact Hc.
    + pose proof (Backbuffer_EnsureSize_result (bb_os os) (bb_of ov)
                    (screenDC_of ov) (rect_width (curVS (tick_os os)))
                    (rect_height (curVS (tick_os os)))) as HR.
      cbv zeta in HR.
      destruct (Backbuffer.EnsureSize _ _ _ _ _) as [[bb2 ok2] ensured].
      injection ER as <- <- -> _. cbn [fst snd] in HR.
      destruct HR as (_ & _ & HR & _). destruct (HR eq_refl) as (H1 & H2 & _).
      split; assumption.
  - unfold iteration in HI. rewrite EP, ER in HI. discriminate.
Qed.

(** As long as no [WM_DISPLAYCHANGE] reaches the window
    procedure, the backbuffer covers the screen rectangle in every state
    the main loop reaches: it is at least as wide and as high. *)
Theorem backbuffer_covers_screen (lpCmdLine : string) (os : StartOS)
    (iters : list IterOS) (ov : Overlay) (calls : list Call) :
  Forall (fun i => display_changes (window_handle os) (messages i) = []) iters ->
  wWinMain lpCmdLine os iters = (Looping ov, calls) ->
  covers (bb_of ov) (vs_of (loop_of ov)).
Proof.
  intros Hd Hrun. unfold wWinMain in Hrun.
  destruct (startup os) as [path0 calls0|ov0 interval calls0] eqn:ES;
    [discriminate|].
  pose proof (startup_covers os ov0 interval calls0 ES) as Hc.
  assert (Hh : hwnd_of ov0 = window_handle os)
    by now apply (startup_handles os ov0 interval calls0).
  rewrite <- Hh in Hd. clear Hh ES.
  destruct (main_loop _ ov0 iters) as [o later] eqn:EM.
  injection Hrun as -> _. clear calls calls0.
  revert ov0 later Hc Hd EM.
  induction iters as [|i rest IH]; intros ov0 later Hc Hd EM.
  - cbn in EM. injection EM as <- _. exact Hc.
  - apply Forall_cons_iff in Hd. destruct Hd as [Hd Hrest].
    cbn [main_loop] in EM.
    pose proof (iteration_loop_calls (parse_command_line lpCmdLine default_config)
                  ov0 i) as HL.
    destruct (iteration _ ov0 i) as [c|c|ov1 fr c] eqn:EI; try discriminate.
    destruct HL as (_ & HL & _).
    destruct (main_loop _ ov1 rest) as [o1 later1] eqn:EM1.
    injection EM as -> _.
    apply (IH ov1 later1); try assumption.
    + exact (iteration_covers _ ov0 ov1 i fr c Hc Hd EI).
    + now rewrite HL.
Qed.

(** ** The main loop against [tick] *)

Lemma draw_state (cfg : Config) (ov : Overlay) (bb1 : Backbuffer.t)
    (cv1 : CursorVisual) (trail1 : Trail) (vs : RECT) (os : IterOS) :
  let r := draw cfg ov bb1 cv1 trail1 vs os in
  let ok := snd (fst (TempIconSurf.EnsureSize (tmp_os os) (tmp_of ov)
                        (screenDC_of ov) (width cv1) (height cv1))) in
  let d := DrawTrail cfg (cache_of (loop_of ov)) cv1 trail1 vs
                     (with_tmp_ok (draw_os (tick_os os)) ok) in
  loop_of (fst (fst r)) = mkLoopState trail1 cv1 (fst d) vs
  /\ snd (fst r) = snd d.
Proof.
  cbv zeta. unfold draw.
  pose proof (DrawTrail_calls_surface cfg (hwnd_of ov) (screenDC_of ov) bb1
                (tmp_of ov) (cache_of (loop_of ov)) cv1 trail1 vs (tmp_os os)
                (draw_os (tick_os os))) as HS.
  destruct (DrawTrail_calls _ _ _ _ _ _ _ _ _ _ _) as [[tmp1 ok] calls].
  cbn [fst] in HS. rewrite <- HS. cbn [fst snd].
  destruct (DrawTrail _ _ _ _ _ _) as [c1 fr]. split; reflexivity.
Qed.

(** An iteration of the main loop with its surfaces is
    [tick] on the loop state, with the rectangle the message loop left
    and the results of the two [EnsureSize] calls among the answers: it
    goes on with the state and the frame of [tick], and it returns after
    a failed resize exactly when [tick] exits. *)
Lemma iteration_refines_tick (cfg : Config) (ov : Overlay) (os : IterOS)
    (vs0 : RECT) (pumped : list Call) :
  pump (hwnd_of ov) (vs_of (loop_of ov)) (messages os) = (Some vs0, pumped) ->
  match iteration cfg ov os with
  | NextIteration ov1 fr _ =>
      tick cfg (with_vs (loop_of ov) vs0) (tick_answers ov os)
      = Continue (loop_of ov1) fr
  | ResizeFailed _ =>
      tick cfg (with_vs (loop_of ov) vs0) (tick_answers ov os) = Exit
  | QuitMessage _ => False
  end.
Proof.
  intros HP. unfold iteration, tick. rewrite HP.
  cbn [with_vs tick_answers trail_of cv_of cache_of vs_of cur lastTick curVS bb_ok
       cursor_info now_hidden icon_os draw_os].
  set (trail1 := UpdateTrail cfg (trail_of (loop_of ov)) (cur (tick_os os))
                             (lastTick (tick_os os))).
  assert (HB : forall (bb1 : Backbuffer.t) (vs : RECT),
            let '(ov1, fr, calls) :=
              match cursor_info (tick_os os) with
              | Some ci =>
                  if pointer_hidden (Some ci)
                  then hidden_iteration cfg ov bb1 trail1 vs os
                  else shown_iteration cfg ov bb1 trail1 vs os ci
              | None => hidden_iteration cfg ov bb1 trail1 vs os
              end in
            match cursor_info (tick_os os) with
            | Some ci =>
                if pointer_hidden (Some ci)
                then hidden_branch cfg (with_vs (loop_of ov) vs0) trail1 vs
                                   (tick_answers ov os)
                else shown_branch cfg (with_vs (loop_of ov) vs0) trail1 vs
                                  (tick_answers ov os) ci
            | None => hidden_branch cfg (with_vs (loop_of ov) vs0) trail1 vs
                                    (tick_answers ov os)
            end = Continue (loop_of ov1) fr).
  { intros bb1 vs.
    assert (HH : pointer_hidden (cursor_info (tick_os os)) = true ->
              let '(ov1, fr, calls) := hidden_iteration cfg ov bb1 trail1 vs os in
              hidden_branch cfg (with_vs (loop_of ov) vs0) trail1 vs
                            (tick_answers ov os) = Continue (loop_of ov1) fr).
    { intros Hh. unfold hidden_iteration, hidden_branch.
      cbn [with_vs tick_answers trail_of cv_of cache_of vs_of now_hidden draw_os].
      destruct (evict_expired cfg (now_hidden (tick_os os)) trail1)
        as [|s rest]; [reflexivity|].
      assert (Ev : drawn_visual ov os = cv_of (loop_of ov)).
      { unfold drawn_visual. destruct (cursor_info (tick_os os)) as [ci|];
          [|reflexivity]. now rewrite Hh. }
      rewrite Ev.
      pose proof (draw_state cfg ov bb1 (cv_of (loop_of ov)) (s :: rest) vs os)
        as HD. cbv zeta in HD.
      destruct (draw cfg ov bb1 (cv_of (loop_of ov)) (s :: rest) vs os)
        as [[ov1 fr] calls]. cbn [fst snd] in HD. destruct HD as [-> ->].
      now destruct (DrawTrail _ _ _ _ _ _). }
    destruct (cursor_info (tick_os os)) as [ci|] eqn:Eci; [|now apply HH].
    destruct (pointer_hidden (Some ci)) eqn:Eph; [now apply HH|].
    unfold shown_iteration, shown_branch.
    cbn [with_vs tick_answers trail_of cv_of cache_of vs_of icon_os draw_os].
    assert (Ev : drawn_visual ov os
                 = RefreshCursorVisual (icon_os (tick_os os)) (cv_of (loop_of ov)) ci).
    { unfold drawn_visual. now rewrite Eci, Eph. }
    rewrite Ev.
    pose proof (draw_state cfg ov bb1
                  (RefreshCursorVisual (icon_os (tick_os os)) (cv_of (loop_of ov)) ci)
                  trail1 vs os) as HD. cbv zeta in HD.
    destruct (draw cfg ov bb1 _ trail1 vs os) as [[ov1 fr] calls].
    cbn [fst snd] in HD. destruct HD as [-> ->].
    now destruct (DrawTrail _ _ _ _ _ _). }
  unfold resize.
  destruct (rect_eqb (curVS (tick_os os)) vs0) eqn:Ec; cbn [negb andb].
  - specialize (HB (bb_of ov) vs0).
    destruct (match cursor_info (tick_os os) with
              | Some ci =>
                  if pointer_hidden (Some ci)
                  then hidden_iteration cfg ov (bb_of ov) trail1 vs0 os
                  else shown_iteration cfg ov (bb_of ov) trail1 vs0 os ci
              | None => hidden_iteration cfg ov (bb_of ov) trail1 vs0 os
              end) as [[ov1 fr] calls].
    exact HB.
  - destruct (Backbuffer.EnsureSize (bb_os os) (bb_of ov) (screenDC_of ov)
                (rect_width (curVS (tick_os os)))
                (rect_height (curVS (tick_os os)))) as [[bb1 ok] ensured].
    cbn [fst snd]. destruct ok; cbn [negb]; [|reflexivity].
    specialize (HB bb1 (curVS (tick_os os))).
    destruct (match cursor_info (tick_os os) with
              | Some ci =>
                  if pointer_hidden (Some ci)
                  then hidden_iteration cfg ov bb1 trail1 (curVS (tick_os os)) os
                  else shown_iteration cfg ov bb1 trail1 (curVS (tick_os os)) os ci
              | None => hidden_iteration cfg ov bb1 trail1 (curVS (tick_os os)) os
              end) as [[ov1 fr] calls].
    exact HB.
Qed.

(** ** Invariants of the sample buffer in the main loop *)

Lemma adjacent_distinct_skipn (k : nat) (l : Trail) :
  adjacent_distinct l -> adjacent_distinct (skipn k l).
Proof.
  revert l. induction k as [|k IH]; intros l H; [exact H|].
  destruct l as [|s rest]; [exact I|]. cbn [skipn]. apply IH. apply H.
Qed.

Lemma adjacent_distinct_push (l : Trail) (s : Sample) :
  adjacent_distinct l ->
  (forall s0, back l = Some s0 -> pt s0 <> pt s) ->
  adjacent_distinct (l ++ [s]).
Proof.
  induction l as [|a l IH]; intros Hl Hb; [cbn; auto|].
  destruct l as [|b l].
  - cbn. repeat split. apply Hb. reflexivity.
  - destruct Hl as [Hab Hl]. cbn [app adjacent_distinct]. split; [exact Hab|].
    apply IH; [exact Hl|]. intros s0 Hs0. apply Hb. exact Hs0.
Qed.

Lemma should_add_distinct (trail : Trail) (ptNow : POINT) (s0 : Sample) :
  should_add trail ptNow = true -> back trail = Some s0 -> pt s0 <> ptNow.
Proof.
  unfold should_add. intros H Hb E. rewrite Hb in H. subst ptNow.
  rewrite sq_dist_int_same in H. discriminate.
Qed.

Lemma UpdateTrail_adjacent_distinct (cfg : Config) (trail : Trail)
    (ptNow : POINT) (now : time_point) :
  adjacent_distinct trail ->
  adjacent_distinct (UpdateTrail cfg trail ptNow now).
Proof.
  intros H. destruct (UpdateTrail_phases cfg trail ptNow now) as [k ->].
  apply adjacent_distinct_skipn.
  destruct (should_add trail ptNow) eqn:E; [|exact H].
  apply adjacent_distinct_push; [exact H|].
  intros s0 Hs0. cbn [pt]. now apply (should_add_distinct trail).
Qed.

Lemma evict_expired_adjacent_distinct (cfg : Config) (now : time_point)
    (trail : Trail) :
  adjacent_distinct trail -> adjacent_distinct (evict_expired cfg now trail).
Proof.
  intros H. destruct (evict_expired_prefix cfg now trail) as (k & _ & -> & _).
  now apply adjacent_distinct_skipn.
Qed.

(** Along any run of [UpdateTrail] calls from the empty
    buffer, two consecutive samples of the buffer never lie at the same
    position. *)
Theorem consecutive_samples_differ (cfg : Config)
    (ticks : list (POINT * time_point)) :
  adjacent_distinct (run_updates cfg [] ticks).
Proof.
  assert (H : forall trail, adjacent_distinct trail ->
                            adjacent_distinct (run_updates cfg trail ticks)).
  { induction ticks as [|[p now] rest IH]; intros trail Ht; [exact Ht|].
    cbn [run_updates]. apply IH. now apply UpdateTrail_adjacent_distinct. }
  apply H. exact I.
Qed.

Lemma tick_trail (cfg : Config) (st st' : LoopState) (os : TickOS)
    (fr : option Frame) :
  tick cfg st os = Continue st' fr ->
  trail_of st' =
    (if pointer_hidden (cursor_info os)
     then evict_expired cfg (now_hidden os)
     else fun l => l) (UpdateTrail cfg (trail_of st) (cur os) (lastTick os)).
Proof.
  unfold tick. destruct (_ && _); [discriminate|].
  assert (HH : forall vs r, hidden_branch cfg st
                 (UpdateTrail cfg (trail_of st) (cur os) (lastTick os)) vs os = r ->
               r = Continue st' fr ->
               trail_of st' = evict_expired cfg (now_hidden os)
                 (UpdateTrail cfg (trail_of st) (cur os) (lastTick os))).
  { intros vs r <-. unfold hidden_branch.
    destruct (evict_expired cfg (now_hidden os) _) as [|s rest] eqn:E.
    - intros H. injection H as <- _. reflexivity.
    - destruct (DrawTrail _ _ _ _ _ _) as [c1 f]. intros H.
      injection H as <- _. reflexivity. }
  destruct (cursor_info os) as [ci|].
  - destruct (pointer_hidden (Some ci)).
    + intros H. eapply HH; [reflexivity|exact H].
    + unfold shown_branch. destruct (DrawTrail _ _ _ _ _ _) as [c1 f].
      intros H. injection H as <- _. reflexivity.
  - intros H. cbn [pointer_hidden]. eapply HH; [reflexivity|exact H].
Qed.

Lemma evict_expired_time_ordered (cfg : Config) (now : time_point) (l : Trail) :
  time_ordered l -> time_ordered (evict_expired cfg now l).
Proof.
  intros H. destruct (evict_expired_prefix cfg now l) as (k & _ & -> & _).
  now apply time_ordered_skipn.
Qed.

Lemma evict_expired_In (cfg : Config) (now : time_point) (l : Trail) (s : Sample) :
  In s (evict_expired cfg now l) -> In s l.
Proof.
  destruct (evict_expired_prefix cfg now l) as (k & _ & -> & _). apply In_skipn.
Qed.

Lemma UpdateTrail_length (cfg : Config) (trail : Trail) (ptNow : POINT)
    (now : time_point) :
  Z.of_nat (length trail) <= kMaxTrailSize ->
  Z.of_nat (length (UpdateTrail cfg trail ptNow now)) <= kMaxTrailSize.
Proof.
  intros H. unfold UpdateTrail.
  pose proof (evict_expired_length cfg now
                (if should_add trail ptNow then append_sample trail ptNow now
                 else trail)) as HL.
  destruct (should_add trail ptNow).
  - pose proof (append_sample_length trail ptNow now H). lia.
  - lia.
Qed.

Lemma iteration_trail_invariant (cfg : Config) (ov ov1 : Overlay) (os : IterOS)
    (fr : option Frame) (calls : list Call) (t0 : time_point) :
  iteration cfg ov os = NextIteration ov1 fr calls ->
  t0 <= lastTick (tick_os os) ->
  lastTick (tick_os os) <= now_hidden (tick_os os) ->
  let trail := trail_of (loop_of ov) in
  let trail1 := trail_of (loop_of ov1) in
  time_ordered trail -> (forall s, In s trail -> t s <= t0) ->
  Z.of_nat (length trail) <= kMaxTrailSize -> adjacent_distinct trail ->
  time_ordered trail1
  /\ (forall s, In s trail1 -> t s <= now_hidden (tick_os os))
  /\ Z.of_nat (length trail1) <= kMaxTrailSize
  /\ adjacent_distinct trail1.
Proof.
  intros HI H0 H1. cbv zeta. intros Hord Hle Hlen Hadj.
  destruct (pump (hwnd_of ov) (vs_of (loop_of ov)) (messages os))
    as [[vs0|] pumped] eqn:EP.
  2:{ unfold iteration in HI. rewrite EP in HI. discriminate. }
  pose proof (iteration_refines_tick cfg ov os vs0 pumped EP) as HT.
  rewrite HI in HT. apply tick_trail in HT.
  cbn [with_vs trail_of tick_answers cursor_info now_hidden cur lastTick] in HT.
  set (u := UpdateTrail cfg (trail_of (loop_of ov)) (cur (tick_os os))
                        (lastTick (tick_os os))) in *.
  assert (Hle' : forall s, In s (trail_of (loop_of ov)) ->
                           t s <= lastTick (tick_os os))
    by (intros s Hs; specialize (Hle s Hs); lia).
  destruct (UpdateTrail_time_ordered cfg (trail_of (loop_of ov)) (cur (tick_os os))
              (lastTick (tick_os os)) Hord Hle') as [U1 U2].
  pose proof (UpdateTrail_length cfg (trail_of (loop_of ov)) (cur (tick_os os))
                (lastTick (tick_os os)) Hlen) as U3.
  pose proof (UpdateTrail_adjacent_distinct cfg (trail_of (loop_of ov))
                (cur (tick_os os)) (lastTick (tick_os os)) Hadj) as U4.
  fold u in U1, U2, U3, U4. rewrite HT.
  destruct (pointer_hidden (cursor_info (tick_os os))).
  - split; [now apply evict_expired_time_ordered|]. split; [|split].
    + intros s Hs. apply evict_expired_In in Hs. specialize (U2 s Hs). lia.
    + pose proof (evict_expired_length cfg (now_hidden (tick_os os)) u). lia.
    + now apply evict_expired_adjacent_distinct.
  - split; [exact U1|]. split; [|split; assumption].
    intros s Hs. specialize (U2 s Hs). lia.
Qed.

(** In every state the main loop reaches, when the clock
    readings never decrease, the sample buffer is ordered by time, holds
    at most 500 samples, none of them newer than the last clock reading,
    and no two consecutive samples at the same position. *)
Theorem main_loop_trail_invariant (lpCmdLine : string) (os : StartOS)
    (iters : list IterOS) (t0 : time_point) (ov : Overlay) (calls : list Call) :
  clocks_ordered t0 iters ->
  wWinMain lpCmdLine os iters = (Looping ov, calls) ->
  let trail := trail_of (loop_of ov) in
  time_ordered trail
  /\ Z.of_nat (length trail) <= kMaxTrailSize
  /\ adjacent_distinct trail
  /\ (forall s, In s trail ->
        t s <= last (map (fun i => now_hidden (tick_os i)) iters) t0).
Proof.
  intros Hclk Hrun. unfold wWinMain in Hrun.
  destruct (startup os) as [path0 calls0|ov0 interval calls0] eqn:ES;
    [discriminate|].
  destruct (startup_handles os ov0 interval calls0 ES) as (_ & _ & _ & Hloop & _).
  destruct (main_loop _ ov0 iters) as [o later] eqn:EM.
  injection Hrun as -> _. clear calls.
  set (cfg := parse_command_line lpCmdLine default_config) in *.
  assert (Hinv : time_ordered (trail_of (loop_of ov0))
                 /\ (forall s, In s (trail_of (loop_of ov0)) -> t s <= t0)
                 /\ Z.of_nat (length (trail_of (loop_of ov0))) <= kMaxTrailSize
                 /\ adjacent_distinct (trail_of (loop_of ov0))).
  { rewrite Hloop. cbn. unfold kMaxTrailSize. repeat split; try lia;
      try contradiction. }
  clear Hloop ES. revert t0 ov0 later Hclk Hinv EM.
  induction iters as [|i rest IH]; intros t0 ov0 later Hclk Hinv EM.
  - cbn in EM. injection EM as <- _. cbn [map last]. tauto.
  - destruct Hclk as (C1 & C2 & C3). cbn [main_loop] in EM.
    destruct (iteration cfg ov0 i) as [c|c|ov1 fr c] eqn:EI; try discriminate.
    destruct (main_loop cfg ov1 rest) as [o1 later1] eqn:EM1.
    injection EM as -> _. destruct Hinv as (I1 & I2 & I3 & I4).
    pose proof (iteration_trail_invariant cfg ov0 ov1 i fr c t0 EI C1 C2
                  I1 I2 I3 I4) as (J1 & J2 & J3 & J4).
    specialize (IH (now_hidden (tick_os i)) ov1 later1 C3
                  (conj J1 (conj J2 (conj J3 J4))) EM1).
    cbn [map]. rewrite last_cons. exact IH.
Qed.

(** ** Releasing the tinted glyph cache *)

(** After [ReleaseTintCache] the cache has no device context
    and an empty key, so that the next [DrawTrail] finds it stale for
    every glyph, and a second call does nothing.  With a device context
    the cache is left as it started, the bitmap deleted before the device
    context; without one no call is made and a bitmap the cache holds is
    kept, not deleted. *)
Theorem ReleaseTintCache_result (c : TintCache) :
  let c1 := fst (ReleaseTintCache c) in
  let calls := snd (ReleaseTintCache c) in
  (forall cv : CursorVisual, cache_stale c1 cv = true)
  /\ ReleaseTintCache c1 = (c1, [])
  /\ (sTintDC c <> 0 ->
      c1 = cache_init
      /\ exists selected,
           calls = selected
                   ++ (if sTintBMP c =? 0 then [] else [DeleteObject (sTintBMP c)])
                   ++ [DeleteDC (sTintDC c)]
           /\ selected = (if (sTintBMP c =? 0) || (sTintOld c =? 0) then []
                          else [SelectObject (sTintDC c) (sTintOld c)]))
  /\ (sTintDC c = 0 ->
      calls = [] /\ sTintBMP c1 = sTintBMP c
      /\ sLastCursor c1 = 0 /\ sLastW c1 = 0 /\ sLastH c1 = 0
      /\ sTintOld c1 = 0 /\ sTintBits c1 = None).
Proof.
  cbv zeta. unfold ReleaseTintCache.
  destruct (Z.eqb_spec (sTintDC c) 0) as [E|E]; cbn [negb fst snd].
  - split; [intros cv; unfold cache_stale; cbn; now rewrite orb_true_r|].
    split; [reflexivity|]. split; [tauto|]. intros _. repeat split.
  - split; [intros cv; reflexivity|]. split; [reflexivity|].
    split; [|tauto]. intros _. split; [reflexivity|].
    eexists. split; [|reflexivity].
    destruct (sTintBMP c =? 0); cbn [negb orb app]; [reflexivity|].
    destruct (sTintOld c =? 0); reflexivity.
Qed.

(** A frame whose [CreateCompatibleDC] fails while its
    [CreateDIBSection] succeeds leaves the cache with the new bitmap and
    no device context; the frame is not presented, and
    [ReleaseTintCache] then deletes nothing. *)
Theorem tint_bitmap_without_dc (cfg : Config) (c : TintCache) (cv : CursorVisual)
    (trail : Trail) (vs : RECT) (os : DrawOS) :
  tmp_ok os = true -> sTintDC c = 0 -> new_dc os = 0 -> new_dib os <> 0 ->
  let c1 := fst (DrawTrail cfg c cv trail vs os) in
  sTintBMP c1 = new_dib os /\ sTintDC c1 = 0
  /\ snd (ReleaseTintCache c1) = []
  /\ sTintBMP (fst (ReleaseTintCache c1)) = new_dib os
  /\ (forall cv' : CursorVisual, cache_stale c1 cv' = true).
Proof.
  intros Hok Hdc Hnew Hdib. cbv zeta. rewrite DrawTrail_cache, Hok. cbn [negb].
  assert (Hs : cache_stale c cv = true)
    by (unfold cache_stale; rewrite Hdc; cbn; now rewrite orb_true_r).
  rewrite Hs. unfold rebuild_cache. rewrite Hdc. cbn [Z.eqb].
  destruct ((new_dib os =? 0) || negb (new_bits os));
    cbn [fst sTintBMP sTintDC]; unfold ReleaseTintCache;
    cbn [sTintDC sTintBMP]; rewrite Hnew; cbn [Z.eqb negb fst snd sTintBMP];
    repeat split; intros cv'; unfold cache_stale; cbn [sTintDC sTintBMP];
    cbn; now rewrite orb_true_r.
Qed.

(** ** Refresh rate and frame interval *)

Lemma of_Z_nonneg (z : Z) : 0 <= z -> nonneg_float (F32.of_Z z) = true.
Proof.
  intros Hz. destruct z as [|p|p]; [reflexivity| |lia].
  rewrite of_Z_by_key. unfold float_of_key.
  destruct (fst (of_Z_key p) <=? 104); reflexivity.
Qed.

Lemma not_ltb_leb (a b : F32.f32) :
  nonneg_float a = true -> nonneg_float b = true ->
  F32.ltb a b = false -> F32.leb b a = true.
Proof.
  unfold F32.ltb, F32.leb, SFltb, SFleb, SFcompare.
  destruct a as [[|]|[|]| |[|] ma ea], b as [[|]|[|]| |[|] mb eb];
    try discriminate; try reflexivity;
    intros _ _ H1; cmp_cases; cbn in *; try discriminate; try reflexivity; lia.
Qed.

Lemma leb_trans (a b c : F32.f32) :
  F32.leb a b = true -> F32.leb b c = true -> F32.leb a c = true.
Proof.
  unfold F32.leb, SFleb, SFcompare.
  destruct a as [sa|sa| |sa ma ea], b as [sb|sb| |sb mb eb], c as [sc|sc| |sc mc ec];
    try discriminate; try reflexivity;
    try destruct sa; try destruct sb; try destruct sc;
    try discriminate; try reflexivity;
    intros H1 H2; cmp_cases; cbn in *; try discriminate; try reflexivity; lia.
Qed.

Lemma of_Z_ltb_lt (a b : Z) :
  0 <= a -> 0 <= b -> F32.ltb (F32.of_Z a) (F32.of_Z b) = true -> a < b.
Proof.
  intros Ha Hb H. destruct (Z.lt_ge_cases a b) as [|Hge]; [assumption|].
  assert (Hle : F32.leb (F32.of_Z b) (F32.of_Z a) = true) by (apply of_Z_mono; lia).
  apply leb_not_ltb in Hle. congruence.
Qed.

(** The highest refresh rate is the conversion of 60 or of a reported
    frequency, not below 60, and not below any reported frequency. *)
Lemma max_refresh_rate_spec (displays : list (option Z)) :
  Forall display_ok displays ->
  exists k : Z,
    60 <= k < 2 ^ 32
    /\ max_refresh_rate displays = F32.of_Z k
    /\ (forall f, In (Some f) displays ->
                  F32.leb (F32.of_Z f) (F32.of_Z k) = true)
    /\ (k = 60 \/ In (Some k) displays).
Proof.
  unfold max_refresh_rate.
  assert (H : forall (l : list (option Z)) (k0 : Z),
            Forall display_ok l -> 60 <= k0 < 2 ^ 32 ->
            exists k, 60 <= k < 2 ^ 32
              /\ fold_left (fun maxHz dm =>
                              match dm with
                              | Some frequency => F32.max maxHz (F32.of_Z frequency)
                              | None => maxHz
                              end) l (F32.of_Z k0) = F32.of_Z k
              /\ F32.leb (F32.of_Z k0) (F32.of_Z k) = true
              /\ (forall f, In (Some f) l ->
                            F32.leb (F32.of_Z f) (F32.of_Z k) = true)
              /\ (k = k0 \/ In (Some k) l)).
  { induction l as [|dm l IH]; intros k0 Hall Hk0.
    - exists k0. repeat split; try lia; try (now left).
      + apply of_Z_mono. lia.
      + intros f [].
    - apply Forall_cons_iff in Hall. destruct Hall as [Hdm Hall].
      cbn [fold_left]. destruct dm as [f|].
      + cbn [display_ok] in Hdm. unfold F32.max at 2.
        destruct (F32.ltb (F32.of_Z k0) (F32.of_Z f)) eqn:El.
        * assert (Hlt : k0 < f) by (apply of_Z_ltb_lt; [lia|lia|exact El]).
          destruct (IH f Hall ltac:(lia)) as (k & K1 & K2 & K3 & K4 & K5).
          exists k. split; [exact K1|]. split; [exact K2|]. split; [|split].
          -- eapply leb_trans; [|exact K3]. apply of_Z_mono. lia.
          -- intros f' [Hf'|Hf']; [injection Hf' as <-; exact K3|now apply K4].
          -- destruct K5 as [->|K5]; right; [now left|now right].
        * destruct (IH k0 Hall Hk0) as (k & K1 & K2 & K3 & K4 & K5).
          exists k. split; [exact K1|]. split; [exact K2|]. split; [exact K3|].
          split.
          -- intros f' [Hf'|Hf']; [|now apply K4]. injection Hf' as <-.
             eapply leb_trans; [|exact K3].
             apply not_ltb_leb; [apply of_Z_nonneg; lia..|exact El].
          -- destruct K5 as [->|K5]; [now left|right; now right].
      + destruct (IH k0 Hall Hk0) as (k & K1 & K2 & K3 & K4 & K5).
        exists k. repeat split; try tauto; try lia.
        * intros f' [Hf'|Hf']; [discriminate|now apply K4].
        * destruct K5 as [->|K5]; [now left|right; now right]. }
  intros Hall. change f_60 with (F32.of_Z 60).
  destruct (H displays 60 Hall ltac:(lia)) as (k & K1 & K2 & _ & K4 & K5).
  exists k. repeat split; try tauto; lia.
Qed.

(** The clamped rate is the conversion of a whole number of hertz from 60
    to 240. *)
Lemma clamped_rate_spec (k : Z) :
  60 <= k < 2 ^ 32 ->
  F32.clamp (F32.of_Z k) f_30 f_240 = F32.of_Z (Z.min k 240).
Proof.
  intros Hk. unfold F32.clamp.
  assert (H30 : F32.ltb (F32.of_Z k) f_30 = false).
  { apply leb_not_ltb. change f_30 with (F32.of_Z 30). apply of_Z_mono. lia. }
  rewrite H30.
  destruct (F32.ltb f_240 (F32.of_Z k)) eqn:E.
  - change f_240 with (F32.of_Z 240) in E. apply of_Z_ltb_lt in E; [|lia..].
    rewrite Z.min_r by lia. reflexivity.
  - destruct (Z.le_gt_cases k 240) as [Hle|Hgt]; [now rewrite Z.min_l|].
    exfalso.
    assert (H1 : F32.ltb f_240 (F32.of_Z 241) = true) by (vm_compute; reflexivity).
    assert (H2 : F32.leb (F32.of_Z 241) (F32.of_Z k) = true)
      by (apply of_Z_mono; lia).
    pose proof (ltb_leb_trans _ _ _ H1 H2). congruence.
Qed.

Lemma interval_of_hz_value (hz : Z) :
  60 <= hz <= 240 ->
  interval_of_hz hz = (2000 + hz) / (2 * hz) /\ 4 <= interval_of_hz hz <= 17.
Proof.
  intros Hhz.
  assert (H : all_below 241
            (fun z => (z <? 60)
                      || ((interval_of_hz z =? (2000 + z) / (2 * z))
                          && (4 <=? interval_of_hz z)
                          && (interval_of_hz z <=? 17))) = true)
    by (vm_compute; reflexivity).
  pose proof (all_below_spec _ _ H hz ltac:(lia)) as Hz. cbv beta in Hz.
  destruct (Z.ltb_spec hz 60); [lia|]. cbn [orb] in Hz.
  rewrite !andb_true_iff, Z.eqb_eq, !Z.leb_le in Hz. lia.
Qed.

(** Whatever the displays report, the frame interval is a
    whole number of milliseconds from 4 to 17: the quotient 1000 / hz
    rounded to the nearest integer (halves upward), for the highest
    reported frequency hz, taken as 60 when none is higher and as 240
    when one is.  So it is 17 ms when no display reports more than
    60 Hz, and 4 ms when one reports 240 Hz or more. *)
Theorem frameInterval_range (displays : list (option Z)) :
  Forall display_ok displays ->
  (exists hz : Z,
     60 <= hz <= 240
     /\ (hz = 60 \/ hz = 240 \/ In (Some hz) displays)
     /\ (forall f, In (Some f) displays -> f <= hz \/ hz = 240)
     /\ frameInterval displays = (2000 + hz) / (2 * hz))
  /\ 4 <= frameInterval displays <= 17
  /\ ((forall f, In (Some f) displays -> f <= 60) -> frameInterval displays = 17)
  /\ ((exists f, In (Some f) displays /\ 240 <= f) -> frameInterval displays = 4).
Proof.
  intros Hall.
  destruct (max_refresh_rate_spec displays Hall) as (k & K1 & K2 & K3 & K4).
  assert (Hfi : frameInterval displays = interval_of_hz (Z.min k 240)).
  { unfold frameInterval, interval_of_hz. now rewrite K2, clamped_rate_spec. }
  assert (Hin : forall f, In (Some f) displays -> 0 <= f < 2 ^ 32).
  { intros f Hf. rewrite Forall_forall in Hall. exact (Hall _ Hf). }
  assert (Hle : forall f, In (Some f) displays -> f <= k \/ 240 < k).
  { intros f Hf. destruct (Z.le_gt_cases f k) as [|Hgt]; [now left|right].
    destruct (Z.lt_ge_cases 240 k) as [|Hk]; [assumption|exfalso].
    specialize (K3 f Hf). apply leb_not_ltb in K3.
    assert (H1 : F32.leb (F32.of_Z (k + 1)) (F32.of_Z f) = true)
      by (apply of_Z_mono; lia).
    pose proof (of_Z_succ_lt k ltac:(lia)) as H2.
    pose proof (ltb_leb_trans _ _ _ H2 H1). congruence. }
  destruct (interval_of_hz_value (Z.min k 240) ltac:(lia)) as [V1 V2].
  split; [|split; [|split]].
  - exists (Z.min k 240). split; [lia|]. split; [|split].
    + destruct (Z.le_gt_cases k 240) as [Hk|Hk].
      * rewrite Z.min_l by lia. destruct K4 as [->|K4]; [now left|right; now right].
      * rewrite Z.min_r by lia. right. now left.
    + intros f Hf. destruct (Hle f Hf); lia.
    + now rewrite Hfi.
  - now rewrite Hfi.
  - intros H60. rewrite Hfi.
    assert (k = 60) as -> by (destruct K4 as [->|K4]; [reflexivity|apply H60 in K4; lia]).
    vm_compute. reflexivity.
  - intros (f & Hf & H240). rewrite Hfi.
    assert (Hk : 240 <= k) by (destruct (Hle f Hf); lia).
    rewrite Z.min_r by lia. vm_compute. reflexivity.
Qed.

(** ** The launch arguments as tokens *)

Lemma tokens_from_fuel (fuel1 fuel2 : nat) (context : string) :
  (String.length context < fuel1)%nat -> (String.length context < fuel2)%nat ->
  tokens_from fuel1 context = tokens_from fuel2 context.
Proof.
  revert fuel2 context. induction fuel1 as [|f1 IH]; intros fuel2 context H1 H2;
    [lia|].
  destruct fuel2 as [|f2]; [lia|]. cbn [tokens_from].
  destruct (Crt.wcstok context) as [[token rest]|] eqn:E; [|reflexivity].
  apply wcstok_length in E. f_equal. apply IH; lia.
Qed.

Lemma tokens_wcstok (context token rest : string) :
  Crt.wcstok context = Some (token, rest) ->
  tokens context = token :: tokens rest.
Proof.
  intros E. unfold tokens.
  transitivity (match Crt.wcstok context with
                | Some (tok, c1) => tok :: tokens_from (String.length context) c1
                | None => []
                end); [reflexivity|].
  rewrite E. f_equal. apply wcstok_length in E. apply tokens_from_fuel; lia.
Qed.

Lemma tokens_none (context : string) :
  Crt.wcstok context = None -> tokens context = [].
Proof. intros E. unfold tokens. cbn [tokens_from]. now rewrite E. Qed.

Lemma tokens_length (context : string) :
  (length (tokens context) <= String.length context)%nat.
Proof.
  remember (String.length context) as n eqn:En.
  revert context En. induction n as [n IH] using lt_wf_ind. intros context En.
  destruct (Crt.wcstok context) as [[token rest]|] eqn:E.
  - rewrite (tokens_wcstok _ _ _ E). pose proof (wcstok_length _ _ _ E) as HL.
    cbn [length]. specialize (IH (String.length rest) ltac:(lia) rest eq_refl). lia.
  - rewrite (tokens_none _ E). cbn. lia.
Qed.

Lemma parse_tokens_fuel (fuel1 fuel2 : nat) (toks : list string) (cfg : Config) :
  (length toks < fuel1)%nat -> (length toks < fuel2)%nat ->
  parse_tokens fuel1 toks cfg = parse_tokens fuel2 toks cfg.
Proof.
  revert fuel2 toks cfg.
  induction fuel1 as [|f1 IH]; intros fuel2 toks cfg H1 H2; [lia|].
  destruct fuel2 as [|f2]; [lia|]. cbn [parse_tokens].
  destruct toks as [|token rest]; [reflexivity|]. cbn [length] in *.
  destruct (argument_of token) as [store|].
  - destruct rest as [|val rest']; [reflexivity|]. cbn [length] in *.
    apply IH; lia.
  - apply IH; lia.
Qed.

(** The eight names are different, so a token names at most one
    argument. *)
Lemma parse_token_argument (token context : string) (cfg : Config) :
  parse_token token context cfg =
    match argument_of token, Crt.wcstok context with
    | Some store, Some (val, context1) => (context1, store val cfg)
    | _, _ => (context, cfg)
    end.
Proof.
  unfold parse_token, argument_of, ParseCommandValue.
  set (name := trim_switch token).
  assert (Hn : forall a b : string,
            Crt.wcsicmp_eq name a = true -> Crt.lower a <> Crt.lower b ->
            Crt.wcsicmp_eq name b = false).
  { intros a b Ha Hab. unfold Crt.wcsicmp_eq in *. apply String.eqb_eq in Ha.
    apply String.eqb_neq. congruence. }
  cbn [name_matches].
  destruct (Crt.wcsicmp_eq name "sensitivity") eqn:E1.
  { rewrite (Hn _ "fade"%string E1), (Hn _ "f"%string E1),
      (Hn _ "alpha"%string E1), (Hn _ "a"%string E1),
      (Hn _ "color"%string E1), (Hn _ "c"%string E1) by (cbv; discriminate).
    now destruct (Crt.wcstok context) as [[val c1]|]. }
  destruct (Crt.wcsicmp_eq name "s") eqn:E2.
  { rewrite (Hn _ "fade"%string E2), (Hn _ "f"%string E2),
      (Hn _ "alpha"%string E2), (Hn _ "a"%string E2),
      (Hn _ "color"%string E2), (Hn _ "c"%string E2) by (cbv; discriminate).
    now destruct (Crt.wcstok context) as [[val c1]|]. }
  destruct (Crt.wcsicmp_eq name "fade") eqn:E3.
  { rewrite (Hn _ "alpha"%string E3), (Hn _ "a"%string E3),
      (Hn _ "color"%string E3), (Hn _ "c"%string E3) by (cbv; discriminate).
    now destruct (Crt.wcstok context) as [[val c1]|]. }
  destruct (Crt.wcsicmp_eq name "f") eqn:E4.
  { rewrite (Hn _ "alpha"%string E4), (Hn _ "a"%string E4),
      (Hn _ "color"%string E4), (Hn _ "c"%string E4) by (cbv; discriminate).
    now destruct (Crt.wcstok context) as [[val c1]|]. }
  destruct (Crt.wcsicmp_eq name "alpha") eqn:E5.
  { rewrite (Hn _ "color"%string E5), (Hn _ "c"%string E5) by (cbv; discriminate).
    now destruct (Crt.wcstok context) as [[val c1]|]. }
  destruct (Crt.wcsicmp_eq name "a") eqn:E6.
  { rewrite (Hn _ "color"%string E6), (Hn _ "c"%string E6) by (cbv; discriminate).
    now destruct (Crt.wcstok context) as [[val c1]|]. }
  destruct (Crt.wcsicmp_eq name "color") eqn:E7.
  { now destruct (Crt.wcstok context) as [[val c1]|]. }
  destruct (Crt.wcsicmp_eq name "c") eqn:E8.
  { now destruct (Crt.wcstok context) as [[val c1]|]. }
  reflexivity.
Qed.

Lemma parse_loop_tokens (fuel : nat) :
  forall (token context : string) (cfg : Config),
    (String.length context < fuel)%nat ->
    parse_loop fuel token context cfg =
      parse_tokens (S fuel) (token :: tokens context) cfg.
Proof.
  induction fuel as [|fuel IH]; intros token context cfg Hf; [lia|].
  cbn [parse_loop]. rewrite parse_token_argument.
  change (parse_tokens (S (S fuel)) (token :: tokens context) cfg)
    with (match argument_of token, tokens context with
          | Some store, val :: rest' => parse_tokens (S fuel) rest' (store val cfg)
          | Some _, [] => cfg
          | None, _ => parse_tokens (S fuel) (tokens context) cfg
          end).
  pose proof (tokens_length context) as HL.
  destruct (argument_of token) as [store|].
  - destruct (Crt.wcstok context) as [[val c1]|] eqn:E1.
    + rewrite (tokens_wcstok _ _ _ E1). pose proof (wcstok_length _ _ _ E1) as L1.
      pose proof (tokens_length c1) as HL1.
      destruct (Crt.wcstok c1) as [[token1 c2]|] eqn:E2.
      * rewrite (tokens_wcstok _ _ _ E2). pose proof (wcstok_length _ _ _ E2) as L2.
        rewrite IH by lia. pose proof (tokens_length c2).
        apply parse_tokens_fuel; cbn [length]; lia.
      * rewrite (tokens_none _ E2). reflexivity.
    + rewrite (tokens_none _ E1), E1. reflexivity.
  - destruct (Crt.wcstok context) as [[token1 c2]|] eqn:E2.
    + rewrite (tokens_wcstok _ _ _ E2), ?E2.
      pose proof (wcstok_length _ _ _ E2) as L2.
      rewrite IH by lia. pose proof (tokens_length c2).
      apply parse_tokens_fuel; cbn [length]; lia.
    + rewrite (tokens_none _ E2), ?E2. reflexivity.
Qed.

(** The launch arguments depend only on the tokens of the
    command line (its runs of characters other than the space): a token
    that names an argument, with or without one leading [/] or [-] and in
    any letter case, takes the token after it as its value, whatever that
    token is; a name that ends the command line and every other token
    change nothing.  So a command line none of whose tokens names an
    argument leaves every setting as it was. *)
Theorem parse_command_line_tokens (lpCmdLine : string) (cfg : Config) :
  parse_command_line lpCmdLine cfg =
    parse_tokens (S (length (tokens lpCmdLine))) (tokens lpCmdLine) cfg
  /\ ((forall token, In token (tokens lpCmdLine) -> argument_of token = None) ->
      parse_command_line lpCmdLine cfg = cfg).
Proof.
  assert (H : parse_command_line lpCmdLine cfg =
              parse_tokens (S (length (tokens lpCmdLine))) (tokens lpCmdLine) cfg).
  { unfold parse_command_line.
    destruct (Crt.wcstok lpCmdLine) as [[token context]|] eqn:E.
    - pose proof (wcstok_length _ _ _ E) as HL.
      rewrite (tokens_wcstok _ _ _ E).
      rewrite (parse_loop_fuel _ (S (String.length context))) by lia.
      rewrite parse_loop_tokens by lia. pose proof (tokens_length context).
      apply parse_tokens_fuel; cbn [length]; lia.
    - rewrite (tokens_none _ E). reflexivity. }
  split; [exact H|]. intros Hnone. rewrite H.
  generalize (S (length (tokens lpCmdLine))) as fuel.
  revert Hnone. generalize (tokens lpCmdLine) as toks.
  intros toks Hnone fuel. revert toks Hnone.
  induction fuel as [|fuel IH]; intros toks Hnone; [reflexivity|].
  destruct toks as [|token rest]; [reflexivity|]. cbn [parse_tokens].
  rewrite (Hnone token (or_introl eq_refl)). apply IH.
  intros tok Htok. apply Hnone. now right.
Qed.

(** ** The color argument *)

Lemma hex_digit_facts (d : Z) :
  0 <= d < 16 ->
  Crt.hex_digit_of (hex_digit d) = Some d
  /\ Crt.is_wspace (hex_digit d) = false
  /\ (Crt.code (hex_digit d) =? 45) = false
  /\ (Crt.code (hex_digit d) =? 43) = false
  /\ (Crt.code (hex_digit d) =? 35) = false
  /\ (Crt.code (hex_digit d) =? 120) = false
  /\ (Crt.code (hex_digit d) =? 88) = false.
Proof.
  intros Hd.
  assert (H : all_below 16
            (fun z => match Crt.hex_digit_of (hex_digit z) with
                      | Some x => x =? z
                      | None => false
                      end
                      && negb (Crt.is_wspace (hex_digit z))
                      && negb (Crt.code (hex_digit z) =? 45)
                      && negb (Crt.code (hex_digit z) =? 43)
                      && negb (Crt.code (hex_digit z) =? 35)
                      && negb (Crt.code (hex_digit z) =? 120)
                      && negb (Crt.code (hex_digit z) =? 88)) = true)
    by (vm_compute; reflexivity).
  pose proof (all_below_spec _ _ H d ltac:(lia)) as Hz. cbv beta in Hz.
  rewrite !andb_true_iff, !negb_true_iff in Hz.
  destruct Hz as ((((((H1 & H2) & H3) & H4) & H5) & H6) & H7).
  repeat split; try assumption.
  destruct (Crt.hex_digit_of (hex_digit d)) as [x|]; [|discriminate].
  apply Z.eqb_eq in H1. now subst.
Qed.

Lemma read_hex_digit (d : Z) (rest : string) (acc n : Z) :
  0 <= d < 16 ->
  Crt.read_digits Crt.hex_digit_of 16 (String (hex_digit d) rest) acc n
  = Crt.read_digits Crt.hex_digit_of 16 rest (16 * acc + d) (n + 1).
Proof.
  intros Hd. cbn [Crt.read_digits].
  destruct (hex_digit_facts d Hd) as (-> & _). reflexivity.
Qed.

Lemma read_hex_byte (b : Z) (rest : string) (acc n : Z) :
  0 <= b < 256 ->
  Crt.read_digits Crt.hex_digit_of 16 (hex_byte b rest) acc n
  = Crt.read_digits Crt.hex_digit_of 16 rest (256 * acc + b) (n + 2).
Proof.
  intros Hb. unfold hex_byte.
  pose proof (Z.mod_pos_bound b 16 ltac:(lia)).
  pose proof (Z.div_mod b 16 ltac:(lia)).
  assert (0 <= b / 16 < 16)
    by (split; [apply Z.div_pos; lia|apply Z.div_lt_upper_bound; lia]).
  rewrite !read_hex_digit by lia. f_equal; lia.
Qed.

Lemma scan_hex_bytes (r g b : Z) :
  0 <= r < 256 -> 0 <= g < 256 -> 0 <= b < 256 ->
  Crt.scan_hex (hex_byte r (hex_byte g (hex_byte b EmptyString)))
  = Some (65536 * r + 256 * g + b).
Proof.
  intros Hr Hg Hb. unfold Crt.scan_hex.
  assert (H0 : 0 <= r / 16 < 16)
    by (split; [apply Z.div_pos; lia|apply Z.div_lt_upper_bound; lia]).
  pose proof (Z.mod_pos_bound r 16 ltac:(lia)) as H1.
  assert (H2 : 0 <= g / 16 < 16)
    by (split; [apply Z.div_pos; lia|apply Z.div_lt_upper_bound; lia]).
  destruct (hex_digit_facts (r / 16) H0) as (_ & W & M & P & _).
  destruct (hex_digit_facts (r mod 16) H1) as (_ & _ & _ & _ & _ & X1 & X2).
  unfold hex_byte at 1. cbn [Crt.skip_wspace]. rewrite W.
  cbn [Crt.read_sign]. rewrite M, P.
  unfold hex_byte at 1. rewrite X1, X2, andb_false_r. cbn [andb].
  fold (hex_byte g (hex_byte b EmptyString)).
  fold (hex_byte r (hex_byte g (hex_byte b EmptyString))).
  rewrite !read_hex_byte by assumption. cbn [Crt.read_digits].
  change (0 + 2 + 2 + 2 =? 0) with false. cbv iota.
  f_equal. rewrite Z.mod_small; lia.
Qed.

(** The color argument reads the notation [#RRGGBB] back: for
    three bytes written as two hexadecimal digits each, with or without
    the leading [#], the tint becomes exactly these bytes and the other
    settings stay as they were. *)
Theorem parse_color_reads_bytes (r g b : Z) (cfg : Config) :
  0 <= r < 256 -> 0 <= g < 256 -> 0 <= b < 256 ->
  let expected :=
    {| gSensitivity := gSensitivity cfg; gTrailFadeMs := gTrailFadeMs cfg;
       gTrailMaxAlpha := gTrailMaxAlpha cfg;
       TintR := r; TintG := g; TintB := b |} in
  parse_color (color_text r g b) cfg = expected
  /\ parse_color (hex_byte r (hex_byte g (hex_byte b EmptyString))) cfg = expected.
Proof.
  intros Hr Hg Hb. cbv zeta.
  assert (H0 : 0 <= r / 16 < 16)
    by (split; [apply Z.div_pos; lia|apply Z.div_lt_upper_bound; lia]).
  destruct (hex_digit_facts (r / 16) H0) as (_ & _ & _ & _ & S35 & _).
  assert (Hbytes : Z.land (Z.shiftr (65536 * r + 256 * g + b) 16) 255 = r
                   /\ Z.land (Z.shiftr (65536 * r + 256 * g + b) 8) 255 = g
                   /\ Z.land (65536 * r + 256 * g + b) 255 = b).
  { change 255 with (Z.ones 8). rewrite !Z.land_ones, !Z.shiftr_div_pow2 by lia.
    change (2 ^ 16) with 65536. change (2 ^ 8) with 256.
    assert (E1 : (65536 * r + 256 * g + b) / 65536 = r)
      by (symmetry; apply Z.div_unique with (r := 256 * g + b); lia).
    assert (E2 : (65536 * r + 256 * g + b) / 256 = 256 * r + g)
      by (symmetry; apply Z.div_unique with (r := b); lia).
    rewrite E1, E2. repeat split.
    - apply Z.mod_small; lia.
    - symmetry. apply Z.mod_unique with (q := r); lia.
    - symmetry. apply Z.mod_unique with (q := 256 * r + g); lia. }
  destruct Hbytes as (B1 & B2 & B3).
  split.
  - unfold parse_color, color_text.
    change (Crt.code "#" =? 35) with true. cbv iota.
    rewrite scan_hex_bytes by assumption. now rewrite B1, B2, B3.
  - unfold parse_color. unfold hex_byte at 1. rewrite S35.
    fold (hex_byte r (hex_byte g (hex_byte b EmptyString))).
    rewrite scan_hex_bytes by assumption. now rewrite B1, B2, B3.
Qed.

(** ** A pointer at rest *)

Lemma samples_at_skipn (p : POINT) (k : nat) (l : Trail) :
  Forall (fun s => pt s = p) l -> Forall (fun s => pt s = p) (skipn k l).
Proof.
  intros H. rewrite Forall_forall in *. intros s Hs. apply H.
  now apply In_skipn in Hs.
Qed.

Lemma UpdateTrail_samples_at (cfg : Config) (p : POINT) (trail : Trail)
    (now : time_point) :
  Forall (fun s => pt s = p) trail ->
  Forall (fun s => pt s = p) (UpdateTrail cfg trail p now).
Proof.
  intros H. destruct (UpdateTrail_phases cfg trail p now) as [k ->].
  apply samples_at_skipn. destruct (should_add trail p); [|exact H].
  apply Forall_app. split; [exact H|]. repeat constructor.
Qed.

Lemma resting_trail_short (p : POINT) (l : Trail) :
  Forall (fun s => pt s = p) l -> adjacent_distinct l -> (length l <= 1)%nat.
Proof.
  intros Hp Ha. destruct l as [|a [|b l]]; cbn; try lia.
  exfalso. destruct Ha as [Hab _].
  apply Forall_cons_iff in Hp. destruct Hp as [Pa Hp].
  apply Forall_cons_iff in Hp. destruct Hp as [Pb _]. congruence.
Qed.

(** While the pointer rests at one position the buffer never holds more
    than one sample, whatever the clock does, and a frame drawn from it
    has no blend: a pointer at rest draws no trail. *)
Theorem resting_pointer_draws_nothing (cfg : Config) (p : POINT)
    (ticks : list (POINT * time_point)) :
  pointer_rests p ticks ->
  (length (run_updates cfg [] ticks) <= 1)%nat
  /\ forall (vs : RECT) (cv : CursorVisual) (now : time_point),
       trail_blends cfg vs cv now (run_updates cfg [] ticks) = [].
Proof.
  intros Hrest.
  assert (Hat : forall trail, Forall (fun s => pt s = p) trail ->
                  Forall (fun s => pt s = p) (run_updates cfg trail ticks)).
  { induction Hrest as [|[q now] rest Hq _ IH]; intros trail Ht; [exact Ht|].
    cbn [run_updates]. cbn [fst] in Hq. subst q. apply IH.
    now apply UpdateTrail_samples_at. }
  assert (Had : forall ticks' trail, adjacent_distinct trail ->
                  adjacent_distinct (run_updates cfg trail ticks')).
  { induction ticks' as [|[q now] rest IH]; intros trail Ht; [exact Ht|].
    cbn [run_updates]. apply IH. now apply UpdateTrail_adjacent_distinct. }
  pose proof (resting_trail_short p _ (Hat [] (Forall_nil _)) (Had ticks [] I))
    as Hlen.
  split; [exact Hlen|]. intros vs cv now. unfold trail_blends.
  destruct (run_updates cfg [] ticks) as [|a [|b l]]; try reflexivity.
  cbn in Hlen. lia.
Qed.

(** ** Tint of the whole bitmap *)

Lemma tint_channel_le (c t1 t2 : Z) :
  0 <= c < 256 -> 0 <= t1 <= t2 -> t2 <= 255 ->
  tint_channel c t1 <= tint_channel c t2 /\ tint_channel c t2 <= c.
Proof.
  intros Hc Ht H2.
  destruct (tint_channel_value c t1 Hc ltac:(lia)) as [-> _].
  destruct (tint_channel_value c t2 Hc ltac:(lia)) as [-> _].
  split.
  - apply Z.div_le_mono; nia.
  - apply Z.div_le_upper_bound; nia.
Qed.

(** The tinting loop keeps the number of pixels, leaves the pixels from
    index [count] on as they are and every alpha byte as it is, and never
    raises a color byte: a channel is at most what it was, and not lower
    than under a smaller tint. *)
Theorem tint_never_brightens (cfg : Config) (count : Z) (bits : list Z) :
  Forall (fun px => 0 <= px < 2 ^ 32) bits ->
  0 <= TintR cfg <= 255 -> 0 <= TintG cfg <= 255 -> 0 <= TintB cfg <= 255 ->
  let tinted := tint_pixels cfg count bits in
  length tinted = length bits
  /\ (forall (i : nat) (px : Z),
        nth_error bits i = Some px ->
        exists px',
          nth_error tinted i = Some px'
          /\ (count <= Z.of_nat i -> px' = px)
          /\ (Z.of_nat i < count -> px' = tint_pixel cfg px)
          /\ byte_of px' 3 = byte_of px 3
          /\ byte_of px' 2 <= byte_of px 2
          /\ byte_of px' 1 <= byte_of px 1
          /\ byte_of px' 0 <= byte_of px 0)
  /\ (forall cfg' : Config,
        TintR cfg <= TintR cfg' <= 255 -> TintG cfg <= TintG cfg' <= 255 ->
        TintB cfg <= TintB cfg' <= 255 ->
        forall px, 0 <= px < 2 ^ 32 ->
          byte_of (tint_pixel cfg px) 2 <= byte_of (tint_pixel cfg' px) 2
          /\ byte_of (tint_pixel cfg px) 1 <= byte_of (tint_pixel cfg' px) 1
          /\ byte_of (tint_pixel cfg px) 0 <= byte_of (tint_pixel cfg' px) 0).
Proof.
  intros Hbits HR HG HB. cbv zeta.
  assert (Hpx : forall c px, 0 <= px < 2 ^ 32 ->
            0 <= TintR c <= 255 -> 0 <= TintG c <= 255 -> 0 <= TintB c <= 255 ->
            byte_of (tint_pixel c px) 2 = tint_channel (byte_of px 2) (TintR c)
            /\ byte_of (tint_pixel c px) 1 = tint_channel (byte_of px 1) (TintG c)
            /\ byte_of (tint_pixel c px) 0 = tint_channel (byte_of px 0) (TintB c)
            /\ byte_of (tint_pixel c px) 3 = byte_of px 3).
  { intros c px Hp H1 H2 H3. unfold tint_pixel.
    destruct (byte_of_pixel_of_bytes
                (tint_channel (byte_of px 0) (TintB c))
                (tint_channel (byte_of px 1) (TintG c))
                (tint_channel (byte_of px 2) (TintR c)) (byte_of px 3))
      as (B0 & B1 & B2 & B3);
      try (apply tint_channel_value; [apply byte_of_range|assumption]);
      try apply byte_of_range.
    tauto. }
  split; [|split].
  - unfold tint_pixels. rewrite length_app, length_map.
    rewrite <- (firstn_skipn (Z.to_nat count) bits) at 3.
    now rewrite length_app.
  - intros i px Hi.
    assert (Hr : 0 <= px < 2 ^ 32).
    { rewrite Forall_forall in Hbits. apply Hbits. now apply nth_error_In in Hi. }
    destruct (Hpx cfg px Hr HR HG HB) as (P2 & P1 & P0 & P3).
    pose proof (byte_of_range px 2). pose proof (byte_of_range px 1).
    pose proof (byte_of_range px 0).
    unfold tint_pixels.
    destruct (Z.lt_ge_cases (Z.of_nat i) count) as [Hlt|Hge].
    + exists (tint_pixel cfg px).
      assert (Hf : nth_error (firstn (Z.to_nat count) bits) i = Some px)
        by (rewrite nth_error_firstn; destruct (Nat.ltb_spec i (Z.to_nat count));
            [exact Hi|lia]).
      split.
      * rewrite nth_error_app1
          by (rewrite length_map; apply nth_error_Some; congruence).
        rewrite nth_error_map, Hf. reflexivity.
      * split; [lia|]. split; [reflexivity|]. split; [exact P3|].
        rewrite P2, P1, P0.
        split; [|split].
        -- apply (tint_channel_le (byte_of px 2) (TintR cfg) (TintR cfg));
             [apply byte_of_range|lia|lia].
        -- apply (tint_channel_le (byte_of px 1) (TintG cfg) (TintG cfg));
             [apply byte_of_range|lia|lia].
        -- apply (tint_channel_le (byte_of px 0) (TintB cfg) (TintB cfg));
             [apply byte_of_range|lia|lia].
    + exists px.
      assert (Hl : length (firstn (Z.to_nat count) bits)
                   = Nat.min (Z.to_nat count) (length bits))
        by apply length_firstn.
      assert (Hib : (i < length bits)%nat) by (apply nth_error_Some; congruence).
      split.
      * rewrite nth_error_app2 by (rewrite length_map, Hl; lia).
        rewrite length_map, Hl, nth_error_skipn.
        rewrite <- Hi. f_equal. lia.
      * repeat split; try reflexivity; try lia.
  - intros cfg' H1 H2 H3 px Hr.
    destruct (Hpx cfg px Hr HR HG HB) as (P2 & P1 & P0 & _).
    destruct (Hpx cfg' px Hr ltac:(lia) ltac:(lia) ltac:(lia))
      as (Q2 & Q1 & Q0 & _).
    rewrite P2, P1, P0, Q2, Q1, Q0.
    repeat split; apply tint_channel_le; try apply byte_of_range; lia.
Qed.

(** ** A steady cursor *)

Lemma DrawTrail_fresh (cfg : Config) (c : TintCache) (cv : CursorVisual)
    (trail : Trail) (vs : RECT) (os : DrawOS) :
  let r := DrawTrail cfg c cv trail vs os in
  outcome (snd r) = Rebuilt \/ outcome (snd r) = Reused ->
  sTintDC (fst r) <> 0 ->
  cache_stale (fst r) cv = false.
Proof.
  cbv zeta. unfold DrawTrail.
  destruct (negb (tmp_ok os)); [cbn; intros [H|H]; discriminate|].
  destruct (cache_stale c cv) eqn:Es.
  - unfold rebuild_cache.
    destruct (Z.eqb_spec (new_dib os) 0) as [E|E]; cbn [orb].
    + cbn. intros [H|H]; discriminate.
    + destruct (new_bits os); cbn [negb];
        [|cbn; intros [H|H]; discriminate].
      cbn [sTintBMP]. apply Z.eqb_neq in E. rewrite E. cbn [fst snd outcome].
      intros _ Hdc. unfold cache_stale. cbn [sTintBMP sTintDC sLastCursor sLastW sLastH] in *.
      apply Z.eqb_neq in Hdc. rewrite E, Hdc, !Z.eqb_refl. reflexivity.
  - destruct (sTintBMP c =? 0); cbn [fst snd]; intros _ _; exact Es.
Qed.

(** While the system reports the cursor handle that the loop already
    holds, [RefreshCursorVisual] changes nothing and, after a frame that
    built or reused the tinted glyph with a device context, the next
    frame of a showing pointer reuses it: no query of the icon, no new
    bitmap, the cache and the visual as they were. *)
Theorem steady_cursor_reuses_glyph (cfg : Config) (st st1 : LoopState)
    (os os2 : TickOS) (fr1 : Frame) (ci2 : CURSORINFO) :
  tick cfg st os = Continue st1 (Some fr1) ->
  outcome fr1 = Rebuilt \/ outcome fr1 = Reused ->
  sTintDC (cache_of st1) <> 0 ->
  cursor_info os2 = Some ci2 -> pointer_hidden (Some ci2) = false ->
  ci_hCursor ci2 = hCur (cv_of st1) ->
  tmp_ok (draw_os os2) = true ->
  rect_eqb (curVS os2) (vs_of st1) || bb_ok os2 = true ->
  exists st2 fr2,
    tick cfg st1 os2 = Continue st2 (Some fr2)
    /\ outcome fr2 = Reused
    /\ cache_of st2 = cache_of st1 /\ cv_of st2 = cv_of st1.
Proof.
  intros H1 Hout Hdc Hci Hshow Hcur Htmp Hbb.
  assert (Hfresh : cache_stale (cache_of st1) (cv_of st1) = false).
  { unfold tick in H1. destruct (_ && _); [discriminate|].
    assert (HH : forall vs, hidden_branch cfg st
                   (UpdateTrail cfg (trail_of st) (cur os) (lastTick os)) vs os
                 = Continue st1 (Some fr1) ->
                 cache_stale (cache_of st1) (cv_of st1) = false).
    { intros vs. unfold hidden_branch.
      destruct (evict_expired cfg (now_hidden os) _) as [|s rest];
        [discriminate|].
      pose proof (DrawTrail_fresh cfg (cache_of st) (cv_of st) (s :: rest) vs
                    (draw_os os)) as HF. cbv zeta in HF.
      destruct (DrawTrail _ _ _ _ _ _) as [c1 f]. cbn [fst snd] in HF.
      intros H. injection H as <- <-. cbn [cache_of cv_of] in *.
      now apply HF. }
    destruct (cursor_info os) as [ci|]; [|now apply HH in H1].
    destruct (pointer_hidden (Some ci)); [now apply HH in H1|].
    unfold shown_branch in H1.
    pose proof (DrawTrail_fresh cfg (cache_of st)
                  (RefreshCursorVisual (icon_os os) (cv_of st) ci)
                  (UpdateTrail cfg (trail_of st) (cur os) (lastTick os))
                  (if negb (rect_eqb (curVS os) (vs_of st)) then curVS os
                   else vs_of st) (draw_os os)) as HF. cbv zeta in HF.
    destruct (DrawTrail _ _ _ _ _ _) as [c1 f]. cbn [fst snd] in HF.
    injection H1 as <- <-. cbn [cache_of cv_of] in *. now apply HF. }
  unfold tick. rewrite Hci, Hshow.
  assert (Hgo : negb (rect_eqb (curVS os2) (vs_of st1)) && negb (bb_ok os2) = false)
    by (destruct (rect_eqb (curVS os2) (vs_of st1)), (bb_ok os2);
        try reflexivity; discriminate).
  rewrite Hgo. unfold shown_branch.
  assert (Hcv : RefreshCursorVisual (icon_os os2) (cv_of st1) ci2 = cv_of st1).
  { unfold RefreshCursorVisual. rewrite Hcur, Z.eqb_refl. reflexivity. }
  rewrite Hcv.
  pose proof (DrawTrail_outcome cfg (cache_of st1) (cv_of st1)
                (UpdateTrail cfg (trail_of st1) (cur os2) (lastTick os2))
                (if negb (rect_eqb (curVS os2) (vs_of st1)) then curVS os2
                 else vs_of st1) (draw_os os2)) as HO.
  pose proof (DrawTrail_reuse cfg (cache_of st1) (cv_of st1)
                (UpdateTrail cfg (trail_of st1) (cur os2) (lastTick os2))
                (if negb (rect_eqb (curVS os2) (vs_of st1)) then curVS os2
                 else vs_of st1) (draw_os os2) Htmp Hfresh) as HR.
  rewrite Htmp, Hfresh in HO. cbn [negb] in HO.
  destruct (DrawTrail _ _ _ _ _ _) as [c2 f2]. cbn [fst snd] in *.
  eexists _, f2. split; [reflexivity|]. cbn [cache_of cv_of].
  split; [exact HO|]. split; [exact HR|reflexivity].
Qed.

(** ** Rounding below a float *)

(** A shift of a mantissa without rounding bits leaves none when the
    shifted bits are zero. *)
Lemma shr_exact (m : Z) (p : positive) :
  0 <= m ->
  let mrs := iter_pos shr_1 p (Build_shr_record m false false) in
  shr_m mrs = m / 2 ^ Zpos p
  /\ (m mod 2 ^ Zpos p = 0 -> loc_of_shr_record mrs = loc_Exact).
Proof.
  intros Hm. cbv zeta. rewrite iter_pos_nat.
  destruct (Pos2Nat.is_succ p) as [k Hk]. rewrite Hk, shr_iter by exact Hm.
  assert (Ep : Zpos p = Z.of_nat (S k)) by lia.
  cbn [shr_m]. rewrite Ep. split; [reflexivity|].
  intros Hz. rewrite Nat2Z.inj_succ, Z.pow_succ_r in Hz by lia.
  assert (P : 0 < 2 ^ Z.of_nat k) by (apply Z.pow_pos_nonneg; lia).
  rewrite Z.mul_comm, Z.rem_mul_r in Hz by lia.
  pose proof (Z.mod_pos_bound m (2 ^ Z.of_nat k) P) as Hu.
  pose proof (Z.mod_pos_bound (m / 2 ^ Z.of_nat k) 2 ltac:(lia)) as Hw.
  rewrite Zodd_mod.
  assert (E1 : (m / 2 ^ Z.of_nat k) mod 2 = 0) by nia.
  assert (E2 : m mod 2 ^ Z.of_nat k = 0) by nia.
  rewrite E1, E2. reflexivity.
Qed.

(** The first shift and the rounding of an exact mantissa stay at or
    below every multiple [K] of the new unit that the mantissa does not
    exceed. *)
Lemma round_exact_below (m e K : Z) :
  0 <= m -> 0 <= fexp 24 128 (Zdigits2 m + e) - e ->
  m <= K * 2 ^ (fexp 24 128 (Zdigits2 m + e) - e) ->
  exists mrs,
    shr_fexp 24 128 m e loc_Exact = (mrs, fexp 24 128 (Zdigits2 m + e))
    /\ round_nearest_even (shr_m mrs) (loc_of_shr_record mrs) <= K.
Proof.
  intros Hm Hn HK. unfold shr_fexp.
  set (F := fexp 24 128 (Zdigits2 m + e)) in *.
  cbn [shr_record_of_loc].
  destruct (F - e) as [|p|p] eqn:En; try lia.
  - eexists. cbn [shr]. split; [f_equal; lia|].
    cbn [shr_m loc_of_shr_record round_nearest_even].
    change (2 ^ 0) with 1 in HK. lia.
  - eexists. cbn [shr]. split; [f_equal; lia|].
    destruct (shr_exact m p Hm) as [Hq Hx]. rewrite Hq.
    assert (P : 0 < 2 ^ Zpos p) by (apply Z.pow_pos_nonneg; lia).
    pose proof (Z.div_mod m (2 ^ Zpos p) ltac:(lia)) as Hdm.
    pose proof (Z.mod_pos_bound m (2 ^ Zpos p) P) as Hr.
    destruct (Z.eq_dec (m mod 2 ^ Zpos p) 0) as [Ez|Nz].
    + rewrite (Hx Ez). cbn [round_nearest_even]. nia.
    + pose proof (round_nearest_even_bounds (m / 2 ^ Zpos p)
                    (loc_of_shr_record
                       (iter_pos shr_1 p (Build_shr_record m false false)))) as Hb.
      assert (m / 2 ^ Zpos p < K) by nia. lia.
Qed.

Lemma Zdigits2_scale (mb : positive) (k : Z) :
  0 <= k -> Zdigits2 (Zpos mb * 2 ^ k) = Zpos (digits2_pos mb) + k.
Proof.
  intros Hk. pose proof (digits2_bounds mb) as [Lo Hi].
  assert (P : 0 < 2 ^ k) by (apply Z.pow_pos_nonneg; lia).
  apply Zdigits2_unique; [nia|].
  replace (Zpos (digits2_pos mb) + k - 1) with (Zpos (digits2_pos mb) - 1 + k) by lia.
  rewrite !Z.pow_add_r by lia. nia.
Qed.

(** Rounding to nearest is monotone against a float: an exact positive
    value that does not exceed a float rounds to a float that does not
    exceed it. *)
Lemma round_aux_below (m e : Z) (mb : positive) (eb : Z) :
  0 <= m -> e <= fexp 24 128 (Zdigits2 m + e) ->
  F32.valid (S754_finite false mb eb) = true ->
  e <= eb -> m <= Zpos mb * 2 ^ (eb - e) ->
  F32.leb (binary_round_aux 24 128 false m e loc_Exact)
          (S754_finite false mb eb) = true.
Proof.
  intros Hm He Hv Heb Hle.
  apply valid_finite in Hv. cbv zeta in Hv. destruct Hv as (Hr & Hd & Hc).
  pose proof (digits2_bounds mb) as [Blo Bhi].
  set (db := Zpos (digits2_pos mb)) in *.
  assert (Hdb : 0 < db) by (subst db; lia).
  assert (Hcan : Z.max (db + eb - 24) (-149) = eb) by lia.
  set (e1 := fexp 24 128 (Zdigits2 m + e)) in *.
  assert (He1 : e1 <= eb).
  { destruct (Z.eq_dec m 0) as [Hz|Hne].
    - subst m. unfold e1 in *. cbn [Zdigits2] in *. rewrite fexp_32 in *. lia.
    - pose proof (Zdigits2_bounds m ltac:(lia)) as [Mlo Mhi].
      assert (Hdd : Zdigits2 m + e <= db + eb).
      { assert (Hp : 2 ^ (Zdigits2 m - 1) < 2 ^ (db + (eb - e))).
        { rewrite Z.pow_add_r by lia.
          assert (0 < 2 ^ (eb - e)) by (apply Z.pow_pos_nonneg; lia). nia. }
        apply Z.pow_lt_mono_r_iff in Hp; lia. }
      unfold e1. rewrite fexp_32. lia. }
  set (K := Zpos mb * 2 ^ (eb - e1)).
  assert (HK : m <= K * 2 ^ (e1 - e)).
  { unfold K. rewrite <- Z.mul_assoc, <- Z.pow_add_r by lia.
    replace (eb - e1 + (e1 - e)) with (eb - e) by lia. exact Hle. }
  destruct (round_exact_below m e K Hm ltac:(fold e1; lia) HK)
    as (mrs & Hs & Hr1).
  fold e1 in Hs.
  destruct (shift_canon m e loc_Exact Hm He) as (mrs0 & e0 & Hs0 & Hc1).
  rewrite Hs in Hs0. injection Hs0 as <- <-.
  pose proof (round_nearest_even_bounds (shr_m mrs) (loc_of_shr_record mrs)) as Hb.
  destruct (round_canon _ _ _ Hc1 Hb) as [H1 H2].
  unfold binary_round_aux. rewrite Hs.
  set (m1 := round_nearest_even (shr_m mrs) (loc_of_shr_record mrs)) in *.
  destruct (shr_fexp_spec m1 e1 loc_Exact H1 ltac:(lia)) as (mrs2 & Hs2 & Hq2).
  rewrite Hs2.
  set (n2 := fexp 24 128 (Zdigits2 m1 + e1) - e1) in *.
  assert (Hn2 : 0 <= n2) by (unfold n2; lia).
  assert (He2 : e1 + n2 <= eb).
  { pose proof (Zdigits2_mono m1 K ltac:(lia)) as Hdm.
    unfold K in Hdm. rewrite Zdigits2_scale in Hdm by lia. fold db in Hdm.
    unfold n2. rewrite fexp_32. lia. }
  assert (P2 : 0 < 2 ^ n2) by (apply Z.pow_pos_nonneg; lia).
  rewrite Hq2.
  destruct (m1 / 2 ^ n2) as [|q|q] eqn:Eq2.
  - reflexivity.
  - replace (e1 + n2 <=? 128 - 24) with true by (symmetry; apply Z.leb_le; lia).
    unfold F32.leb, SFleb, SFcompare.
    destruct (Z.compare_spec (e1 + n2) eb) as [E|E|E]; [|reflexivity|lia].
    change (Pos.compare_cont Eq q mb) with (Pos.compare q mb).
    rewrite Pos2Z.inj_compare.
    destruct (Z.compare_spec (Zpos q) (Zpos mb)) as [C|C|C]; try reflexivity.
    exfalso.
    assert (HKn : K = Zpos mb * 2 ^ n2) by (unfold K; f_equal; f_equal; lia).
    assert (Hq : m1 / 2 ^ n2 <= Zpos mb)
      by (apply Z.div_le_upper_bound; [lia|]; nia).
    lia.
  - exfalso. assert (0 <= m1 / 2 ^ n2) by (apply Z.div_pos; lia). lia.
Qed.

Lemma binary_round_below (p : positive) (e : Z) (mb : positive) (eb : Z) :
  F32.valid (S754_finite false mb eb) = true ->
  e <= eb -> Zpos p <= Zpos mb * 2 ^ (eb - e) ->
  F32.leb (binary_round 24 128 false p e) (S754_finite false mb eb) = true.
Proof.
  intros Hv Heb Hle. unfold binary_round, shl_align.
  set (F := fexp 24 128 (Zpos (digits2_pos p) + e)).
  destruct (F - e) as [|k|k] eqn:Ek.
  - apply round_aux_below; try assumption; [lia|]. cbn [Zdigits2]. fold F. lia.
  - apply round_aux_below; try assumption; [lia|]. cbn [Zdigits2]. fold F. lia.
  - assert (P : 0 < 2 ^ Zpos k) by (apply Z.pow_pos_nonneg; lia).
    apply round_aux_below; try assumption; try lia.
    + assert (Hd : Zdigits2 (Zpos (Pos.iter xO p k)) = Zpos (digits2_pos p) + Zpos k).
      { rewrite pos_iter_xO. apply Zdigits2_scale. lia. }
      rewrite Hd. replace (Zpos (digits2_pos p) + Zpos k + F)
        with (Zpos (digits2_pos p) + e) by lia.
      fold F. lia.
    + rewrite pos_iter_xO. replace (eb - F) with (eb - e + Zpos k) by lia.
      rewrite Z.pow_add_r by lia. nia.
Qed.

(** The result of a rounding with the positive sign is not negative. *)
Lemma round_aux_not_negative (m e : Z) (l : location) :
  not_negative (binary_round_aux 24 128 false m e l) = true.
Proof.
  unfold binary_round_aux.
  destruct (shr_fexp 24 128 m e l) as [mrs1 e1].
  destruct (shr_fexp 24 128 _ e1 loc_Exact) as [mrs2 e2].
  destruct (shr_m mrs2); [reflexivity| |reflexivity].
  destruct (e2 <=? 128 - 24); reflexivity.
Qed.

Lemma below_finite (r x : F32.f32) :
  not_negative r = true -> finite_nonneg x = true -> F32.leb r x = true ->
  finite_nonneg r = true.
Proof.
  destruct r as [sr|[|]| |[|] mr er], x as [sx|[|]| |[|] mx ex];
    try discriminate; reflexivity.
Qed.

Lemma finite_nonneg_leb (r : F32.f32) :
  finite_nonneg r = true -> F32.leb F32.zero r = true.
Proof. destruct r as [sr|[|]| |[|] mr er]; try discriminate; reflexivity. Qed.

(** ** Products with a factor of at most 1 *)

Lemma le_one_finite (m : positive) (e : Z) :
  F32.valid (S754_finite false m e) = true ->
  F32.leb (S754_finite false m e) F32.one = true ->
  e <= -23 /\ Zpos m <= 2 ^ (- e).
Proof.
  intros Hv Hle. apply valid_finite in Hv. cbv zeta in Hv.
  destruct Hv as (Hr & Hd & _). pose proof (digits2_bounds m) as [_ Hi].
  unfold F32.leb, SFleb, SFcompare, F32.one in Hle.
  destruct (Z.compare_spec e (-23)) as [E|E|E]; try discriminate.
  - subst e. split; [lia|].
    change (Pos.compare_cont Eq m 8388608) with (Pos.compare m 8388608) in Hle.
    rewrite Pos2Z.inj_compare in Hle.
    destruct (Z.compare_spec (Zpos m) 8388608) as [C|C|C]; try discriminate;
      change (2 ^ (- -23)) with 8388608; lia.
  - split; [lia|].
    assert (2 ^ Zpos (digits2_pos m) <= 2 ^ 24) by (apply Z.pow_le_mono_r; lia).
    assert (2 ^ 24 <= 2 ^ (- e)) by (apply Z.pow_le_mono_r; lia). lia.
Qed.

Lemma mul_finite_below (mx my : positive) (ex ey : Z) :
  F32.valid (S754_finite false mx ex) = true ->
  F32.valid (S754_finite false my ey) = true ->
  F32.leb (S754_finite false my ey) F32.one = true ->
  F32.leb (F32.mul (S754_finite false mx ex) (S754_finite false my ey))
          (S754_finite false mx ex) = true.
Proof.
  intros Hx Hy Hle. destruct (le_one_finite my ey Hy Hle) as [He Hm].
  unfold F32.mul, SFmul. cbn [xorb].
  apply round_aux_below; try assumption; try lia.
  - apply valid_finite in Hx, Hy. cbv zeta in Hx, Hy. cbn [Zdigits2].
    pose proof (Zdigits2_mul mx my). rewrite fexp_32. lia.
  - rewrite Pos2Z.inj_mul. replace (ex - (ex + ey)) with (- ey) by lia. nia.
Qed.

(** A product of a non-negative finite float with a factor between 0 and
    1 is a NaN or a non-negative finite float that does not exceed the
    first. *)
Lemma mul_unit_below (x y : F32.f32) :
  F32.valid x = true -> finite_nonneg x = true -> unit_or_nan y ->
  F32.mul x y = S754_nan
  \/ (F32.valid (F32.mul x y) = true /\ finite_nonneg (F32.mul x y) = true
      /\ F32.leb (F32.mul x y) x = true).
Proof.
  intros Hx Hfx [->|(Hy & H0 & H1)].
  - left. destruct x; reflexivity.
  - destruct x as [sx|sx| |[|] mx ex]; try discriminate;
      destruct y as [sy|[|]| |[|] my ey]; try discriminate;
      right; try (repeat split; reflexivity).
    assert (Hb : F32.leb (F32.mul (S754_finite false mx ex) (S754_finite false my ey))
                         (S754_finite false mx ex) = true)
      by now apply mul_finite_below.
    split; [now apply mul_valid|]. split; [|exact Hb].
    apply (below_finite _ (S754_finite false mx ex)); [|reflexivity|exact Hb].
    apply round_aux_not_negative.
Qed.

(** ** The integer part below an integer *)

Lemma of_Z_byte_finite (a : Z) :
  0 <= a <= 255 -> finite_nonneg (F32.of_Z a) = true.
Proof.
  intros Ha.
  assert (H : all_below 256 (fun z => finite_nonneg (F32.of_Z z)) = true)
    by (vm_compute; reflexivity).
  apply (all_below_spec _ _ H). lia.
Qed.

Lemma trunc_le_of_Z (r : F32.f32) (a : Z) :
  F32.valid r = true -> finite_nonneg r = true -> 0 <= a <= 255 ->
  F32.leb r (F32.of_Z a) = true -> F32.trunc r <= a.
Proof.
  intros Hv Hf Ha Hle.
  destruct r as [sr|[|]| |[|] m e]; try discriminate; [cbn; lia|].
  destruct a as [|p|p]; [discriminate| |lia].
  pose proof (digits2_bounds p) as [Plo Phi].
  set (d := Zpos (digits2_pos p)) in *.
  assert (Hd0 : 0 < d) by (subst d; lia).
  assert (Hd : d <= 8).
  { destruct (Z.le_gt_cases d 8) as [|Hgt]; [assumption|].
    assert (2 ^ 8 <= 2 ^ (d - 1)) by (apply Z.pow_le_mono_r; lia).
    change (2 ^ 8) with 256 in *. lia. }
  rewrite of_Z_small in Hle by (fold d; lia). fold d in Hle.
  apply valid_finite in Hv. cbv zeta in Hv. destruct Hv as (Hr & Hdm & _).
  pose proof (digits2_bounds m) as [_ Mhi].
  assert (Hm : Zpos m < 2 ^ 24).
  { assert (2 ^ Zpos (digits2_pos m) <= 2 ^ 24) by (apply Z.pow_le_mono_r; lia).
    lia. }
  assert (Pd : 0 < 2 ^ (24 - d)) by (apply Z.pow_pos_nonneg; lia).
  unfold F32.leb, SFleb, SFcompare in Hle.
  cbn [F32.trunc cond_Zopp].
  destruct (Z.compare_spec e (d - 24)) as [E|E|E]; try discriminate.
  - change (Pos.compare_cont Eq m (Z.to_pos (Zpos p * 2 ^ (24 - d))))
      with (Pos.compare m (Z.to_pos (Zpos p * 2 ^ (24 - d)))) in Hle.
    rewrite Pos2Z.inj_compare, Z2Pos.id in Hle by nia.
    assert (Hmp : Zpos m <= Zpos p * 2 ^ (24 - d))
      by (destruct (Z.compare_spec (Zpos m) (Zpos p * 2 ^ (24 - d)));
          try discriminate; lia).
    rewrite Z.shiftl_div_pow2 by lia. replace (- e) with (24 - d) by lia.
    apply Z.div_le_upper_bound; lia.
  - rewrite Z.shiftl_div_pow2 by lia.
    assert (Pe : 0 < 2 ^ (- e)) by (apply Z.pow_pos_nonneg; lia).
    apply Z.div_le_upper_bound; [lia|].
    assert (H24 : 2 ^ 24 <= 2 ^ (d - 1) * 2 ^ (25 - d)).
    { rewrite <- Z.pow_add_r by lia. replace (d - 1 + (25 - d)) with 24 by lia.
      lia. }
    assert (2 ^ (25 - d) <= 2 ^ (- e)) by (apply Z.pow_le_mono_r; lia).
    assert (0 < 2 ^ (d - 1)) by (apply Z.pow_pos_nonneg; lia).
    nia.
Qed.

(** ** The alpha of a step *)

(** With [fade] and [speedFactor] between 0 and 1 (or a NaN) the alpha
    byte of a step does not exceed the maximum alpha. *)
Lemma step_alpha_below (cfg : Config) (fade speedFactor : F32.f32) :
  0 <= gTrailMaxAlpha cfg <= 255 ->
  unit_or_nan fade -> unit_or_nan speedFactor ->
  step_alpha cfg fade speedFactor <= gTrailMaxAlpha cfg.
Proof.
  intros Ha Hf Hs. unfold step_alpha, alpha_value.
  set (A := F32.of_Z (gTrailMaxAlpha cfg)).
  assert (HA : F32.valid A = true) by apply of_Z_valid.
  assert (HAf : finite_nonneg A = true) by now apply of_Z_byte_finite.
  assert (Hnan : forall v, v = S754_nan ->
            F32.to_byte (F32.clamp v F32.zero f_255) <= gTrailMaxAlpha cfg).
  { intros v ->. cbn. lia. }
  destruct (mul_unit_below A fade HA HAf Hf) as [E1|(V1 & F1 & L1)].
  - apply Hnan. rewrite E1. reflexivity.
  - destruct (mul_unit_below (F32.mul A fade) speedFactor V1 F1 Hs)
      as [E2|(V2 & F2 & L2)]; [now apply Hnan|].
    set (r := F32.mul (F32.mul A fade) speedFactor) in *.
    assert (LA : F32.leb r A = true) by (apply (leb_trans _ _ _ L2 L1)).
    assert (L255 : F32.leb r f_255 = true).
    { apply (leb_trans _ _ _ LA). apply (of_Z_mono (gTrailMaxAlpha cfg) 255). lia. }
    assert (N0 : F32.ltb r F32.zero = false)
      by (apply leb_not_ltb; now apply finite_nonneg_leb).
    assert (N255 : F32.ltb f_255 r = false) by now apply leb_not_ltb.
    unfold F32.clamp. rewrite N0, N255.
    destruct (byte_ge_3 r V2 N0 N255) as (_ & -> & _).
    now apply trunc_le_of_Z.
Qed.

(** ** Signs of sums, products and quotients *)

Lemma nonneg_not_negative (f : F32.f32) :
  nonneg_float f = true -> not_negative f = true.
Proof. destruct f as [[|]|[|]| |[|] m e]; try discriminate; reflexivity. Qed.

Lemma mul_not_negative (x y : F32.f32) :
  not_negative x = true -> not_negative y = true ->
  not_negative (F32.mul x y) = true.
Proof.
  destruct x as [sx|[|]| |[|] mx ex], y as [sy|[|]| |[|] my ey];
    try discriminate; try reflexivity.
  intros _ _. unfold F32.mul, SFmul. cbn [xorb]. apply round_aux_not_negative.
Qed.

Lemma add_not_negative (x y : F32.f32) :
  not_negative x = true -> not_negative y = true ->
  not_negative (F32.add x y) = true.
Proof.
  destruct x as [sx|[|]| |[|] mx ex], y as [sy|[|]| |[|] my ey];
    try discriminate; try reflexivity;
    try (destruct sx; reflexivity); try (destruct sx, sy; reflexivity).
  intros _ _. unfold F32.add, SFadd, F32.prec, F32.emax.
  cbn [cond_Zopp Z.add binary_normalize]. unfold binary_round.
  destruct (shl_align _ _ _) as [mz ez]. apply round_aux_not_negative.
Qed.

Lemma div_not_negative (x y : F32.f32) :
  not_negative x = true -> F32.ltb F32.zero y = true ->
  not_negative (F32.div x y) = true.
Proof.
  destruct x as [sx|[|]| |[|] mx ex], y as [sy|[|]| |[|] my ey];
    try discriminate; try reflexivity.
  intros _ _. unfold F32.div, SFdiv, F32.prec, F32.emax.
  destruct (SFdiv_core_binary _ _ _ _ _ _) as [[mz ez] lz]. cbn [xorb].
  apply round_aux_not_negative.
Qed.

Lemma div_one_not_negative (y : F32.f32) :
  nonneg_float y = true -> not_negative (F32.div F32.one y) = true.
Proof.
  destruct y as [[|]|[|]| |[|] my ey]; try discriminate; try reflexivity.
  intros _. unfold F32.div, SFdiv, F32.one, F32.prec, F32.emax.
  destruct (SFdiv_core_binary _ _ _ _ _ _) as [[mz ez] lz]. cbn [xorb].
  apply round_aux_not_negative.
Qed.

(** ** Order *)

Lemma ltb_leb (a b : F32.f32) : F32.ltb a b = true -> F32.leb a b = true.
Proof.
  unfold F32.ltb, F32.leb, SFltb, SFleb.
  destruct (SFcompare a b) as [[| |]|]; try discriminate; reflexivity.
Qed.

(** The result of a rounding with the negative sign is not above zero. *)
Lemma round_aux_negative (m e : Z) (l : location) :
  F32.ltb F32.zero (binary_round_aux 24 128 true m e l) = false.
Proof.
  unfold binary_round_aux.
  destruct (shr_fexp 24 128 m e l) as [mrs1 e1].
  destruct (shr_fexp 24 128 _ e1 loc_Exact) as [mrs2 e2].
  destruct (shr_m mrs2); [reflexivity| |reflexivity].
  destruct (e2 <=? 128 - 24); reflexivity.
Qed.

(** ** [fade] and [speedFactor] *)

(** [1.0f - q] for a [q] that is not negative: when the difference is
    above zero it is at most 1. *)
Lemma sub_one_below (q : F32.f32) :
  F32.valid q = true -> not_negative q = true ->
  F32.ltb F32.zero (F32.sub F32.one q) = true ->
  F32.leb (F32.sub F32.one q) F32.one = true.
Proof.
  intros Hv Hq.
  destruct q as [sq|[|]| |[|] my ey]; try discriminate; try reflexivity.
  unfold F32.sub, SFsub, F32.one, F32.prec, F32.emax. cbn [cond_Zopp].
  set (ez := Z.min (-23) ey).
  assert (Hez : ez <= -23) by (unfold ez; lia).
  assert (HM1 : Zpos (fst (shl_align 8388608 (-23) ez))
                = 8388608 * 2 ^ (-23 - ez)).
  { unfold shl_align. destruct (ez - -23) as [|k|k] eqn:Ek; try lia.
    - cbn [fst]. replace (-23 - ez) with 0 by lia. reflexivity.
    - cbn [fst]. rewrite pos_iter_xO. f_equal. f_equal. lia. }
  set (M1 := fst (shl_align 8388608 (-23) ez)) in *.
  set (M2 := fst (shl_align my ey ez)).
  destruct (Zpos M1 - Zpos M2) as [|p|p] eqn:ED; cbn [binary_normalize].
  - discriminate.
  - intros _. apply binary_round_below; [reflexivity|lia|]. lia.
  - unfold binary_round. destruct (shl_align p ez _) as [mz ez'].
    rewrite round_aux_negative. discriminate.
Qed.

(** [fade] lies between 0 and 1 when the age and the step parameter are
    not negative and the fade duration is positive. *)
Lemma step_fade_unit (cfg : Config) (age0 tt : F32.f32) :
  F32.valid age0 = true -> F32.valid tt = true ->
  F32.valid (gTrailFadeMs cfg) = true ->
  not_negative age0 = true -> not_negative tt = true ->
  F32.ltb F32.zero (gTrailFadeMs cfg) = true ->
  unit_or_nan (step_fade cfg age0 tt).
Proof.
  intros Va Vt Vf Na Nt Hf. unfold step_fade.
  set (q := F32.div (F32.add age0 (F32.mul (F32.mul age0 tt) f_0_1))
                    (gTrailFadeMs cfg)).
  assert (Vq : F32.valid q = true).
  { apply div_valid; [|exact Vf]. apply add_valid; [exact Va|].
    apply mul_valid; [|reflexivity]. now apply mul_valid. }
  assert (Nq : not_negative q = true).
  { apply div_not_negative; [|exact Hf]. apply add_not_negative; [exact Na|].
    apply mul_not_negative; [|reflexivity]. now apply mul_not_negative. }
  right. unfold F32.max.
  destruct (F32.ltb F32.zero (F32.sub F32.one q)) eqn:E.
  - split; [apply sub_valid; [reflexivity|exact Vq]|].
    split; [now apply ltb_leb|now apply sub_one_below].
  - repeat split; reflexivity.
Qed.

(** [speedFactor] lies between 0 and 1 unless it is a NaN. *)
Lemma speed_factor_unit (cfg : Config) (dist : F32.f32) :
  F32.valid dist = true -> F32.valid (gSensitivity cfg) = true ->
  unit_or_nan (speed_factor cfg dist).
Proof.
  intros Vd Vs. unfold speed_factor, F32.clamp.
  set (v := F32.mul dist (gSensitivity cfg)).
  assert (Vv : F32.valid v = true) by now apply mul_valid.
  destruct (F32.ltb v F32.zero) eqn:E0; [right; repeat split; reflexivity|].
  destruct (F32.ltb F32.one v) eqn:E1; [right; repeat split; reflexivity|].
  destruct (ltb_false_leb _ _ E0) as [H|[H|H0]]; [now left|discriminate|].
  destruct (ltb_false_leb _ _ E1) as [H|[H|H1]]; [discriminate|now left|].
  right. now repeat split.
Qed.

(** ** The blends of a frame *)

Lemma step_blend_alpha_range (cfg : Config) (vs : RECT) (cv : CursorVisual)
    (sg : Segment) (j : Z) (b : Blend) :
  config_valid cfg -> F32.ltb F32.zero (gTrailFadeMs cfg) = true ->
  segment_valid sg -> not_negative (seg_age0 sg) = true ->
  not_negative (seg_stepFrac sg) = true -> 0 <= j ->
  step_blend cfg vs cv sg j = Some b ->
  3 <= srcAlpha b <= gTrailMaxAlpha cfg.
Proof.
  intros (Vs & Vf & Ha) Hf (Va & Vd & Vq) Na Nq Hj Hb.
  pose proof (step_blend_spec cfg vs cv sg j) as Hs. cbv zeta in Hs.
  rewrite Hb in Hs. destruct Hs as [H3 ->]. split; [exact H3|].
  apply step_alpha_below; [exact Ha| |].
  - apply step_fade_unit; try assumption.
    + unfold step_t. apply mul_valid; [apply of_Z_valid|exact Vq].
    + unfold step_t. apply mul_not_negative; [|exact Nq].
      apply nonneg_not_negative, of_Z_nonneg. exact Hj.
  - now apply speed_factor_unit.
Qed.

Lemma make_segment_signs (cfg : Config) (now : time_point) (s0 s1 : Sample)
    (sg : Segment) :
  make_segment cfg now s0 s1 = Some sg -> t s0 <= now ->
  not_negative (seg_age0 sg) = true
  /\ (0 <= seg_steps sg -> not_negative (seg_stepFrac sg) = true).
Proof.
  unfold make_segment.
  destruct (F32.ltb (gTrailFadeMs cfg) (F32.of_Z (age_ms now (t s0))));
    [discriminate|].
  destruct (F32.ltb _ F32.one); [discriminate|].
  intros [= <-] Ht. cbn [seg_age0 seg_steps seg_stepFrac]. split.
  - apply nonneg_not_negative, of_Z_nonneg. unfold age_ms.
    apply Z.quot_pos; lia.
  - intros Hs. now apply div_one_not_negative, of_Z_nonneg.
Qed.

(** In a frame drawn at a time not before the samples of the buffer, with
    a valid configuration and a positive fade duration, every
    [AlphaBlend] has a constant alpha of at least 3 and at most the
    maximum alpha of the configuration; so a maximum alpha below 3 draws
    no trail at all. *)
Theorem blends_within_max_alpha (cfg : Config) (vs : RECT) (cv : CursorVisual)
    (now : time_point) (trail : Trail) :
  config_valid cfg -> F32.ltb F32.zero (gTrailFadeMs cfg) = true ->
  Forall (fun s => t s <= now) trail ->
  Forall (fun b => 3 <= srcAlpha b <= gTrailMaxAlpha cfg)
         (trail_blends cfg vs cv now trail)
  /\ (gTrailMaxAlpha cfg < 3 -> trail_blends cfg vs cv now trail = []).
Proof.
  intros Hc Hf Ht.
  assert (Hall : Forall (fun b => 3 <= srcAlpha b <= gTrailMaxAlpha cfg)
                        (trail_blends cfg vs cv now trail)).
  { apply Forall_forall. intros b Hb. unfold trail_blends in Hb.
    apply in_flat_map in Hb. destruct Hb as (i & _ & Hb).
    unfold pair_blends in Hb.
    destruct (nth_error trail (Z.to_nat i)) as [s0|] eqn:E0; [|contradiction].
    destruct (nth_error trail (Z.to_nat (i + 1))) as [s1|]; [|contradiction].
    assert (Hs0 : t s0 <= now).
    { rewrite Forall_forall in Ht. apply Ht. now apply nth_error_In in E0. }
    unfold segment_blends in Hb.
    destruct (make_segment cfg now s0 s1) as [sg|] eqn:Es; [|contradiction].
    apply in_flat_map in Hb. destruct Hb as (j & Hj & Hb).
    apply countdown_range in Hj.
    destruct (make_segment_signs cfg now s0 s1 sg Es Hs0) as [Na Nq].
    destruct (step_blend cfg vs cv sg j) as [b'|] eqn:Eb; [|contradiction].
    destruct Hb as [<-|[]].
    apply (step_blend_alpha_range cfg vs cv sg j b'); try assumption; try lia.
    - now apply (make_segment_valid cfg now s0 s1).
    - apply Nq. lia. }
  split; [exact Hall|]. intros Hlow.
  destruct (trail_blends cfg vs cv now trail) as [|b l]; [reflexivity|].
  apply Forall_inv in Hall. lia.
Qed.

(** * The theorems at concrete inputs *)

(** C2 at the default configuration: of two samples 0 ms and 60 ms old
    at [now] = 120 ms, the first is evicted and the second, within the
    limit, remains. *)
Lemma C2_no_expired_sample_remains_witness :
  let s0 := mkSample (mkPOINT 0 0) 0 in
  let s1 := mkSample (mkPOINT 9 0) 60000000 in
  let now := 120000000 in
  time_ordered [s0; s1]
  /\ (forall s, In s [s0; s1] -> t s <= now)
  /\ UpdateTrail default_config [s0; s1] (mkPOINT 9 0) now = [s1]
  /\ expired default_config now s1 = false
  /\ age_ms now (t s1) <= 50 + 50.
Proof.
  cbv zeta.
  assert (H1 : time_ordered [mkSample (mkPOINT 0 0) 0;
                             mkSample (mkPOINT 9 0) 60000000]).
  { cbn. split; [|split; [|exact I]]; intros s' H.
    - destruct H as [<-|[]]. cbn. lia.
    - destruct H. }
  assert (H2 : forall s, In s [mkSample (mkPOINT 0 0) 0;
                               mkSample (mkPOINT 9 0) 60000000] ->
                         t s <= 120000000).
  { intros s [<-|[<-|[]]]; cbn; lia. }
  assert (H3 : UpdateTrail default_config
                 [mkSample (mkPOINT 0 0) 0; mkSample (mkPOINT 9 0) 60000000]
                 (mkPOINT 9 0) 120000000
               = [mkSample (mkPOINT 9 0) 60000000]) by (vm_compute; reflexivity).
  assert (H4 : In (mkSample (mkPOINT 9 0) 60000000)
                  (UpdateTrail default_config
                     [mkSample (mkPOINT 0 0) 0; mkSample (mkPOINT 9 0) 60000000]
                     (mkPOINT 9 0) 120000000)) by (rewrite H3; now left).
  destruct (C2_no_expired_sample_remains default_config _ _ _ H1 H2 _ H4)
    as [He Hf].
  destruct (Hf 50 eq_refl ltac:(lia)) as [Ha _].
  split; [exact H1|]. split; [exact H2|]. split; [exact H3|].
  split; [exact He|exact Ha].
Defined.

(** C3 at a full buffer: appending to 500 fresh samples drops the front
    one and leaves 500. *)
Lemma C3_capacity_and_front_eviction_witness :
  let trail := map (fun k => mkSample (mkPOINT (Z.of_nat k) 0) 1000000)
                   (seq 0 500) in
  Z.of_nat (length trail) <= kMaxTrailSize
  /\ Z.of_nat (length (UpdateTrail default_config trail (mkPOINT 500 0) 1000000))
     <= kMaxTrailSize
  /\ UpdateTrail default_config trail (mkPOINT 500 0) 1000000
     = skipn 1 (trail ++ [mkSample (mkPOINT 500 0) 1000000]).
Proof.
  cbv zeta.
  assert (H : Z.of_nat (length (map (fun k => mkSample (mkPOINT (Z.of_nat k) 0) 1000000)
                                    (seq 0 500))) <= kMaxTrailSize)
    by (vm_compute; discriminate).
  split; [exact H|]. split.
  - exact (proj1 (C3_capacity_and_front_eviction default_config _
                    (mkPOINT 500 0) 1000000 H)).
  - vm_compute. reflexivity.
Defined.

(** C4 at a tick with the pointer hidden and an empty buffer left: the
    cursor visual is kept and nothing is drawn. *)
Lemma C4_hidden_pointer_tick_witness :
  let vs := mkRECT 0 0 1920 1080 in
  let st := mkLoopState [mkSample (mkPOINT 3 4) 0]
              (mkCursorVisual 65539 32 32 0 0) cache_init vs in
  let os := mkTickOS (mkPOINT 3 4) 200000000 vs true
              (Some (mkCURSORINFO 0 65539)) 200100000
              (mkIconOS (fun _ => None) (fun _ => mkBITMAP 0 0))
              (mkDrawOS true 200200000 11 12 true 13 []) in
  pointer_hidden (cursor_info os) = true
  /\ rect_eqb (curVS os) (vs_of st) || bb_ok os = true
  /\ exists (st' : LoopState) (fr : option Frame),
       tick default_config st os = Continue st' fr
       /\ cv_of st' = cv_of st
       /\ (fr = None <-> trail_of st' = []).
Proof.
  cbv zeta. split; [reflexivity|]. split; [reflexivity|].
  destruct (C4_hidden_pointer_tick default_config
              (mkLoopState [mkSample (mkPOINT 3 4) 0]
                 (mkCursorVisual 65539 32 32 0 0) cache_init (mkRECT 0 0 1920 1080))
              (mkTickOS (mkPOINT 3 4) 200000000 (mkRECT 0 0 1920 1080) true
                 (Some (mkCURSORINFO 0 65539)) 200100000
                 (mkIconOS (fun _ => None) (fun _ => mkBITMAP 0 0))
                 (mkDrawOS true 200200000 11 12 true 13 []))
              eq_refl eq_refl)
    as (st' & fr & Ht & _ & _ & Hcv & Hfr).
  exists st', fr. split; [exact Ht|]. split; [exact Hcv|exact Hfr].
Defined.


(** C8 at an orange tint: a glyph of 2 x 1 pixels in a bitmap that holds
    three; the first two are tinted, the third is left. *)
Lemma C8_tint_transform_witness :
  let cfg := mkConfig f_0_03 f_50 10 255 128 0 in
  let cv := mkCursorVisual 7 2 1 0 0 in
  let os := mkDrawOS true 0 11 12 true 13 [4294967295; 2164228128; 4294967295] in
  let r := DrawTrail cfg cache_init cv [] (mkRECT 0 0 1920 1080) os in
  outcome (snd r) = Rebuilt
  /\ sTintBits (fst r) = Some [4294934528; 2164211712; 4294967295]
  /\ exists px' : Z,
       nth_error [4294934528; 2164211712; 4294967295] 1 = Some px'
       /\ byte_of px' 2 = 255 * 255 / 255 /\ byte_of px' 1 = 128 * 128 / 255
       /\ byte_of px' 0 = 32 * 0 / 255 /\ byte_of px' 3 = 128.
Proof.
  cbv zeta.
  set (cfg := mkConfig f_0_03 f_50 10 255 128 0).
  set (cv := mkCursorVisual 7 2 1 0 0).
  set (os := mkDrawOS true 0 11 12 true 13 [4294967295; 2164228128; 4294967295]).
  assert (Hall : Forall (fun px => 0 <= px < 2 ^ 32) (glyph_bits os))
    by (repeat constructor; cbn; lia).
  destruct (C8_tint_transform cfg cache_init cv [] (mkRECT 0 0 1920 1080) os
              ltac:(cbn; lia) ltac:(cbn; lia) ltac:(cbn; lia) Hall eq_refl)
    as [(tinted & Hb & _ & Hn & _) _].
  assert (Hv : sTintBits (fst (DrawTrail cfg cache_init cv []
                                 (mkRECT 0 0 1920 1080) os))
               = Some [4294934528; 2164211712; 4294967295])
    by (vm_compute; reflexivity).
  split; [reflexivity|]. split; [exact Hv|].
  rewrite Hv in Hb. injection Hb as <-.
  destruct (Hn 1%nat 2164228128 eq_refl) as (px' & E & _ & Ht & _).
  exists px'. split; [exact E|].
  destruct (Ht ltac:(vm_compute; reflexivity)) as (_ & B2 & B1 & B0 & B3).
  split; [exact B2|]. split; [exact B1|]. split; [exact B0|exact B3].
Defined.

(** C10 at a change of glyph from handle 65539 to 65541 that the system
    cannot describe. *)
Lemma C10_failed_icon_query_keeps_geometry_witness :
  let os := mkIconOS (fun _ => None) (fun _ => mkBITMAP 0 0) in
  let cv := mkCursorVisual 65539 48 40 3 5 in
  let ci := mkCURSORINFO 1 65541 in
  RefreshCursorVisual os cv ci = mkCursorVisual 65541 48 40 3 5
  /\ RefreshCursorVisual os (RefreshCursorVisual os cv ci) ci
     = RefreshCursorVisual os cv ci.
Proof.
  cbv zeta.
  destruct (C10_failed_icon_query_keeps_geometry
              (mkIconOS (fun _ => None) (fun _ => mkBITMAP 0 0))
              (mkCursorVisual 65539 48 40 3 5) (mkCURSORINFO 1 65541)
              ltac:(cbn; discriminate) eq_refl)
    as (_ & _ & _ & _ & _ & Hagain).
  split; [reflexivity|].
  apply Hagain. reflexivity.
Defined.

(** The invariant along four ticks, the last one late. *)
Lemma trail_invariant_of_run_witness :
  let ticks := [(mkPOINT 0 0, 0); (mkPOINT 5 0, 16000000);
                (mkPOINT 5 0, 32000000); (mkPOINT 9 9, 200000000)] in
  clock_monotone 0 ticks
  /\ time_ordered (run_updates default_config [] ticks)
  /\ Z.of_nat (length (run_updates default_config [] ticks)) <= kMaxTrailSize.
Proof.
  cbv zeta.
  assert (H : clock_monotone 0 [(mkPOINT 0 0, 0); (mkPOINT 5 0, 16000000);
                                (mkPOINT 5 0, 32000000); (mkPOINT 9 9, 200000000)])
    by (cbn; lia).
  destruct (trail_invariant_of_run default_config 0 _ H) as (Ho & _ & Hl).
  split; [exact H|]. split; [exact Ho|exact Hl].
Defined.

(** A sample 60 ms old: not rendered, still in the buffer. *)
Lemma faded_sample_is_retained_witness :
  let s0 := mkSample (mkPOINT 0 0) 0 in
  let s1 := mkSample (mkPOINT 40 0) 50000000 in
  let now := 60000000 in
  t s0 <= now
  /\ segment_blends default_config (mkRECT 0 0 1920 1080)
       (mkCursorVisual 65539 32 32 0 0) now s0 s1 = []
  /\ UpdateTrail default_config [s0; s1] (mkPOINT 40 0) now = [s0; s1].
Proof.
  cbv zeta.
  assert (H : t (mkSample (mkPOINT 0 0) 0) <= 60000000) by (cbn; lia).
  destruct (faded_sample_is_retained (mkRECT 0 0 1920 1080)
              (mkCursorVisual 65539 32 32 0 0) 60000000
              (mkSample (mkPOINT 0 0) 0) (mkSample (mkPOINT 40 0) 50000000) H)
    as [Hr _].
  split; [exact H|]. split; [apply Hr; vm_compute; reflexivity|].
  vm_compute. reflexivity.
Defined.

(** The parsing loop on a command line of four tokens: 17 rounds and 100
    rounds give the same configuration. *)
Lemma parse_loop_fuel_witness :
  parse_loop 17 "s" "0.5 fade 200" default_config
  = parse_loop 100 "s" "0.5 fade 200" default_config.
Proof.
  apply parse_loop_fuel; cbn; lia.
Defined.

(** The extents of a virtual screen of two 1920 x 1080 displays whose
    left one lies at negative coordinates. *)
Lemma GetVirtualScreenRect_extent_witness :
  let m := mkMetrics (-1920) 0 3840 1080 in
  metrics_in_range m
  /\ rect_width (GetVirtualScreenRect m) = 3840
  /\ rect_height (GetVirtualScreenRect m) = 1080.
Proof.
  cbv zeta.
  assert (H : metrics_in_range (mkMetrics (-1920) 0 3840 1080))
    by (unfold metrics_in_range, Int32.in_range, Int32.min_signed,
          Int32.max_signed; cbn; lia).
  destruct (GetVirtualScreenRect_extent _ H) as (Hw & Hh & _).
  split; [exact H|]. split; [exact Hw|exact Hh].
Defined.

(** The sample run, two frames and then [WM_QUIT]: the bitmap 602 of the
    glyph cache and the device context 703 of the temporary surface are
    deleted as often as they were created. *)
Lemma wWinMain_objects_released_witness :
  let iters := [sample_iteration 100 100 16000000;
                sample_iteration 140 100 32000000; sample_quit] in
  let run := wWinMain "" sample_start iters in
  fst run = Returned QuitRetrieved
  /\ total (bitmaps_made 602) (snd run) = total (bitmaps_deleted 602) (snd run)
  /\ total (dcs_made 703) (snd run) = total (dcs_deleted 703) (snd run).
Proof.
  cbv zeta.
  set (iters := [sample_iteration 100 100 16000000;
                 sample_iteration 140 100 32000000; sample_quit]).
  assert (Hdc : Forall (fun i => new_dc (draw_os (tick_os i)) <> 0) iters)
    by (repeat constructor; discriminate).
  assert (Hrun : fst (wWinMain "" sample_start iters) = Returned QuitRetrieved)
    by (vm_compute; reflexivity).
  destruct (wWinMain "" sample_start iters) as [o calls] eqn:E.
  cbn [fst snd] in *. subst o.
  destruct (wWinMain_objects_released "" sample_start iters _ _ Hdc E) as [Hq _].
  split; [reflexivity|].
  split; [apply (Hq ltac:(discriminate) 602)|apply (Hq ltac:(discriminate) 703)];
    discriminate.
Defined.

(** An iteration whose message loop handles the change of the display to
    2560 x 1440: it goes on with the new rectangle and the backbuffer of
    1920 x 1080. *)
Lemma display_change_skips_resize_witness :
  let os := sample_display_change 100 100 16000000 in
  exists ov1 fr calls,
    iteration default_config sample_overlay os = NextIteration ov1 fr calls
    /\ vs_of (loop_of ov1) = mkRECT 0 0 2560 1440
    /\ bb_of ov1 = bb_of sample_overlay
    /\ ~ covers (bb_of ov1) (vs_of (loop_of ov1)).
Proof.
  cbv zeta.
  destruct (display_change_skips_resize default_config sample_overlay
              (sample_display_change 100 100 16000000) []
              (mkMetrics 0 0 2560 1440) eq_refl eq_refl eq_refl)
    as (ov1 & fr & calls & HI & Hvs & Hbb & _ & Hc).
  exists ov1, fr, calls.
  split; [exact HI|]. split; [exact Hvs|]. split; [exact Hbb|].
  apply Hc. vm_compute. reflexivity.
Defined.

(** The sample run without a change of the display: after two frames the
    backbuffer covers the screen. *)
Lemma backbuffer_covers_screen_witness :
  let iters := [sample_iteration 100 100 16000000;
                sample_iteration 140 100 32000000] in
  match fst (wWinMain "" sample_start iters) with
  | Looping ov => covers (bb_of ov) (vs_of (loop_of ov))
  | Returned _ => False
  end.
Proof.
  cbv zeta.
  set (iters := [sample_iteration 100 100 16000000;
                 sample_iteration 140 100 32000000]).
  assert (Hd : Forall (fun i => display_changes (window_handle sample_start)
                                  (messages i) = []) iters)
    by (repeat constructor).
  destruct (wWinMain "" sample_start iters) as [o calls] eqn:E.
  assert (Ho : match o with Looping _ => True | Returned _ => False end).
  { replace o with (fst (wWinMain "" sample_start iters)) by now rewrite E.
    vm_compute. exact I. }
  destruct o as [path|ov]; [contradiction|]. cbn [fst].
  exact (backbuffer_covers_screen "" sample_start iters ov calls Hd E).
Defined.

(** The sample run with its clock: after two frames the buffer holds two
    samples, in order and at different positions. *)
Lemma main_loop_trail_invariant_witness :
  let iters := [sample_iteration 100 100 16000000;
                sample_iteration 140 100 32000000] in
  clocks_ordered 0 iters
  /\ match fst (wWinMain "" sample_start iters) with
     | Looping ov =>
         time_ordered (trail_of (loop_of ov))
         /\ adjacent_distinct (trail_of (loop_of ov))
         /\ length (trail_of (loop_of ov)) = 2%nat
     | Returned _ => False
     end.
Proof.
  cbv zeta.
  set (iters := [sample_iteration 100 100 16000000;
                 sample_iteration 140 100 32000000]).
  assert (Hc : clocks_ordered 0 iters) by (cbn; lia).
  split; [exact Hc|].
  destruct (wWinMain "" sample_start iters) as [o calls] eqn:E.
  assert (Ho : match o with
               | Looping ov => length (trail_of (loop_of ov)) = 2%nat
               | Returned _ => False
               end).
  { replace o with (fst (wWinMain "" sample_start iters)) by now rewrite E.
    vm_compute. reflexivity. }
  destruct o as [path|ov]; [contradiction|]. cbn [fst].
  destruct (main_loop_trail_invariant "" sample_start iters 0 ov calls Hc E)
    as (H1 & _ & H3 & _).
  split; [exact H1|]. split; [exact H3|exact Ho].
Defined.

(** A first frame whose [CreateCompatibleDC] fails: the cache keeps the
    bitmap 602 and [ReleaseTintCache] makes no call. *)
Lemma tint_bitmap_without_dc_witness :
  let cv := mkCursorVisual 65539 32 32 0 0 in
  let os := mkDrawOS true 16200000 0 602 true 603 [4278190080] in
  let c1 := fst (DrawTrail default_config cache_init cv [] (mkRECT 0 0 1920 1080) os) in
  sTintBMP c1 = 602 /\ sTintDC c1 = 0 /\ snd (ReleaseTintCache c1) = [].
Proof.
  cbv zeta.
  destruct (tint_bitmap_without_dc default_config cache_init
              (mkCursorVisual 65539 32 32 0 0) [] (mkRECT 0 0 1920 1080)
              (mkDrawOS true 16200000 0 602 true 603 [4278190080])
              eq_refl eq_refl eq_refl ltac:(discriminate))
    as (H1 & H2 & H3 & _).
  split; [exact H1|]. split; [exact H2|exact H3].
Defined.

(** Displays at 144 Hz and 60 Hz and one whose mode cannot be read: the
    frame interval is 7 ms. *)
Lemma frameInterval_range_witness :
  let displays := [Some 144; None; Some 60] in
  Forall display_ok displays
  /\ 4 <= frameInterval displays <= 17
  /\ frameInterval displays = 7.
Proof.
  cbv zeta.
  assert (H : Forall display_ok [Some 144; None; Some 60])
    by (repeat constructor; cbn; lia).
  destruct (frameInterval_range _ H) as (_ & Hr & _).
  split; [exact H|]. split; [exact Hr|]. vm_compute. reflexivity.
Defined.

(** The color [#FF8000]. *)
Lemma parse_color_reads_bytes_witness :
  color_text 255 128 0 = "#FF8000"%string
  /\ parse_color "#FF8000" default_config
     = mkConfig f_0_03 f_50 10 255 128 0.
Proof.
  split; [reflexivity|].
  exact (proj1 (parse_color_reads_bytes 255 128 0 default_config
                  ltac:(lia) ltac:(lia) ltac:(lia))).
Defined.

(** Three ticks, 16 ms apart, with the pointer at (100, 100): one sample
    and no blend. *)
Lemma resting_pointer_draws_nothing_witness :
  let ticks := [(mkPOINT 100 100, 16000000); (mkPOINT 100 100, 32000000);
                (mkPOINT 100 100, 48000000)] in
  pointer_rests (mkPOINT 100 100) ticks
  /\ length (run_updates default_config [] ticks) = 1%nat
  /\ trail_blends default_config (mkRECT 0 0 1920 1080)
       (mkCursorVisual 65539 32 32 0 0) 48200000
       (run_updates default_config [] ticks) = [].
Proof.
  cbv zeta.
  set (ticks := [(mkPOINT 100 100, 16000000); (mkPOINT 100 100, 32000000);
                 (mkPOINT 100 100, 48000000)]).
  assert (H : pointer_rests (mkPOINT 100 100) ticks)
    by (repeat constructor).
  destruct (resting_pointer_draws_nothing default_config _ _ H) as [_ Hb].
  split; [exact H|]. split; [vm_compute; reflexivity|apply Hb].
Defined.

(** An orange tint over two white pixels of which the loop visits the
    first: it becomes orange, the second stays white. *)
Lemma tint_never_brightens_witness :
  let cfg := mkConfig f_0_03 f_50 10 255 128 0 in
  let bits := [4294967295; 4294967295] in
  Forall (fun px => 0 <= px < 2 ^ 32) bits
  /\ exists px',
       nth_error (tint_pixels cfg 1 bits) 0 = Some px'
       /\ px' = tint_pixel cfg 4294967295
       /\ byte_of px' 3 = 255
       /\ tint_pixels cfg 1 bits = [4294934528; 4294967295].
Proof.
  cbv zeta.
  assert (H : Forall (fun px => 0 <= px < 2 ^ 32) [4294967295; 4294967295])
    by (repeat constructor; lia).
  split; [exact H|].
  destruct (tint_never_brightens (mkConfig f_0_03 f_50 10 255 128 0) 1 _ H
              ltac:(cbn; lia) ltac:(cbn; lia) ltac:(cbn; lia))
    as (_ & Hn & _).
  destruct (Hn 0%nat 4294967295 eq_refl) as (px' & E & _ & Ht & Ha & _).
  exists px'. split; [exact E|]. split; [apply Ht; lia|].
  split; [rewrite Ha; reflexivity|vm_compute; reflexivity].
Defined.

(** Two ticks of the sample run with the same cursor handle: the first
    builds the tinted glyph, the second reuses it. *)
Lemma steady_cursor_reuses_glyph_witness :
  let screen := mkRECT 0 0 1920 1080 in
  let st := mkLoopState [] cv_init cache_init screen in
  exists st1 fr1 st2 fr2,
    tick default_config st (sample_tick 100 100 16000000 screen)
    = Continue st1 (Some fr1)
    /\ outcome fr1 = Rebuilt
    /\ tick default_config st1 (sample_tick 140 100 32000000 screen)
       = Continue st2 (Some fr2)
    /\ outcome fr2 = Reused
    /\ cache_of st2 = cache_of st1.
Proof.
  cbv zeta.
  set (screen := mkRECT 0 0 1920 1080).
  set (st := mkLoopState [] cv_init cache_init screen).
  assert (Hr : match tick default_config st (sample_tick 100 100 16000000 screen) with
               | Continue st1 (Some fr1) =>
                   outcome fr1 = Rebuilt /\ sTintDC (cache_of st1) <> 0
                   /\ 65539 = hCur (cv_of st1)
               | _ => False
               end)
    by (vm_compute; repeat split; discriminate).
  destruct (tick default_config st (sample_tick 100 100 16000000 screen))
    as [|st1 [fr1|]] eqn:E; try contradiction.
  destruct Hr as (Ho & Hdc & Hcur).
  destruct (steady_cursor_reuses_glyph default_config st st1
              (sample_tick 100 100 16000000 screen)
              (sample_tick 140 100 32000000 screen) fr1
              (mkCURSORINFO 1 65539) E (or_introl Ho) Hdc eq_refl eq_refl Hcur
              eq_refl (orb_true_r _))
    as (st2 & fr2 & E2 & Ho2 & Hc2 & _).
  exists st1, fr1, st2, fr2.
  split; [reflexivity|]. split; [exact Ho|]. split; [exact E2|].
  split; [exact Ho2|exact Hc2].
Defined.

(** The default configuration and two samples 40 pixels and 16 ms apart,
    drawn 0.2 ms after the second: 41 blends, none above alpha 10. *)
Lemma blends_within_max_alpha_witness :
  let trail := [mkSample (mkPOINT 100 100) 16000000;
                mkSample (mkPOINT 140 100) 32000000] in
  let blends := trail_blends default_config (mkRECT 0 0 1920 1080)
                  (mkCursorVisual 65539 32 32 0 0) 32200000 trail in
  config_valid default_config
  /\ Forall (fun s => t s <= 32200000) trail
  /\ length blends = 41%nat
  /\ Forall (fun b => 3 <= srcAlpha b <= 10) blends.
Proof.
  cbv zeta.
  assert (Hc : config_valid default_config)
    by (repeat split; cbn; lia).
  assert (Ht : Forall (fun s => t s <= 32200000)
                 [mkSample (mkPOINT 100 100) 16000000;
                  mkSample (mkPOINT 140 100) 32000000])
    by (repeat constructor; cbn; lia).
  split; [exact Hc|]. split; [exact Ht|].
  split; [vm_compute; reflexivity|].
  exact (proj1 (blends_within_max_alpha default_config (mkRECT 0 0 1920 1080)
                  (mkCursorVisual 65539 32 32 0 0) 32200000 _ Hc eq_refl Ht)).
Defined.
